(* ===== verification/_CoqProject ===== *)
-Q . S2P
Prelude.v
Types.v
Clock.v
Util.v
Port.v
Pmem.v
Nvlog.v
Crash.v
State.v
Store.v
Objects.v
Isolation.v
Request.v
Oplog.v
Ckptlog.v
Tvlog.v
WriteSet.v
Tombstone.v
LogSets.v
CkptReclaim.v
Append.v
Commit.v
CommitTx.v
Atomic.v
Reclaim.v
ReclaimLog.v
CkptWalk.v
Threads.v
Timestone.v
RunCnt.v
Snapshot.v
ReadSafety.v
CommitPoint.v
CkptHistory.v
CommitHistory.v
LockTx.v
Qp.v
GracePeriod.v
Recovery.v
RecoveryLogs.v
OplogRecovery.v
CkptRecovery.v
Scenarios.v
Cpp.v
