(* ===== verification/Prelude.v ===== *)
(** * A verification of TimeStone's library

    TimeStone is a durable transactional memory: transactions read and write
    objects on non-volatile memory (NVM) through several versions of each
    object.  This development models the C library under [src/lib], and the C++
    interface to it, and proves what their parts promise each other.

    ** The program, and which file holds which part of it

    An object has an original on NVM, a volatile header on DRAM
    ([ts_act_vhdr_t]: newest copy, lock, current master, tombstone clock), a
    chain of copies in the transient version logs of the threads that wrote it,
    and possibly a checkpointed version in a checkpoint log on NVM, which is
    then its current master.

    - [Types], [State]: the data of [timestone_i.h] and [config.h]; the memory
      that all threads share ([shared]) and the state of a call ([st]: the
      caller's thread structure and the shared memory).  [State.Env] holds what
      is not the library's: what other threads do while the caller waits, the
      clock readings, the allocator's answers, the build options.
    - [Clock]: timestamps that are ordered only up to the ORDO boundary
      ([include/ordo_clock.h], [clock.h]).  [Util], [Port]: [util.h],
      [port-user.h]: pointer sets, circular lists, the bitmap of tvlog slots.
      [Pmem]: cache-line write-back and fences ([arch.h], [nvm.h]), with the
      history that a crash depends on.
    - [Nvlog], [Store]: the ring buffer on NVM and the list of its stores
      ([nvlog.c], [nvm.c]).  [Crash]: what a crash leaves of a log.  [Oplog], [Ckptlog], [CkptReclaim]: the two logs
      built on it ([oplog.c], [ckptlog.c]): one entry per committed transaction,
      one per checkpointed object.
    - [Tvlog]: the transient version log ([tvlog.c], [tvlog.h]), all of it.  Its
      facts are split by operation: [WriteSet] (walks over a write set),
      [Append], [Commit] (the two phases of a commit, and abort), [CommitTx] (a
      commit or abort as a whole), [Atomic] (its visibility), [Tombstone], [LogSets],
      [ReclaimLog] and [CkptWalk] (reclamation, in best-effort and in checkpointing
      mode), [Reclaim] (which version a checkpoint takes).
    - [Objects], [Isolation], [Timestone]: object access, the read sets, and the
      interface that a program calls ([timestone.c]: [ts_begin], [ts_deref],
      [_ts_try_lock], [ts_end], [ts_abort], [ts_alloc], [ts_free], ...).
      [LockTx]: locking for a write, with everything it calls.  [Snapshot]: an
      object as its history of versions, which reads implement.  [ReadSafety]:
      which copies a reader looks at.  [CommitPoint]: when a commit takes effect.
      [CkptHistory]: what checkpointing leaves to readers.  [CommitHistory]: what
      a whole commit adds to the histories of its objects.
    - [Request], [Threads], [Qp]: the thread that detects grace periods, asks
      for reclamation and reaps finished threads ([qp.c]).  [Recovery]: rebuilding
      after a crash, [ts_init] and [ts_finish] ([recovery.c], [timestone.c]).
      [RecoveryLogs] (the logs found after a crash as lists of entries),
      [OplogRecovery] and [CkptRecovery] hold the facts about recovery.
    - [RunCnt]: what the calls of [timestone.c] do to a thread's run counter.
      [GracePeriod]: the calls of a thread as its history, and what [qp_detect]
      waits for.
    - [Cpp]: the C++ interface ([include/timestone++.hpp]): smart pointers and
      their arithmetic, the runner that retries transactions, threads.
    - [Scenarios]: closed runs of the whole library.

    A transaction reads its clock at [ts_begin]; [ts_deref] walks an object's
    chain to the newest copy older than that clock, else to the current master.
    A write locks the object ([try_lock_obj]) and appends a copy to the write set
    ([tvlog_append_begin], [tvlog_append_end]).  [tvlog_commit] puts the copies at
    the heads of their chains, takes a clock, logs the operation
    ([oplog_enq_persist]; a fence follows), publishes the clock in the write set and then in
    every copy, releasing the locks.  The qp thread waits for grace periods and keeps the
    clocks [qp0], [qp1], [qp2] two periods back; below them
    [tvlog_reclaim] frees copies, in the checkpoint mode after writing each
    object's newest old version to the checkpoint log; and [ckptlog_reclaim] frees
    checkpointed versions after writing the current ones back to the originals.

    ** How the code is modelled

    A function is a definition of the same name in a monad of state and fault
    ([M] below): [UB] for what C leaves undefined (a freed address, a wrong
    header), [SPIN] for a wait that did not end.  Integers are [Z] with the
    wrap-around written out ([u32], [u64]).  Pointers are addresses; structures are
    found in finite maps, so that freeing is deletion and aliasing is equality
    of addresses.  What the code keeps in front of an object's bytes is reached
    by the object's own address.

    NVM is the values that the processor has ([cells], [words]), the lines not
    yet written back ([dirty], [pending]) and the history of such states
    ([past]), to which every store, write-back and fence adds one.  After a crash
    a line holds what it held when it was last durable, or any later value
    ([may_find], [crash_image]); a property of every instruction at which a crash
    may strike is a property of every prefix of that history ([always]), so that
    the order of stores and write-backs inside a function is part of what its
    theorems say.

    Other threads run at the points where the code waits or swaps a word
    ([interfere], [qp_interfere]).  To the qp thread a call of another thread is
    one step, since no such point lies between a call's change of the run
    counter and its other changes that matter to it.  Theorems take what those threads respect as a
    [Rely] instance, and every such theorem has a witness with an instance;
    [RelyWhen] adds what the caller guarantees them in return.

    Loops whose end the code knows run on a measure: a log of [n] bytes has at
    most [n / 64] entries ([nvlog_fuel], [ckptlog_fuel], [tvlog_fuel], and
    [log_holds_length], [fuel_enough] for why that is enough), a set has
    [num_ptrs] slots, a list as many nodes as links.  Busy waits run [spin_bound]
    rounds; theorems about them say how many rounds they need.

    ** What the theorems show

    - Versions: [ts_deref_refines_snapshot] (a read returns the bytes that the
      specification [snapshot_read] finds in the object's history, whether they
      are in the version chain or in the checkpoint log; it rests on the lemma
      [ts_deref_snapshot]), [try_lock_obj_exclusive],
      [validate_read_set_exact], [borderline_unique], [get_wrt_clk_waits].
    - Transactions: [ts_try_lock_keeps_tx] (what a transaction may lock; locking
      leads to the states from which commit and abort start),
      [tvlog_commit_atomic] (others see all of a write set or nothing, whenever
      they run), [publication_is_commit_point] (the histories of all its objects
      are extended at one point), [tvlog_commit_extends_histories] (so a commit,
      from the first append's state to its end, adds its versions to the
      histories and loses no older one), [tvlog_commit_publishes] (locks are held until every copy is
      logged and has the one commit clock; when the clock is published, the lines of
      the operation's entry and the counter that covers it are durable),
      [tvlog_abort_rolls_back], [tvlog_append_keeps_layout],
      [ts_txn_run_parity] (what retrying leaves in the run counter by which the
      grace periods find running transactions).
    - Durability: [nvlog_refines_queue] (the ring buffer is a bounded queue),
      [nvlog_enq_persist_durable] (at every instruction a tail that NVM may hold
      covers only durable entries), [nvlog_crash_roundtrip] (a crash at any of
      them loads a prefix of the log that has all that was persisted before);
      [nvlog_create_ok].
    - Reclamation: [grace_period_exact] (what the qp thread's test means for a
      thread that calls the library), [qp_detect_grace_period] (a round of the
      detector returns, with every transaction that was running over or recent),
      [tvlog_reclaim_best_effort] (it drops what was superseded before the grace
      period), [ts_deref_spares_reclaimed] (which no later reader looks at),
      [tvlog_reclaim_ckpt] (what the next reclamation drops has been
      checkpointed or superseded), [checkpoint_keeps_histories] (and running
      transactions still read the same), [ckptlog_reclaim_exact], [ckptlog_enq_checkpoints],
      [ckptlog_cleanup_partition], [oplog_reclaim_prefix].
    - Recovery: [perform_recovery_complete] (it succeeds after any crash that
      leaves well-formed logs), [ckptlog_recovery_newest] (the newest covered
      checkpoint of an object wins), [oplog_recovery_complete] (exactly the
      operations younger than the last checkpoint are collected),
      [sort_replay_array_sorted] (and sorted by time).  Both need the replay
      arrays to be smaller than 2 GB, since the code keeps their sizes in an
      [int].  The code does not replay the operations: the call is commented out.
    - Foundations: [new_clock_after], [thread_list_del_refines], and of the C++
      pointers [cached_compare], [array_arithmetic_roundtrip].
    - Faults, as theorems about the code as it is:
      [nvlog_enq_full_clobbers_head], [nvlog_store_create_errors],
      [ptrset_push_pop], [comp_replay_entries_truncates],
      [failed_validation_inverts_periods] (the run counter can be wrong),
      [ckpt_truncation_strands_bogus], [ckptlog_reclaim_past_bogus] (the test for
      the boundary misses it at a bogus entry), [late_free_dangles],
      [plus_results_alias].  [Scenarios] and [Cpp] show others in closed runs:
      [snapshot_torn_in_gap] (a commit is atomic for those who run at its waits and
      swaps, but not for one who begins between its reading of the clock and
      the store of it), [abort_after_bogus_loses_write],
      [system_init_ignores_failure].

    ** What is not modelled, and why

    The persistent allocators ([nvm-pmdk.c], [nvm-makalu.c],
    [nvm-nv-jemalloc.c] and the vendored jemalloc) and the wrappers of
    [malloc], [pthread] and [mmap] are the environment: what they answer is a
    parameter.  The memory model is sequential consistency for DRAM: [smp_mb] and
    [smp_wmb_tso] do nothing, and other threads act at the points above only.
    NVM's write-back is modelled, since durability depends on it.  Debugging
    assertions, traces and the printing of statistics change no state.  Of the
    C++ interface the casts, the stream output and the dynamic arrays are left
    out, and the operators that no program can instantiate.  Unit tests,
    benchmarks and tools are clients of the library.  [qsort] is a parameter of
    [Recovery], with what the C standard says of it ([QsortSpec]); insertion sort
    is an instance.  Replayed operations are run by the user's [op_exec], a parameter of
    [Recovery]. *)
From stdpp Require Export prelude gmap list.
From Stdlib Require Export Lia Sorted.
#[global] Open Scope Z_scope.
#[global] Set Warnings "-clear-no-such-hyp".

(** * Machine integers: [w]-bit values as [Z], wrap-around written out *)

Definition u8 (x : Z) : Z := x mod 2 ^ 8.
Definition u16 (x : Z) : Z := x mod 2 ^ 16.
Definition u32 (x : Z) : Z := x mod 2 ^ 32.
Definition u64 (x : Z) : Z := x mod 2 ^ 64.
Definition lnot64 (x : Z) : Z := u64 (Z.lnot x).
Definition lnot32 (x : Z) : Z := u32 (Z.lnot x).
(** conversion of an unsigned 64-bit value to a signed [int] *)
Definition s32 (x : Z) : Z := (x + 2 ^ 31) mod 2 ^ 32 - 2 ^ 31.

Lemma u64_small x : 0 <= x < 2 ^ 64 -> u64 x = x.
Proof. intros. unfold u64. by apply Z.mod_small. Qed.
Lemma u32_small x : 0 <= x < 2 ^ 32 -> u32 x = x.
Proof. intros. unfold u32. by apply Z.mod_small. Qed.
Lemma u16_small x : 0 <= x < 2 ^ 16 -> u16 x = x.
Proof. intros. unfold u16. by apply Z.mod_small. Qed.
Lemma u8_small x : 0 <= x < 2 ^ 8 -> u8 x = x.
Proof. intros. unfold u8. by apply Z.mod_small. Qed.
Lemma u64_range x : 0 <= u64 x < 2 ^ 64.
Proof. unfold u64. by apply Z.mod_pos_bound. Qed.
Lemma s32_small x : - 2 ^ 31 <= x < 2 ^ 31 -> s32 x = x.
Proof. intros. unfold s32. rewrite Z.mod_small; lia. Qed.

Lemma land_ones_mod a k : 0 <= k -> Z.land a (2 ^ k - 1) = a mod 2 ^ k.
Proof.
  intros. rewrite <- Z.land_ones by lia. f_equal. rewrite Z.ones_equiv. lia.
Qed.

(** clearing the low [k] bits, as [x & ~(2^k - 1)] on [w]-bit values *)
Lemma land_high_mask w k x :
  0 <= k <= w -> 0 <= x < 2 ^ w ->
  Z.land x (2 ^ w - 2 ^ k) = 2 ^ k * (x / 2 ^ k).
Proof.
  intros Hk Hx. replace (2 ^ w - 2 ^ k) with (Z.shiftl (Z.ones (w - k)) k).
  2: { rewrite Z.shiftl_mul_pow2, Z.ones_equiv by lia.
       replace (2 ^ w) with (2 ^ (w - k) * 2 ^ k); [lia |].
       rewrite <- Z.pow_add_r by lia. f_equal. lia. }
  rewrite (Z.mul_comm (2 ^ k)), <- Z.shiftl_mul_pow2, <- Z.shiftr_div_pow2 by lia.
  apply Z.bits_inj'. intros n Hn. rewrite Z.land_spec.
  destruct (Z.lt_ge_cases n k) as [Hlt | Hge].
  - rewrite !(Z.shiftl_spec_low _ k) by lia. by rewrite andb_false_r.
  - rewrite !Z.shiftl_spec_high, Z.shiftr_spec by lia.
    replace (n - k + k) with n by lia.
    destruct (Z.lt_ge_cases (n - k) (w - k)).
    + rewrite Z.ones_spec_low by lia. by rewrite andb_true_r.
    + rewrite Z.ones_spec_high by lia. rewrite andb_false_r. symmetry.
      destruct (decide (x = 0)) as [-> | Hnz]; [by rewrite Z.bits_0 |].
      apply Z.bits_above_log2; [lia |].
      assert (Z.log2 x < w) by (apply Z.log2_lt_pow2; lia). lia.
Qed.

(** equal residues inside a window of one period are equal numbers *)
Lemma mod_window_inj L a b : 0 < L -> Z.abs (a - b) < L -> a mod L = b mod L -> a = b.
Proof.
  intros HL Hab He.
  pose proof (Z.div_mod a L ltac:(lia)) as Ha. pose proof (Z.div_mod b L ltac:(lia)) as Hb.
  rewrite He in Ha. generalize dependent (a / L). generalize dependent (b / L).
  intros q Hq p Hp. assert (p = q) by nia. subst. lia.
Qed.

(** the first index at which a boolean sequence holds *)
Lemma first_true (f : nat -> bool) n :
  f n = true -> exists m, (m <= n)%nat /\ f m = true /\ forall i, (i < m)%nat -> f i = false.
Proof.
  revert f. induction n as [|n IH]; intros f Hn.
  - exists 0%nat. split; [done | split; [done |]]. lia.
  - destruct (f 0%nat) eqn:E0.
    { exists 0%nat. split; [lia | split; [done |]]. lia. }
    destruct (IH (fun i => f (S i)) Hn) as (m & Hm & Hf & Hlt).
    exists (S m). split; [lia | split; [done |]].
    intros [|i] Hi; [done |]. apply Hlt. lia.
Qed.

(** list membership goals over [::] and [++] *)
Ltac elems :=
  repeat progress (rewrite ?not_elem_of_cons, ?not_elem_of_app, ?elem_of_cons,
    ?elem_of_app, ?elem_of_nil in *);
  first [tauto | intuition congruence].

(** * Results, faults and the state monad *)

(** [UB]: the C program would touch memory that holds no such object;
    [SPIN]: a busy-wait loop did not end within its bound. *)
Inductive fault : Set := UB | SPIN.

Inductive res (A : Type) : Type :=
| Ok (a : A)
| Fault (e : fault).
Arguments Ok {A} a.
Arguments Fault {A} e.

#[export] Instance fault_eq_dec : EqDecision fault.
Proof. solve_decision. Defined.

Definition M (S A : Type) : Type := S -> res (A * S).

Section Monad.
Context {S : Type}.
Definition ret {A} (a : A) : M S A := fun s => Ok (a, s).
Definition bind {A B} (m : M S A) (k : A -> M S B) : M S B :=
  fun s => match m s with Ok (a, s') => k a s' | Fault e => Fault e end.
Definition get : M S S := fun s => Ok (s, s).
Definition asks {A} (f : S -> A) : M S A := fun s => Ok (f s, s).
Definition modify (f : S -> S) : M S unit := fun s => Ok (tt, f s).
Definition raise {A} (e : fault) : M S A := fun _ => Fault e.
(** reading through a pointer: no object there is undefined behaviour *)
Definition deref {A} (o : option A) : M S A :=
  match o with Some a => ret a | None => raise UB end.
End Monad.

(** run a computation on a part of the state *)
Definition zoom {S T A} (g : S -> T) (p : T -> S -> S) (m : M T A) : M S A :=
  fun s => match m (g s) with
           | Ok (a, t) => Ok (a, p t s)
           | Fault e => Fault e
           end.

Declare Scope ts_scope.
Delimit Scope ts_scope with ts.
Notation "'let*' x ':=' m 'in' k" := (bind m (fun x => k))
  (at level 10, x name, m at level 200, k at level 200) : ts_scope.
Notation "'let*' ' p ':=' m 'in' k" := (bind m (fun x => let p := x in k))
  (at level 10, p strict pattern, m at level 200, k at level 200) : ts_scope.
Notation "m ;;; k" := (bind m (fun _ => k))
  (at level 100, k at level 200, right associativity) : ts_scope.
#[global] Open Scope ts_scope.

Definition when {S} (b : bool) (m : M S unit) : M S unit :=
  if b then m else ret tt.

(** A loop with state [a]: the body answers [inl a'] to go on and [inr b] to
    leave.  [n] bounds the iterations; running out of them is [SPIN]. *)
Fixpoint loop {S A B} (n : nat) (body : A -> M S (A + B)) (a : A) : M S B :=
  match n with
  | O => raise SPIN
  | Datatypes.S n' =>
      let* r := body a in
      match r with inl a' => loop n' body a' | inr b => ret b end
  end.

(** [for (x in l) f(x);] *)
Fixpoint for_each {S A} (l : list A) (f : A -> M S unit) : M S unit :=
  match l with
  | [] => ret tt
  | x :: l' => f x ;;; for_each l' f
  end.

Section MonadFacts.
Context {S : Type}.

(** the rule for loops: an invariant and a measure that bounds the rounds *)
Lemma loop_hoare {A B} (I : A -> S -> Prop) (m : A -> S -> nat) (Q : B -> S -> Prop)
    (body : A -> M S (A + B)) :
  (forall a s, I a s -> exists r s', body a s = Ok (r, s') /\
     match r with inl a' => I a' s' /\ (m a' s' < m a s)%nat | inr b => Q b s' end) ->
  forall n a s, I a s -> (m a s < n)%nat -> exists b s', loop n body a s = Ok (b, s') /\ Q b s'.
Proof.
  intros Hb n. induction n as [| n IH]; intros a s Ha Hm; [lia |].
  destruct (Hb a s Ha) as (r & s' & E & Hr). cbn. unfold bind. rewrite E.
  destruct r as [a' | b].
  - destruct Hr as [Ha' Hlt]. apply IH; [done | lia].
  - exists b, s'. by split.
Qed.

Lemma for_each_hoare {A} (I : list A -> S -> Prop) (f : A -> M S unit) :
  (forall x l s, I (x :: l) s -> exists s', f x s = Ok (tt, s') /\ I l s') ->
  forall l s, I l s -> exists s', for_each l f s = Ok (tt, s') /\ I [] s'.
Proof.
  intros Hf l. induction l as [| x l IH]; intros s Hl; cbn.
  - exists s. by split.
  - destruct (Hf x l s Hl) as (s' & E & Hl'). unfold bind. rewrite E. by apply IH.
Qed.

Lemma bind_Ok {A B} (m : M S A) (k : A -> M S B) s b s'' :
  bind m k s = Ok (b, s'') <-> exists a s', m s = Ok (a, s') /\ k a s' = Ok (b, s'').
Proof.
  unfold bind. destruct (m s) as [[a s'] | e] eqn:E; split.
  - eauto.
  - by intros (a' & t & [= <- <-] & ?).
  - done.
  - by intros (? & ? & ? & ?).
Qed.

Lemma bind_run {A B} (m : M S A) (k : A -> M S B) s a s' :
  m s = Ok (a, s') -> bind m k s = k a s'.
Proof. intros H. unfold bind. by rewrite H. Qed.

Lemma bind_assoc {A B C} (m : M S A) (k : A -> M S B) (h : B -> M S C) s :
  bind (bind m k) h s = bind m (fun a => bind (k a) h) s.
Proof. unfold bind. by destruct (m s) as [[? ?] |]. Qed.

(** [hoare P m Q]: from a state in [P], [m] returns, in [Q] *)
Definition hoare {A} (P : S -> Prop) (m : M S A) (Q : A -> S -> Prop) : Prop :=
  forall s, P s -> exists a s', m s = Ok (a, s') /\ Q a s'.

Lemma hoare_bind {A B} P (m : M S A) Q (k : A -> M S B) R :
  hoare P m Q -> (forall a, hoare (Q a) (k a) R) -> hoare P (bind m k) R.
Proof.
  intros Hm Hk s Hs. destruct (Hm s Hs) as (a & s' & E & HQ).
  destruct (Hk a s' HQ) as (b & s'' & E' & HR).
  exists b, s''. split; [| done]. apply bind_Ok. eauto.
Qed.

Lemma hoare_conseq {A} (P P' : S -> Prop) (m : M S A) (Q Q' : A -> S -> Prop) :
  hoare P m Q -> (forall s, P' s -> P s) -> (forall a s, Q a s -> Q' a s) ->
  hoare P' m Q'.
Proof.
  intros H0 HP HQ s Hs. destruct (H0 s (HP s Hs)) as (a & s' & E & ?). eauto.
Qed.

(** whenever [m] returns from a state in [P], it returns in [Q] *)
Definition keeps {A} (P : S -> Prop) (m : M S A) (Q : A -> S -> Prop) : Prop :=
  forall s a s', P s -> m s = Ok (a, s') -> Q a s'.

Lemma Ok_inj {A} (a b : A) (s s' : S) : Ok (a, s) = Ok (b, s') -> a = b /\ s = s'.
Proof. by intros [= -> ->]. Qed.

Lemma keeps_bind {A B} P (m : M S A) Q (k : A -> M S B) R :
  keeps P m Q -> (forall a, keeps (Q a) (k a) R) -> keeps P (bind m k) R.
Proof. intros Hm Hk s b s' Hs (a & s1 & E1 & E2)%bind_Ok. eapply (Hk a); [by eapply Hm | exact E2]. Qed.

Lemma keeps_ret {A} (P : S -> Prop) a (Q : A -> S -> Prop) : (forall s, P s -> Q a s) -> keeps P (ret a) Q.
Proof. intros HPQ s b s' Hs [= <- <-]. by apply HPQ. Qed.

(** a step that only reads *)
Definition reading {A} (m : M S A) : Prop := forall s a s', m s = Ok (a, s') -> s' = s.

Lemma keeps_reading {A} P (m : M S A) : reading m -> keeps P m (fun _ => P).
Proof. intros Hm s a s' Hs E. by rewrite (Hm s a s' E). Qed.

Lemma keeps_loop {A B} (I : A -> S -> Prop) (body : A -> M S (A + B)) Q n :
  (forall a, keeps (I a) (body a) (fun r s => match r with inl a' => I a' s | inr b => Q b s end)) ->
  forall a, keeps (I a) (loop n body a) Q.
Proof.
  intros Hb. induction n as [| n IH]; intros a s b s' Hs; cbn [loop]; [done |].
  intros (r & s1 & E1 & E2)%bind_Ok. pose proof (Hb a s r s1 Hs E1) as Hr. destruct r as [a' | b'].
  - by apply (IH a' s1).
  - by injection E2 as <- <-.
Qed.

Lemma keeps_loop_inv {A B} P (body : A -> M S (A + B)) n a :
  (forall a, keeps P (body a) (fun _ => P)) -> keeps P (loop n body a) (fun _ => P).
Proof.
  intros Hb. apply (keeps_loop (fun _ => P)). intros b s r s' Hs E. pose proof (Hb b s r s' Hs E). by destruct r.
Qed.
End MonadFacts.

(** one step of a computation at the head of the goal *)
Section Steps.
Context {S A B : Type}.
Lemma bind_asks (f : S -> A) (k : A -> M S B) s : bind (asks f) k s = k (f s) s.
Proof. done. Qed.
Lemma bind_modify (f : S -> S) (k : unit -> M S B) s : bind (modify f) k s = k tt (f s).
Proof. done. Qed.
Lemma bind_ret (a : A) (k : A -> M S B) s : bind (ret a) k s = k a s.
Proof. done. Qed.
Lemma bind_when_true (m : M S unit) (k : unit -> M S B) s :
  bind (when true m) k s = bind m k s.
Proof. done. Qed.
Lemma bind_when_false (m : M S unit) (k : unit -> M S B) s : bind (when false m) k s = k tt s.
Proof. done. Qed.
End Steps.
Ltac mstep :=
  first [ rewrite bind_asks | rewrite bind_modify | rewrite bind_ret | rewrite bind_assoc
        | rewrite bind_when_true | rewrite bind_when_false ].
Ltac msteps := repeat (mstep; cbv beta).
(** the computation at the head runs as [H] says *)
Ltac mrun H := rewrite (bind_run _ _ _ _ _ H); cbv beta.

Lemma deref_Ok {S A} (o : option A) (s : S) a s' :
  deref o s = Ok (a, s') <-> o = Some a /\ s' = s.
Proof.
  destruct o; cbn; unfold ret, raise; split.
  - by intros [= -> ->].
  - by intros [[= ->] ->].
  - done.
  - by intros [? ?].
Qed.

(** * Field update of records *)

Class Eta (R : Type) := eta : R -> R.
Class Upd {R T : Type} (p : R -> T) := upd : (T -> T) -> R -> R.
Arguments upd {R T} p {_} f r /.

Ltac solve_upd :=
  lazymatch goal with
  | |- @Upd ?R ?T ?p =>
      let c := constr:(_ : Eta R) in
      lazymatch c with
      | ?i =>
        exact (fun (f : T -> T) (r : R) =>
          ltac:(let e := eval unfold i in (i r) in
                let e := eval cbv beta in e in
                lazymatch e with
                | context C [p r] => let e' := context C [f (p r)] in exact e'
                end))
      end
  end.
#[export] Hint Extern 1 (Upd _) => solve_upd : typeclass_instances.

Notation "r <| p ::= f |>" := (upd p f r)
  (at level 1, left associativity, p at level 9, f at level 200) : ts_scope.
Notation "r <| p := v |>" := (upd p (fun _ => v) r)
  (at level 1, left associativity, p at level 9, v at level 200) : ts_scope.
