(* ===== verification/Types.v ===== *)
(** Data model of the TimeStone library: the constants of [lib/config.h] and
    the types of [lib/timestone_i.h], as records and inductive types.

    A pointer is a [Z]; [NULL] is 0.  A struct that the program reaches through
    a pointer lives in a finite map of the state (see [State.v]). *)
From S2P Require Export Prelude.

(** * [lib/config.h], [include/arch.h]: constants *)

Definition NULL : Z := 0.
Definition L1_CACHE_BYTES : Z := 64.
Definition TS_CACHE_LINE_SIZE : Z := L1_CACHE_BYTES.
(** [~(TS_CACHE_LINE_SIZE - 1)], an [int] sign-extended where it meets a
    64-bit operand *)
Definition TS_CACHE_LINE_MASK : Z := Z.lnot (TS_CACHE_LINE_SIZE - 1).
Definition TS_PMEM_PAGE_SIZE : Z := 2 * 1024 * 1024.
Definition TS_PMEM_PAGE_MASK : Z := Z.lnot (TS_PMEM_PAGE_SIZE - 1).
Definition TS_MAX_THREAD_NUM : Z := Z.shiftl 1 14.
Definition TS_INIT_PTR_SET_SIZE : Z := 512.

Definition TS_TVLOG_SIZE : Z := Z.shiftl 1 20.
Definition TS_TVLOG_MASK : Z := lnot64 (TS_TVLOG_SIZE - 1).
Definition TS_TVLOG_HIGH_MARK : Z := TS_TVLOG_SIZE - Z.shiftr TS_TVLOG_SIZE 2.
Definition TS_TVLOG_LOW_MARK : Z := Z.shiftr TS_TVLOG_SIZE 1.
Definition TS_OPLOG_SIZE : Z := Z.shiftl 1 20.
Definition TS_OPLOG_HIGH_MARK : Z := TS_OPLOG_SIZE - Z.shiftr TS_OPLOG_SIZE 2.
Definition TS_CKPTLOG_SIZE : Z := Z.shiftl 1 22.
Definition TS_CKPTLOG_HIGH_MARK : Z := TS_CKPTLOG_SIZE - Z.shiftr TS_CKPTLOG_SIZE 2.
Definition TS_CKPTLOG_LOW_MARK : Z := TS_CKPTLOG_HIGH_MARK - Z.shiftr TS_CKPTLOG_SIZE 3.

(** * [lib/timestone_i.h]: clocks, type codes, request codes *)

Definition ULONG_MAX : Z := 2 ^ 64 - 1.
Definition MAX_VERSION : Z := ULONG_MAX - 1.
Definition MIN_VERSION : Z := 0.
Definition INVALID_GEN_ID : Z := ULONG_MAX - 1.
Definition NVPOOL_MAGIC : Z := 0x6E6F7453656D6954.

Inductive obj_type : Set :=
| TYPE_ACTUAL | TYPE_WRT_SET | TYPE_COPY | TYPE_FREE | TYPE_NVLOG_ENTRY | TYPE_BOGUS.
Inductive obj_status : Set :=
| STATUS_NONE | STATUS_TOMBSTONE_MARKED | STATUS_DETACHED.
Inductive thread_status : Set :=
| THREAD_LIVE | THREAD_LIVE_ZOMBIE | THREAD_DEAD_ZOMBIE.
Inductive nvlog_type : Set := TYPE_NVLOG | TYPE_OPLOG | TYPE_CKPTLOG.
Inductive nvlog_status : Set := STATUS_NVLOG_NORMAL | STATUS_NVLOG_RECOVERY.
Inductive isolation_level : Set :=
| TS_INVALID | TS_SNAPSHOT | TS_SERIALIZABILITY | TS_LINEARIZABILITY.
Inductive replay_type : Set := OPLOG_REPLAY_TYPE_EXEC | OPLOG_REPLAY_TYPE_COMMIT.

#[export] Instance obj_type_eq_dec : EqDecision obj_type.
Proof. solve_decision. Defined.
#[export] Instance obj_status_eq_dec : EqDecision obj_status.
Proof. solve_decision. Defined.
#[export] Instance thread_status_eq_dec : EqDecision thread_status.
Proof. solve_decision. Defined.
#[export] Instance nvlog_type_eq_dec : EqDecision nvlog_type.
Proof. solve_decision. Defined.
#[export] Instance nvlog_status_eq_dec : EqDecision nvlog_status.
Proof. solve_decision. Defined.
#[export] Instance isolation_level_eq_dec : EqDecision isolation_level.
Proof. solve_decision. Defined.
#[export] Instance replay_type_eq_dec : EqDecision replay_type.
Proof. solve_decision. Defined.

(** the numeric codes of the enumerators that the code compares by value *)
Definition replay_code (t : replay_type) : Z :=
  match t with OPLOG_REPLAY_TYPE_EXEC => 0 | OPLOG_REPLAY_TYPE_COMMIT => 1 end.

(** reclamation requests are stored in [unsigned char]s and ordered by value *)
Definition RECLAIM_TVLOG_BEST_EFFORT : Z := 0x10.
Definition RECLAIM_TVLOG_CKPT : Z := 0x11.
Definition RECLAIM_CKPTLOG_BEST_EFFORT : Z := 0x20.
Definition RECLAIM_CKPTLOG_WRITEBACK : Z := 0x21.
Definition RECLAIM_CKPTLOG_WRITEBACK_ALL : Z := 0x22.
Definition RECLAIM_OPLOG_NORMAL : Z := 0x30.
Definition RECLAIM_OPLOG_FORCE : Z := 0x31.

(** indices into [ts_stat_t.cnt], in the order of [STAT_NAMES] *)
Inductive stat_name : Set :=
| n_starts | n_finish | n_aborts | n_aborts_validation | n_flush_new_act_bytes
| n_alloc_act_obj_bytes | n_tvlog_best_effort | n_tvlog_ckpt
| n_tvlog_cpobj_written_bytes | n_tvlog_written_bytes | n_tvlog_reclaimed_bytes
| n_tvlog_ckpt_bytes | n_oplog_reclaim | n_oplog_reclaimed_ops
| n_oplog_reclaimed_bytes | n_oplog_written_bytes | n_ckptlog_best_effort
| n_ckptlog_writeback | n_ckptlog_reclaimed_bytes | n_ckptlog_writeback_bytes
| n_qp_detect | n_qp_nap.

#[export] Instance stat_name_eq_dec : EqDecision stat_name.
Proof. solve_decision. Defined.

(** * Sizes of the structs (x86-64 ABI), as [sizeof] gives them *)

Definition sizeof_obj_hdr : Z := 8.
Definition sizeof_act_nvhdr : Z := 32.
Definition sizeof_cpy_hdr : Z := 48.
Definition sizeof_act_hdr_struct : Z := sizeof_act_nvhdr + sizeof_obj_hdr.
Definition sizeof_cpy_hdr_struct : Z := sizeof_cpy_hdr + sizeof_obj_hdr.
Definition sizeof_wrt_set : Z := 40.
Definition sizeof_wrt_set_struct : Z := sizeof_cpy_hdr_struct + sizeof_wrt_set.
Definition sizeof_nvlog_entry_hdr : Z := 16.
Definition sizeof_op_entry_hdr : Z := 16.
Definition sizeof_ckpt_entry_hdr : Z := 24.
Definition sizeof_ckpt_entry : Z :=
  sizeof_nvlog_entry_hdr + sizeof_ckpt_entry_hdr + sizeof_obj_hdr.
Definition TS_MAX_OPERAND_SIZE : Z := 256 - sizeof_op_entry_hdr.

(** * Structs *)

(** [ts_sys_clks_t] *)
Record ts_sys_clks := mk_clks {
  __qp0 : Z; __qp1 : Z; __qp2 : Z; __last_ckpt : Z; __min_ckpt_reclaimed : Z }.
#[export] Instance eta_clks : Eta ts_sys_clks := fun r =>
  mk_clks (__qp0 r) (__qp1 r) (__qp2 r) (__last_ckpt r) (__min_ckpt_reclaimed r).

(** [ts_reclaim_t]: two bytes and a 32-bit word over them (little endian) *)
Record ts_reclaim := mk_reclaim { r_tvlog : Z; r_ckptlog : Z }.
#[export] Instance eta_reclaim : Eta ts_reclaim := fun r =>
  mk_reclaim (r_tvlog r) (r_ckptlog r).
Definition requested (r : ts_reclaim) : Z := r_tvlog r + 2 ^ 8 * r_ckptlog r.

(** [ts_ptr_set_t]; a slot that was never written holds [None] *)
Record ts_ptr_set := mk_ptr_set {
  num_ptrs : Z; num_max_ptrs : Z; ptrs : option (list (option Z)) }.
#[export] Instance eta_ptr_set : Eta ts_ptr_set := fun r =>
  mk_ptr_set (num_ptrs r) (num_max_ptrs r) (ptrs r).

(** [ts_obj_hdr_t] *)
Record ts_obj_hdr := mk_obj_hdr {
  obj_size : Z; padding_size : Z; o_type : obj_type; o_status : obj_status }.
#[export] Instance eta_obj_hdr : Eta ts_obj_hdr := fun r =>
  mk_obj_hdr (obj_size r) (padding_size r) (o_type r) (o_status r).

(** [ts_act_vhdr_t] *)
Record ts_act_vhdr := mk_act_vhdr {
  v_copy : Z; v_lock : Z; np_org_act : Z; np_cur_act : Z; tombstone_clk : Z }.
#[export] Instance eta_act_vhdr : Eta ts_act_vhdr := fun r =>
  mk_act_vhdr (v_copy r) (v_lock r) (np_org_act r) (np_cur_act r) (tombstone_clk r).

(** [ts_act_nvhdr_t] (its unused [base] field left out) *)
Record ts_act_nvhdr := mk_act_nvhdr { nvh_act_vhdr : Z; gen_id : Z; nvh_index : Z }.
#[export] Instance eta_act_nvhdr : Eta ts_act_nvhdr := fun r =>
  mk_act_nvhdr (nvh_act_vhdr r) (gen_id r) (nvh_index r).

(** [ts_cpy_hdr_t] *)
Record ts_cpy_hdr := mk_cpy_hdr {
  p_ws : Z; __wrt_clk : Z; wrt_clk_next : Z; wrt_clk_prev : Z;
  c_copy : Z; c_act_vhdr : Z }.
#[export] Instance eta_cpy_hdr : Eta ts_cpy_hdr := fun r =>
  mk_cpy_hdr (p_ws r) (__wrt_clk r) (wrt_clk_next r) (wrt_clk_prev r)
    (c_copy r) (c_act_vhdr r).

(** [ts_act_hdr_struct_t] and [ts_cpy_hdr_struct_t]: the two headers that
    precede an object's bytes *)
Record ts_act_hdr_struct := mk_ahs { act_nvhdr : ts_act_nvhdr; a_hdr : ts_obj_hdr }.
#[export] Instance eta_ahs : Eta ts_act_hdr_struct := fun r =>
  mk_ahs (act_nvhdr r) (a_hdr r).
Record ts_cpy_hdr_struct := mk_chs { cpy_hdr : ts_cpy_hdr; c_hdr : ts_obj_hdr }.
#[export] Instance eta_chs : Eta ts_cpy_hdr_struct := fun r =>
  mk_chs (cpy_hdr r) (c_hdr r).

(** [ts_wrt_set_t] *)
Record ts_wrt_set := mk_wrt_set {
  ws_wrt_clk : Z; pending_wrt_clk : Z; num_objs : Z; start_tail_cnt : Z;
  ws_thread : Z }.
#[export] Instance eta_wrt_set : Eta ts_wrt_set := fun r =>
  mk_wrt_set (ws_wrt_clk r) (pending_wrt_clk r) (num_objs r) (start_tail_cnt r)
    (ws_thread r).

(** [ts_tvlog_t]; [clks] and [need_reclaim] are the fields of the thread that
    holds the log, and are read there *)
Record ts_tvlog := mk_tvlog {
  t_reclaim_lock : Z; t_head_cnt : Z; t_tail_cnt : Z; t_prev_head_cnt : Z;
  t_prev_tail_cnt : Z; cur_wrt_set : Z; t_buffer : Z }.
#[export] Instance eta_tvlog : Eta ts_tvlog := fun r =>
  mk_tvlog (t_reclaim_lock r) (t_head_cnt r) (t_tail_cnt r) (t_prev_head_cnt r)
    (t_prev_tail_cnt r) (cur_wrt_set r) (t_buffer r).

(** what follows [ts_nvlog_entry_hdr_t] in an entry: nothing yet,
    [ts_op_entry_hdr_t] with the operand bytes, or [ts_ckpt_entry_hdr_t] with
    the object header (the object's bytes are in the data memory) *)
Record ts_op_entry_hdr := mk_op_entry_hdr {
  op_local_clk : Z; op_type : Z; opd : list Z }.
Record ts_ckpt_entry_hdr := mk_ckpt_entry_hdr {
  ckpt_s_clk : Z; ce_np_org_act : Z; tombstone : Z; ce_hdr : ts_obj_hdr }.
#[export] Instance eta_ckpt_entry_hdr : Eta ts_ckpt_entry_hdr := fun r =>
  mk_ckpt_entry_hdr (ckpt_s_clk r) (ce_np_org_act r) (tombstone r) (ce_hdr r).
Inductive entry_body : Set :=
| EB_none
| EB_op (h : ts_op_entry_hdr)
| EB_ckpt (h : ts_ckpt_entry_hdr).

(** [ts_nvlog_entry_hdr_t] and its entry *)
Record ts_nvlog_entry := mk_nvlog_entry {
  e_wrt_clk : Z; e_size : Z; e_type : obj_type; e_body : entry_body }.
#[export] Instance eta_nvlog_entry : Eta ts_nvlog_entry := fun r =>
  mk_nvlog_entry (e_wrt_clk r) (e_size r) (e_type r) (e_body r).

(** [ts_nvlog_store_t], on NVM *)
Record ts_nvlog_store := mk_nvlog_store {
  s_head_cnt : Z; s_tail_cnt : Z; s__buffer : Z; s_buffer : Z; s_log_size : Z;
  s_mask : Z; s_type : nvlog_type; s_status : nvlog_status; s_next : Z }.
#[export] Instance eta_nvlog_store : Eta ts_nvlog_store := fun r =>
  mk_nvlog_store (s_head_cnt r) (s_tail_cnt r) (s__buffer r) (s_buffer r)
    (s_log_size r) (s_mask r) (s_type r) (s_status r) (s_next r).

(** [ts_nvlog_t], the control structure on DRAM; [need_reclaim], [clks] and
    [free_set] point into the thread [n_thread]; [n_free_set] tells whether
    [free_set] is set *)
Record ts_nvlog := mk_nvlog {
  n_head_cnt : Z; n_tail_cnt : Z; n_prev_head_cnt : Z; n_reclaim_lock : Z;
  n_store : Z; n_buffer : Z; n_log_size : Z; n_mask : Z;
  n_type : nvlog_type; n_status : nvlog_status; n_free_set : bool; n_thread : Z }.
#[export] Instance eta_nvlog : Eta ts_nvlog := fun r =>
  mk_nvlog (n_head_cnt r) (n_tail_cnt r) (n_prev_head_cnt r) (n_reclaim_lock r)
    (n_store r) (n_buffer r) (n_log_size r) (n_mask r) (n_type r) (n_status r)
    (n_free_set r) (n_thread r).

(** [ts_nvm_root_obj_t] *)
Record ts_nvm_root_obj := mk_root {
  magic : Z; root_gen_id : Z; root_next : Z; last_ckpt_clk : Z }.
#[export] Instance eta_root : Eta ts_nvm_root_obj := fun r =>
  mk_root (magic r) (root_gen_id r) (root_next r) (last_ckpt_clk r).

(** [ts_op_info_t] *)
Record ts_op_info := mk_op_info { oi_curr : Z; oi_op_type : Z; oi_opd : list Z }.
#[export] Instance eta_op_info : Eta ts_op_info := fun r =>
  mk_op_info (oi_curr r) (oi_op_type r) (oi_opd r).

(** [ts_isolation_info_t], with the fields of
    [TS_ENABLE_SERIALIZABILITY_LINEARIZABILITY] *)
Record ts_isolation_info := mk_isolation {
  level : isolation_level; stale_read_occured : bool; read_set : ts_ptr_set }.
#[export] Instance eta_isolation : Eta ts_isolation_info := fun r =>
  mk_isolation (level r) (stale_read_occured r) (read_set r).

(** [ts_qp_info_t] *)
Record ts_qp_info := mk_qp_info { need_wait : bool; qi_run_cnt : Z }.
#[export] Instance eta_qp_info : Eta ts_qp_info := fun r =>
  mk_qp_info (need_wait r) (qi_run_cnt r).

(** [ts_stat_t] *)
Definition ts_stat : Type := stat_name -> Z.

(** [ts_thread_struct_t]; [self_ptr] is its address *)
Record ts_thread_struct := mk_thread {
  self_ptr : Z; tid : Z; in_recovery_mode : bool; is_write_detected : bool;
  isolation : ts_isolation_info;
  tx_alloc_set : ts_ptr_set; tx_free_set : ts_ptr_set; ckpt_free_set : ts_ptr_set;
  stat : ts_stat; op_info : ts_op_info;
  run_cnt : Z; live_status : thread_status; local_clk : Z; clks : ts_sys_clks;
  qp_info : ts_qp_info; reclaim : ts_reclaim;
  tvlog : ts_tvlog; oplog : ts_nvlog; ckptlog : ts_nvlog }.
#[export] Instance eta_thread : Eta ts_thread_struct := fun r =>
  mk_thread (self_ptr r) (tid r) (in_recovery_mode r) (is_write_detected r)
    (isolation r) (tx_alloc_set r) (tx_free_set r) (ckpt_free_set r) (stat r)
    (op_info r) (run_cnt r) (live_status r) (local_clk r) (clks r) (qp_info r)
    (reclaim r) (tvlog r) (oplog r) (ckptlog r).

(** [ts_qp_thread_t] *)
Record ts_qp_thread := mk_qp_thread {
  q_clks : ts_sys_clks; stop_requested : bool; q_reclaim : ts_reclaim;
  q_stat : ts_stat }.
#[export] Instance eta_qp_thread : Eta ts_qp_thread := fun r =>
  mk_qp_thread (q_clks r) (stop_requested r) (q_reclaim r) (q_stat r).
