(* ===== verification/Clock.v ===== *)
(** Clocks: [include/ordo_clock.h] and the comparison macros of
    [lib/clock.h] (built with [TS_ORDO_TIMESTAMPING], as [lib/config.h] sets).

    A timestamp is a 64-bit value of the processor's time-stamp counter.  Two
    cores may read the counter apart by at most the ORDO boundary, so
    timestamps closer than that are not ordered.  The counter itself is
    hardware: [tsc_reading k] is the value of its [k]-th reading, and a state
    keeps how many readings were made. *)
From S2P Require Import Types.

Definition ORDO_LESS_THAN : Z := -1.
Definition ORDO_GREATER_THAN : Z := 1.
Definition ORDO_UNCERTAIN : Z := 0.

Definition __ORDO_BOUNDARY : Z := 1.
Definition g_ordo_boundary : Z := __ORDO_BOUNDARY.
Definition ordo_boundary : Z := g_ordo_boundary.

Definition ordo_lt_clock (t1 t2 : Z) : bool :=
  (t1 <? t2) && (g_ordo_boundary <? u64 (t2 - t1)).
Definition ordo_gt_clock (t1 t2 : Z) : bool :=
  (t2 <? t1) && (g_ordo_boundary <? u64 (t1 - t2)).

Definition ordo_cmp_clock (t1 t2 : Z) : Z :=
  if ordo_lt_clock t1 t2 then ORDO_LESS_THAN
  else if ordo_gt_clock t1 t2 then ORDO_GREATER_THAN
  else ORDO_UNCERTAIN.

(** the comparison macros *)
Definition gte_clock (t1 t2 : Z) : bool := negb (ordo_lt_clock t1 t2).
Definition lte_clock (t1 t2 : Z) : bool := negb (ordo_gt_clock t1 t2).
Definition gt_clock (t1 t2 : Z) : bool := ordo_gt_clock t1 t2.
Definition lt_clock (t1 t2 : Z) : bool := ordo_lt_clock t1 t2.
Definition correct_qp_clock (qp_clk : Z) : Z := u64 (qp_clk - ordo_boundary).

Section Counter.
(** the counter's readings: hardware, a parameter *)
Context (tsc_reading : nat -> Z).

(** [ordo_get_clock] (RDTSCP) and [ordo_get_clock_relaxed] (RDTSC): the
    state is the number of readings made so far *)
Definition ordo_get_clock : M nat Z := fun k => Ok (tsc_reading k, S k).
Definition ordo_get_clock_relaxed : M nat Z := ordo_get_clock.

(** [while (!ordo_gt_clock(new_clk = ordo_get_clock(), t)) smp_mb();] *)
Fixpoint ordo_new_clock (fuel : nat) (t : Z) : M nat Z :=
  match fuel with
  | O => raise SPIN
  | S fuel' =>
      let* new_clk := ordo_get_clock in
      if negb (ordo_gt_clock new_clk t) then ordo_new_clock fuel' t
      else ret new_clk
  end.

Definition new_clock (fuel : nat) (local_clk : Z) : M nat Z :=
  ordo_new_clock fuel (u64 (local_clk + ordo_boundary)).
End Counter.

(** * Facts *)

Definition is_clk (t : Z) : Prop := 0 <= t < 2 ^ 64.

Lemma ordo_lt_iff t1 t2 :
  is_clk t1 -> is_clk t2 ->
  ordo_lt_clock t1 t2 = true <-> t1 + ordo_boundary < t2.
Proof.
  unfold is_clk, ordo_lt_clock, ordo_boundary, g_ordo_boundary, __ORDO_BOUNDARY.
  intros H1 H2. rewrite andb_true_iff, !Z.ltb_lt. split.
  - intros [Hlt Hb]. rewrite u64_small in Hb; lia.
  - intros H. rewrite u64_small; lia.
Qed.

Lemma ordo_gt_lt t1 t2 : ordo_gt_clock t1 t2 = ordo_lt_clock t2 t1.
Proof. reflexivity. Qed.

Lemma lt_clock_iff t1 t2 :
  is_clk t1 -> is_clk t2 -> lt_clock t1 t2 = true <-> t1 + ordo_boundary < t2.
Proof. apply ordo_lt_iff. Qed.

Lemma lt_clock_false_iff t1 t2 :
  is_clk t1 -> is_clk t2 -> lt_clock t1 t2 = false <-> t2 <= t1 + ordo_boundary.
Proof.
  intros. rewrite <- not_true_iff_false, lt_clock_iff by done. lia.
Qed.

Lemma gte_clock_iff t1 t2 :
  is_clk t1 -> is_clk t2 -> gte_clock t1 t2 = true <-> t2 <= t1 + ordo_boundary.
Proof.
  intros. unfold gte_clock. rewrite negb_true_iff. by apply lt_clock_false_iff.
Qed.

Lemma gte_clock_negb t1 t2 : gte_clock t1 t2 = negb (lt_clock t1 t2).
Proof. reflexivity. Qed.

(** any clock at or after an old clock's successor stays after it *)
Lemma lt_clock_mono_r t1 t2 t3 :
  is_clk t1 -> is_clk t2 -> is_clk t3 ->
  lt_clock t1 t2 = true -> t2 <= t3 -> lt_clock t1 t3 = true.
Proof. intros ???. rewrite !lt_clock_iff by done. lia. Qed.

Lemma lt_clock_mono_l t0 t1 t2 :
  is_clk t0 -> is_clk t1 -> is_clk t2 ->
  t0 <= t1 -> lt_clock t1 t2 = true -> lt_clock t0 t2 = true.
Proof. intros ???. rewrite !lt_clock_iff by done. lia. Qed.

Lemma is_clk_MAX : is_clk MAX_VERSION.
Proof. unfold is_clk, MAX_VERSION, ULONG_MAX. lia. Qed.

Lemma later_unseen clk local : is_clk clk -> is_clk local -> local < clk -> lt_clock clk local = false.
Proof. intros Hc Hl Hlt. apply lt_clock_false_iff; [done | done |]. unfold ordo_boundary, g_ordo_boundary, __ORDO_BOUNDARY. lia. Qed.

Lemma max_unseen local : is_clk local -> lt_clock MAX_VERSION local = false.
Proof.
  intros Hl. apply lt_clock_false_iff; [apply is_clk_MAX | done |].
  unfold is_clk, MAX_VERSION, ULONG_MAX, ordo_boundary, g_ordo_boundary, __ORDO_BOUNDARY in *. lia.
Qed.

(** the wait loop: it returns the first reading that is past [t] *)
Lemma ordo_new_clock_first (tsc : nat -> Z) t n fuel k :
  (forall i, (i < n)%nat -> ordo_gt_clock (tsc (k + i)%nat) t = false) ->
  ordo_gt_clock (tsc (k + n)%nat) t = true -> (n < fuel)%nat ->
  ordo_new_clock tsc fuel t k = Ok (tsc (k + n)%nat, (k + n + 1)%nat).
Proof.
  revert fuel k. induction n as [|n IH]; intros fuel k Hbefore Hn Hf.
  - destruct fuel as [|fuel]; [lia |]. cbn. rewrite Nat.add_0_r in *.
    rewrite Hn. cbn. unfold ret. do 2 f_equal. lia.
  - destruct fuel as [|fuel]; [lia |]. cbn.
    pose proof (Hbefore 0%nat ltac:(lia)) as H0. rewrite Nat.add_0_r in H0.
    rewrite H0. cbn. rewrite (IH fuel (S k)).
    + do 2 f_equal; [f_equal |]; lia.
    + intros i Hi. specialize (Hbefore (S i) ltac:(lia)).
      by replace (k + S i)%nat with (S k + i)%nat in Hbefore by lia.
    + by replace (S k + n)%nat with (k + S n)%nat by lia.
    + lia.
Qed.

(** [ordo_cmp_clock] is a partial order up to the boundary: strictly before,
    strictly after, or uncertain exactly within the boundary; "before" is
    irreflexive and transitive, and the two strict answers are converses. *)
Theorem ordo_order t1 t2 t3 :
  is_clk t1 -> is_clk t2 -> is_clk t3 ->
  (ordo_cmp_clock t1 t2 = ORDO_LESS_THAN <-> t1 + ordo_boundary < t2) /\
  (ordo_cmp_clock t1 t2 = ORDO_GREATER_THAN <-> t2 + ordo_boundary < t1) /\
  (ordo_cmp_clock t1 t2 = ORDO_UNCERTAIN <-> Z.abs (t1 - t2) <= ordo_boundary) /\
  ordo_cmp_clock t2 t1 = - ordo_cmp_clock t1 t2 /\
  (ordo_cmp_clock t1 t2 = ORDO_LESS_THAN -> ordo_cmp_clock t2 t3 = ORDO_LESS_THAN ->
   ordo_cmp_clock t1 t3 = ORDO_LESS_THAN).
Proof.
  intros H1 H2 H3. unfold ordo_cmp_clock. rewrite !ordo_gt_lt.
  pose proof (ordo_lt_iff t1 t2 H1 H2) as E12.
  pose proof (ordo_lt_iff t2 t1 H2 H1) as E21.
  pose proof (ordo_lt_iff t2 t3 H2 H3) as E23.
  pose proof (ordo_lt_iff t1 t3 H1 H3) as E13.
  pose proof (ordo_lt_iff t3 t2 H3 H2) as E32.
  pose proof (ordo_lt_iff t3 t1 H3 H1) as E31.
  unfold ORDO_LESS_THAN, ORDO_GREATER_THAN, ORDO_UNCERTAIN,
    ordo_boundary, g_ordo_boundary, __ORDO_BOUNDARY in *.
  destruct (ordo_lt_clock t1 t2), (ordo_lt_clock t2 t1), (ordo_lt_clock t2 t3),
    (ordo_lt_clock t1 t3), (ordo_lt_clock t3 t2), (ordo_lt_clock t3 t1);
    intuition lia.
Qed.

(** [new_clock] returns the first reading past the boundary of [local_clk] *)
Lemma new_clock_first (tsc : nat -> Z) local_clk fuel k n :
  (forall i, is_clk (tsc i)) ->
  0 <= local_clk < MAX_VERSION -> (n < fuel)%nat -> local_clk + 2 * ordo_boundary < tsc (k + n)%nat ->
  exists m, (m <= n)%nat /\ new_clock tsc fuel local_clk k = Ok (tsc (k + m)%nat, (k + m + 1)%nat) /\
    local_clk + 2 * ordo_boundary < tsc (k + m)%nat /\
    forall i, (i < m)%nat -> tsc (k + i)%nat <= local_clk + 2 * ordo_boundary.
Proof.
  intros Hclk Hl Hf Hn. unfold MAX_VERSION, ULONG_MAX in Hl. set (b := local_clk + ordo_boundary).
  assert (Hb : is_clk b) by (unfold b, is_clk, ordo_boundary, g_ordo_boundary, __ORDO_BOUNDARY; lia).
  assert (Hgt : forall t, is_clk t -> ordo_gt_clock t b = true <-> local_clk + 2 * ordo_boundary < t).
  { intros t Ht. rewrite ordo_gt_lt, ordo_lt_iff by done. unfold b. lia. }
  destruct (first_true (fun i => ordo_gt_clock (tsc (k + i)%nat) b) n) as (m & Hmn & Hm & Hmin); [by apply Hgt |].
  exists m. split; [done |]. unfold new_clock. fold b. rewrite u64_small by done.
  rewrite (ordo_new_clock_first tsc b m) by (done || lia). split; [done |]. split; [by apply Hgt |].
  intros i Hi. apply Z.le_ngt. rewrite <- Hgt by done. by rewrite Hmin.
Qed.

(** Termination and result of [new_clock]: when the counter advances, so that
    one of its next [fuel] readings is more than twice the boundary past
    [local_clk], the wait loop ends; the clock it returns is the first such
    reading, so the transaction's snapshot clock is strictly before it. *)
Theorem new_clock_after (tsc : nat -> Z) local_clk fuel k n :
  (forall i, is_clk (tsc i)) ->
  0 <= local_clk < MAX_VERSION -> (n < fuel)%nat ->
  local_clk + 2 * ordo_boundary < tsc (k + n)%nat ->
  exists m, (m <= n)%nat /\
    new_clock tsc fuel local_clk k = Ok (tsc (k + m)%nat, (k + m + 1)%nat) /\
    lt_clock (local_clk + ordo_boundary) (tsc (k + m)%nat) = true /\
    lt_clock local_clk (tsc (k + m)%nat) = true /\
    forall i, (i < m)%nat -> tsc (k + i)%nat <= local_clk + 2 * ordo_boundary.
Proof.
  intros Hclk Hl Hf Hn. destruct (new_clock_first tsc local_clk fuel k n Hclk Hl Hf Hn) as (m & Hm & E & Hgt & Hmin).
  exists m. do 2 (split; [done |]). unfold MAX_VERSION, ULONG_MAX, ordo_boundary, g_ordo_boundary, __ORDO_BOUNDARY in *.
  split; [| split; [| done]]; apply lt_clock_iff;
    unfold is_clk, ordo_boundary, g_ordo_boundary, __ORDO_BOUNDARY; (apply Hclk || lia).
Qed.

(** * Examples *)

Lemma ordo_order_witness :
  ordo_cmp_clock 100 200 = ORDO_LESS_THAN /\ ordo_cmp_clock 200 201 = ORDO_UNCERTAIN.
Proof.
  destruct (ordo_order 100 200 201 ltac:(done) ltac:(done) ltac:(done)) as (H1 & _ & _ & _ & _).
  destruct (ordo_order 200 201 201 ltac:(done) ltac:(done) ltac:(done)) as (_ & _ & H3 & _ & _).
  split; [apply H1; by vm_compute | apply H3; by vm_compute].
Defined.

Definition ex_tsc (i : nat) : Z := 1000 + Z.of_nat (i mod 100).

Lemma new_clock_after_witness :
  exists m, (m <= 3)%nat /\ new_clock ex_tsc 5 1000 0%nat = Ok (ex_tsc m, (m + 1)%nat) /\
    lt_clock 1000 (ex_tsc m) = true.
Proof.
  assert (Hc : forall i, is_clk (ex_tsc i)).
  { intros i. pose proof (Nat.mod_upper_bound i 100 ltac:(lia)). unfold is_clk, ex_tsc. lia. }
  destruct (new_clock_after ex_tsc 1000 5 0%nat 3%nat Hc ltac:(by vm_compute) ltac:(lia) ltac:(by vm_compute))
    as (m & Hm & H & _ & Hlt & _).
  exists m. split; [exact Hm | split; [exact H | exact Hlt]].
Defined.
