(* ===== verification/Util.v ===== *)
(** Helpers of [lib/util.h] and [lib/debug.h] that need no object memory:
    alignment, the try-lock word, pointer sets, request names, statistics and
    the intrusive circular list. *)
From S2P Require Import Types.
From stdpp Require Import strings.
#[local] Open Scope Z_scope.

(** * Alignment *)

Definition align_uint_to_cacheline (unum : Z) : Z :=
  Z.land (u32 (unum + u32 (Z.lnot TS_CACHE_LINE_MASK))) (u32 TS_CACHE_LINE_MASK).

Definition align_ptr_to_cacheline (p : Z) : Z :=
  Z.land (u64 (p + lnot64 TS_CACHE_LINE_MASK)) (u64 TS_CACHE_LINE_MASK).

Definition is_ptr_cacheline_aligned (p : Z) : bool :=
  Z.land p (lnot64 TS_CACHE_LINE_MASK) =? 0.

Definition align_size_t_to_pmem_page (sz : Z) : Z :=
  Z.land (u64 (sz + lnot64 TS_PMEM_PAGE_MASK)) (u64 TS_PMEM_PAGE_MASK).

(** * Try-lock word *)

(** [try_lock]: (result, new value of the word) *)
Definition try_lock (lock : Z) : bool * Z :=
  if lock =? 0 then (true, 1) else (false, lock).
Definition unlock (lock : Z) : Z := 0.

(** * Pointer sets *)

Definition ENOMEM : Z := 12.

(** [ok] tells whether the allocator call of the operation succeeds *)
Definition ptrset_init (ok : bool) : Z * ts_ptr_set :=
  if ok then (0, mk_ptr_set 0 TS_INIT_PTR_SET_SIZE
                   (Some (replicate (Z.to_nat TS_INIT_PTR_SET_SIZE) None)))
  else (ENOMEM, mk_ptr_set 0 TS_INIT_PTR_SET_SIZE None).

Definition ptrset_deinit (ps : ts_ptr_set) : ts_ptr_set := ps <| ptrs := None |>.

Definition ptrset_expand (ok : bool) (ps : ts_ptr_set) : Z * ts_ptr_set :=
  let new_num := u32 (num_max_ptrs ps + TS_INIT_PTR_SET_SIZE) in
  if ok then
    let old := default [] (ptrs ps) in
    let n := Z.to_nat new_num in
    (0, ps <| num_max_ptrs := new_num |>
           <| ptrs := Some (take n (old ++ replicate (n - length old) None)) |>)
  else (ENOMEM, ps).

(** [for (i = 0; i < num_ptrs; ++i) if (ptrs[i] == p_act) return 1;] *)
Fixpoint ptrset_find (slots : list (option Z)) (n : nat) (p_act : Z) : bool :=
  match n, slots with
  | S n', Some q :: slots' => if q =? p_act then true else ptrset_find slots' n' p_act
  | S n', None :: slots' => ptrset_find slots' n' p_act
  | _, _ => false
  end.
Definition ptrset_is_member (ps : ts_ptr_set) (p_act : Z) : bool :=
  ptrset_find (default [] (ptrs ps)) (Z.to_nat (num_ptrs ps)) p_act.

Definition ptrset_reset (ps : ts_ptr_set) : ts_ptr_set := ps <| num_ptrs := 0 |>.

(** [ptrs[i] = p]: outside the array this is undefined behaviour *)
Definition ptrset_store (ps : ts_ptr_set) (i p : Z) : res ts_ptr_set :=
  match ptrs ps with
  | Some slots =>
      if (0 <=? i) && (i <? Z.of_nat (length slots)) then
        Ok (ps <| ptrs := Some (<[Z.to_nat i := Some p]> slots) |>)
      else Fault UB
  | None => Fault UB
  end.

(** [ptrs[i]]: outside the array, or a slot never written, undefined *)
Definition ptrset_load (ps : ts_ptr_set) (i : Z) : res Z :=
  match ptrs ps with
  | Some slots =>
      if 0 <=? i then
        match slots !! Z.to_nat i with Some (Some p) => Ok p | _ => Fault UB end
      else Fault UB
  | None => Fault UB
  end.

Definition ptrset_push (ok : bool) (ps : ts_ptr_set) (p : Z) : res (Z * ts_ptr_set) :=
  let '(ret, ps1) :=
    if num_max_ptrs ps <=? num_ptrs ps then ptrset_expand ok ps else (0, ps) in
  if negb (ret =? 0) then Ok (ret, ps1)
  else
    match ptrset_store ps1 (num_ptrs ps1) p with
    | Ok ps2 => Ok (0, ps2 <| num_ptrs := u32 (num_ptrs ps1 + 1) |>)
    | Fault e => Fault e
    end.

(** [return ptrset->ptrs[ptrset->num_ptrs--];], or NULL when empty *)
Definition ptrset_pop (ps : ts_ptr_set) : res (Z * ts_ptr_set) :=
  if 0 <? num_ptrs ps then
    match ptrset_load ps (num_ptrs ps) with
    | Ok p => Ok (p, ps <| num_ptrs := u32 (num_ptrs ps - 1) |>)
    | Fault e => Fault e
    end
  else Ok (NULL, ps).

(** * Names of requests *)

Definition req2str (req : Z) : string :=
  if req =? RECLAIM_TVLOG_BEST_EFFORT then "RECLAIM_TVLOG_BEST_EFFORT"
  else if req =? RECLAIM_TVLOG_CKPT then "RECLAIM_TVLOG_CKPT"
  else if req =? RECLAIM_CKPTLOG_BEST_EFFORT then "RECLAIM_CKPTLOG_BEST_EFFORT"
  else if req =? RECLAIM_CKPTLOG_WRITEBACK then "RECLAIM_CKPTLOG_WRITEBACK"
  else if req =? RECLAIM_CKPTLOG_WRITEBACK_ALL then "RECLAIM_CKPTLOG_WRITEBACK_ALL"
  else "".

(** * Statistics ([debug.h]) *)

Definition stat_reset (s : ts_stat) : ts_stat := fun _ => 0.
Definition stat_set (s : ts_stat) (n : stat_name) (v : Z) : ts_stat :=
  fun n' => if decide (n' = n) then v else s n'.
Definition stat_inc (s : ts_stat) (n : stat_name) : ts_stat := stat_set s n (u64 (s n + 1)).
Definition stat_acc (s : ts_stat) (n : stat_name) (v : Z) : ts_stat :=
  stat_set s n (u64 (s n + v)).
Definition stat_asgn (s : ts_stat) (n : stat_name) (v : Z) : ts_stat := stat_set s n v.
Definition stat_max (s : ts_stat) (n : stat_name) (v : Z) : ts_stat :=
  if s n <? v then stat_set s n v else s.
Definition stat_atomic_merge (tgt src : ts_stat) : ts_stat :=
  fun n => u64 (tgt n + src n).

(** * Intrusive circular lists *)

(** [ts_list_t], reached by the address of the node *)
Record ts_list := mk_list { l_next : Z; l_prev : Z }.
#[export] Instance eta_list : Eta ts_list := fun r => mk_list (l_next r) (l_prev r).

Abbreviation links := (gmap Z ts_list).

Definition node_next (a : Z) : M links Z :=
  fun m => match m !! a with Some n => Ok (l_next n, m) | None => Fault UB end.
Definition node_prev (a : Z) : M links Z :=
  fun m => match m !! a with Some n => Ok (l_prev n, m) | None => Fault UB end.
Definition set_next (a v : Z) : M links unit :=
  fun m => match m !! a with
           | Some n => Ok (tt, <[a := n <| l_next := v |>]> m) | None => Fault UB end.
Definition set_prev (a v : Z) : M links unit :=
  fun m => match m !! a with
           | Some n => Ok (tt, <[a := n <| l_prev := v |>]> m) | None => Fault UB end.

Definition init_ts_list (list : Z) : M links unit :=
  modify (fun m => <[list := mk_list list list]> m).

Definition ts_list_add (_new head : Z) : M links unit :=
  let* h_next := node_next head in
  set_prev h_next _new ;;;
  let* h_next' := node_next head in
  set_next _new h_next' ;;;
  set_prev _new head ;;;
  set_next head _new.

Definition ts_list_del (entry : Z) : M links unit :=
  let* n := node_next entry in
  let* p := node_prev entry in
  set_prev n p ;;;
  let* p' := node_prev entry in
  let* n' := node_next entry in
  set_next p' n'.

Definition ts_list_empty (head : Z) : M links bool :=
  let* n := node_next head in
  if negb (n =? head) then ret false
  else let* p := node_prev head in ret (p =? head).

Definition ts_list_rotate_left (head : Z) : M links unit :=
  let* e := ts_list_empty head in
  if negb e then
    let* first := node_next head in
    ts_list_del first ;;;
    let* hp := node_prev head in
    ts_list_add first hp
  else ret tt.

(** * Facts: alignment *)

Lemma align_uint_eq u :
  0 <= u < 2 ^ 32 - 64 -> align_uint_to_cacheline u = 64 * ((u + 63) / 64).
Proof.
  intros Hu. unfold align_uint_to_cacheline.
  change (u32 (Z.lnot TS_CACHE_LINE_MASK)) with 63.
  change (u32 TS_CACHE_LINE_MASK) with (2 ^ 32 - 2 ^ 6).
  rewrite u32_small by lia. rewrite (land_high_mask 32 6) by lia. done.
Qed.

Lemma align_uint_bounds u :
  0 <= u < 2 ^ 32 - 64 ->
  (64 | align_uint_to_cacheline u) /\
  u <= align_uint_to_cacheline u < u + 64 /\
  (0 < u -> 64 <= align_uint_to_cacheline u).
Proof.
  intros Hu. rewrite align_uint_eq by done.
  split; [exists ((u + 63) / 64); lia |].
  pose proof (Z.div_mod (u + 63) 64 ltac:(lia)).
  pose proof (Z.mod_pos_bound (u + 63) 64 ltac:(lia)). lia.
Qed.

Lemma is_ptr_cacheline_aligned_iff p :
  is_ptr_cacheline_aligned p = true <-> (64 | p).
Proof.
  unfold is_ptr_cacheline_aligned. rewrite Z.eqb_eq.
  change (lnot64 TS_CACHE_LINE_MASK) with (2 ^ 6 - 1).
  rewrite land_ones_mod by lia. rewrite Z.mod_divide by lia. done.
Qed.

Lemma align_ptr_aligned p :
  0 <= p < 2 ^ 64 - 64 ->
  is_ptr_cacheline_aligned (align_ptr_to_cacheline p) = true /\
  p <= align_ptr_to_cacheline p < p + TS_CACHE_LINE_SIZE.
Proof.
  intros Hp. unfold align_ptr_to_cacheline.
  change (lnot64 TS_CACHE_LINE_MASK) with 63.
  change (u64 TS_CACHE_LINE_MASK) with (2 ^ 64 - 2 ^ 6).
  rewrite u64_small by lia. rewrite (land_high_mask 64 6) by lia.
  rewrite is_ptr_cacheline_aligned_iff.
  split; [exists ((p + 63) / 2 ^ 6); lia |].
  change TS_CACHE_LINE_SIZE with 64. change (2 ^ 6) with 64.
  pose proof (Z.div_mod (p + 63) 64 ltac:(lia)).
  pose proof (Z.mod_pos_bound (p + 63) 64 ltac:(lia)). lia.
Qed.

(** * Facts: pointer sets *)

(** the elements a pointer set holds, in push order *)
Definition ptrset_elems (ps : ts_ptr_set) : list Z :=
  omap id (take (Z.to_nat (num_ptrs ps)) (default [] (ptrs ps))).

Definition ptrset_wf (ps : ts_ptr_set) : Prop :=
  exists slots, ptrs ps = Some slots /\
    num_max_ptrs ps = Z.of_nat (length slots) /\
    0 <= num_ptrs ps <= num_max_ptrs ps /\
    num_max_ptrs ps + TS_INIT_PTR_SET_SIZE < 2 ^ 32 /\
    Forall is_Some (take (Z.to_nat (num_ptrs ps)) slots).

Lemma ptrset_init_wf : ptrset_wf (ptrset_init true).2 /\ ptrset_elems (ptrset_init true).2 = [].
Proof.
  split; [| reflexivity]. exists (replicate 512 None).
  split; [reflexivity |]. split; [reflexivity |]. split; [by vm_compute |].
  split; [by vm_compute | constructor].
Qed.

Lemma omap_id_length (l : list (option Z)) :
  Forall is_Some l -> length (omap id l) = length l.
Proof. induction 1 as [| x l [y ->] Hl IH]; cbn; [done |]. by rewrite IH. Qed.

Lemma ptrset_elems_length ps : ptrset_wf ps -> Z.of_nat (length (ptrset_elems ps)) = num_ptrs ps.
Proof.
  intros (slots & Hs & Hm & Hn & _ & Hf). unfold ptrset_elems. rewrite Hs. cbn.
  rewrite omap_id_length by done. rewrite length_take. lia.
Qed.

Lemma ptrset_expand_wf ps :
  ptrset_wf ps -> num_max_ptrs ps + 2 * TS_INIT_PTR_SET_SIZE < 2 ^ 32 ->
  exists ps', ptrset_expand true ps = (0, ps') /\ ptrset_wf ps' /\
    num_ptrs ps' = num_ptrs ps /\
    num_max_ptrs ps' = num_max_ptrs ps + TS_INIT_PTR_SET_SIZE /\
    ptrset_elems ps' = ptrset_elems ps.
Proof.
  intros (slots & Hs & Hm & Hn & Hb & Hf) Hb2.
  unfold ptrset_expand. rewrite u32_small by (unfold TS_INIT_PTR_SET_SIZE in *; lia).
  eexists. split; [reflexivity |]. rewrite Hs. cbn [default].
  set (slots' := take _ _).
  assert (Hlen : length slots' = Z.to_nat (num_max_ptrs ps + TS_INIT_PTR_SET_SIZE)).
  { unfold slots'. rewrite length_take, length_app, length_replicate. lia. }
  assert (Htake : take (Z.to_nat (num_ptrs ps)) slots' = take (Z.to_nat (num_ptrs ps)) slots).
  { unfold slots'. rewrite take_take, Nat.min_l by (unfold TS_INIT_PTR_SET_SIZE; lia).
    apply take_app_le. lia. }
  split; [| cbn; split; [done | split; [done |]]].
  - exists slots'. cbn. unfold TS_INIT_PTR_SET_SIZE in *.
    split; [done |]. split; [lia |]. split; [lia |]. split; [lia |]. by rewrite Htake.
  - unfold ptrset_elems. cbn. by rewrite Htake, Hs.
Qed.

Lemma ptrset_store_elems ps p :
  ptrset_wf ps -> num_ptrs ps < num_max_ptrs ps ->
  exists ps', ptrset_store ps (num_ptrs ps) p = Ok ps' /\
    ptrset_wf (ps' <| num_ptrs := num_ptrs ps + 1 |>) /\
    ptrset_elems (ps' <| num_ptrs := num_ptrs ps + 1 |>) = ptrset_elems ps ++ [p] /\
    num_max_ptrs ps' = num_max_ptrs ps.
Proof.
  intros (slots & Hs & Hm & Hn & Hb & Hf) Hlt.
  unfold ptrset_store. rewrite Hs.
  rewrite (proj2 (Z.leb_le 0 _)), (proj2 (Z.ltb_lt _ _)) by lia. cbn.
  eexists. split; [reflexivity |].
  assert (Htake : take (Z.to_nat (num_ptrs ps + 1)) (<[Z.to_nat (num_ptrs ps) := Some p]> slots)
                  = take (Z.to_nat (num_ptrs ps)) slots ++ [Some p]).
  { replace (Z.to_nat (num_ptrs ps + 1)) with (S (Z.to_nat (num_ptrs ps))) by lia.
    erewrite take_S_r by (apply list_lookup_insert_eq; lia).
    f_equal. by rewrite take_insert_ge by lia. }
  split.
  - eexists. cbn. split; [reflexivity |]. rewrite length_insert.
    split; [done |]. split; [lia |]. split; [done |].
    rewrite Htake, Forall_app, Forall_singleton. split; [done | by eexists].
  - split; [| done]. unfold ptrset_elems. cbn. rewrite Htake, Hs, omap_app. done.
Qed.

(** [ptrset_push] appends its argument, expanding the array when it is full. *)
Lemma ptrset_push_elems ps p :
  ptrset_wf ps -> num_max_ptrs ps + 2 * TS_INIT_PTR_SET_SIZE < 2 ^ 32 ->
  exists ps', ptrset_push true ps p = Ok (0, ps') /\ ptrset_wf ps' /\
    ptrset_elems ps' = ptrset_elems ps ++ [p] /\ num_max_ptrs ps' <= num_max_ptrs ps + TS_INIT_PTR_SET_SIZE.
Proof.
  intros Hwf Hb. unfold ptrset_push.
  destruct (Z.leb_spec (num_max_ptrs ps) (num_ptrs ps)) as [Hfull | Hfree].
  - destruct (ptrset_expand_wf ps Hwf Hb) as (ps1 & E & Hwf1 & Hn1 & Hm1 & He1).
    rewrite E. cbn [negb Z.eqb].
    assert (Hn : 0 <= num_ptrs ps <= num_max_ptrs ps) by (by destruct Hwf as (? & ? & ? & ? & ?)).
    destruct (ptrset_store_elems ps1 p Hwf1) as (ps2 & E2 & Hwf2 & He2 & Hm2).
    { unfold TS_INIT_PTR_SET_SIZE in *. lia. }
    rewrite E2. eexists. split; [reflexivity |].
    rewrite u32_small by (unfold TS_INIT_PTR_SET_SIZE in *; lia).
    split; [done |]. split; [by rewrite He2, He1 |]. cbn. lia.
  - cbn [negb Z.eqb].
    assert (Hn : 0 <= num_ptrs ps <= num_max_ptrs ps) by (by destruct Hwf as (? & ? & ? & ? & ?)).
    destruct (ptrset_store_elems ps p Hwf Hfree) as (ps2 & E2 & Hwf2 & He2 & Hm2).
    rewrite E2. eexists. split; [reflexivity |].
    rewrite u32_small by (unfold TS_INIT_PTR_SET_SIZE in *; lia).
    split; [done |]. split; [done |]. cbn. unfold TS_INIT_PTR_SET_SIZE. lia.
Qed.

Lemma ptrset_find_spec slots n p :
  Forall is_Some (take n slots) -> (n <= length slots)%nat ->
  ptrset_find slots n p = bool_decide (p ∈ omap id (take n slots)).
Proof.
  revert n. induction slots as [| o slots IH]; intros n Hf Hn.
  - destruct n; [done | cbn in Hn; lia].
  - destruct n as [| n]; [done |]. cbn in Hf, Hn. inversion Hf as [| ? ? [q ->] Hf']; subst.
    cbn. rewrite IH by (done || lia).
    destruct (Z.eqb_spec q p) as [-> | Hne].
    + symmetry. apply bool_decide_eq_true, elem_of_cons. by left.
    + apply bool_decide_ext. set_solver.
Qed.

Lemma ptrset_is_member_spec ps p :
  ptrset_wf ps -> ptrset_is_member ps p = bool_decide (p ∈ ptrset_elems ps).
Proof.
  intros (slots & Hs & Hm & Hn & Hb & Hf). unfold ptrset_is_member, ptrset_elems.
  rewrite Hs. cbn. apply ptrset_find_spec; [done | lia].
Qed.

(** * Facts: circular lists *)

(** consecutive pairs of a path *)
Fixpoint adj (l : list Z) : list (Z * Z) :=
  match l with
  | a :: (b :: _) as l' => (a, b) :: adj l'
  | _ => []
  end.

Definition linked (m : links) (ab : Z * Z) : Prop :=
  (l_next <$> m !! ab.1) = Some ab.2 /\ (l_prev <$> m !! ab.2) = Some ab.1.

(** [m] holds the circular list of head node [head] over the nodes [l] *)
Definition dll (m : links) (head : Z) (l : list Z) : Prop :=
  NoDup (head :: l) /\ Forall (linked m) (adj (head :: l ++ [head])).

Lemma adj_app l1 a l2 : adj (l1 ++ a :: l2) = adj (l1 ++ [a]) ++ adj (a :: l2).
Proof.
  induction l1 as [| x l1 IH]; [done |].
  destruct l1 as [| y l1]; [done |]. cbn in *. by rewrite IH.
Qed.

Lemma adj_fst l a : (adj (l ++ [a])).*1 = l.
Proof.
  induction l as [| x l IH]; [done |]. destruct l as [| y l]; [done |].
  cbn in *. by rewrite IH.
Qed.

Lemma adj_snd a l : (adj (a :: l)).*2 = l.
Proof. revert a. induction l as [| x l IH]; intros a; [done |]. cbn in *. by rewrite IH. Qed.

Lemma linked_set_next m a v n ab :
  m !! a = Some n -> ab.1 <> a -> linked m ab -> linked (<[a := n <| l_next := v |>]> m) ab.
Proof.
  intros Ha Hne [Hn Hp]. split; [by rewrite lookup_insert_ne |].
  destruct (decide (a = ab.2)) as [-> |]; [| by rewrite lookup_insert_ne].
  rewrite lookup_insert_eq. rewrite Ha in Hp. done.
Qed.

Lemma linked_set_prev m a v n ab :
  m !! a = Some n -> ab.2 <> a -> linked m ab -> linked (<[a := n <| l_prev := v |>]> m) ab.
Proof.
  intros Ha Hne [Hn Hp]. split; [| by rewrite lookup_insert_ne].
  destruct (decide (a = ab.1)) as [-> |]; [| by rewrite lookup_insert_ne].
  rewrite lookup_insert_eq. rewrite Ha in Hn. done.
Qed.

Lemma node_next_run m a b : (l_next <$> m !! a) = Some b -> node_next a m = Ok (b, m).
Proof. unfold node_next. by destruct (m !! a); intros [= ->]. Qed.
Lemma node_prev_run m a b : (l_prev <$> m !! a) = Some b -> node_prev a m = Ok (b, m).
Proof. unfold node_prev. by destruct (m !! a); intros [= ->]. Qed.

(** set both ends of a link: what [ts_list_add] and [ts_list_del] are made of *)
Lemma set_prev_run m a v n : m !! a = Some n ->
  set_prev a v m = Ok (tt, <[a := n <| l_prev := v |>]> m).
Proof. unfold set_prev. by intros ->. Qed.
Lemma set_next_run m a v n : m !! a = Some n ->
  set_next a v m = Ok (tt, <[a := n <| l_next := v |>]> m).
Proof. unfold set_next. by intros ->. Qed.

Lemma dll_first m head l : dll m head l ->
  (l_next <$> m !! head) = Some (default head (hd_error l)) /\
  (l_prev <$> m !! head) = Some (default head (last l)).
Proof.
  intros [Hnd Hf]. split.
  - destruct l as [| x l]; cbn in Hf; inversion Hf as [| ? ? [H1 H2] _]; exact H1.
  - destruct l as [| x l] using rev_ind.
    + cbn in Hf. inversion Hf as [| ? ? [H1 H2] _]; exact H2.
    + clear IHl. rewrite last_snoc. cbn [default].
      change (head :: (l ++ [x]) ++ [head]) with ((head :: (l ++ [x])) ++ [head]) in Hf.
      change (head :: l ++ [x]) with ((head :: l) ++ [x]) in Hf.
      rewrite <- app_assoc in Hf. cbn [app] in Hf.
      change (head :: l ++ [x; head]) with ((head :: l) ++ x :: [head]) in Hf.
      rewrite adj_app, Forall_app in Hf. destruct Hf as [_ Hf].
      inversion Hf as [| ? ? [H1 H2] _]. exact H2.
Qed.

(** the circular list seen from another of its nodes *)
Lemma dll_rotate m head x l : dll m head (x :: l) -> dll m x (l ++ [head]).
Proof.
  intros [Hnd Hf]. split.
  - change (x :: l ++ [head]) with ((x :: l) ++ [head]).
    by rewrite (Permutation_app_comm (x :: l) [head]).
  - cbn in Hf. inversion Hf as [| ? ? Hhx Hf']; subst.
    rewrite <- app_assoc. cbn [app].
    change (x :: l ++ [head; x]) with ((x :: l) ++ head :: [x]).
    rewrite adj_app, Forall_app. split; [exact Hf' |].
    constructor; [done | constructor].
Qed.

Lemma dll_rotate_iff m head l1 x l2 :
  dll m head (l1 ++ x :: l2) -> dll m x (l2 ++ head :: l1).
Proof.
  revert head l2. induction l1 as [| y l1 IH]; intros head l2 H; cbn in H.
  - by apply dll_rotate.
  - apply dll_rotate in H. rewrite <- app_assoc in H. cbn in H.
    apply IH in H. by rewrite <- app_assoc in H.
Qed.

(** writing a link [a -> b] into both nodes *)
Lemma link_both (m : links) a b na :
  m !! a = Some na -> is_Some (m !! b) ->
  exists m', (set_prev b a ;;; set_next a b) m = Ok (tt, m') /\
    linked m' (a, b) /\
    (forall ab, ab.1 <> a -> ab.2 <> b -> linked m ab -> linked m' ab) /\
    (forall c, is_Some (m !! c) -> is_Some (m' !! c)) /\
    (a <> b -> (l_prev <$> m' !! a) = Some (l_prev na)) /\
    (a <> b -> (l_next <$> m' !! b) = (l_next <$> m !! b)) /\
    (forall c, c <> a -> c <> b -> m' !! c = m !! c).
Proof.
  intros Ha [nb Hb].
  set (m1 := <[b := nb <| l_prev := a |>]> m).
  assert (Ha1 : exists na1, m1 !! a = Some na1 /\ (a <> b -> na1 = na)).
  { unfold m1. destruct (decide (a = b)) as [-> |].
    - rewrite lookup_insert_eq. eexists; by split.
    - rewrite lookup_insert_ne by done. eauto. }
  destruct Ha1 as (na1 & Ha1 & Hna).
  set (m2 := <[a := na1 <| l_next := b |>]> m1).
  exists m2. split.
  { rewrite (bind_run _ _ _ tt m1) by (by apply set_prev_run).
    by apply set_next_run. }
  split; [| split; [| split; [| split; [| split]]]].
  - unfold m2. split; cbn.
    + by rewrite lookup_insert_eq.
    + destruct (decide (a = b)) as [-> | Hne].
      * rewrite lookup_insert_eq. unfold m1 in Ha1. rewrite lookup_insert_eq in Ha1.
        injection Ha1 as <-. done.
      * rewrite lookup_insert_ne by done. unfold m1. by rewrite lookup_insert_eq.
  - intros ab H1 H2 Hl. apply linked_set_next; [done | done |].
    by apply linked_set_prev.
  - intros c Hc. unfold m2, m1. rewrite !lookup_insert_is_Some'. tauto.
  - intros Hne. unfold m2. rewrite lookup_insert_eq. cbn. by rewrite Hna.
  - intros Hne. unfold m2. rewrite lookup_insert_ne by done. unfold m1.
    by rewrite lookup_insert_eq, Hb.
  - intros c Hca Hcb. unfold m2, m1. by rewrite !lookup_insert_ne by done.
Qed.

Lemma dll_in_dom m head l a : dll m head l -> a ∈ head :: l -> is_Some (m !! a).
Proof.
  intros [_ Hf] Ha.
  assert (Ha' : a ∈ (adj (head :: l ++ [head])).*1).
  { change (head :: l ++ [head]) with ((head :: l) ++ [head]). by rewrite adj_fst. }
  apply list_elem_of_fmap in Ha' as (ab & -> & Hab).
  rewrite Forall_forall in Hf. destruct (Hf ab Hab) as [H _].
  destruct (m !! ab.1); [by eexists | done].
Qed.

Lemma adj_fst_in l a ab : ab ∈ adj (l ++ [a]) -> ab.1 ∈ l.
Proof. intros H. rewrite <- (adj_fst l a). by apply list_elem_of_fmap_2. Qed.
Lemma adj_snd_in l a ab : ab ∈ adj (a :: l) -> ab.2 ∈ l.
Proof. intros H. rewrite <- (adj_snd a l). by apply list_elem_of_fmap_2. Qed.

(** [ts_list_add] puts the node first after the head. *)
Lemma ts_list_add_dll m head l new :
  dll m head l -> new ∉ head :: l -> is_Some (m !! new) ->
  exists m', ts_list_add new head m = Ok (tt, m') /\ dll m' head (new :: l) /\
    (forall c, is_Some (m !! c) -> is_Some (m' !! c)).
Proof.
  intros Hd Hnew [nn Hnn]. destruct (dll_first _ _ _ Hd) as [Hfirst _].
  remember (default head (hd_error l)) as f eqn:Hfdef.
  assert (Hf_in : f ∈ l ++ [head]).
  { rewrite Hfdef. destruct l; cbn; elems. }
  assert (Hf_in' : f ∈ head :: l).
  { apply elem_of_cons. apply elem_of_app in Hf_in as [? | ?%list_elem_of_singleton]; auto. }
  assert (Hne_f : new <> f) by congruence.
  assert (Hne_h : new <> head) by elems.
  destruct (link_both m new f nn) as (m1 & E1 & Hl1 & Hk1 & Hd1 & Hp1 & Hn1 & Ho1).
  { done. } { by apply (dll_in_dom m head l). }
  assert (Hh1 : (l_next <$> m1 !! head) = Some f).
  { destruct (decide (f = head)) as [Ef | Ef].
    - rewrite <- Ef, (Hn1 Hne_f), Ef. congruence.
    - rewrite Ho1; [done | by apply not_eq_sym | by apply not_eq_sym]. }
  destruct (m1 !! head) as [nh |] eqn:Enh; [| done].
  destruct (link_both m1 head new nh) as (m2 & E2 & Hl2 & Hk2 & Hd2 & _).
  { done. } { apply Hd1. by eexists. }
  exists m2. split; [| split; [split |]].
  - unfold ts_list_add.
    rewrite (bind_run _ _ _ _ _ (node_next_run _ _ _ Hfirst)).
    unfold bind in E1, E2 |- *.
    destruct (set_prev f new m) as [[[] mA] |] eqn:EA; [| done].
    assert (HA : node_next head mA = Ok (f, mA)).
    { unfold set_prev in EA. destruct (m !! f) as [nf |] eqn:Ef; [| done].
      injection EA as <-. apply node_next_run.
      destruct (decide (f = head)) as [-> | Ef'].
      - rewrite lookup_insert_eq. cbn. rewrite Ef in Hfirst. exact Hfirst.
      - by rewrite lookup_insert_ne. }
    rewrite HA. rewrite E1.
    destruct (set_prev new head m1) as [[[] mB] |] eqn:EB; [| done].
    exact E2.
  - destruct Hd as [Hnd _]. apply NoDup_cons in Hnd as [Hhl Hnd].
    rewrite !NoDup_cons. split; [elems | split; [elems | done]].
  - destruct Hd as [Hnd Hf].
    change (adj (head :: (new :: l) ++ [head])) with ((head, new) :: adj (new :: l ++ [head])).
    constructor; [done |].
    assert (Hrest : adj (head :: l ++ [head]) = (head, f) :: adj (f :: tail (l ++ [head]))
                    /\ adj (new :: l ++ [head]) = (new, f) :: adj (f :: tail (l ++ [head]))).
    { rewrite Hfdef. destruct l; by split. }
    destruct Hrest as [R1 R2]. rewrite R1 in Hf. rewrite R2.
    apply Forall_cons in Hf as [_ Hf'].
    constructor; [by apply Hk2; cbn; congruence |].
    rewrite Forall_forall in Hf' |- *. intros ab Hab.
    assert (Hb2 : ab.2 ∈ tail (l ++ [head])) by (by apply adj_snd_in in Hab).
    assert (Hb1 : ab.1 ∈ l).
    { assert (E : f :: tail (l ++ [head]) = l ++ [head]) by (rewrite Hfdef; by destruct l).
      rewrite E in Hab. by apply adj_fst_in in Hab. }
    assert (Hnd' : NoDup (l ++ [head])).
    { by rewrite (Permutation_app_comm l [head]). }
    assert (Hb2f : ab.2 <> f).
    { intros E. assert (E' : l ++ [head] = f :: tail (l ++ [head])) by (rewrite Hfdef; by destruct l).
      rewrite E' in Hnd'. apply NoDup_cons in Hnd' as [Hnin _]. apply Hnin. by rewrite <- E. }
    assert (Hb2n : ab.2 ∈ l ++ [head]).
    { destruct l; cbn in *; elems. }
    apply NoDup_cons in Hnd as [Hhl _].
    apply Hk2; [intros E; rewrite E in Hb1; done | intros E; rewrite E in Hb2n; elems |].
    apply Hk1; [intros E; rewrite E in Hb1; elems | done |]. by apply Hf'.
  - intros c Hc. by apply Hd2, Hd1.
Qed.

(** [ts_list_del] takes the node out and leaves the rest linked. *)
Lemma ts_list_del_first m e x l :
  dll m e (x :: l) ->
  exists m', ts_list_del e m = Ok (tt, m') /\ dll m' x l /\
    (forall c, is_Some (m !! c) -> is_Some (m' !! c)).
Proof.
  intros Hd. destruct (dll_first _ _ _ Hd) as [Hn Hp]. cbn [hd_error default] in Hn.
  destruct (exists_last (l := x :: l)) as (l0 & y & Ey); [done |].
  rewrite Ey, last_snoc in Hp. cbn [default] in Hp. unfold id in Hn, Hp.
  assert (Hy_in : y ∈ x :: l) by (rewrite Ey; elems).
  destruct (dll_in_dom _ _ _ y Hd) as [ny Hny]; [elems |].
  destruct (link_both m y x ny) as (m1 & E1 & Hl1 & Hk1 & Hd1 & _ & _ & Ho1).
  { done. } { apply (dll_in_dom m e (x :: l)); [done |]. elems. }
  destruct Hd as [Hnd Hf]. pose proof Hnd as Hnd0.
  apply NoDup_cons in Hnd as [He Hnd].
  exists m1. split; [| split; [split; [done |] |]].
  - unfold ts_list_del.
    rewrite (bind_run _ _ _ _ _ (node_next_run _ _ _ Hn)).
    rewrite (bind_run _ _ _ _ _ (node_prev_run _ _ _ Hp)).
    unfold bind in E1 |- *.
    destruct (set_prev x y m) as [[[] mA] |] eqn:EA; [| done].
    unfold set_prev in EA. destruct (m !! x) as [nx |]; [| done]. injection EA as <-.
    assert (Hex : x <> e) by elems.
    rewrite (node_prev_run _ e y) by (by rewrite lookup_insert_ne).
    rewrite (node_next_run _ e x) by (by rewrite lookup_insert_ne).
    exact E1.
  - change (x :: l ++ [x]) with ((x :: l) ++ [x]).
    change (e :: (x :: l) ++ [e]) with ([e] ++ ((x :: l) ++ [e])) in Hf.
    rewrite Ey in Hf |- *. rewrite <- app_assoc in Hf |- *. cbn [app] in Hf |- *.
    rewrite adj_app. apply Forall_app. split; [| constructor; [exact Hl1 | constructor]].
    assert (Hsub : Forall (linked m) (adj (l0 ++ [y]))).
    { change (e :: l0 ++ [y; e]) with ((e :: l0) ++ y :: [e]) in Hf.
      rewrite adj_app in Hf. apply Forall_app in Hf as [Hf _].
      destruct l0 as [| z l0]; [constructor |]. cbn in Hf. by inversion Hf. }
    rewrite Forall_forall in Hsub |- *. intros ab Hab.
    rewrite Ey in Hnd.
    apply Hk1; [| | by apply Hsub].
    + intros E. apply adj_fst_in in Hab. rewrite E in Hab.
      apply NoDup_app in Hnd as (_ & H & _). apply (H y Hab). elems.
    + intros E. rewrite <- Ey in Hab, Hnd. apply adj_snd_in in Hab. rewrite E in Hab.
      by apply NoDup_cons in Hnd as [? _].
  - done.
Qed.

Lemma ts_list_del_dll m head l1 e l2 :
  dll m head (l1 ++ e :: l2) ->
  exists m', ts_list_del e m = Ok (tt, m') /\ dll m' head (l1 ++ l2) /\
    (forall c, is_Some (m !! c) -> is_Some (m' !! c)).
Proof.
  intros Hd. apply dll_rotate_iff in Hd. destruct l2 as [| x l2]; cbn in Hd.
  - destruct (ts_list_del_first _ _ _ _ Hd) as (m' & E & H & Hd').
    exists m'. rewrite app_nil_r. by split.
  - destruct (ts_list_del_first _ _ _ _ Hd) as (m' & E & H & Hd').
    exists m'. split; [done |]. split; [by apply dll_rotate_iff |]. done.
Qed.

Lemma ts_list_empty_spec m head l :
  dll m head l -> ts_list_empty head m = Ok (bool_decide (l = []), m).
Proof.
  intros Hd. destruct (dll_first _ _ _ Hd) as [Hn Hp].
  destruct Hd as [Hnd _]. apply NoDup_cons in Hnd as [Hh _].
  unfold ts_list_empty. rewrite (bind_run _ _ _ _ _ (node_next_run _ _ _ Hn)).
  destruct l as [| x l]; cbn [hd_error default] in *; unfold id in *.
  - rewrite Z.eqb_refl. cbn [negb].
    rewrite (bind_run _ _ _ _ _ (node_prev_run _ _ _ Hp)). by rewrite Z.eqb_refl.
  - destruct (Z.eqb_spec x head) as [-> |]; [elems |]. done.
Qed.

(** [ts_list_rotate_left] moves the first node to the end. *)
Lemma ts_list_rotate_left_dll m head l :
  dll m head l ->
  exists m', ts_list_rotate_left head m = Ok (tt, m') /\
    dll m' head (match l with [] => [] | x :: l' => l' ++ [x] end) /\
    (forall c, is_Some (m !! c) -> is_Some (m' !! c)).
Proof.
  intros Hd. unfold ts_list_rotate_left.
  rewrite (bind_run _ _ _ _ _ (ts_list_empty_spec _ _ _ Hd)).
  destruct l as [| x l]; [by eexists |].
  rewrite bool_decide_eq_false_2 by done. cbn [negb].
  destruct (dll_first _ _ _ Hd) as [Hn _].
  cbn [hd_error default] in Hn. unfold id in Hn.
  rewrite (bind_run _ _ _ _ _ (node_next_run _ _ _ Hn)).
  pose proof Hd as [Hnd _].
  destruct (ts_list_del_dll m head [] x l Hd) as (m1 & E1 & H1 & D1). cbn [app] in H1.
  rewrite (bind_run _ _ _ _ _ E1).
  destruct (dll_first _ _ _ H1) as [_ Hp].
  rewrite (bind_run _ _ _ _ _ (node_prev_run _ _ _ Hp)).
  assert (Hx : is_Some (m1 !! x)) by (apply D1, (dll_in_dom m head (x :: l)); elems).
  destruct l as [| y l] using rev_ind.
  - cbn in *. destruct (ts_list_add_dll m1 head [] x H1) as (m2 & E2 & H2 & D2); [| done |].
    { inversion Hnd; elems. }
    exists m2. split; [done |]. split; [done |]. auto.
  - clear IHl. rewrite last_snoc. cbn [default]. unfold id.
    apply (dll_rotate_iff m1 head l y []) in H1. cbn [app] in H1.
    destruct (ts_list_add_dll m1 y (head :: l) x H1) as (m2 & E2 & H2 & D2); [| done |].
    { inversion Hnd as [| ? ? ? Hnd2]; inversion Hnd2; elems. }
    exists m2. split; [done |]. split; [| auto].
    apply (dll_rotate_iff m2 y [x] head l) in H2.
    by rewrite <- app_assoc.
Qed.

(** the successor of a node of a circular list *)
Lemma dll_next m head l1 e l2 :
  dll m head (l1 ++ e :: l2) -> (l_next <$> m !! e) = Some (default head (hd_error l2)).
Proof.
  intros H. apply dll_rotate_iff, dll_first in H as [H _]. rewrite H. by destruct l2.
Qed.

Lemma dll_length m head l : dll m head l -> (length l < size m)%nat.
Proof.
  intros Hd. destruct Hd as [Hnd Hf] eqn:E. clear E.
  enough (length (head :: l) <= size m)%nat by (cbn in *; lia).
  rewrite <- (size_list_to_set (C := gset Z) (head :: l)) by done. rewrite <- size_dom.
  apply subseteq_size. intros a Ha%elem_of_list_to_set. apply elem_of_dom.
  by apply (dll_in_dom m head l).
Qed.

(** * What the pointer sets and the lists promise *)

(** [ptrset_push] on a well-formed set appends its argument, expanding the
    array when it is full; afterwards membership is what it was, plus the new
    pointer. *)
Theorem ptrset_push_spec ps p :
  ptrset_wf ps -> num_max_ptrs ps + 2 * TS_INIT_PTR_SET_SIZE < 2 ^ 32 ->
  exists ps', ptrset_push true ps p = Ok (0, ps') /\ ptrset_wf ps' /\
    ptrset_elems ps' = ptrset_elems ps ++ [p] /\
    forall q, ptrset_is_member ps' q = ptrset_is_member ps q || (q =? p).
Proof.
  intros Hwf Hb. destruct (ptrset_push_elems ps p Hwf Hb) as (ps' & E & Hwf' & He & _).
  exists ps'. split; [done |]. split; [done |]. split; [done |]. intros q.
  rewrite !ptrset_is_member_spec, He by done. apply eq_true_iff_eq.
  rewrite orb_true_iff, !bool_decide_eq_true, elem_of_app, list_elem_of_singleton, Z.eqb_eq. tauto.
Qed.

(** C37. [ptrset_pop] does not undo [ptrset_push]: it reads the slot after the
    last pointer, so that what a push stored is not what the pop answers; the
    slot is past the end of the array, never written (both undefined
    behaviour), or holds the stale pointer [q]. *)
Theorem ptrset_push_pop ps slots p :
  ptrset_wf ps -> ptrs ps = Some slots -> num_ptrs ps < num_max_ptrs ps ->
  exists ps', ptrset_push true ps p = Ok (0, ps') /\
    ptrset_pop ps' =
      match slots !! S (Z.to_nat (num_ptrs ps)) with
      | Some (Some q) => Ok (q, ps' <| num_ptrs := num_ptrs ps |>)
      | _ => Fault UB
      end.
Proof.
  intros (sl & Hs & Hm & Hn & Hb & _) Hs' Hlt. assert (sl = slots) as -> by congruence.
  unfold TS_INIT_PTR_SET_SIZE in Hb. unfold ptrset_push.
  rewrite (proj2 (Z.leb_gt _ _)) by done. cbn [negb Z.eqb]. unfold ptrset_store. rewrite Hs.
  rewrite (proj2 (Z.leb_le 0 _)), (proj2 (Z.ltb_lt _ _)) by lia. cbn [andb].
  eexists. split; [reflexivity |]. rewrite u32_small by lia.
  unfold ptrset_pop. cbn [upd num_ptrs]. rewrite (proj2 (Z.ltb_lt 0 _)) by lia.
  unfold ptrset_load. cbn [upd ptrs]. rewrite (proj2 (Z.leb_le 0 _)) by lia.
  replace (Z.to_nat (num_ptrs ps + 1)) with (S (Z.to_nat (num_ptrs ps))) by lia.
  rewrite list_lookup_insert_ne by lia.
  destruct (slots !! _) as [[q |] |]; [| done | done].
  rewrite u32_small by lia. do 3 f_equal. cbn. by replace (num_ptrs ps + 1 - 1) with (num_ptrs ps) by lia.
Qed.

(** The intrusive circular lists implement sequences of nodes: adding puts a
    node in front, deleting removes it wherever it is, the emptiness test is
    exact and rotation moves the first node to the end. *)
Theorem ts_list_refines m head l :
  dll m head l ->
  ts_list_empty head m = Ok (bool_decide (l = []), m) /\
  (forall new, new ∉ head :: l -> is_Some (m !! new) ->
     exists m', ts_list_add new head m = Ok (tt, m') /\ dll m' head (new :: l)) /\
  (forall l1 e l2, l = l1 ++ e :: l2 ->
     exists m', ts_list_del e m = Ok (tt, m') /\ dll m' head (l1 ++ l2)) /\
  (exists m', ts_list_rotate_left head m = Ok (tt, m') /\
     dll m' head (match l with [] => [] | x :: l' => l' ++ [x] end)).
Proof.
  intros Hd. split; [by apply ts_list_empty_spec |]. split; [| split].
  - intros new Hn Hm. destruct (ts_list_add_dll m head l new Hd Hn Hm) as (m' & E & H & _). by exists m'.
  - intros l1 e l2 ->. destruct (ts_list_del_dll m head l1 e l2 Hd) as (m' & E & H & _). by exists m'.
  - destruct (ts_list_rotate_left_dll m head l Hd) as (m' & E & H & _). by exists m'.
Qed.

(** * Examples *)

Definition ex_set : ts_ptr_set := (ptrset_init true).2.

Lemma ptrset_push_spec_witness :
  exists ps', ptrset_push true ex_set 7 = Ok (0, ps') /\ ptrset_is_member ps' 7 = true.
Proof.
  destruct (ptrset_push_spec ex_set 7 (proj1 ptrset_init_wf) ltac:(by vm_compute)) as (ps' & E & _ & _ & Hm).
  exists ps'. split; [exact E |]. by rewrite Hm, orb_comm.
Defined.

Lemma ptrset_push_pop_witness :
  exists ps', ptrset_push true ex_set 7 = Ok (0, ps') /\ ptrset_pop ps' = Fault UB.
Proof.
  destruct (ptrset_push_pop ex_set (replicate 512 None) 7 (proj1 ptrset_init_wf) eq_refl ltac:(by vm_compute))
    as (ps' & E & Hp).
  exists ps'. split; [exact E |]. rewrite Hp. by vm_compute.
Defined.

Definition ex_ring : links := <[10 := mk_list 20 20]> (<[20 := mk_list 10 10]> (<[30 := mk_list 0 0]> ∅)).
Lemma ex_ring_dll : dll ex_ring 10 [20].
Proof.
  split; [repeat constructor; set_solver |]. repeat constructor; by vm_compute.
Qed.

Lemma ts_list_refines_witness :
  exists m', ts_list_add 30 10 ex_ring = Ok (tt, m') /\ dll m' 10 [30; 20].
Proof.
  destruct (ts_list_refines ex_ring 10 [20] ex_ring_dll) as (_ & Hadd & _ & _).
  exact (Hadd 30 ltac:(set_solver) ltac:(by eexists)).
Defined.
