(* ===== verification/Port.v ===== *)
(** The platform layer of [lib/port-user.h]: the allocator of tvlog space, a
    bitmap over the slots of one anonymous mapping.  ([malloc], [pthread_*],
    [mmap] and [madvise] are not TimeStone's code: the result of [mmap] is an
    argument.)  Compare-and-swap on a bitmap word is modelled on the current
    word, so the [goto retry] of a lost race is not taken. *)
From S2P Require Import Types.

Definition BITMAP_SIZE : Z := 1024.
Definition FULLY_ALLOCATED : Z := 0xFFFFFFFFFFFFFFFF.

(** [tvlog_region_allocator_t] with [g_start_addr] and [g_end_addr] *)
Record tvlog_region_allocator := mk_region {
  r_size : Z; r_num : Z; bitmap : list Z; g_start_addr : Z; g_end_addr : Z }.
#[export] Instance eta_region : Eta tvlog_region_allocator := fun r =>
  mk_region (r_size r) (r_num r) (bitmap r) (g_start_addr r) (g_end_addr r).

(** [mmap]'s result: an address, or the [errno] of MAP_FAILED *)
Definition port_tvlog_region_init (mmap : Z + Z) (size num : Z) (r : tvlog_region_allocator) :
    Z * tvlog_region_allocator :=
  let region_size := u64 (size * num) in
  let r := r <| bitmap := replicate (Z.to_nat BITMAP_SIZE) 0 |>
             <| r_size := size |> <| r_num := s32 num |> in
  match mmap with
  | inr errno => (errno, r)
  | inl addr => (0, r <| g_start_addr := addr |> <| g_end_addr := addr + region_size |>)
  end.

Definition port_tvlog_region_destroy (r : tvlog_region_allocator) : tvlog_region_allocator :=
  if g_start_addr r =? NULL then r
  else r <| g_start_addr := NULL |> <| g_end_addr := NULL |>.

(** the inner loop over the bits of the [i]-th word, from bit [j], [n] left *)
Inductive bit_scan : Set := BitFound (j : Z) | BitOutOfRange | BitNone.

Fixpoint alloc_scan_bits (num i word j : Z) (n : nat) : bit_scan :=
  match n with
  | O => BitNone
  | S n' =>
      let pos := i * 64 + j in
      if num <=? pos then BitOutOfRange
      else
        let mask := Z.shiftl 1 j in
        if Z.land word mask =? 0 then BitFound j
        else alloc_scan_bits num i word (j + 1) n'
  end.

(** the outer loop over the words from the [i]-th *)
Fixpoint alloc_scan_words (num i : Z) (words : list Z) : option Z :=
  match words with
  | [] => None
  | w :: words' =>
      if w =? FULLY_ALLOCATED then alloc_scan_words num (i + 1) words'
      else
        match alloc_scan_bits num i w 0 64 with
        | BitFound j => Some (i * 64 + j)
        | BitOutOfRange => None
        | BitNone => alloc_scan_words num (i + 1) words'
        end
  end.

(** [port_alloc_tvlog_mem]: the slot's address, or NULL *)
Definition port_alloc_tvlog_mem (r : tvlog_region_allocator) : Z * tvlog_region_allocator :=
  match alloc_scan_words (r_num r) 0 (bitmap r) with
  | Some pos =>
      let i := pos / 64 in
      let mask := Z.shiftl 1 (pos mod 64) in
      (g_start_addr r + u64 (pos * r_size r),
       r <| bitmap ::= alter (fun w => Z.lor w mask) (Z.to_nat i) |>)
  | None => (NULL, r)
  end.

(** [port_free_tvlog_mem]; the shift count is taken modulo 64, as the
    processor's shift does with the [int] [j] *)
Definition port_free_tvlog_mem (addr : Z) (r : tvlog_region_allocator) : tvlog_region_allocator :=
  let pos := s32 (u64 (addr - g_start_addr r) / r_size r) in
  let i := pos / 64 in
  let j := pos - (i + 64) in
  let mask := Z.shiftl 1 (j mod 64) in
  r <| bitmap ::= alter (fun w => Z.land w (lnot64 mask)) (Z.to_nat i) |>.

Definition port_addr_in_tvlog_region (addr : Z) (r : tvlog_region_allocator) : bool :=
  (g_start_addr r <=? addr) && (addr <? g_end_addr r).

(** * Facts *)

(** slot [pos] is marked in use *)
Definition slot_used (bm : list Z) (pos : Z) : bool :=
  Z.testbit (nth (Z.to_nat (pos / 64)) bm 0) (pos mod 64).

Definition region_wf (r : tvlog_region_allocator) : Prop :=
  length (bitmap r) = Z.to_nat BITMAP_SIZE /\
  Forall (fun w => 0 <= w < 2 ^ 64) (bitmap r) /\
  0 < r_num r <= 64 * BITMAP_SIZE /\ 0 < r_size r /\
  r_size r * r_num r < 2 ^ 64 /\ 0 < g_start_addr r.

Definition slot_addr (r : tvlog_region_allocator) (pos : Z) : Z :=
  g_start_addr r + pos * r_size r.

Lemma land_pow2_zero w j :
  0 <= j -> (Z.land w (Z.shiftl 1 j) =? 0) = negb (Z.testbit w j).
Proof.
  intros Hj. rewrite Z.shiftl_1_l. destruct (Z.testbit w j) eqn:E.
  - apply Z.eqb_neq. intros H0.
    assert (Hb : Z.testbit (Z.land w (2 ^ j)) j = true).
    { rewrite Z.land_spec, E, Z.pow2_bits_true by lia. done. }
    rewrite H0, Z.bits_0 in Hb. done.
  - apply Z.eqb_eq, Z.bits_inj'. intros n Hn.
    rewrite Z.land_spec, Z.bits_0, Z.pow2_bits_eqb by lia.
    destruct (Z.eqb_spec j n) as [-> |]; [by rewrite E | by rewrite andb_false_r].
Qed.

Lemma alloc_scan_bits_spec num i w j n :
  0 <= j -> j + Z.of_nat n = 64 ->
  match alloc_scan_bits num i w j n with
  | BitFound k => j <= k < 64 /\ i * 64 + k < num /\ Z.testbit w k = false /\
                  forall k', j <= k' < k -> Z.testbit w k' = true
  | BitOutOfRange => num < i * 64 + 64 /\
                     forall k', j <= k' < 64 -> i * 64 + k' < num -> Z.testbit w k' = true
  | BitNone => forall k', j <= k' < 64 -> Z.testbit w k' = true
  end.
Proof.
  revert j. induction n as [| n IH]; intros j Hj Hn; cbn; [lia |].
  destruct (Z.leb_spec num (i * 64 + j)); [split; [lia | intros; lia] |].
  rewrite land_pow2_zero by done. destruct (Z.testbit w j) eqn:E; cbn [negb].
  - specialize (IH (j + 1) ltac:(lia) ltac:(lia)).
    assert (Hstep : forall (P : Z -> Prop) hi, (forall k', j + 1 <= k' < hi -> P k') ->
              P j -> forall k', j <= k' < hi -> P k').
    { intros P hi HP Hpj k' Hk'. destruct (decide (k' = j)) as [-> |]; [done |].
      apply HP. lia. }
    destruct (alloc_scan_bits num i w (j + 1) n).
    + destruct IH as (? & ? & ? & ?). split; [lia |]. do 2 (split; [done |]).
      by apply (Hstep (fun k' => Z.testbit w k' = true)).
    + destruct IH as [? IH]. split; [done |].
      by apply (Hstep (fun k' => i * 64 + k' < num -> Z.testbit w k' = true)).
    + by apply (Hstep (fun k' => Z.testbit w k' = true)).
  - split; [lia |]. split; [lia |]. split; [done |]. lia.
Qed.

Lemma word_full w k : w = FULLY_ALLOCATED -> 0 <= k < 64 -> Z.testbit w k = true.
Proof.
  intros -> Hk. change FULLY_ALLOCATED with (Z.ones 64).
  by apply Z.ones_spec_low.
Qed.

Lemma slot_used_split bm i k :
  0 <= i -> 0 <= k < 64 ->
  slot_used bm (i * 64 + k) = Z.testbit (nth (Z.to_nat i) bm 0) k.
Proof.
  intros Hi Hk. unfold slot_used.
  replace ((i * 64 + k) / 64) with i by (rewrite Z.div_add_l by lia; rewrite Z.div_small; lia).
  replace ((i * 64 + k) mod 64) with k; [done |].
  rewrite Z.add_comm, Z.mod_add by lia. by rewrite Z.mod_small.
Qed.

(** the scan finds the first free slot *)
Lemma alloc_scan_words_spec num i words :
  0 <= i ->
  match alloc_scan_words num i words with
  | Some pos => 64 * i <= pos < num /\ pos < 64 * (i + Z.of_nat (length words)) /\
                slot_used words (pos - 64 * i) = false /\
                forall p, 64 * i <= p < pos -> slot_used words (p - 64 * i) = true
  | None => forall p, 64 * i <= p < num -> p < 64 * (i + Z.of_nat (length words)) ->
                      slot_used words (p - 64 * i) = true
  end.
Proof.
  revert i. induction words as [| w words IH]; intros i Hi; cbn [alloc_scan_words length].
  { intros; lia. }
  specialize (IH (i + 1) ltac:(lia)).
  assert (Hhd : forall k, 0 <= k < 64 -> slot_used (w :: words) k = Z.testbit w k).
  { intros k Hk. by apply (slot_used_split (w :: words) 0 k). }
  assert (Htl : forall p, 64 * (i + 1) <= p ->
            slot_used (w :: words) (p - 64 * i) = slot_used words (p - 64 * (i + 1))).
  { intros p Hp. unfold slot_used.
    replace (p - 64 * i) with (p - 64 * (i + 1) + 1 * 64) by lia.
    rewrite Z.div_add, Z.mod_add by lia.
    set (q := (p - 64 * (i + 1)) / 64).
    assert (0 <= q) by (apply Z.div_pos; lia).
    by replace (Z.to_nat (q + 1)) with (S (Z.to_nat q)) by lia. }
  assert (Hall : (forall k, 0 <= k < 64 -> Z.testbit w k = true) ->
    match alloc_scan_words num (i + 1) words with
    | Some pos => 64 * i <= pos < num /\ pos < 64 * (i + Z.of_nat (S (length words))) /\
                  slot_used (w :: words) (pos - 64 * i) = false /\
                  forall p, 64 * i <= p < pos -> slot_used (w :: words) (p - 64 * i) = true
    | None => forall p, 64 * i <= p < num -> p < 64 * (i + Z.of_nat (S (length words))) ->
                        slot_used (w :: words) (p - 64 * i) = true
    end).
  { intros Hw.
    assert (Hlow : forall p, 64 * i <= p < 64 * (i + 1) -> slot_used (w :: words) (p - 64 * i) = true).
    { intros p Hp. rewrite Hhd by lia. apply Hw. lia. }
    destruct (alloc_scan_words num (i + 1) words) as [pos |].
    - destruct IH as (? & ? & Hu & Hmin). split; [lia |]. split; [lia |].
      split; [rewrite Htl by lia; done |].
      intros p Hp. destruct (Z.lt_ge_cases p (64 * (i + 1))); [apply Hlow; lia |].
      rewrite Htl by lia. apply Hmin. lia.
    - intros p Hp Hp'. destruct (Z.lt_ge_cases p (64 * (i + 1))); [apply Hlow; lia |].
      rewrite Htl by lia. apply IH; lia. }
  destruct (Z.eqb_spec w FULLY_ALLOCATED) as [Ew | _].
  { apply Hall. intros k Hk. by apply word_full. }
  pose proof (alloc_scan_bits_spec num i w 0 64 ltac:(lia) ltac:(lia)) as Hs.
  destruct (alloc_scan_bits num i w 0 64) as [k | |]; [| | by apply Hall].
  - destruct Hs as (Hk & Hnum & Hf & Hmin). split; [lia |]. split; [lia |].
    replace (i * 64 + k - 64 * i) with k by lia.
    split; [by rewrite Hhd |]. intros p Hp. rewrite Hhd by lia. apply Hmin. lia.
  - destruct Hs as [Hnum Hs]. intros p Hp Hp'. rewrite Hhd by lia. apply Hs; lia.
Qed.

Lemma slot_used_alter bm i f k p :
  0 <= i < Z.of_nat (length bm) -> 0 <= k < 64 -> p = i * 64 + k ->
  slot_used (alter f (Z.to_nat i) bm) p = Z.testbit (f (nth (Z.to_nat i) bm 0)) k.
Proof.
  intros Hi Hk ->. rewrite slot_used_split by lia. f_equal.
  destruct (lookup_lt_is_Some_2 bm (Z.to_nat i)) as [w Hw]; [lia |].
  apply nth_lookup_Some with (d := 0) in Hw as E. rewrite E.
  apply nth_lookup_Some. rewrite list_lookup_alter_eq, Hw. done.
Qed.

Lemma slot_used_alter_ne bm i f p :
  0 <= i -> 0 <= p -> p / 64 <> i ->
  slot_used (alter f (Z.to_nat i) bm) p = slot_used bm p.
Proof.
  intros Hi Hp Hne. unfold slot_used. f_equal.
  rewrite !nth_lookup. rewrite list_lookup_alter_ne; [done |].
  assert (0 <= p / 64) by (apply Z.div_pos; lia). lia.
Qed.

Lemma testbit_lor_shift w j k :
  0 <= j -> 0 <= k -> Z.testbit (Z.lor w (Z.shiftl 1 j)) k = Z.testbit w k || (k =? j).
Proof.
  intros Hj Hk. rewrite Z.lor_spec, Z.shiftl_1_l, Z.pow2_bits_eqb by lia.
  by rewrite (Z.eqb_sym j k).
Qed.

Lemma testbit_clear w j k :
  0 <= j < 64 -> 0 <= k < 64 ->
  Z.testbit (Z.land w (lnot64 (Z.shiftl 1 j))) k = Z.testbit w k && negb (k =? j).
Proof.
  intros Hj Hk. unfold lnot64, u64. rewrite Z.land_spec, <- Z.land_ones by lia.
  rewrite Z.land_spec, Z.ones_spec_low, andb_true_r by lia.
  rewrite Z.lnot_spec, Z.shiftl_1_l, Z.pow2_bits_eqb by lia.
  by rewrite (Z.eqb_sym j k).
Qed.

Lemma word_range_of_bits w :
  0 <= w -> (forall k, 64 <= k -> Z.testbit w k = false) -> w < 2 ^ 64.
Proof.
  intros Hw Hb. destruct (Z.lt_ge_cases w (2 ^ 64)) as [| Hge]; [done |].
  assert (Hl : 64 <= Z.log2 w) by (apply Z.log2_le_pow2; lia).
  specialize (Hb (Z.log2 w) Hl). rewrite Z.bit_log2 in Hb by lia. done.
Qed.

Lemma word_lor_range w j : 0 <= w < 2 ^ 64 -> 0 <= j < 64 -> 0 <= Z.lor w (Z.shiftl 1 j) < 2 ^ 64.
Proof.
  intros Hw Hj.
  assert (H0 : 0 <= Z.lor w (Z.shiftl 1 j)).
  { apply Z.lor_nonneg. split; [lia |]. rewrite Z.shiftl_1_l. lia. }
  split; [done |]. apply word_range_of_bits; [done |]. intros k Hk.
  rewrite testbit_lor_shift by lia.
  assert (E : Z.testbit w k = false).
  { destruct (decide (w = 0)) as [-> |]; [apply Z.bits_0 |].
    apply Z.bits_above_log2; [lia |].
    assert (Z.log2 w < 64) by (apply Z.log2_lt_pow2; lia). lia. }
  rewrite E. destruct (Z.eqb_spec k j); [lia | done].
Qed.

Lemma word_clear_range w j : 0 <= w < 2 ^ 64 -> 0 <= j ->
  0 <= Z.land w (lnot64 (Z.shiftl 1 j)) < 2 ^ 64.
Proof.
  intros Hw Hj.
  assert (H0 : 0 <= Z.land w (lnot64 (Z.shiftl 1 j))) by (apply Z.land_nonneg; lia).
  split; [done |]. apply word_range_of_bits; [done |]. intros k Hk.
  rewrite Z.land_spec. destruct (decide (w = 0)) as [-> |]; [by rewrite Z.bits_0 |].
  rewrite (Z.bits_above_log2 w); [done | lia |].
  assert (Z.log2 w < 64) by (apply Z.log2_lt_pow2; lia). lia.
Qed.

Lemma region_wf_alter r f i :
  region_wf r -> (forall w, 0 <= w < 2 ^ 64 -> 0 <= f w < 2 ^ 64) ->
  region_wf (r <| bitmap ::= alter f (Z.to_nat i) |>).
Proof.
  intros (Hl & Hf & Hr) Hw. unfold region_wf. cbn.
  split; [by rewrite length_alter |]. split; [| done].
  apply Forall_lookup. intros k w Hk. rewrite Forall_lookup in Hf.
  destruct (decide (k = Z.to_nat i)) as [-> |].
  - rewrite list_lookup_alter_eq in Hk. destruct (bitmap r !! Z.to_nat i) eqn:E; [| done].
    injection Hk as <-. eauto.
  - rewrite list_lookup_alter_ne in Hk by done. eauto.
Qed.

Lemma slot_pos_split p : 0 <= p -> p = p / 64 * 64 + p mod 64 /\ 0 <= p mod 64 < 64 /\ 0 <= p / 64.
Proof.
  intros Hp. pose proof (Z.div_mod p 64 ltac:(lia)).
  pose proof (Z.mod_pos_bound p 64 ltac:(lia)). pose proof (Z.div_pos p 64 Hp ltac:(lia)). lia.
Qed.

(** [port_alloc_tvlog_mem] hands out the first slot of the region that is
    not in use, marks that slot and no other, and returns NULL exactly when
    every slot is in use; the region stays well formed, so two live tvlogs
    never get the same slot from it. *)
Theorem port_alloc_tvlog_mem_spec r :
  region_wf r ->
  region_wf (port_alloc_tvlog_mem r).2 /\
  ((exists pos, 0 <= pos < r_num r /\
      (port_alloc_tvlog_mem r).1 = slot_addr r pos /\
      slot_used (bitmap r) pos = false /\
      (forall p, 0 <= p < pos -> slot_used (bitmap r) p = true) /\
      forall p, 0 <= p < r_num r ->
        slot_used (bitmap (port_alloc_tvlog_mem r).2) p = slot_used (bitmap r) p || (p =? pos))
   \/ (port_alloc_tvlog_mem r = (NULL, r) /\
      forall p, 0 <= p < r_num r -> slot_used (bitmap r) p = true)).
Proof.
  intros Hwf. pose proof Hwf as (Hlen & Hf & Hnum & Hsz & Hb & Hst).
  unfold port_alloc_tvlog_mem.
  pose proof (alloc_scan_words_spec (r_num r) 0 (bitmap r) ltac:(lia)) as Hs.
  rewrite Hlen in Hs. unfold BITMAP_SIZE in *.
  destruct (alloc_scan_words (r_num r) 0 (bitmap r)) as [pos |]; cbn [fst snd].
  - destruct Hs as (Hpos & _ & Hfree & Hmin).
    replace (pos - 64 * 0) with pos in Hfree by lia.
    destruct (slot_pos_split pos ltac:(lia)) as (Ep & Hm & Hd).
    split.
    { apply region_wf_alter; [done |]. intros w Hw. by apply word_lor_range. }
    left. exists pos. split; [lia |]. split.
    { unfold slot_addr. rewrite u64_small; [done |]. nia. }
    split; [done |]. split.
    { intros p Hp. specialize (Hmin p ltac:(lia)). by replace (p - 64 * 0) with p in Hmin by lia. }
    intros p Hp. cbn. destruct (slot_pos_split p ltac:(lia)) as (Eq & Hm' & Hd').
    destruct (decide (p / 64 = pos / 64)) as [Es | Es].
    + rewrite (slot_used_alter _ _ _ (p mod 64)) by (rewrite ?Hlen; lia).
      rewrite testbit_lor_shift by lia. unfold slot_used. rewrite Es. f_equal.
      destruct (Z.eqb_spec (p mod 64) (pos mod 64)), (Z.eqb_spec p pos); lia.
    + rewrite slot_used_alter_ne by lia.
      destruct (Z.eqb_spec p pos) as [-> |]; [done | by rewrite orb_false_r].
  - split; [done |]. right. split; [done |]. intros p Hp.
    specialize (Hs p ltac:(lia) ltac:(lia)). by replace (p - 64 * 0) with p in Hs by lia.
Qed.

Definition ex_region : tvlog_region_allocator :=
  (port_alloc_tvlog_mem (port_tvlog_region_init (inl 4096) TS_TVLOG_SIZE TS_MAX_THREAD_NUM
     (mk_region 0 0 [] 0 0)).2).2.

Lemma ex_region_wf : region_wf ex_region.
Proof.
  assert (Hf : forallb (fun w => (0 <=? w) && (w <? 2 ^ 64)) (bitmap ex_region) = true)
    by (vm_compute; reflexivity).
  split; [vm_compute; reflexivity |]. split.
  - apply Forall_forall. intros w Hw. rewrite forallb_forall in Hf.
    apply list_elem_of_In in Hw. specialize (Hf w Hw). apply andb_true_iff in Hf. lia.
  - assert (E : r_num ex_region = 2 ^ 14 /\ r_size ex_region = 2 ^ 20 /\ g_start_addr ex_region = 4096)
      by (vm_compute; auto).
    destruct E as (-> & -> & ->). unfold BITMAP_SIZE. lia.
Qed.

Lemma port_alloc_tvlog_mem_spec_witness :
  region_wf ex_region /\ region_wf (port_alloc_tvlog_mem ex_region).2.
Proof.
  exact (conj ex_region_wf (proj1 (port_alloc_tvlog_mem_spec ex_region ex_region_wf))).
Defined.

(** what freeing slot [pos] does to the bitmap *)
Lemma port_free_tvlog_mem_bits r pos p :
  region_wf r -> 0 <= pos < r_num r -> 0 <= p < r_num r ->
  slot_used (bitmap (port_free_tvlog_mem (slot_addr r pos) r)) p =
  slot_used (bitmap r) p && negb (p =? pos / 64 * 64 + (pos - pos / 64) mod 64).
Proof.
  intros (Hlen & Hf & Hnum & Hsz & Hb & Hst) Hpos Hp. unfold BITMAP_SIZE in *.
  unfold port_free_tvlog_mem, slot_addr.
  replace (g_start_addr r + pos * r_size r - g_start_addr r) with (pos * r_size r) by lia.
  rewrite u64_small by nia. rewrite Z.div_mul by lia. rewrite s32_small by lia.
  destruct (slot_pos_split pos ltac:(lia)) as (Ep & Hm & Hd).
  destruct (slot_pos_split p ltac:(lia)) as (Eq & Hm' & Hd'). cbn.
  replace (pos - (pos / 64 + 64)) with (pos - pos / 64 + (-1) * 64) by lia.
  rewrite Z.mod_add by lia.
  pose proof (Z.mod_pos_bound (pos - pos / 64) 64 ltac:(lia)).
  destruct (decide (p / 64 = pos / 64)) as [Es | Es].
  - rewrite (slot_used_alter _ _ _ (p mod 64)) by (rewrite ?Hlen; lia).
    rewrite testbit_clear by lia. unfold slot_used. rewrite Es. do 2 f_equal.
    destruct (Z.eqb_spec (p mod 64) ((pos - pos / 64) mod 64)),
      (Z.eqb_spec p (pos / 64 * 64 + (pos - pos / 64) mod 64)); lia.
  - rewrite slot_used_alter_ne by lia.
    destruct (Z.eqb_spec p (pos / 64 * 64 + (pos - pos / 64) mod 64)) as [E |];
      [lia | by rewrite andb_true_r].
Qed.

(** [port_free_tvlog_mem] computes the bit as [pos - (i + 64)] where the
    slot's bit is [pos - i * 64]: it clears the bit of the slot it is given
    only among the first 64 slots.  For a slot of words 1 to 63 it leaves the
    slot marked in use and clears the mark of another slot of the same word,
    which may be a live tvlog that the next allocation hands out again. *)
Theorem port_free_tvlog_mem_bit r pos :
  region_wf r -> 0 <= pos < r_num r -> pos < 4096 ->
  let r' := port_free_tvlog_mem (slot_addr r pos) r in
  let other := pos / 64 * 64 + (pos - pos / 64) mod 64 in
  (pos < 64 -> forall p, 0 <= p < r_num r ->
     slot_used (bitmap r') p = slot_used (bitmap r) p && negb (p =? pos)) /\
  (64 <= pos -> other <> pos /\ other / 64 = pos / 64 /\
     slot_used (bitmap r') pos = slot_used (bitmap r) pos /\
     (other < r_num r -> slot_used (bitmap r') other = false)).
Proof.
  intros Hwf Hpos Hmax r' other.
  destruct (slot_pos_split pos ltac:(lia)) as (Ep & Hm & Hd).
  pose proof (Z.mod_pos_bound (pos - pos / 64) 64 ltac:(lia)).
  split.
  - intros Hsmall p Hp. unfold r'. rewrite port_free_tvlog_mem_bits by done.
    assert (E0 : pos / 64 = 0) by (apply Z.div_small; lia). rewrite E0 in *.
    do 3 f_equal. rewrite Z.sub_0_r. lia.
  - intros Hbig. assert (1 <= pos / 64) by (apply Z.div_le_lower_bound; lia).
    assert (pos / 64 < 64) by (apply Z.div_lt_upper_bound; lia).
    assert (Hne : (pos - pos / 64) mod 64 <> pos mod 64).
    { intros E. assert (Hz : (pos / 64) mod 64 = 0).
      { replace (pos / 64) with (pos - (pos - pos / 64)) by lia.
        rewrite Zminus_mod, E, Z.sub_diag. done. }
      rewrite Z.mod_small in Hz by lia. lia. }
    assert (Hoe : other / 64 = pos / 64).
    { unfold other. rewrite Z.div_add_l by lia. rewrite (Z.div_small (_ mod _)); lia. }
    split; [unfold other; lia |]. split; [done |]. split.
    + unfold r'. rewrite port_free_tvlog_mem_bits by done.
      destruct (Z.eqb_spec pos (pos / 64 * 64 + (pos - pos / 64) mod 64)); [lia |].
      by rewrite andb_true_r.
    + intros Ho. unfold r'. rewrite port_free_tvlog_mem_bits; [| done | done |].
      * fold other. by rewrite Z.eqb_refl, andb_false_r.
      * unfold other in *. lia.
Qed.

Lemma port_free_tvlog_mem_bit_witness :
  region_wf ex_region /\
  let r' := port_free_tvlog_mem (slot_addr ex_region 100) ex_region in
  slot_used (bitmap r') 100 = slot_used (bitmap ex_region) 100.
Proof.
  split; [exact ex_region_wf |].
  assert (Hn : 0 <= 100 < r_num ex_region) by (vm_compute; split; congruence).
  exact (proj1 (proj2 (proj2 (proj2 (port_free_tvlog_mem_bit ex_region 100 ex_region_wf Hn
    ltac:(lia)) ltac:(lia))))).
Defined.
