(* ===== verification/Pmem.v ===== *)
(** Non-volatile memory as the processor's caches expose it: the fences and
    [clwb] of [include/arch.h] and the flush helpers of [lib/nvm.h].

    A store makes its cache lines dirty; [clwb] starts the write-back of a
    line; [sfence] ([wmb], [smp_wmb]) completes the write-backs that were
    started.  A line that is neither dirty nor pending is durable: its content
    survives a crash.  The log entries on NVM are held here, by address, and so
    are the counters of the log stores.

    A crash can come between any two instructions, so the memory remembers what
    it was before each of them ([past]): a property of every state that a crash
    can interrupt is a property of this timeline ([always]). *)
From S2P Require Import Types.

Record view := mk_view {
  v_cells : gmap Z ts_nvlog_entry; v_dirty : gset Z; v_pending : gset Z; v_words : gmap Z Z }.

Record pmem := mk_pmem {
  cells : gmap Z ts_nvlog_entry; dirty : gset Z; pending : gset Z;
  words : gmap Z Z;              (* the counters on NVM, by address *)
  past : list view }.            (* the states before, newest first *)
#[export] Instance eta_pmem : Eta pmem := fun r => mk_pmem (cells r) (dirty r) (pending r) (words r) (past r).

Definition view_of (m : pmem) : view := mk_view (cells m) (dirty m) (pending m) (words m).
Definition timeline (m : pmem) : list view := view_of m :: past m.
(** the state before the next instruction becomes past *)
Definition remember (m : pmem) : pmem := m <| past := timeline m |>.
(** a memory that holds [c] durably *)
Definition pmem_with (c : gmap Z ts_nvlog_entry) (w : gmap Z Z) : pmem := mk_pmem c ∅ ∅ w [].

Definition line_of (a : Z) : Z := a / TS_CACHE_LINE_SIZE.
Definition lines_of (a len : Z) : list Z :=
  (fun k => line_of a + Z.of_nat k) <$>
    seq 0 (Z.to_nat (line_of (a + len - 1) - line_of a + 1)).

Definition store_lines (a len : Z) (m : pmem) : pmem :=
  (remember m) <| dirty ::= (fun d => list_to_set (lines_of a len) ∪ d) |>.
(** a store that changes the entry at [c], and one to a counter *)
Definition store_cell (a len c : Z) (e : ts_nvlog_entry) (m : pmem) : pmem :=
  (store_lines a len m) <| cells ::= (fun m => <[c := e]> m) |>.
Definition store_word (a v : Z) (m : pmem) : pmem :=
  (store_lines a 8 m) <| words ::= (fun m => <[a := v]> m) |>.

Definition clwb (a : Z) (m : pmem) : pmem :=
  if decide (line_of a ∈ dirty m) then
    ((remember m) <| dirty ::= (fun d => d ∖ {[ line_of a ]}) |>)
      <| pending ::= (fun p => {[ line_of a ]} ∪ p) |>
  else m.

(** [sfence] *)
Definition wmb (m : pmem) : pmem := (remember m) <| pending := ∅ |>.
Definition smp_wmb : pmem -> pmem := wmb.

(** [for (; i < hi; i += TS_CACHE_LINE_SIZE) clwb(base + i);] with an
    [unsigned int] [i]; [n] bounds the iterations *)
Fixpoint clwb_loop (n : nat) (base i hi : Z) (m : pmem) : pmem :=
  match n with
  | O => m
  | S n' =>
      if i <? hi then clwb_loop n' base (u32 (i + TS_CACHE_LINE_SIZE)) hi (clwb (base + i) m)
      else m
  end.
Definition clwb_range (base lo hi : Z) (m : pmem) : pmem :=
  clwb_loop (S (Z.to_nat (hi / TS_CACHE_LINE_SIZE))) base lo hi m.

Definition flush_to_nvm (dst size : Z) (m : pmem) : pmem := clwb_range dst 0 size m.

(** the lines [memcpy_to_nvm] writes and flushes; the bytes it copies are in
    the data memory of the state *)
Definition memcpy_to_nvm_lines (dst size : Z) (m : pmem) : pmem :=
  flush_to_nvm dst size (store_lines dst size m).

(** * Facts *)

Lemma cells_clwb a m : cells (clwb a m) = cells m.
Proof. unfold clwb. by case_decide. Qed.

Definition durable (m : pmem) (l : Z) : Prop := (l ∉ dirty m) /\ (l ∉ pending m).

(** what an operation that only flushes may do: no entry changes, no line gets
    dirty, and a line that stops being dirty is pending *)
Definition flushes (m m' : pmem) : Prop :=
  cells m' = cells m /\ words m' = words m /\ dirty m' ⊆ dirty m /\
  forall l, l ∈ pending m' -> l ∈ pending m \/ l ∈ dirty m.

#[export] Instance flushes_preorder : PreOrder flushes.
Proof.
  split.
  - intros m. do 3 (split; [done |]). auto.
  - intros m1 m2 m3 (E1 & W1 & D1 & P1) (E2 & W2 & D2 & P2).
    split; [congruence |]. split; [congruence |]. split; [by etransitivity |].
    intros l Hl. destruct (P2 l Hl) as [H | H]; [by apply P1 | right; by apply D1].
Qed.

Lemma clwb_flushes a m : flushes m (clwb a m).
Proof.
  unfold clwb. case_decide as Hd; [| done]. split; [done |]. split; [done |]. cbn. split; [set_solver |].
  intros l. rewrite elem_of_union, elem_of_singleton. intros [-> |]; auto.
Qed.

Lemma clwb_line a m : line_of a ∉ dirty (clwb a m).
Proof. unfold clwb. case_decide; [cbn; set_solver | done]. Qed.

Lemma clwb_loop_flushes n base i hi m : flushes m (clwb_loop n base i hi m).
Proof.
  revert i m. induction n as [| n IH]; intros i m; cbn; [done |].
  destruct (i <? hi); [| done]. etransitivity; [apply clwb_flushes | apply IH].
Qed.

(** the loop cleans the line of every 64-byte step it makes *)
Lemma clwb_loop_lines n base i hi m k :
  (64 | i) -> 0 <= i -> hi < 2 ^ 32 - 64 -> (hi - i + 63) / 64 <= Z.of_nat n ->
  0 <= k -> i + 64 * k < hi ->
  line_of (base + (i + 64 * k)) ∉ dirty (clwb_loop n base i hi m).
Proof.
  revert i m k. induction n as [| n IH]; intros i m k Hd Hi Hhi Hn Hk Hlt.
  - exfalso. assert (1 <= (hi - i + 63) / 64) by (apply Z.div_le_lower_bound; lia). lia.
  - cbn. rewrite (proj2 (Z.ltb_lt i hi)) by lia.
    change TS_CACHE_LINE_SIZE with 64. rewrite u32_small by lia.
    destruct (decide (k = 0)) as [-> |].
    + rewrite Z.mul_0_r, Z.add_0_r. intros H.
      apply (clwb_line (base + i) m).
      by apply (clwb_loop_flushes n base (i + 64) hi (clwb (base + i) m)).
    + replace (i + 64 * k) with ((i + 64) + 64 * (k - 1)) by lia.
      apply IH; try lia.
      * destruct Hd as [q ->]. exists (q + 1). lia.
      * replace (hi - (i + 64) + 63) with (hi - i + 63 + (-1) * 64) by lia.
        rewrite Z.div_add by lia. lia.
Qed.

Lemma clwb_range_lines base lo hi m l :
  (64 | base) -> (64 | lo) -> 0 <= lo -> hi < 2 ^ 32 - 64 ->
  line_of (base + lo) <= l < line_of (base + hi + 63) ->
  l ∉ dirty (clwb_range base lo hi m).
Proof.
  intros [b ->] [q ->] Hlo Hhi. unfold line_of, TS_CACHE_LINE_SIZE, L1_CACHE_BYTES.
  replace (b * 64 + q * 64) with ((b + q) * 64) by lia. rewrite Z.div_mul by lia.
  replace (b * 64 + hi + 63) with (hi + 63 + b * 64) by lia. rewrite Z.div_add by lia.
  intros [Hl1 Hl2].
  set (k := l - (b + q)).
  assert (Ek : l = line_of (b * 64 + (q * 64 + 64 * k))).
  { unfold line_of, TS_CACHE_LINE_SIZE, L1_CACHE_BYTES.
    replace (b * 64 + (q * 64 + 64 * k)) with (l * 64) by (unfold k; lia).
    by rewrite Z.div_mul by lia. }
  pose proof (Z.div_mod (hi + 63) 64 ltac:(lia)).
  pose proof (Z.mod_pos_bound (hi + 63) 64 ltac:(lia)).
  rewrite Ek. apply clwb_loop_lines; try lia.
  - by exists q.
  - unfold TS_CACHE_LINE_SIZE, L1_CACHE_BYTES.
    replace (hi - q * 64 + 63) with (hi + 63 + (- q) * 64) by lia. rewrite Z.div_add by lia.
    pose proof (Z.div_mod hi 64 ltac:(lia)). pose proof (Z.mod_pos_bound hi 64 ltac:(lia)). lia.
Qed.

Lemma clwb_range_flushes base lo hi m : flushes m (clwb_range base lo hi m).
Proof. apply clwb_loop_flushes. Qed.

Lemma wmb_durable m l : l ∉ dirty m -> durable (wmb m) l.
Proof. intros H. split; [done |]. cbn. set_solver. Qed.

(** flushing keeps durable lines durable *)
Lemma flushes_durable m m' l : flushes m m' -> durable m l -> durable m' l.
Proof.
  intros (_ & _ & Hd & Hp) [H1 H2]. split; [by intros ?%Hd |].
  intros H. destruct (Hp l H); done.
Qed.

(** * Crashes *)

Definition v_durable (v : view) (l : Z) : Prop := (l ∉ v_dirty v) /\ (l ∉ v_pending v).

(** the values that a counter may have after a crash in the newest of the
    states [h]: the value of a state since which its line was never durable *)
Inductive may_find (a : Z) : list view -> Z -> Prop :=
| find_now v h x : v_words v !! a = Some x -> may_find a (v :: h) x
| find_older v h x : ~ v_durable v (line_of a) -> may_find a h x -> may_find a (v :: h) x.

(** entries after a crash: durable lines keep their content, anything may have
    happened to the others *)
Definition survives (v : view) (c : gmap Z ts_nvlog_entry) : Prop :=
  forall a, v_durable v (line_of a) -> c !! a = v_cells v !! a.

(** [P] holds of every state that a crash can interrupt from [m] to [m'], with
    the states before it *)
Inductive always (P : list view -> Prop) (m : pmem) : pmem -> Prop :=
| always_here : P (timeline m) -> always P m m
| always_next m1 m2 : always P m m1 -> past m2 = timeline m1 -> P (timeline m2) -> always P m m2.

Lemma always_end P m m' : always P m m' -> P (timeline m').
Proof. by destruct 1. Qed.

Lemma always_trans P m1 m2 m3 : always P m1 m2 -> always P m2 m3 -> always P m1 m3.
Proof. intros H12. induction 1 as [| m m' _ IH Hp HP]; [done |]. by apply (always_next P _ m). Qed.

Lemma always_impl (P Q : list view -> Prop) m m' : (forall h, P h -> Q h) -> always P m m' -> always Q m m'.
Proof. intros HPQ. induction 1 as [| m1 m2 _ IH Hp HP]; [apply always_here; auto | apply (always_next Q m m1); auto]. Qed.

(** a property that write-back and fences keep *)
Definition flush_stable (P : list view -> Prop) : Prop := forall v v' h,
  P (v :: h) -> v_cells v' = v_cells v -> v_words v' = v_words v ->
  (forall l, v_durable v l -> v_durable v' l) -> P (v' :: v :: h).

Lemma always_clwb P a m : flush_stable P -> P (timeline m) -> always P m (clwb a m).
Proof.
  intros HP Hm. pose proof (clwb_flushes a m) as Hf. pose proof (fun l => flushes_durable m (clwb a m) l Hf) as Hd.
  destruct Hf as (Hc & Hw & _). revert Hc Hw Hd. unfold clwb. case_decide; intros; [| by apply always_here].
  apply (always_next P m m); [by apply always_here | reflexivity |]. by apply HP with (v := view_of m).
Qed.

Lemma always_wmb P m : flush_stable P -> P (timeline m) -> always P m (wmb m).
Proof.
  intros HP Hm. apply (always_next P m m); [by apply always_here | reflexivity |].
  apply HP with (v := view_of m); [done | done | done |]. intros l [H1 H2]. split; [done | cbn; set_solver].
Qed.

Lemma always_clwb_loop P n base i hi m : flush_stable P -> P (timeline m) -> always P m (clwb_loop n base i hi m).
Proof.
  intros HP. revert i m. induction n as [| n IH]; intros i m Hm; cbn; [by apply always_here |].
  destruct (i <? hi); [| by apply always_here]. pose proof (always_clwb P (base + i) m HP Hm) as A.
  eapply always_trans; [exact A |]. apply IH. by eapply always_end.
Qed.

Lemma always_clwb_range P base lo hi m : flush_stable P -> P (timeline m) -> always P m (clwb_range base lo hi m).
Proof. apply always_clwb_loop. Qed.

(** write-back brings no value back *)
Lemma may_find_flush a v v' h x : v_words v' = v_words v -> may_find a (v' :: v :: h) x -> may_find a (v :: h) x.
Proof. intros Hw Hf. inversion Hf; subst; [apply find_now; congruence | done]. Qed.

(** a durable line has the value that was stored last *)
Lemma may_find_durable a v h x : v_durable v (line_of a) -> may_find a (v :: h) x -> v_words v !! a = Some x.
Proof. intros Hd Hf. by inversion Hf. Qed.

(** started write-backs are complete after a fence *)
Lemma clwb_wmb_durable a m : durable (wmb (clwb a m)) (line_of a).
Proof. apply wmb_durable, clwb_line. Qed.
