(* ===== verification/Nvlog.v ===== *)
(** The ring buffer on non-volatile memory: [lib/nvlog.c], [lib/nvlog.h].

    A log is driven by a control structure on DRAM ([ts_nvlog]) and has a store
    on NVM ([ts_nvlog_store]) with the persisted counters.  [head_cnt] and
    [tail_cnt] count bytes and only grow; a count is mapped into the buffer by
    masking.  Entries are aligned to cache lines and never wrap: when one would,
    a bogus entry fills the rest of the buffer. *)
From S2P Require Import Types Util Pmem.

(** one log as its operations see it: control structure, store, NVM *)
Record nvst := mk_nvst { nv : ts_nvlog; sto : ts_nvlog_store; pm : pmem }.
#[export] Instance eta_nvst : Eta nvst := fun r => mk_nvst (nv r) (sto r) (pm r).

(** * Positions *)

Definition nvlog_used (n : ts_nvlog) : Z := u64 (n_tail_cnt n - n_head_cnt n).
Definition nvlog_index (n : ts_nvlog) (cnt : Z) : Z := u32 (Z.land cnt (lnot64 (n_mask n))).
Definition nvlog_at (n : ts_nvlog) (cnt : Z) : Z := n_buffer n + nvlog_index n cnt.

Definition is_power_of_2 (x : Z) : bool :=
  negb (x =? 0) && (Z.land x (u32 (x - 1)) =? 0).

(** * Entry access *)

(** write an entry header at [a] and its 16 bytes' line *)
Definition put_hdr (a : Z) (e : ts_nvlog_entry) : M nvst unit :=
  modify (fun s => s <| pm ::= store_cell a sizeof_nvlog_entry_hdr a e |>).

Definition get_entry (a : Z) : M nvst ts_nvlog_entry :=
  fun s => deref (cells (pm s) !! a) s.

(** write through an entry pointer: [f] on the entry, [len] bytes from [off] *)
Definition upd_entry (a off len : Z) (f : ts_nvlog_entry -> ts_nvlog_entry) : M nvst unit :=
  let* e := get_entry a in
  modify (fun s => s <| pm ::= store_cell (a + off) len a (f e) |>).

(** * Operations on the DRAM side *)

Definition nvlog_load (sp : Z) (st : ts_nvlog_store) : ts_nvlog :=
  mk_nvlog (s_head_cnt st) (s_tail_cnt st) (s_head_cnt st) 0 sp (s_buffer st)
    (s_log_size st) (s_mask st) (s_type st) (s_status st) false NULL.

(** the bogus entry that fills the buffer from [tail_cnt] to its end *)
Definition nvlog_put_bogus : M nvst unit :=
  let* n := asks nv in
  let a := nvlog_at n (n_tail_cnt n) in
  let bogus_size := u32 (n_log_size n - nvlog_index n (n_tail_cnt n)) in
  put_hdr a (mk_nvlog_entry 0 bogus_size TYPE_BOGUS EB_none) ;;;
  modify (fun s => s <| nv ::= (fun n => n <| n_tail_cnt ::= (fun t => u64 (t + bogus_size)) |>) |>).

Definition nvlog_enq (obj_size : Z) : M nvst Z :=
  let entry_size := align_uint_to_cacheline (u32 (obj_size + sizeof_nvlog_entry_hdr)) in
  let* n := asks nv in
  if n_log_size n <? entry_size then ret NULL
  else
    when (nvlog_index n (u64 (n_tail_cnt n + entry_size)) <? nvlog_index n (n_tail_cnt n))
      nvlog_put_bogus ;;;
    let* n := asks nv in
    if n_log_size n <? u64 (u64 (n_tail_cnt n + entry_size) - n_head_cnt n) then ret NULL
    else
      let a := nvlog_at n (n_tail_cnt n) in
      put_hdr a (mk_nvlog_entry MAX_VERSION entry_size TYPE_ACTUAL EB_none) ;;;
      modify (fun s => s <| nv ::= (fun n => n <| n_tail_cnt ::= (fun t => u64 (t + entry_size)) |>) |>) ;;;
      ret a.

Definition nvlog_peek_head : M nvst Z :=
  let* n := asks nv in
  if n_head_cnt n =? n_tail_cnt n then ret NULL
  else
    let a := nvlog_at n (n_head_cnt n) in
    let* e := get_entry a in
    if decide (e_type e = TYPE_BOGUS) then
      modify (fun s => s <| nv ::= (fun n => n <| n_head_cnt ::= (fun h => u64 (h + e_size e)) |>) |>) ;;;
      let* n := asks nv in
      if n_head_cnt n =? n_tail_cnt n then ret NULL
      else ret (nvlog_at n (n_head_cnt n))
    else ret a.

Definition nvlog_deq : M nvst Z :=
  let* n := asks nv in
  if n_head_cnt n =? n_tail_cnt n then ret NULL
  else
    let a := nvlog_at n (n_head_cnt n) in
    let* e := get_entry a in
    modify (fun s => s <| nv ::= (fun n => n <| n_head_cnt ::= (fun h => u64 (h + e_size e)) |>) |>) ;;;
    if decide (e_type e = TYPE_BOGUS) then
      let* n := asks nv in
      if n_head_cnt n =? n_tail_cnt n then ret NULL
      else
        let a := nvlog_at n (n_head_cnt n) in
        let* e := get_entry a in
        modify (fun s => s <| nv ::= (fun n => n <| n_head_cnt ::= (fun h => u64 (h + e_size e)) |>) |>) ;;;
        ret a
    else ret a.

(** * Persistence *)

(** addresses of the persisted counters in the store *)
Definition store_head_addr (n : ts_nvlog) : Z := n_store n.
Definition store_tail_addr (n : ts_nvlog) : Z := n_store n + 8.

Definition set_store_tail (v : Z) : M nvst unit :=
  modify (fun s => s <| sto ::= (fun t => t <| s_tail_cnt := v |>) |>
                     <| pm ::= store_word (store_tail_addr (nv s)) v |>).
Definition set_store_head (v : Z) : M nvst unit :=
  modify (fun s => s <| sto ::= (fun t => t <| s_head_cnt := v |>) |>
                     <| pm ::= store_word (store_head_addr (nv s)) v |>).

(** the two cases that flush: without and with wrap-around *)
Definition nvlog_flush_range (n : ts_nvlog) (nv_tail v_tail : Z) (m : pmem) : pmem :=
  if nv_tail <? v_tail then clwb_range (n_buffer n) nv_tail v_tail m
  else clwb_range (n_buffer n) 0 v_tail (clwb_range (n_buffer n) nv_tail (n_log_size n) m).

Definition nvlog_enq_persist : M nvst unit :=
  let* n := asks nv in
  if n_store n =? NULL then ret tt
  else
    let* st := asks sto in
    let v_tail_cnt := nvlog_index n (n_tail_cnt n) in
    let nv_tail_cnt := nvlog_index n (s_tail_cnt st) in
    if nv_tail_cnt =? v_tail_cnt then ret tt
    else
      modify (fun s => s <| pm ::= nvlog_flush_range n nv_tail_cnt v_tail_cnt |>) ;;;
      modify (fun s => s <| pm ::= wmb |>) ;;;
      set_store_tail (n_tail_cnt n) ;;;
      modify (fun s => s <| pm ::= clwb (store_tail_addr n) |>).

Definition nvlog_deq_persist : M nvst unit :=
  let* n := asks nv in
  let* st := asks sto in
  when (negb (s_head_cnt st =? n_head_cnt n))
    (set_store_head (n_head_cnt n) ;;;
     modify (fun s => s <| pm ::= clwb (store_head_addr n) |>)).

Definition nvlog_truncate_tail (tail_cnt : Z) : M nvst unit :=
  modify (fun s => s <| nv ::= (fun n => n <| n_tail_cnt := tail_cnt |>) |>) ;;;
  let* n := asks nv in
  let* st := asks sto in
  when (negb (s_tail_cnt st =? tail_cnt))
    (set_store_tail tail_cnt ;;;
     modify (fun s => s <| pm ::= clwb (store_tail_addr n) |>) ;;;
     modify (fun s => s <| pm ::= wmb |>)).

Definition nvlog_truncate_head (head_cnt : Z) : M nvst unit :=
  modify (fun s => s <| nv ::= (fun n => n <| n_head_cnt := head_cnt |>) |>) ;;;
  let* n := asks nv in
  let* st := asks sto in
  when (negb (s_head_cnt st =? head_cnt))
    (set_store_head head_cnt ;;;
     modify (fun s => s <| pm ::= clwb (store_head_addr n) |>) ;;;
     modify (fun s => s <| pm ::= wmb |>)).

(** * Facts: geometry *)

(** the address of count [cnt] in a buffer [b] of [2 ^ k] bytes *)
Definition slot (b k cnt : Z) : Z := b + cnt mod 2 ^ k.

Record nvlog_geom (n : ts_nvlog) (k : Z) : Prop := {
  geom_k : 6 <= k <= 30;
  geom_size : n_log_size n = 2 ^ k;
  geom_mask : n_mask n = lnot64 (2 ^ k - 1);
  geom_buffer : (64 | n_buffer n);
  geom_pos : 0 < n_buffer n }.

Lemma lnot64_lnot64 x : 0 <= x < 2 ^ 64 -> lnot64 (lnot64 x) = x.
Proof.
  intros Hx. unfold lnot64, u64, Z.lnot.
  replace (Z.pred (- x)) with (2 ^ 64 - 1 - x + (-1) * 2 ^ 64) by lia.
  rewrite Z.mod_add by lia. rewrite (Z.mod_small (2 ^ 64 - 1 - x)) by lia.
  replace (Z.pred (- (2 ^ 64 - 1 - x))) with (x + (-1) * 2 ^ 64) by lia.
  rewrite Z.mod_add by lia. by apply Z.mod_small.
Qed.

Lemma pow2_k_bounds k : 6 <= k <= 30 -> 64 <= 2 ^ k <= 2 ^ 30 /\ (64 | 2 ^ k).
Proof.
  intros Hk. split.
  - split; [change 64 with (2 ^ 6) | ]; apply Z.pow_le_mono_r; lia.
  - exists (2 ^ (k - 6)). change 64 with (2 ^ 6). rewrite <- Z.pow_add_r by lia. f_equal. lia.
Qed.

Lemma nvlog_index_mod n k cnt : nvlog_geom n k -> nvlog_index n cnt = cnt mod 2 ^ k.
Proof.
  intros [Hk _ Hm _ _]. destruct (pow2_k_bounds k Hk) as [Hb _].
  unfold nvlog_index. rewrite Hm, lnot64_lnot64 by lia.
  rewrite land_ones_mod by lia. apply u32_small.
  pose proof (Z.mod_pos_bound cnt (2 ^ k) ltac:(lia)). lia.
Qed.

Lemma nvlog_at_slot n k cnt : nvlog_geom n k -> nvlog_at n cnt = slot (n_buffer n) k cnt.
Proof. intros H. unfold nvlog_at, slot. by rewrite (nvlog_index_mod n k). Qed.

Lemma slot_inj b k c1 c2 :
  6 <= k -> Z.abs (c1 - c2) < 2 ^ k -> slot b k c1 = slot b k c2 -> c1 = c2.
Proof.
  intros Hk Hd He. unfold slot in He.
  apply (mod_window_inj (2 ^ k)); [lia | done | lia].
Qed.

Lemma slot_range b k c : 6 <= k -> b <= slot b k c < b + 2 ^ k.
Proof. intros. unfold slot. pose proof (Z.mod_pos_bound c (2 ^ k) ltac:(lia)). lia. Qed.

Lemma mod_pow2_64 k c : 6 <= k <= 30 -> (64 | c) -> (64 | c mod 2 ^ k).
Proof.
  intros Hk Hc. destruct (pow2_k_bounds k Hk) as [_ Hd].
  rewrite Z.mod_eq by lia. apply Z.divide_sub_r; [done |].
  by apply Z.divide_mul_l.
Qed.

(** * Facts: the entries between two counts *)

Abbreviation cellmap := (gmap Z ts_nvlog_entry).
Abbreviation entries := (list (Z * ts_nvlog_entry)).

(** [seg b k c h l t]: walking by entry sizes from count [h] meets exactly the
    entries [l], each inside the buffer, and ends at [t] *)
Inductive seg (b k : Z) (c : cellmap) : Z -> entries -> Z -> Prop :=
| seg_nil t : seg b k c t [] t
| seg_cons h e l t :
    c !! slot b k h = Some e -> 0 < e_size e -> (64 | e_size e) ->
    h mod 2 ^ k + e_size e <= 2 ^ k ->
    seg b k c (h + e_size e) l t -> seg b k c h ((h, e) :: l) t.
Create HintDb nvlog.
#[export] Hint Constructors seg : nvlog.

Lemma seg_range b k c h l t : seg b k c h l t ->
  h <= t /\ forall x, x ∈ l -> h <= x.1 /\ x.1 + e_size x.2 <= t /\ 0 < e_size x.2.
Proof.
  induction 1 as [t | h e l t Hc Hs Hd Hw Hseg [Hle IH]].
  - split; [lia |]. intros x Hx. by apply not_elem_of_nil in Hx.
  - split; [lia |]. intros x Hx. apply elem_of_cons in Hx as [-> | Hx]; cbn; [lia |].
    specialize (IH x Hx). lia.
Qed.

Lemma seg_app b k c h l1 m l2 t :
  seg b k c h l1 m -> seg b k c m l2 t -> seg b k c h (l1 ++ l2) t.
Proof. induction 1; cbn; [done |]. eauto with nvlog. Qed.

Lemma seg_mono b k c c' h l t :
  seg b k c h l t -> (forall x, x ∈ l -> c' !! slot b k x.1 = Some x.2) ->
  seg b k c' h l t.
Proof.
  induction 1 as [t | h e l t Hc Hs Hd Hw Hseg IH]; intros Hm; [constructor |].
  constructor; try done.
  - apply (Hm (h, e)). by left.
  - apply IH. intros x Hx. apply Hm. by right.
Qed.

Lemma seg_lookup b k c h l t x : seg b k c h l t -> x ∈ l -> c !! slot b k x.1 = Some x.2.
Proof.
  induction 1 as [t | h e l t Hc Hs Hd Hw Hseg IH]; intros Hx.
  - by apply not_elem_of_nil in Hx.
  - apply elem_of_cons in Hx as [-> | Hx]; auto.
Qed.

Lemma seg_64 b k c h l t : seg b k c h l t -> (64 | h) -> (64 | t).
Proof. induction 1 as [| h e l t ? ? ? ? ? IH]; [done |]. intros. by apply IH, Z.divide_add_r. Qed.

Lemma seg_elem_64 b k c h l t x : seg b k c h l t -> (64 | h) -> x ∈ l -> (64 | x.1).
Proof.
  induction 1 as [t | h e l t Hc Hs Hd Hw Hseg IH]; intros Hh Hx.
  - by apply not_elem_of_nil in Hx.
  - apply elem_of_cons in Hx as [-> | Hx]; [done |]. by apply IH; [apply Z.divide_add_r |].
Qed.

(** writing an entry outside the window keeps the walk *)
Lemma seg_insert b k c h l t cnt e :
  6 <= k -> seg b k c h l t -> t <= cnt -> cnt - h < 2 ^ k ->
  seg b k (<[slot b k cnt := e]> c) h l t.
Proof.
  intros Hk Hseg Ht Hw. eapply seg_mono; [done |]. intros x Hx.
  rewrite lookup_insert_ne; [by eapply seg_lookup |]. intros E.
  destruct (seg_range _ _ _ _ _ _ Hseg) as [_ Hr]. destruct (Hr x Hx) as (H1 & H2 & H3).
  apply slot_inj in E; lia.
Qed.

(** * Facts: the log invariant and the queue it implements *)

Definition is_bogus (x : Z * ts_nvlog_entry) : bool := bool_decide (e_type x.2 = TYPE_BOGUS).

(** a bogus entry is always followed by an entry *)
Fixpoint bogus_ok (l : entries) : Prop :=
  match l with
  | [] => True
  | x :: l' =>
      (is_bogus x = true -> match l' with [] => False | y :: _ => is_bogus y = false end) /\
      bogus_ok l'
  end.

(** the queue: the entries that are not bogus, oldest first *)
Definition contents (l : entries) : entries := List.filter (fun x => negb (is_bogus x)) l.

Record nvlog_inv (s : nvst) (k : Z) (l : entries) : Prop := {
  inv_geom : nvlog_geom (nv s) k;
  inv_head : 0 <= n_head_cnt (nv s);
  inv_aligned : (64 | n_head_cnt (nv s));
  inv_used : n_tail_cnt (nv s) - n_head_cnt (nv s) <= 2 ^ k;
  inv_max : n_tail_cnt (nv s) < 2 ^ 63;
  inv_seg : seg (n_buffer (nv s)) k (cells (pm s)) (n_head_cnt (nv s)) l (n_tail_cnt (nv s));
  inv_bogus : bogus_ok l }.

Lemma bogus_ok_contents l : bogus_ok l -> contents l = [] -> l = [].
Proof.
  destruct l as [| x l]; [done |]. cbn. intros [H1 H2] Hc.
  destruct (is_bogus x); cbn in Hc; [| done]. specialize (H1 eq_refl).
  destruct l as [| y l]; [done |]. cbn in Hc. by rewrite H1 in Hc.
Qed.

Lemma bogus_ok_app l1 l2 :
  bogus_ok l1 -> bogus_ok l2 -> (contents l1 = [] -> l1 = []) -> bogus_ok (l1 ++ l2).
Proof.
  intros H1 H2 _. induction l1 as [| x l1 IH]; [done |].
  destruct H1 as [Hx H1]. cbn. split; [| by apply IH].
  intros E. specialize (Hx E). destruct l1; [done |]. done.
Qed.

Lemma contents_app l1 l2 : contents (l1 ++ l2) = contents l1 ++ contents l2.
Proof. apply List.filter_app. Qed.

Lemma mod_add_cases L t es :
  0 <= es < L ->
  (t + es) mod L = if t mod L + es <? L then t mod L + es else t mod L + es - L.
Proof.
  intros He. pose proof (Z.mod_pos_bound t L ltac:(lia)) as Hm.
  rewrite <- Zplus_mod_idemp_l. destruct (Z.ltb_spec (t mod L + es) L).
  - apply Z.mod_small. lia.
  - replace (t mod L + es) with (t mod L + es - L + 1 * L) by lia.
    rewrite Z.mod_add by lia. rewrite Z.mod_small; lia.
Qed.

(** the space an enqueue skips to keep the entry from wrapping *)
Definition enq_skip (k tail es : Z) : Z :=
  if tail mod 2 ^ k + es <? 2 ^ k then 0 else 2 ^ k - tail mod 2 ^ k.

Definition entry_size_of (obj_size : Z) : Z :=
  align_uint_to_cacheline (u32 (obj_size + sizeof_nvlog_entry_hdr)).

Definition new_entry (es : Z) : ts_nvlog_entry := mk_nvlog_entry MAX_VERSION es TYPE_ACTUAL EB_none.
Definition bogus_entry (sz : Z) : ts_nvlog_entry := mk_nvlog_entry 0 sz TYPE_BOGUS EB_none.

Definition set_tail (t : Z) (s : nvst) : nvst := s <| nv ::= (fun n => n <| n_tail_cnt := t |>) |>.
Definition set_head (h : Z) (s : nvst) : nvst := s <| nv ::= (fun n => n <| n_head_cnt := h |>) |>.
Definition put_cell (a : Z) (e : ts_nvlog_entry) (s : nvst) : nvst :=
  s <| pm ::= store_cell a sizeof_nvlog_entry_hdr a e |>.

(** the state after the bogus entry of an enqueue, if there is one *)
Definition after_skip (s : nvst) (k es : Z) : nvst :=
  let t := n_tail_cnt (nv s) in
  if t mod 2 ^ k + es <? 2 ^ k then s
  else set_tail (t + enq_skip k t es)
         (put_cell (slot (n_buffer (nv s)) k t) (bogus_entry (enq_skip k t es)) s).

Lemma entry_size_bounds obj_size :
  0 <= obj_size < 2 ^ 31 ->
  (64 | entry_size_of obj_size) /\ 64 <= entry_size_of obj_size /\
  obj_size + 16 <= entry_size_of obj_size < obj_size + 80.
Proof.
  intros Ho. unfold entry_size_of, sizeof_nvlog_entry_hdr. rewrite u32_small by lia.
  destruct (align_uint_bounds (obj_size + 16)) as (H1 & H2 & H3); [lia |].
  split; [done |]. split; [apply H3; lia | lia].
Qed.

Lemma enq_skip_facts k t es :
  6 <= k <= 30 -> 0 <= t -> (64 | t) -> (64 | es) -> 0 < es < 2 ^ k ->
  let sk := enq_skip k t es in
  0 <= sk < 2 ^ k /\ (64 | sk) /\ (t + sk) mod 2 ^ k + es <= 2 ^ k /\
  (sk = 0 <-> t mod 2 ^ k + es < 2 ^ k) /\
  (sk <> 0 -> (t + sk) mod 2 ^ k = 0 /\ t mod 2 ^ k + sk = 2 ^ k).
Proof.
  intros Hk Ht Hd Hde He. destruct (pow2_k_bounds k Hk) as [HL HdL]. unfold enq_skip.
  pose proof (Z.mod_pos_bound t (2 ^ k) ltac:(lia)) as Hm.
  destruct (Z.ltb_spec (t mod 2 ^ k + es) (2 ^ k)) as [Hlt | Hge]; cbn.
  - rewrite Z.add_0_r. split; [lia |]. split; [apply Z.divide_0_r |].
    split; [lia |]. split; [tauto | done].
  - assert (H0 : (t + (2 ^ k - t mod 2 ^ k)) mod 2 ^ k = 0).
    { replace (t + (2 ^ k - t mod 2 ^ k)) with ((t - t mod 2 ^ k) + 1 * 2 ^ k) by lia.
      rewrite Z.mod_add by lia. rewrite Zminus_mod_idemp_r, Z.sub_diag. done. }
    split; [lia |]. split.
    { apply Z.divide_sub_r; [done |]. by apply mod_pow2_64. }
    rewrite H0. split; [lia |]. split; [lia |]. lia.
Qed.

Lemma after_skip_nv s k es :
  nv (after_skip s k es) =
  (nv s) <| n_tail_cnt := n_tail_cnt (nv s) + enq_skip k (n_tail_cnt (nv s)) es |>.
Proof.
  unfold after_skip, enq_skip. cbv zeta.
  destruct (Z.ltb_spec (n_tail_cnt (nv s) mod 2 ^ k + es) (2 ^ k)); cbn; [| done].
  rewrite Z.add_0_r. by destruct (nv s).
Qed.

Lemma after_skip_sto s k es : sto (after_skip s k es) = sto s.
Proof. unfold after_skip. cbv zeta. by destruct (_ <? _). Qed.

Lemma nvlog_geom_tail n k t : nvlog_geom n k -> nvlog_geom (n <| n_tail_cnt := t |>) k.
Proof. intros []. by constructor. Qed.
Lemma nvlog_geom_head n k h : nvlog_geom n k -> nvlog_geom (n <| n_head_cnt := h |>) k.
Proof. intros []. by constructor. Qed.

(** what [nvlog_enq] computes *)
Lemma nvlog_enq_run s k l obj_size :
  nvlog_inv s k l -> 0 <= obj_size < 2 ^ 31 ->
  entry_size_of obj_size < 2 ^ k -> n_tail_cnt (nv s) + 2 * 2 ^ k < 2 ^ 63 ->
  let es := entry_size_of obj_size in
  let t := n_tail_cnt (nv s) in
  let t1 := t + enq_skip k t es in
  let a := slot (n_buffer (nv s)) k t1 in
  nvlog_enq obj_size s =
    if t1 + es - n_head_cnt (nv s) <=? 2 ^ k then
      Ok (a, set_tail (t1 + es) (put_cell a (new_entry es) (after_skip s k es)))
    else Ok (NULL, after_skip s k es).
Proof.
  intros [Hg Hh Ha Hu Hmax Hseg _] Ho Hes Hov es t t1 a.
  pose proof Hg as [Hk HL Hmask Hb Hpos].
  destruct (pow2_k_bounds k Hk) as [HL2 HdL].
  destruct (entry_size_bounds obj_size Ho) as (Hd64 & H64 & _). fold es in Hes, Hd64, H64.
  destruct (seg_range _ _ _ _ _ _ Hseg) as [Hht _]. fold t in Hht, Hu, Hov, Hmax, Hseg.
  assert (Hdt : (64 | t)) by (by eapply seg_64).
  pose proof (enq_skip_facts k t es Hk ltac:(lia) Hdt Hd64 ltac:(lia)) as Hskip.
  cbv zeta in Hskip. fold t in Hskip.
  destruct Hskip as (Hsk & Hskd & Hfit & Hsk0 & Hsk1).
  pose proof (Z.mod_pos_bound t (2 ^ k) ltac:(lia)) as Hm.
  assert (Hw : (nvlog_index (nv s) (u64 (t + es)) <? nvlog_index (nv s) t) =
               negb (t mod 2 ^ k + es <? 2 ^ k)).
  { rewrite !(nvlog_index_mod (nv s) k), u64_small, mod_add_cases by (done || lia).
    destruct (Z.ltb_spec (t mod 2 ^ k + es) (2 ^ k)); cbn.
    - apply Z.ltb_ge. lia.
    - apply Z.ltb_lt. lia. }
  unfold nvlog_enq. fold (entry_size_of obj_size). fold es.
  unfold bind at 1, asks at 1. rewrite HL, (proj2 (Z.ltb_ge (2 ^ k) es)) by lia.
  fold t. rewrite Hw.
  assert (Hpre : when (negb (t mod 2 ^ k + es <? 2 ^ k)) nvlog_put_bogus s = Ok (tt, after_skip s k es)).
  { unfold after_skip, when. fold t. unfold enq_skip.
    destruct (Z.ltb_spec (t mod 2 ^ k + es) (2 ^ k)) as [? | Hge]; cbn [negb]; [done |].
    unfold nvlog_put_bogus, bind, asks, put_hdr, modify. fold t.
    rewrite (nvlog_at_slot (nv s) k), (nvlog_index_mod (nv s) k), HL by done.
    rewrite u32_small by lia. unfold set_tail, put_cell, bogus_entry. cbn. fold t.
    rewrite u64_small by lia. done. }
  rewrite (bind_run _ _ _ _ _ Hpre).
  assert (Hgeo : forall c, nvlog_at (nv (after_skip s k es)) c = slot (n_buffer (nv s)) k c).
  { intros c. rewrite (nvlog_at_slot _ k), after_skip_nv; [done |].
    rewrite after_skip_nv. by apply nvlog_geom_tail. }
  assert (Htail : n_tail_cnt (nv (after_skip s k es)) = t1) by (by rewrite after_skip_nv).
  assert (Hhead : n_head_cnt (nv (after_skip s k es)) = n_head_cnt (nv s)) by (by rewrite after_skip_nv).
  assert (Hsize : n_log_size (nv (after_skip s k es)) = 2 ^ k) by (by rewrite after_skip_nv).
  unfold bind at 1, asks at 1. rewrite Hsize, Htail, Hhead, Hgeo. fold a.
  rewrite (u64_small (t1 + es)) by (unfold t1; lia).
  rewrite u64_small by (unfold t1; lia).
  rewrite Z.leb_antisym. destruct (Z.ltb_spec (2 ^ k) (t1 + es - n_head_cnt (nv s))); cbn [negb]; [done |].
  unfold bind, put_hdr, modify, ret. do 2 f_equal.
  unfold set_tail, put_cell, new_entry. cbn. rewrite Htail. by rewrite u64_small by (unfold t1; lia).
Qed.

(** putting an entry at the tail *)
Lemma inv_put s k l es e :
  nvlog_inv s k l -> (64 | es) -> 0 < es -> e_size e = es ->
  n_tail_cnt (nv s) mod 2 ^ k + es <= 2 ^ k ->
  n_tail_cnt (nv s) + es - n_head_cnt (nv s) <= 2 ^ k ->
  n_tail_cnt (nv s) + es < 2 ^ 63 ->
  bogus_ok (l ++ [(n_tail_cnt (nv s), e)]) ->
  nvlog_inv (set_tail (n_tail_cnt (nv s) + es)
               (put_cell (slot (n_buffer (nv s)) k (n_tail_cnt (nv s))) e s))
            k (l ++ [(n_tail_cnt (nv s), e)]).
Proof.
  intros [Hg Hh Ha Hu Hm Hseg Hb] Hd Hes He Hfit Hroom Hov Hbo.
  pose proof (geom_k _ _ Hg) as Hk.
  destruct (seg_range _ _ _ _ _ _ Hseg) as [Hle _].
  split; cbn; try done; try lia.
  - by apply nvlog_geom_tail.
  - eapply seg_app.
    + apply seg_insert; [lia | done | lia | lia].
    + constructor; [by rewrite lookup_insert_eq | lia | by rewrite He | by rewrite He |].
      rewrite He. constructor.
Qed.

Lemma bogus_ok_snoc l x : bogus_ok l -> is_bogus x = false -> bogus_ok (l ++ [x]).
Proof.
  intros Hl Hx. induction l as [| y l IH]; cbn.
  - split; [congruence | done].
  - destruct Hl as [Hy Hl]. split; [| by apply IH].
    intros E. specialize (Hy E). by destruct l.
Qed.

Lemma bogus_ok_snoc2 l x y : bogus_ok l -> is_bogus y = false -> bogus_ok (l ++ [x; y]).
Proof.
  intros Hl Hy. induction l as [| z l IH]; cbn.
  - split; [done |]. split; [congruence | done].
  - destruct Hl as [Hz Hl]. split; [| by apply IH].
    intros E. specialize (Hz E). by destruct l.
Qed.

(** one step of a log: the frame it keeps *)
Record nvlog_frame (s s' : nvst) : Prop := {
  frame_sto : sto s' = sto s;
  frame_geo : n_buffer (nv s') = n_buffer (nv s) /\ n_log_size (nv s') = n_log_size (nv s) /\
              n_mask (nv s') = n_mask (nv s) /\ n_store (nv s') = n_store (nv s) /\
              n_thread (nv s') = n_thread (nv s);
  frame_cells : forall a, a < n_buffer (nv s) \/ n_buffer (nv s) + n_log_size (nv s) <= a ->
                  cells (pm s') !! a = cells (pm s) !! a }.

(** [nvlog_enq] appends to the queue the log implements: when the entry
    (and the bogus entry it may need to reach the start of the buffer) fits
    beside the live entries, it returns the address of a fresh entry of the
    rounded size, the live entries stay as they were in order with the new one
    last, nothing outside the log's buffer or in its store changes, and the
    log's invariant holds again; otherwise it returns NULL. *)
Lemma nvlog_enq_spec s k l obj_size :
  nvlog_inv s k l -> 0 <= obj_size < 2 ^ 31 ->
  entry_size_of obj_size < 2 ^ k -> n_tail_cnt (nv s) + 2 * 2 ^ k < 2 ^ 63 ->
  let es := entry_size_of obj_size in
  let cnt := n_tail_cnt (nv s) + enq_skip k (n_tail_cnt (nv s)) es in
  exists a s', nvlog_enq obj_size s = Ok (a, s') /\ nvlog_frame s s' /\
    if cnt + es - n_head_cnt (nv s) <=? 2 ^ k then
      a = nvlog_at (nv s) cnt /\ a <> NULL /\
      n_head_cnt (nv s') = n_head_cnt (nv s) /\ n_tail_cnt (nv s') = cnt + es /\
      exists l', nvlog_inv s' k l' /\ contents l' = contents l ++ [(cnt, new_entry es)]
    else a = NULL.
Proof.
  intros Hinv Ho Hes Hov es cnt.
  pose proof (nvlog_enq_run s k l obj_size Hinv Ho Hes Hov) as Hrun. cbv zeta in Hrun.
  fold es in Hrun. fold cnt in Hrun.
  pose proof Hinv as [Hg Hh Ha Hu Hmax Hseg Hb].
  pose proof Hg as [Hk HL Hmask Hbuf Hpos].
  destruct (entry_size_bounds obj_size Ho) as (Hd64 & H64 & _). fold es in Hes, Hd64, H64.
  destruct (seg_range _ _ _ _ _ _ Hseg) as [Hht _].
  assert (Hdt : (64 | n_tail_cnt (nv s))) by (by eapply seg_64).
  pose proof (enq_skip_facts k (n_tail_cnt (nv s)) es Hk ltac:(lia) Hdt Hd64 ltac:(lia)) as Hskip.
  cbv zeta in Hskip. fold cnt in Hskip. destruct Hskip as (Hsk & Hskd & Hfit & Hsk0 & Hsk1).
  rewrite Hrun. destruct (Z.leb_spec (cnt + es - n_head_cnt (nv s)) (2 ^ k)) as [Hroom | Hno].
  - do 2 eexists. split; [reflexivity |].
    assert (Hinv' : exists l', nvlog_inv (set_tail (cnt + es) (put_cell
        (slot (n_buffer (nv s)) k cnt) (new_entry es) (after_skip s k es))) k l' /\
        contents l' = contents l ++ [(cnt, new_entry es)]).
    { unfold after_skip. cbv zeta. unfold cnt in Hroom, Hfit |- *. unfold enq_skip in *.
      destruct (Z.ltb_spec (n_tail_cnt (nv s) mod 2 ^ k + es) (2 ^ k)) as [Hlt | Hge].
      - rewrite Z.add_0_r in *. exists (l ++ [(n_tail_cnt (nv s), new_entry es)]).
        split; [| by rewrite contents_app].
        apply inv_put; try done; try lia. by apply bogus_ok_snoc.
      - set (sk := 2 ^ k - n_tail_cnt (nv s) mod 2 ^ k) in *.
        assert (Hsk' : sk <> 0) by lia. destruct (Hsk1 Hsk') as [Hm0 Hms].
        set (bg := bogus_entry sk).
        set (s1 := set_tail (n_tail_cnt (nv s) + sk)
          (put_cell (slot (n_buffer (nv s)) k (n_tail_cnt (nv s))) bg s)).
        exists ((l ++ [(n_tail_cnt (nv s), bg)]) ++ [(n_tail_cnt (nv s) + sk, new_entry es)]).
        split; [| rewrite !contents_app; cbn; by rewrite app_nil_r].
        (* the walk over both new entries *)
        assert (Hseg1 : seg (n_buffer (nv s)) k (cells (pm s1)) (n_head_cnt (nv s))
                  (l ++ [(n_tail_cnt (nv s), bg)]) (n_tail_cnt (nv s) + sk)).
        { eapply seg_app; [apply seg_insert; [lia | done | lia | lia] |].
          constructor; cbn; [by rewrite lookup_insert_eq | lia | done | lia | constructor]. }
        split; cbn; try done; try lia.
        + eapply seg_app; [apply seg_insert; [lia | exact Hseg1 | lia | lia] |].
          constructor; cbn; [by rewrite lookup_insert_eq | lia | done | lia | constructor].
        + rewrite <- app_assoc. by apply bogus_ok_snoc2. }
    split; [| split; [| split; [| split; [| split]]]]; try exact Hinv'.
    + split; cbn; [by rewrite after_skip_sto | rewrite after_skip_nv; by cbn |].
      intros x Hx. rewrite HL in Hx.
      pose proof (slot_range (n_buffer (nv s)) k cnt ltac:(lia)).
      pose proof (slot_range (n_buffer (nv s)) k (n_tail_cnt (nv s)) ltac:(lia)).
      rewrite lookup_insert_ne by lia. unfold after_skip. cbv zeta.
      destruct (_ <? _); [done |]. cbn. by rewrite lookup_insert_ne by lia.
    + by rewrite (nvlog_at_slot (nv s) k).
    + pose proof (slot_range (n_buffer (nv s)) k cnt ltac:(lia)). unfold NULL. lia.
    + cbn. by rewrite after_skip_nv.
    + done.
  - do 2 eexists. split; [reflexivity |]. split; [| done].
    split; cbn; [by rewrite after_skip_sto | rewrite after_skip_nv; by cbn |].
    intros x Hx. rewrite HL in Hx.
    pose proof (slot_range (n_buffer (nv s)) k (n_tail_cnt (nv s)) ltac:(lia)).
    unfold after_skip. cbv zeta. destruct (_ <? _); [done |]. cbn. by rewrite lookup_insert_ne by lia.
Qed.

(** * Facts: the front of the queue *)

Lemma get_entry_run s a e : cells (pm s) !! a = Some e -> get_entry a s = Ok (e, s).
Proof. intros H. unfold get_entry. by rewrite H. Qed.

(** dropping the oldest entry *)
Lemma inv_pop s k h e l :
  nvlog_inv s k ((h, e) :: l) ->
  h = n_head_cnt (nv s) /\ n_head_cnt (nv s) <> n_tail_cnt (nv s) /\
  cells (pm s) !! nvlog_at (nv s) h = Some e /\
  u64 (h + e_size e) = h + e_size e /\ nvlog_inv (set_head (h + e_size e) s) k l.
Proof.
  intros [Hg Hh Ha Hu Hm Hseg Hb].
  inversion Hseg as [| ? ? ? ? Hc Hs Hd Hw Hseg']; subst.
  destruct (seg_range _ _ _ _ _ _ Hseg') as [Hle _].
  split; [done |]. split; [lia |].
  split; [by rewrite (nvlog_at_slot _ k) |]. split; [apply u64_small; lia |].
  split; cbn; try done; try lia.
  - by apply nvlog_geom_head.
  - by apply Z.divide_add_r.
  - by destruct Hb.
Qed.

Lemma inv_empty s k : nvlog_inv s k [] -> n_head_cnt (nv s) = n_tail_cnt (nv s).
Proof. intros [_ _ _ _ _ Hseg _]. by inversion Hseg. Qed.

Lemma contents_bogus x l : is_bogus x = true -> contents (x :: l) = contents l.
Proof. cbn. by intros ->. Qed.
Lemma contents_real x l : is_bogus x = false -> contents (x :: l) = x :: contents l.
Proof. cbn. by intros ->. Qed.

(** the walk starts with the oldest entry of the queue, after one bogus entry
    at most *)
Lemma inv_front s k l :
  nvlog_inv s k l ->
  match l with
  | [] => contents l = []
  | x :: l' =>
      if is_bogus x then exists y l'', l' = y :: l'' /\ is_bogus y = false /\
                           contents l = y :: contents l''
      else contents l = x :: contents l'
  end.
Proof.
  intros Hinv. destruct l as [| x l']; [done |].
  destruct (inv_bogus _ _ _ Hinv) as [Hx _]. destruct (is_bogus x) eqn:E.
  - specialize (Hx eq_refl). destruct l' as [| y l'']; [done |].
    exists y, l''. split; [done |]. split; [done |].
    by rewrite contents_bogus, contents_real.
  - by rewrite contents_real.
Qed.

Lemma is_bogus_dec h e : is_bogus (h, e) = bool_decide (e_type e = TYPE_BOGUS).
Proof. done. Qed.

Lemma set_head_id s : set_head (n_head_cnt (nv s)) s = s.
Proof. by destruct s as [[] ? ?]. Qed.

(** [nvlog_deq] takes the oldest entry off the queue: it returns the address
    of the first entry that is not bogus and the rest of the queue stays as it
    was; on an empty log it returns NULL and changes nothing.  NVM and the
    persisted counters are not touched. *)
Lemma nvlog_deq_spec s k l :
  nvlog_inv s k l ->
  exists a s' l', nvlog_deq s = Ok (a, s') /\ s' = set_head (n_head_cnt (nv s')) s /\ nvlog_inv s' k l' /\
    match contents l with
    | [] => a = NULL /\ s' = s
    | (c, e) :: rest => a = nvlog_at (nv s) c /\ cells (pm s) !! a = Some e /\
                        n_head_cnt (nv s') = c + e_size e /\ contents l' = rest
    end.
Proof.
  intros Hinv. pose proof (inv_front s k l Hinv) as Hf. unfold nvlog_deq, bind, asks.
  destruct l as [| [h e] l'].
  { rewrite (inv_empty s k Hinv), Z.eqb_refl. exists NULL, s, []. rewrite Hf.
    split; [done |]. split; [symmetry; apply set_head_id | by split]. }
  destruct (inv_pop s k h e l' Hinv) as (-> & Hne & Hc & Hu & Hinv').
  rewrite (proj2 (Z.eqb_neq _ _)) by done. rewrite (get_entry_run _ _ _ Hc).
  unfold modify, ret.
  rewrite is_bogus_dec in Hf. case_bool_decide as Eb.
  - destruct Hf as ([h2 e2] & l'' & -> & Hreal & ->).
    destruct (inv_pop _ k h2 e2 l'' Hinv') as (Eh & Hne2 & Hc2 & Hu2 & Hinv'').
    cbn [set_head upd nv n_head_cnt n_tail_cnt pm] in Eh, Hne2, Hc2, Hu2.
    rewrite decide_True by done. cbn [upd nv n_head_cnt n_tail_cnt pm]. rewrite Hu, <- Eh in *.
    rewrite (proj2 (Z.eqb_neq _ _)) by done.
    change (nvlog_at _ h2) with (nvlog_at (nv s) h2) in Hc2 |- *.
    erewrite get_entry_run by exact Hc2. cbn [upd nv n_head_cnt]. rewrite Hu2.
    do 3 eexists. split; [reflexivity |].
    split; [done |]. split; [exact Hinv'' |]. by cbn.
  - rewrite Hf, decide_False by done. cbn. rewrite Hu.
    do 3 eexists. split; [reflexivity |]. split; [done |].
    by split; [exact Hinv' |].
Qed.

(** [nvlog_peek_head] returns the address of the oldest entry of the queue,
    or NULL when it is empty, and leaves the queue as it was (it may drop a
    bogus entry at the head). *)
Lemma nvlog_peek_head_spec s k l :
  nvlog_inv s k l ->
  exists a s' l', nvlog_peek_head s = Ok (a, s') /\ s' = set_head (n_head_cnt (nv s')) s /\
    nvlog_inv s' k l' /\ contents l' = contents l /\
    match contents l with
    | [] => a = NULL
    | (c, e) :: _ => a = nvlog_at (nv s) c /\ cells (pm s) !! a = Some e /\ n_head_cnt (nv s') = c
    end.
Proof.
  intros Hinv. pose proof (inv_front s k l Hinv) as Hf. unfold nvlog_peek_head, bind, asks.
  destruct l as [| [h e] l'].
  { rewrite (inv_empty s k Hinv), Z.eqb_refl. exists NULL, s, [].
    split; [done |]. split; [symmetry; apply set_head_id | by split]. }
  destruct (inv_pop s k h e l' Hinv) as (-> & Hne & Hc & Hu & Hinv').
  rewrite (proj2 (Z.eqb_neq _ _)) by done. rewrite (get_entry_run _ _ _ Hc). unfold modify, ret.
  rewrite is_bogus_dec in Hf. case_bool_decide as Eb.
  - destruct Hf as ([h2 e2] & l'' & -> & Hreal & Hf).
    destruct (inv_pop _ k h2 e2 l'' Hinv') as (Eh & Hne2 & Hc2 & Hu2 & Hinv'').
    cbn [set_head upd nv n_head_cnt n_tail_cnt pm] in Eh, Hne2, Hc2, Hu2.
    rewrite Hf, decide_True by done. cbn [upd nv n_head_cnt n_tail_cnt pm].
    rewrite Hu, <- Eh in *. rewrite (proj2 (Z.eqb_neq _ _)) by done.
    change (nvlog_at _ h2) with (nvlog_at (nv s) h2) in Hc2 |- *.
    do 3 eexists. split; [reflexivity |]. split; [done |].
    split; [exact Hinv' |]. split; [by apply contents_real | done].
  - rewrite Hf, decide_False by done. do 3 eexists. split; [reflexivity |].
    split; [symmetry; apply set_head_id |]. split; [exact Hinv |]. by split.
Qed.

(** * Facts: persistence *)

(** the store lies outside the log's buffer *)
Definition store_apart (n : ts_nvlog) : Prop :=
  0 < n_store n /\ (n_store n + sizeof_nvlog_entry_hdr <= n_buffer n \/
                    n_buffer n + n_log_size n <= n_store n).

Lemma line_lt a b : (64 | b) -> a < b -> line_of a < line_of b.
Proof.
  intros [q ->] Hab. unfold line_of, TS_CACHE_LINE_SIZE, L1_CACHE_BYTES.
  rewrite Z.div_mul by lia. apply Z.div_lt_upper_bound; lia.
Qed.

Lemma line_le a b : a <= b -> line_of a <= line_of b.
Proof. intros. unfold line_of. apply Z.div_le_mono; [done | lia]. Qed.

Lemma store_line_apart n k c a :
  nvlog_geom n k -> store_apart n -> n_store n <= a < n_store n + sizeof_nvlog_entry_hdr ->
  line_of a <> line_of (slot (n_buffer n) k c).
Proof.
  intros Hg [_ Hap] Ha. pose proof (slot_range (n_buffer n) k c ltac:(destruct Hg; lia)) as Hr.
  destruct Hg as [Hk HL _ Hb _]. destruct (pow2_k_bounds k Hk) as [_ HdL].
  rewrite HL in Hap. unfold sizeof_nvlog_entry_hdr in *. destruct Hap as [Hap | Hap].
  - pose proof (line_lt a (n_buffer n) Hb ltac:(lia)).
    pose proof (line_le (n_buffer n) (slot (n_buffer n) k c) ltac:(lia)). lia.
  - pose proof (line_lt (slot (n_buffer n) k c) (n_buffer n + 2 ^ k)
                  ltac:(by apply Z.divide_add_r) ltac:(lia)).
    pose proof (line_le (n_buffer n + 2 ^ k) a ltac:(lia)). lia.
Qed.

(** a flush of [lo, hi) cleans the line of each aligned offset in it *)
Lemma clwb_range_offset base lo hi off m :
  (64 | base) -> (64 | lo) -> (64 | off) -> 0 <= lo <= off -> off < hi < 2 ^ 32 - 64 ->
  line_of (base + off) ∉ dirty (clwb_range base lo hi m).
Proof.
  intros Hb Hl Ho Hlo Hhi. apply clwb_range_lines; try done; try lia. split; [apply line_le; lia |].
  destruct Hb as [b ->], Ho as [o ->]. unfold line_of, TS_CACHE_LINE_SIZE, L1_CACHE_BYTES.
  replace (b * 64 + o * 64) with ((b + o) * 64) by lia. rewrite Z.div_mul by lia.
  assert (b + o + 1 <= (b * 64 + hi + 63) / 64); [| lia].
  apply Z.div_le_lower_bound; lia.
Qed.

Lemma nvlog_flush_range_lines n k t0 t c m :
  nvlog_geom n k -> (64 | t0) -> (64 | t) -> (64 | c) -> t0 <= c < t -> t - t0 < 2 ^ k ->
  line_of (slot (n_buffer n) k c) ∉ dirty (nvlog_flush_range n (t0 mod 2 ^ k) (t mod 2 ^ k) m).
Proof.
  intros [Hk HL _ Hb _] Hd0 Hd1 Hdc Hc Hlt. destruct (pow2_k_bounds k Hk) as [HL2 HdL].
  assert (Ho : (64 | c mod 2 ^ k)) by by apply mod_pow2_64.
  assert (Hl : (64 | t0 mod 2 ^ k)) by by apply mod_pow2_64.
  pose proof (Z.mod_pos_bound t0 (2 ^ k) ltac:(lia)) as B0.
  pose proof (mod_add_cases (2 ^ k) t0 (c - t0) ltac:(lia)) as Ec.
  pose proof (mod_add_cases (2 ^ k) t0 (t - t0) ltac:(lia)) as Et.
  replace (t0 + (c - t0)) with c in Ec by lia. replace (t0 + (t - t0)) with t in Et by lia.
  unfold nvlog_flush_range, slot. rewrite HL. generalize dependent (t0 mod 2 ^ k). intros i0 Hl B0 Ec Et.
  destruct (Z.ltb_spec (i0 + (t - t0)) (2 ^ k)) as [H1 | H1]; rewrite Et.
  - rewrite (proj2 (Z.ltb_lt _ _)) by lia. rewrite (proj2 (Z.ltb_lt _ _)) in Ec by lia.
    rewrite Ec in Ho |- *. apply clwb_range_offset; try done; lia.
  - rewrite (proj2 (Z.ltb_ge _ _)) by lia.
    destruct (Z.ltb_spec (i0 + (c - t0)) (2 ^ k)) as [H2 | H2].
    + intros H. apply clwb_range_flushes in H. revert H.
      apply clwb_range_offset; try done; lia.
    + apply clwb_range_offset; try done; try lia. apply Z.divide_0_r.
Qed.

Lemma nvlog_flush_range_flushes n i j m : flushes m (nvlog_flush_range n i j m).
Proof.
  unfold nvlog_flush_range. destruct (_ <? _); [apply clwb_range_flushes |].
  etransitivity; apply clwb_range_flushes.
Qed.

(** storing to a line and starting its write-back leaves another line durable *)
Lemma store_clwb_durable a b len m l :
  0 < len -> line_of a = line_of (a + len - 1) -> line_of b = line_of a -> line_of a <> l ->
  durable m l -> durable (clwb b (store_lines a len m)) l.
Proof.
  intros Hlen Hone Hb Hne [Hd Hp].
  assert (Hl : lines_of a len = [line_of a]).
  { unfold lines_of. rewrite <- Hone, Z.sub_diag. change (Z.to_nat (0 + 1)) with 1%nat.
    cbn [seq fmap list_fmap Z.of_nat]. by rewrite Z.add_0_r. }
  unfold durable, clwb, store_lines. rewrite Hl, Hb. cbn. case_decide; cbn; set_solver.
Qed.

Lemma store_word_durable a b v m l : durable (clwb b (store_lines a 8 m)) l -> durable (clwb b (store_word a v m)) l.
Proof. unfold durable, clwb. cbn. by case_decide. Qed.

Lemma store_tail_line a : (64 | a) -> line_of (a + 8) = line_of (a + 8 + 8 - 1).
Proof.
  intros [q ->]. unfold line_of, TS_CACHE_LINE_SIZE, L1_CACHE_BYTES.
  replace (q * 64 + 8 + 8 - 1) with (15 + q * 64) by lia.
  replace (q * 64 + 8) with (8 + q * 64) by lia. by rewrite !Z.div_add.
Qed.

Lemma nvlog_enq_persist_run s k :
  nvlog_geom (nv s) k -> 0 < n_store (nv s) ->
  nvlog_enq_persist s =
    if n_tail_cnt (nv s) mod 2 ^ k =? s_tail_cnt (sto s) mod 2 ^ k then Ok (tt, s)
    else Ok (tt, s <| sto ::= (fun t => t <| s_tail_cnt := n_tail_cnt (nv s) |>) |>
                   <| pm := clwb (store_tail_addr (nv s)) (store_word (store_tail_addr (nv s)) (n_tail_cnt (nv s))
                        (wmb (nvlog_flush_range (nv s) (s_tail_cnt (sto s) mod 2 ^ k)
                                (n_tail_cnt (nv s) mod 2 ^ k) (pm s)))) |>).
Proof.
  intros Hg Hs. unfold nvlog_enq_persist, bind, asks, NULL.
  rewrite (proj2 (Z.eqb_neq (n_store (nv s)) 0)) by lia.
  rewrite !(nvlog_index_mod (nv s) k) by done. rewrite Z.eqb_sym. by destruct (_ =? _).
Qed.

(** the tail counter on NVM is [t], and its write-back has been started *)
Definition tail_written (t : Z) (n : ts_nvlog) (m : pmem) : Prop :=
  words m !! store_tail_addr n = Some t /\ line_of (store_tail_addr n) ∉ dirty m.

(** [nvlog_enq_persist] makes the enqueued bytes durable and writes the tail that
    covers them: when less than the whole log was appended since the tail was
    persisted last, the persisted tail becomes the log's tail, each cache line
    between the old and the new tail is durable when the function returns,
    whether or not the range wraps, durable lines of the log stay durable, and
    no entry changes. *)
Lemma nvlog_enq_persist_spec s k t0 :
  nvlog_geom (nv s) k -> store_apart (nv s) -> (64 | n_store (nv s)) ->
  s_tail_cnt (sto s) = t0 -> (64 | t0) -> (64 | n_tail_cnt (nv s)) ->
  t0 <= n_tail_cnt (nv s) < t0 + 2 ^ k ->
  exists s', nvlog_enq_persist s = Ok (tt, s') /\ nv s' = nv s /\
    sto s' = (sto s) <| s_tail_cnt := n_tail_cnt (nv s) |> /\ cells (pm s') = cells (pm s) /\
    (t0 < n_tail_cnt (nv s) -> tail_written (n_tail_cnt (nv s)) (nv s) (pm s')) /\
    forall c, (64 | c) ->
      (t0 <= c < n_tail_cnt (nv s) \/ durable (pm s) (line_of (slot (n_buffer (nv s)) k c))) ->
      durable (pm s') (line_of (slot (n_buffer (nv s)) k c)).
Proof.
  intros Hg Hap Hst Ht0 Hd0 Hdt Hrange. destruct (pow2_k_bounds k ltac:(by destruct Hg)) as [HL2 _].
  rewrite (nvlog_enq_persist_run s k) by (done || by destruct Hap). rewrite Ht0.
  destruct (Z.eqb_spec (n_tail_cnt (nv s) mod 2 ^ k) (t0 mod 2 ^ k)) as [E | E].
  - apply mod_window_inj in E; [| lia | lia]. exists s.
    split; [done |]. split; [done |]. split; [destruct (sto s); cbn in *; congruence |].
    split; [done |]. split; [lia |]. intros c Hc [H | H]; [lia | done].
  - eexists. split; [reflexivity |]. split; [done |]. split; [done |].
    destruct (nvlog_flush_range_flushes (nv s) (t0 mod 2 ^ k) (n_tail_cnt (nv s) mod 2 ^ k) (pm s))
      as (Hcells & _ & Hdirty & Hpend).
    split. { cbn. unfold clwb. case_decide; cbn; exact Hcells. }
    split. { intros _. cbn [pm upd]. split; [| apply clwb_line]. rewrite (proj1 (proj2 (clwb_flushes _ _))). apply lookup_insert_eq. }
    intros c Hc Hor. cbn. apply store_word_durable, store_clwb_durable; try done.
    + by apply store_tail_line.
    + apply (store_line_apart (nv s)); [done | done |].
      unfold store_tail_addr, sizeof_nvlog_entry_hdr. lia.
    + apply wmb_durable. destruct Hor as [H | [H _]].
      * apply nvlog_flush_range_lines; try done; lia.
      * intros H'. by apply H, Hdirty.
Qed.

(** The boundary of [nvlog_enq_persist]: it compares the tails as buffer
    indices, so when exactly the whole log was appended since the tail was
    persisted last it takes the log for flushed and does nothing, and the log
    loaded after a crash has none of the appended entries. *)
Theorem nvlog_enq_persist_full_wrap s k :
  nvlog_geom (nv s) k -> 0 < n_store (nv s) ->
  n_tail_cnt (nv s) = s_tail_cnt (sto s) + 2 ^ k ->
  nvlog_enq_persist s = Ok (tt, s) /\
  n_tail_cnt (nvlog_load (n_store (nv s)) (sto s)) = n_tail_cnt (nv s) - 2 ^ k.
Proof.
  intros Hg Hs Ht. destruct (pow2_k_bounds k ltac:(by destruct Hg)) as [HL2 _].
  rewrite (nvlog_enq_persist_run s k) by done. rewrite Ht.
  replace (s_tail_cnt (sto s) + 2 ^ k) with (s_tail_cnt (sto s) + 1 * 2 ^ k) at 1 by lia.
  rewrite Z.mod_add, Z.eqb_refl by lia. split; [done |]. cbn. lia.
Qed.

(** C35. [nvlog_enq] writes the bogus entry before it checks for room, so on a
    full log an enqueue that has to wrap returns NULL but has overwritten the
    header of the oldest live entry with the bogus one and moved the tail past
    the head: the log then claims more bytes than it has. *)
Theorem nvlog_enq_full_clobbers_head s k h e l obj_size :
  nvlog_inv s k ((h, e) :: l) -> 0 <= obj_size < 2 ^ 31 ->
  entry_size_of obj_size < 2 ^ k -> n_tail_cnt (nv s) + 2 * 2 ^ k < 2 ^ 63 ->
  n_tail_cnt (nv s) - n_head_cnt (nv s) = 2 ^ k ->
  2 ^ k <= n_tail_cnt (nv s) mod 2 ^ k + entry_size_of obj_size ->
  exists s' sz, nvlog_enq obj_size s = Ok (NULL, s') /\
    cells (pm s') !! nvlog_at (nv s) h = Some (bogus_entry sz) /\
    n_log_size (nv s') < nvlog_used (nv s').
Proof.
  intros Hinv Ho Hes Hov Hfull Hwrap.
  rewrite (nvlog_enq_run s k _ obj_size Hinv Ho Hes Hov).
  destruct (inv_pop _ _ _ _ _ Hinv) as (-> & Hne & _). destruct Hinv as [Hg Hh _ _ _ _ _].
  destruct (pow2_k_bounds k ltac:(by destruct Hg)) as [HL2 _].
  pose proof (Z.mod_pos_bound (n_tail_cnt (nv s)) (2 ^ k) ltac:(lia)).
  destruct (entry_size_bounds obj_size Ho) as (_ & H64 & _).
  assert (Hsk : enq_skip k (n_tail_cnt (nv s)) (entry_size_of obj_size) =
                2 ^ k - n_tail_cnt (nv s) mod 2 ^ k).
  { unfold enq_skip. by rewrite (proj2 (Z.ltb_ge _ _)) by lia. }
  rewrite (proj2 (Z.leb_gt _ _)) by (rewrite Hsk; lia).
  do 2 eexists. split; [reflexivity |]. rewrite (nvlog_at_slot (nv s) k) by done.
  replace (slot (n_buffer (nv s)) k (n_head_cnt (nv s)))
    with (slot (n_buffer (nv s)) k (n_tail_cnt (nv s))).
  2: { unfold slot. replace (n_tail_cnt (nv s)) with (n_head_cnt (nv s) + 1 * 2 ^ k) by lia.
       by rewrite Z.mod_add by lia. }
  unfold nvlog_used. rewrite after_skip_nv. cbn. rewrite u64_small, Hsk by lia.
  split; [| rewrite (geom_size _ _ Hg); lia].
  unfold after_skip. cbv zeta. rewrite (proj2 (Z.ltb_ge _ _)) by lia. cbn.
  by rewrite lookup_insert_eq, Hsk.
Qed.

(** * The queue a log implements *)

(** [s] implements the queue [q] of the entries at their counts, oldest first *)
Definition log_holds (s : nvst) (k : Z) (q : entries) : Prop :=
  exists l, nvlog_inv s k l /\ contents l = q.

(** the invariant is about the control structure and the entries *)
Lemma nvlog_inv_ext s s' k l :
  nvlog_inv s k l ->
  n_buffer (nv s') = n_buffer (nv s) -> n_log_size (nv s') = n_log_size (nv s) ->
  n_mask (nv s') = n_mask (nv s) -> n_head_cnt (nv s') = n_head_cnt (nv s) ->
  n_tail_cnt (nv s') = n_tail_cnt (nv s) -> cells (pm s') = cells (pm s) -> nvlog_inv s' k l.
Proof.
  intros [[] ? ? ? ? ? ?] Eb El Em Eh Et Ec.
  split; rewrite ?Eh, ?Et, ?Ec, ?Eb; try done. split; congruence.
Qed.

(** every entry takes a cache line at least *)
Lemma seg_length b k c h l t : seg b k c h l t -> 64 * Z.of_nat (length l) <= t - h.
Proof.
  induction 1 as [| h e l t _ Hp Hd _ _ IH]; cbn [length]; [lia |]. destruct Hd as [q Hq]. lia.
Qed.

Lemma contents_length l : (length (contents l) <= length l)%nat.
Proof. unfold contents. induction l as [| x l IH]; cbn; [lia |]. destruct (negb _); cbn; lia. Qed.

Lemma log_holds_length s k q :
  log_holds s k q -> Z.of_nat (length q) <= nvlog_used (nv s) / TS_CACHE_LINE_SIZE.
Proof.
  intros (l & [Hg Hh Ha Hu Hmax Hseg Hb] & <-). pose proof (seg_length _ _ _ _ _ _ Hseg).
  pose proof (contents_length l). destruct (seg_range _ _ _ _ _ _ Hseg) as [Hle _].
  unfold nvlog_used. rewrite u64_small by lia. apply Z.div_le_lower_bound; [done |].
  unfold TS_CACHE_LINE_SIZE, L1_CACHE_BYTES. lia.
Qed.

(** C10. A log implements a bounded first-in first-out queue.  An enqueue appends
    a fresh entry, or answers NULL exactly when the entry and the bogus entry
    that it may need do not fit beside the live ones; a peek answers the oldest
    entry's address and keeps the queue; a dequeue answers the same address and
    removes that entry; both answer NULL exactly on the empty queue. *)
Theorem nvlog_refines_queue s k q :
  log_holds s k q ->
  (forall obj_size, 0 <= obj_size < 2 ^ 31 -> entry_size_of obj_size < 2 ^ k ->
     n_tail_cnt (nv s) + 2 * 2 ^ k < 2 ^ 63 ->
     let es := entry_size_of obj_size in
     let c := n_tail_cnt (nv s) + enq_skip k (n_tail_cnt (nv s)) es in
     exists a s', nvlog_enq obj_size s = Ok (a, s') /\
       if c + es - n_head_cnt (nv s) <=? 2 ^ k
       then a = nvlog_at (nv s) c /\ a <> NULL /\ log_holds s' k (q ++ [(c, new_entry es)])
       else a = NULL) /\
  (exists a s', nvlog_peek_head s = Ok (a, s') /\ log_holds s' k q /\
     match q with [] => a = NULL | (c, e) :: _ => a = nvlog_at (nv s) c /\ cells (pm s) !! a = Some e end) /\
  (exists a s', nvlog_deq s = Ok (a, s') /\ pm s' = pm s /\ log_holds s' k (List.tl q) /\
     match q with [] => a = NULL | (c, e) :: _ => a = nvlog_at (nv s) c /\ cells (pm s) !! a = Some e end).
Proof.
  intros (l & Hi & <-). split; [| split].
  - intros sz Hs He Ho es c. destruct (nvlog_enq_spec s k l sz Hi Hs He Ho) as (a & s' & E & _ & Hr).
    fold es in Hr. fold c in Hr. exists a, s'. split; [done |].
    destruct (_ <=? _); [| done]. destruct Hr as (Ha & Hn & _ & _ & l' & Hi' & Hc).
    split; [done |]. split; [done |]. by exists l'.
  - destruct (nvlog_peek_head_spec s k l Hi) as (a & s' & l' & E & _ & Hi' & Hc & Hr).
    exists a, s'. split; [done |]. split; [by exists l' |]. destruct (contents l) as [| [c e] r]; [done |].
    by destruct Hr as (? & ? & _).
  - destruct (nvlog_deq_spec s k l Hi) as (a & s' & l' & E & Hp & Hi' & Hr).
    exists a, s'. split; [done |]. split; [by rewrite Hp |]. destruct (contents l) as [| [c e] r] eqn:Ec.
    + destruct Hr as [-> ->]. split; [by exists l | done].
    + destruct Hr as (? & ? & _ & ?). split; [by exists l' | done].
Qed.

(** * Facts: rewriting an entry in place *)

(** the entry at count [c] becomes [e] *)
Definition upd_count (c : Z) (e : ts_nvlog_entry) (x : Z * ts_nvlog_entry) : Z * ts_nvlog_entry :=
  if x.1 =? c then (c, e) else x.

Lemma seg_upd b k m h0 h l t c e e' :
  6 <= k -> seg b k m h l t -> h0 <= h -> t - h0 <= 2 ^ k -> h0 <= c < h0 + 2 ^ k ->
  m !! slot b k c = Some e -> e_size e' = e_size e ->
  seg b k (<[slot b k c := e']> m) h (upd_count c e' <$> l) t.
Proof.
  intros Hk Hseg. induction Hseg as [t | h e0 l t He Hs Hd Hw Hseg IH]; intros Hh Ht Hc Hm Hsz; [constructor |].
  pose proof (proj1 (seg_range _ _ _ _ _ _ Hseg)). rewrite fmap_cons. unfold upd_count at 1. cbn [fst].
  destruct (Z.eqb_spec h c) as [-> | Hne].
  - assert (e0 = e) as -> by congruence.
    constructor; rewrite ?Hsz; try done; [by rewrite lookup_insert_eq |]. apply IH; try done; lia.
  - constructor; try done; [| apply IH; try done; lia].
    rewrite lookup_insert_ne; [done |]. intros E. apply slot_inj in E; lia.
Qed.

Lemma seg_NoDup b k m h l t : seg b k m h l t -> NoDup l.*1.
Proof.
  induction 1 as [t | h e l t He Hs Hd Hw Hseg IH]; cbn; constructor; [| done].
  intros (x & Ex & Hx)%list_elem_of_fmap. destruct (seg_range _ _ _ _ _ _ Hseg) as [_ Hr].
  specialize (Hr x Hx). lia.
Qed.

Lemma contents_elem x l : x ∈ contents l -> x ∈ l.
Proof. unfold contents. rewrite !list_elem_of_In, List.filter_In. tauto. Qed.

Lemma contents_fmap f l :
  (forall x, x ∈ l -> is_bogus (f x) = is_bogus x) -> contents (f <$> l) = f <$> contents l.
Proof.
  induction l as [| x l IH]; intros Hf; [done |]. unfold contents in *. cbn.
  rewrite (Hf x), IH by (by left || intros; apply Hf; by right). by destruct (is_bogus x).
Qed.

Lemma bogus_ok_fmap f l : (forall x, x ∈ l -> is_bogus (f x) = is_bogus x) -> bogus_ok l -> bogus_ok (f <$> l).
Proof.
  induction l as [| x l IH]; intros Hf; [done |]. cbn. intros [Hx Hl].
  split; [| apply IH; [intros; apply Hf; by right | done]].
  rewrite (Hf x) by (by left). intros E. specialize (Hx E). destruct l as [| y l]; [done |]. cbn.
  rewrite (Hf y); [done | right; by left].
Qed.

Lemma upd_count_notin c e l : c ∉ l.*1 -> upd_count c e <$> l = l.
Proof.
  induction l as [| x l IH]; cbn; [done |]. intros [Hx Hl]%not_elem_of_cons.
  rewrite IH by done. f_equal. unfold upd_count. destruct (Z.eqb_spec x.1 c); [congruence | done].
Qed.

Lemma contents_NoDup l : NoDup l.*1 -> NoDup (contents l).*1.
Proof.
  induction l as [| x l IH]; cbn; [constructor |]. intros [Hx Hl]%NoDup_cons.
  unfold contents in *. cbn. destruct (negb _); cbn; [| auto]. constructor; [| auto].
  intros (y & E & Hy)%list_elem_of_fmap. apply Hx, list_elem_of_fmap. exists y. split; [done |].
  by apply contents_elem.
Qed.

Lemma log_holds_NoDup r k q : log_holds r k q -> NoDup q.*1.
Proof. intros (l & [_ _ _ _ _ Hseg _] & <-). by eapply contents_NoDup, seg_NoDup. Qed.

Lemma log_holds_cell r k q x : log_holds r k q -> x ∈ q -> cells (pm r) !! slot (n_buffer (nv r)) k x.1 = Some x.2.
Proof. intros (l & [_ _ _ _ _ Hseg _] & <-) Hx%contents_elem. by eapply seg_lookup. Qed.

Lemma log_holds_geom r k q : log_holds r k q -> nvlog_geom (nv r) k.
Proof. by intros (l & [Hg _ _ _ _ _ _] & _). Qed.

(** cells outside the log's buffer do not matter *)
Lemma log_holds_outside r r' k q :
  log_holds r k q -> nv r' = nv r ->
  (forall a, n_buffer (nv r) <= a < n_buffer (nv r) + 2 ^ k -> cells (pm r') !! a = cells (pm r) !! a) ->
  log_holds r' k q.
Proof.
  intros (l & [Hg Hh Ha Hu Hmax Hseg Hb] & Hc) Hn Hcells. exists l. split; [| done].
  split; rewrite ?Hn; try done. eapply seg_mono; [exact Hseg |]. intros x Hx. pose proof (geom_k _ _ Hg).
  rewrite Hcells by (apply slot_range; lia). by eapply seg_lookup.
Qed.

(** rewriting an entry of the queue, its size and type kept *)
Lemma log_holds_upd r r' k q c e e' :
  log_holds r k q -> (c, e) ∈ q -> nv r' = nv r ->
  cells (pm r') = <[nvlog_at (nv r) c := e']> (cells (pm r)) ->
  e_size e' = e_size e -> e_type e' = e_type e -> log_holds r' k (upd_count c e' <$> q).
Proof.
  intros (l & [Hg Hh Ha Hu Hmax Hseg Hb] & Hc) Hq Hn Hcells Hsz Hty.
  assert (Hin : (c, e) ∈ l) by (apply contents_elem; by rewrite Hc).
  pose proof (seg_lookup _ _ _ _ _ _ _ Hseg Hin) as Hlk. cbn in Hlk.
  destruct (seg_range _ _ _ _ _ _ Hseg) as [Hle Hr]. specialize (Hr _ Hin). cbn in Hr.
  assert (Hbog : forall x, x ∈ l -> is_bogus (upd_count c e' x) = is_bogus x).
  { intros x Hx. unfold upd_count. destruct (Z.eqb_spec x.1 c) as [E |]; [| done].
    unfold is_bogus. cbn. rewrite Hty. pose proof (seg_lookup _ _ _ _ _ _ _ Hseg Hx) as Hx'.
    rewrite E in Hx'. assert (x.2 = e) as -> by congruence. done. }
  exists (upd_count c e' <$> l). split; [| by rewrite contents_fmap, Hc].
  split; rewrite ?Hn, ?Hcells; try done; [| by apply bogus_ok_fmap].
  rewrite (nvlog_at_slot _ k) by done.
  eapply (seg_upd _ _ _ (n_head_cnt (nv r))); try done; try lia. by destruct Hg; lia.
Qed.

(** the same for the last entry *)
Lemma log_holds_upd_last r r' k q c e e' :
  log_holds r k (q ++ [(c, e)]) -> nv r' = nv r ->
  cells (pm r') = <[nvlog_at (nv r) c := e']> (cells (pm r)) ->
  e_size e' = e_size e -> e_type e' = e_type e -> log_holds r' k (q ++ [(c, e')]).
Proof.
  intros Hh Hn Hcells Hsz Hty. pose proof (log_holds_NoDup _ _ _ Hh) as Hnd.
  pose proof (log_holds_upd r r' k _ c e e' Hh ltac:(elems) Hn Hcells Hsz Hty) as Hr.
  rewrite fmap_app in Hr. cbn in Hr. unfold upd_count at 2 in Hr. cbn in Hr. rewrite Z.eqb_refl in Hr.
  rewrite upd_count_notin in Hr; [done |]. rewrite fmap_app in Hnd.
  apply NoDup_app in Hnd as (_ & Hd & _). intros Hq. apply (Hd c Hq). by left.
Qed.

(** * Examples: a log of 256 bytes with one entry, and a full one *)

Definition ex_store (h t : Z) : ts_nvlog_store :=
  mk_nvlog_store h t 4000 4096 256 (lnot64 255) TYPE_OPLOG STATUS_NVLOG_NORMAL NULL.
Definition ex_nv (h t : Z) : ts_nvlog :=
  mk_nvlog h t h 0 1024 4096 256 (lnot64 255) TYPE_OPLOG STATUS_NVLOG_NORMAL false NULL.
Definition ex_log (t0 : Z) : nvst :=
  mk_nvst (ex_nv 64 192) (ex_store 64 t0) (pmem_with {[ 4160 := new_entry 128 ]} {[ 1032 := t0 ]}).
Definition ex_full : nvst :=
  mk_nvst (ex_nv 64 320) (ex_store 64 64)
    (pmem_with (<[4160 := new_entry 192]> {[ 4096 := new_entry 64 ]}) {[ 1032 := 64 ]}).

Lemma ex_geom h t : nvlog_geom (ex_nv h t) 8.
Proof. split; cbn; try done; try lia. by exists 64. Qed.

Lemma ex_log_inv t0 : nvlog_inv (ex_log t0) 8 [(64, new_entry 128)].
Proof.
  split; [apply ex_geom | done | by exists 1 | done | done | | by cbn].
  constructor; cbn; [done | lia | by exists 2 | by vm_compute |]. apply seg_nil.
Qed.

Lemma ex_full_inv : nvlog_inv ex_full 8 [(64, new_entry 192); (256, new_entry 64)].
Proof.
  split; [apply ex_geom | done | by exists 1 | done | done | | by cbn].
  constructor; cbn; [done | lia | by exists 3 | by vm_compute |].
  constructor; cbn; [done | lia | by exists 1 | by vm_compute |]. apply seg_nil.
Qed.

Lemma ex_store_apart h t : store_apart (ex_nv h t).
Proof. split; cbn; [lia |]. left. unfold sizeof_nvlog_entry_hdr. lia. Qed.

Lemma nvlog_refines_queue_witness :
  exists s', nvlog_deq (ex_log 64) = Ok (4160, s') /\ log_holds s' 8 [].
Proof.
  destruct (nvlog_refines_queue (ex_log 64) 8 [(64, new_entry 128)]) as (_ & _ & a & s' & H & _ & Hh & Ha & _).
  { exists [(64, new_entry 128)]. split; [exact (ex_log_inv 64) | done]. }
  exists s'. rewrite Ha in H. split; [exact H | exact Hh].
Defined.

Lemma nvlog_enq_persist_full_wrap_witness : nvlog_enq_persist ex_full = Ok (tt, ex_full).
Proof. exact (proj1 (nvlog_enq_persist_full_wrap ex_full 8 (ex_geom _ _) eq_refl eq_refl)). Defined.

Lemma nvlog_enq_full_clobbers_head_witness :
  exists s' sz, nvlog_enq 176 ex_full = Ok (NULL, s') /\
    cells (pm s') !! 4160 = Some (bogus_entry sz).
Proof.
  destruct (nvlog_enq_full_clobbers_head ex_full 8 64 _ _ 176 ex_full_inv ltac:(lia)
    ltac:(by vm_compute) ltac:(by vm_compute) eq_refl ltac:(by vm_compute))
    as (s' & sz & H & Hc & _).
  exists s', sz. split; [exact H | exact Hc].
Defined.
