(* ===== verification/Crash.v ===== *)
(** Crashes while a log is persisted ([nvlog_enq_persist], [nvlog_load] of
    [lib/nvlog.c]): at each point, the tail that is found after a crash covers
    entries that are found, too. *)
From S2P Require Import Types Util Pmem Nvlog.

(** * What a crash may leave *)

(** the lines of the bytes between two counts are durable *)
Definition lines_durable (v : view) (b k lo hi : Z) : Prop :=
  forall c, (64 | c) -> lo <= c < hi -> v_durable v (line_of (slot b k c)).

(** each tail that a crash may leave ends a prefix of the entries [l], the lines
    of which are durable *)
Definition tail_covered (n : ts_nvlog) (k : Z) (l : entries) (h : list view) : Prop :=
  match h with
  | [] => False
  | v :: _ => forall t, may_find (store_tail_addr n) h t -> exists l', l' `prefix_of` l /\ bogus_ok l' /\
      seg (n_buffer n) k (v_cells v) (n_head_cnt n) l' t /\ lines_durable v (n_buffer n) k (n_head_cnt n) t
  end.

(** a crash leaves the head where it is *)
Definition head_settled (n : ts_nvlog) (h : list view) : Prop :=
  forall c, may_find (store_head_addr n) h c -> c = n_head_cnt n.

Lemma covered_flush_stable n k l : flush_stable (tail_covered n k l).
Proof.
  intros v v' h Hc Ec Ew Hd t Ht. destruct (Hc t (may_find_flush _ _ _ _ _ Ew Ht)) as (l' & A & B & C & D).
  exists l'. rewrite Ec. do 3 (split; [done |]). intros c H1 H2. by apply Hd, D.
Qed.

Lemma head_settled_flush_stable n : flush_stable (head_settled n).
Proof. intros v v' h Hc _ Ew _ c Hf. by apply Hc, (may_find_flush _ v v'). Qed.

Lemma store_tail_durable n k m v c : nvlog_geom n k -> store_apart n -> (64 | n_store n) ->
  v_durable (view_of m) (line_of (slot (n_buffer n) k c)) ->
  v_durable (view_of (store_word (store_tail_addr n) v m)) (line_of (slot (n_buffer n) k c)).
Proof.
  intros Hg Hap Hst [Hd Hp]. split; [| exact Hp]. cbn [v_dirty view_of store_word store_lines remember upd dirty].
  assert (Hl : lines_of (store_tail_addr n) 8 = [line_of (store_tail_addr n)]).
  { unfold lines_of, store_tail_addr. rewrite <- (store_tail_line _ Hst), Z.sub_diag. change (Z.to_nat (0 + 1)) with 1%nat.
    cbn [seq fmap list_fmap Z.of_nat]. by rewrite Z.add_0_r. }
  rewrite Hl. intros [H | H]%elem_of_union; [| done].
  apply elem_of_list_to_set, list_elem_of_singleton in H. symmetry in H. revert H. apply (store_line_apart n); [done | done |].
  unfold store_tail_addr, sizeof_nvlog_entry_hdr. lia.
Qed.

(** storing the new tail, once everything up to it is durable *)
Lemma covered_store n k l t m :
  nvlog_geom n k -> store_apart n -> (64 | n_store n) -> tail_covered n k l (timeline m) -> bogus_ok l ->
  seg (n_buffer n) k (cells m) (n_head_cnt n) l t -> lines_durable (view_of m) (n_buffer n) k (n_head_cnt n) t ->
  tail_covered n k l (timeline (store_word (store_tail_addr n) t m)).
Proof.
  intros Hg Hap Hst Hc Hb Hseg Hd u Hu.
  assert (Hlift : forall u, lines_durable (view_of m) (n_buffer n) k (n_head_cnt n) u ->
    lines_durable (view_of (store_word (store_tail_addr n) t m)) (n_buffer n) k (n_head_cnt n) u).
  { intros u0 Hu0 c H1 H2. by apply store_tail_durable, Hu0. }
  inversion Hu as [v h x Ex | v h x _ Hf]; subst.
  - cbn in Ex. rewrite lookup_insert_eq in Ex. injection Ex as <-. exists l. by auto.
  - destruct (Hc u Hf) as (l' & A & B & C & D). exists l'. by auto.
Qed.

Lemma head_settled_store n t m : head_settled n (timeline m) ->
  head_settled n (timeline (store_word (store_tail_addr n) t m)).
Proof.
  intros Hs c Hf. inversion Hf as [v h x Ex | v h x _ Hf']; subst; [| by apply Hs].
  cbn in Ex. rewrite lookup_insert_ne in Ex by (unfold store_tail_addr, store_head_addr; lia). by apply Hs, find_now.
Qed.

(** * Persisting *)

Lemma always_flush_range P n i j m : flush_stable P -> P (timeline m) -> always P m (nvlog_flush_range n i j m).
Proof.
  intros HP Hm. unfold nvlog_flush_range. destruct (_ <? _); [by apply always_clwb_range |].
  pose proof (always_clwb_range P (n_buffer n) i (n_log_size n) m HP Hm) as A.
  eapply always_trans; [exact A |]. apply always_clwb_range; [done |]. by eapply always_end.
Qed.

Section Persist.
Context (s : nvst) (k : Z) (l : entries) (t0 : Z).
(** the log, with the tail [t0] on NVM *)
Record persisting : Prop := {
  ps_inv : nvlog_inv s k l;
  ps_apart : store_apart (nv s);
  ps_store : (64 | n_store (nv s));
  ps_tail : s_tail_cnt (sto s) = t0;
  ps_word : words (pm s) !! store_tail_addr (nv s) = Some t0;
  ps_aligned : (64 | t0);
  ps_range : t0 <= n_tail_cnt (nv s) < t0 + 2 ^ k;
  ps_covered : tail_covered (nv s) k l (timeline (pm s)) }.
Context (Hp : persisting).

(** the memory before the tail is stored *)
Let m1 : pmem := wmb (nvlog_flush_range (nv s) (t0 mod 2 ^ k) (n_tail_cnt (nv s) mod 2 ^ k) (pm s)).

Lemma persist_flushes : flushes (pm s) m1.
Proof.
  destruct (nvlog_flush_range_flushes (nv s) (t0 mod 2 ^ k) (n_tail_cnt (nv s) mod 2 ^ k) (pm s)) as (H1 & H2 & H3 & H4).
  split; [done |]. split; [done |]. split; [done |]. intros x. cbn. set_solver.
Qed.

Lemma persist_lines : lines_durable (view_of m1) (n_buffer (nv s)) k (n_head_cnt (nv s)) (n_tail_cnt (nv s)).
Proof.
  destruct Hp as [Hi Hap Hst Ht Hw Ha Hr Hc]. intros c Hd Hlt.
  destruct (Z.lt_ge_cases c t0) as [H | H].
  - destruct (Hc t0) as (_ & _ & _ & _ & D); [by apply find_now |].
    apply (flushes_durable (pm s) m1); [exact persist_flushes |]. apply D; [done | lia].
  - apply wmb_durable, nvlog_flush_range_lines; try done; [apply Hi | | lia | lia].
    destruct Hi as [_ _ Hal _ _ Hseg _]. by eapply seg_64.
Qed.

Lemma persist_before P : flush_stable P -> P (timeline (pm s)) -> always P (pm s) m1.
Proof.
  intros HP Hm. pose proof (always_flush_range P (nv s) (t0 mod 2 ^ k) (n_tail_cnt (nv s) mod 2 ^ k) (pm s) HP Hm) as A.
  eapply always_trans; [exact A |]. apply always_wmb; [done |]. by eapply always_end.
Qed.

(** a property that write-back keeps, and the store of the new tail behind what
    is durable, holds all the time *)
Lemma persist_always P :
  flush_stable P -> P (timeline (pm s)) ->
  (P (timeline m1) -> tail_covered (nv s) k l (timeline m1) -> P (timeline (store_word (store_tail_addr (nv s)) (n_tail_cnt (nv s)) m1))) ->
  exists s', nvlog_enq_persist s = Ok (tt, s') /\ always P (pm s) (pm s').
Proof.
  intros HP Hm Hstore. pose proof (persist_before P HP Hm) as A1.
  pose proof (persist_before _ (covered_flush_stable _ _ _) (ps_covered Hp)) as A2.
  rewrite (nvlog_enq_persist_run s k) by (apply Hp || by destruct (ps_apart Hp)). rewrite (ps_tail Hp).
  destruct (_ =? _); eexists; (split; [reflexivity |]); [by apply always_here |].
  eapply always_trans; [exact A1 |]. cbn [pm upd].
  assert (A3 : always P m1 (store_word (store_tail_addr (nv s)) (n_tail_cnt (nv s)) m1)).
  { apply (always_next P m1 m1); [apply always_here; by eapply always_end | reflexivity |].
    apply Hstore; by eapply always_end. }
  eapply always_trans; [exact A3 |]. apply always_clwb; [done |]. by eapply always_end.
Qed.

(** storing the new tail *)
Lemma persist_store : tail_covered (nv s) k l (timeline m1) ->
  tail_covered (nv s) k l (timeline (store_word (store_tail_addr (nv s)) (n_tail_cnt (nv s)) m1)).
Proof.
  destruct Hp as [Hi Hap Hst _ _ _ _ _]. intros Hm. apply covered_store; try done; [apply Hi | apply Hi | | apply persist_lines].
  rewrite (proj1 persist_flushes). apply Hi.
Qed.

(** the state at the end, when there was something to persist *)
Lemma persist_end s' : t0 < n_tail_cnt (nv s) -> nvlog_enq_persist s = Ok (tt, s') ->
  nv s' = nv s /\ cells (pm s') = cells (pm s) /\
  words (pm s') !! store_tail_addr (nv s) = Some (n_tail_cnt (nv s)) /\
  durable (wmb (pm s')) (line_of (store_tail_addr (nv s))).
Proof.
  destruct Hp as [Hi Hap _ Ht _ _ Hr _]. intros Hlt E.
  rewrite (nvlog_enq_persist_run s k) in E by (apply Hi || by destruct Hap). rewrite Ht in E.
  destruct (pow2_k_bounds k ltac:(apply Hi)) as [HL2 _].
  destruct (Z.eqb_spec (n_tail_cnt (nv s) mod 2 ^ k) (t0 mod 2 ^ k)) as [Em | Em]; [apply mod_window_inj in Em; lia |].
  injection E as <-. split; [done |]. cbn [pm upd]. fold m1. split; [| split; [| apply clwb_wmb_durable]].
  - rewrite cells_clwb. exact (proj1 persist_flushes).
  - destruct (clwb_flushes (store_tail_addr (nv s)) (store_word (store_tail_addr (nv s)) (n_tail_cnt (nv s)) m1)) as (_ & -> & _).
    cbn. by rewrite lookup_insert_eq.
Qed.
End Persist.

(** C11. At every instruction of [nvlog_enq_persist], whatever of the cache
    reached NVM by then, the tail that a crash leaves covers only entries that
    the crash leaves, too.  It is an invariant of the persistence of a log: if
    each tail that a crash may find ends a prefix of the log's entries whose
    lines are durable when the function is called, then the same holds in each
    of the states between its stores, write-backs and fences, and at its end,
    when the tail on NVM is the log's.  (A tail that is stored before the
    entries are flushed and fenced breaks it.) *)
Theorem nvlog_enq_persist_durable s k l t0 :
  persisting s k l t0 -> t0 < n_tail_cnt (nv s) ->
  exists s', nvlog_enq_persist s = Ok (tt, s') /\ nv s' = nv s /\ cells (pm s') = cells (pm s) /\
    words (pm s') !! store_tail_addr (nv s) = Some (n_tail_cnt (nv s)) /\
    always (tail_covered (nv s) k l) (pm s) (pm s').
Proof.
  intros Hp Hlt. destruct (persist_always s k l t0 Hp (tail_covered (nv s) k l)) as (s' & E & A).
  { apply covered_flush_stable. }
  { by destruct Hp. }
  { intros Hm _. by apply persist_store. }
  exists s'. split; [done |]. by destruct (persist_end s k l t0 Hp s' Hlt E) as (? & ? & ? & _).
Qed.

(** * Loading after a crash *)

(** the DRAM structure is the one the store describes *)
Definition store_describes (st : ts_nvlog_store) (n : ts_nvlog) : Prop :=
  s_buffer st = n_buffer n /\ s_log_size st = n_log_size n /\ s_mask st = n_mask n.

(** a crash in the newest of the states [h] leaves the entries [c] and a store
    with the head [hd] and the tail [t] *)
Definition crash_image (n : ts_nvlog) (h : list view) (c : cellmap) (hd t : Z) : Prop :=
  match h with [] => False | v :: _ => survives v c end /\
  may_find (store_head_addr n) h hd /\ may_find (store_tail_addr n) h t.

(** the log that the next run loads *)
Definition loaded (s : nvst) (sp hd t : Z) (c : cellmap) : nvst :=
  let st := (sto s) <| s_head_cnt := hd |> <| s_tail_cnt := t |> in
  mk_nvst (nvlog_load sp st) st (pmem_with c ∅).

(** the next run loads a prefix of the entries [l] *)
Definition recoverable (s : nvst) (k sp : Z) (l : entries) (h : list view) : Prop :=
  forall c hd t, crash_image (nv s) h c hd t -> exists l', l' `prefix_of` l /\ nvlog_inv (loaded s sp hd t c) k l'.

Lemma loaded_inv s k sp l l' t v c :
  nvlog_inv s k l -> store_describes (sto s) (nv s) -> survives v c ->
  t - n_head_cnt (nv s) <= 2 ^ k -> t < 2 ^ 63 -> bogus_ok l' ->
  seg (n_buffer (nv s)) k (v_cells v) (n_head_cnt (nv s)) l' t ->
  lines_durable v (n_buffer (nv s)) k (n_head_cnt (nv s)) t ->
  nvlog_inv (loaded s sp (n_head_cnt (nv s)) t c) k l'.
Proof.
  intros [Hg Hh Ha Hu Hmax Hseg Hb] (E1 & E2 & E3) Hs Hlt Hlt2 Hb' Hseg' Hd. split; cbn; try done.
  - destruct Hg. split; cbn; congruence.
  - rewrite E1. eapply seg_mono; [exact Hseg' |]. intros x Hx.
    destruct (seg_range _ _ _ _ _ _ Hseg') as [_ Hrng]. destruct (Hrng x Hx) as (B1 & B2 & B3).
    rewrite Hs; [by eapply seg_lookup |]. apply Hd; [by eapply seg_elem_64 | lia].
Qed.

Lemma seg_prefix_le b k c h l l' t t' : seg b k c h l t -> seg b k c h l' t' -> l' `prefix_of` l -> t' <= t.
Proof.
  intros Hl Hl' [r ->]. revert h t' Hl' Hl. induction l' as [| x l' IH]; intros h t' Hl' Hl.
  - inversion Hl'; subst. exact (proj1 (seg_range _ _ _ _ _ _ Hl)).
  - inversion Hl'; subst. inversion Hl; subst. eapply IH; eassumption.
Qed.

Lemma covered_recoverable s k sp l h :
  nvlog_inv s k l -> store_describes (sto s) (nv s) ->
  tail_covered (nv s) k l h -> head_settled (nv s) h ->
  match h with [] => True | v :: _ => v_cells v = cells (pm s) end -> recoverable s k sp l h.
Proof.
  intros Hi Hsd Hc Hh Hcells c hd t (Hs & Hf & Ht). destruct h as [| v h]; [done |].
  rewrite (Hh hd Hf). destruct (Hc t Ht) as (l' & A & B & C & D). exists l'. split; [done |].
  assert (Hle : t <= n_tail_cnt (nv s)).
  { rewrite Hcells in C. eapply seg_prefix_le; [apply Hi | exact C | exact A]. }
  pose proof (inv_used _ _ _ Hi). pose proof (inv_max _ _ _ Hi). eapply (loaded_inv s k sp l l' t v); try done; lia.
Qed.

Lemma seg_same_end b k c h l l' t : seg b k c h l t -> seg b k c h l' t -> l' `prefix_of` l -> l' = l.
Proof.
  intros Hl Hl' [r ->]. revert h Hl' Hl. induction l' as [| x l' IH]; intros h Hl' Hl.
  - inversion Hl'; subst. destruct r as [| x r]; [done |]. inversion Hl as [| ? ? ? ? ? Hs _ _ Hr]; subst.
    apply seg_range in Hr as [Hr _]. lia.
  - inversion Hl'; subst. inversion Hl; subst. cbn. f_equal. by eapply IH.
Qed.

(** what holds at each instruction *)
Definition safe (s : nvst) (k : Z) (l : entries) (h : list view) : Prop :=
  tail_covered (nv s) k l h /\ head_settled (nv s) h /\ match h with [] => True | v :: _ => v_cells v = cells (pm s) end.

Lemma safe_flush_stable s k l : flush_stable (safe s k l).
Proof.
  intros v v' h (Hc & Hs & Hcl) Ec Ew Hd. split; [by eapply covered_flush_stable |].
  split; [by eapply head_settled_flush_stable | congruence].
Qed.


(** * Example: a log of 256 bytes with one entry that is not persisted yet *)

Definition ex_pm : pmem := store_lines 4160 128 (pmem_with {[ 4160 := new_entry 128 ]} {[ 1024 := 64; 1032 := 64 ]}).
Definition ex_unpersisted : nvst := mk_nvst (ex_nv 64 192) (ex_store 64 64) ex_pm.

Lemma ex_word a h x : (a = 1024 \/ a = 1032) -> h = timeline ex_pm -> may_find a h x -> x = 64.
Proof.
  intros Ha Eh Hf. subst h. inversion Hf as [v h y Ey | v h y _ Hf']; subst.
  - by destruct Ha as [-> | ->]; vm_compute in Ey; injection Ey.
  - inversion Hf' as [v h y Ey | v h y _ Hf'']; subst; [| by inversion Hf''].
    by destruct Ha as [-> | ->]; vm_compute in Ey; injection Ey.
Qed.

Lemma ex_persisting : persisting ex_unpersisted 8 [(64, new_entry 128)] 64.
Proof.
  split; [| apply ex_store_apart | by exists 16 | done | done | by exists 1 | by vm_compute |].
  - by destruct (ex_log_inv 64).
  - intros t Ht. rewrite (ex_word _ _ _ (or_intror eq_refl) eq_refl Ht). exists []. split; [apply prefix_nil |].
    split; [done |]. split; [constructor |]. intros c _ Hc. cbn in Hc. lia.
Qed.

Lemma nvlog_enq_persist_durable_witness :
  exists s', nvlog_enq_persist ex_unpersisted = Ok (tt, s') /\ words (pm s') !! 1032 = Some 192.
Proof.
  destruct (nvlog_enq_persist_durable ex_unpersisted 8 _ 64 ex_persisting ltac:(by vm_compute))
    as (s' & E & _ & _ & Hw & _).
  exists s'. split; [exact E | exact Hw].
Defined.

