(* ===== verification/State.v ===== *)
(** The memory that TimeStone's threads share, and the state that a call of
    the library runs on: [self], the calling thread's structure, and [sh].

    Objects are reached by the address of their first byte, as in the code; the
    header in front of the bytes is in [heap] (actual objects and tvlog
    copies) or in the nvlog entry that holds the object (checkpointed objects:
    the object starts [sizeof_ckpt_entry] bytes into the entry).  An address
    with no entry in its map is freed or was never an object: using it is [UB].

    A call is interrupted by other threads at the points where the code says
    so (busy waiting, compare-and-swap); what they do there is a parameter. *)
From S2P Require Export Types Util Pmem Port Nvlog.

(** an object header in memory: [ts_act_hdr_struct_t] before an actual object,
    [ts_cpy_hdr_struct_t] before an object of the tvlog *)
Inductive cell : Set :=
| CAct (a : ts_act_hdr_struct)
| CCpy (c : ts_cpy_hdr_struct).

(** [ts_thread_list_t]; [tl_head] is the address of its list head *)
Record ts_thread_list := mk_thread_list {
  tl_lock : bool; thread_wait : bool; cur_tid : Z; tl_num : Z; tl_head : Z }.
#[export] Instance eta_thread_list : Eta ts_thread_list := fun r =>
  mk_thread_list (tl_lock r) (thread_wait r) (cur_tid r) (tl_num r) (tl_head r).

Record shared := mk_shared {
  heap : gmap Z cell;                  (* object headers, by object address *)
  wrt_sets : gmap Z ts_wrt_set;        (* write sets, by address *)
  vhdrs : gmap Z ts_act_vhdr;          (* volatile headers, by address *)
  obj_data : gmap Z (list Z);          (* object bytes, by object address *)
  sh_pm : pmem;                        (* NVM log entries and flush state *)
  stores : gmap Z ts_nvlog_store;      (* log stores on NVM *)
  root : ts_nvm_root_obj;              (* [nvm_root_obj] *)
  nvlog_lock : bool;                   (* the mutex of nvlog.c *)
  g_lr : tvlog_region_allocator;       (* tvlog region *)
  g_qp_thread : ts_qp_thread;
  threads : gmap Z ts_thread_struct;   (* thread structures, by address *)
  g_live_threads : ts_thread_list;
  g_zombie_threads : ts_thread_list;
  list_links : links;                  (* list nodes of threads and list heads *)
  __g_gen_id : Z;
  g_stat : ts_stat;                    (* statistics of finished threads *)
  ticks : nat;                         (* readings of the hardware clock so far *)
  allocs : nat;                        (* allocator calls so far *)
  freed : list Z }.                    (* addresses given to free, newest first *)
#[export] Instance eta_shared : Eta shared := fun r =>
  mk_shared (heap r) (wrt_sets r) (vhdrs r) (obj_data r) (sh_pm r) (stores r)
    (root r) (nvlog_lock r) (g_lr r) (g_qp_thread r) (threads r)
    (g_live_threads r) (g_zombie_threads r) (list_links r) (__g_gen_id r)
    (g_stat r) (ticks r) (allocs r) (freed r).

Record st := mk_st { self : ts_thread_struct; sh : shared }.
#[export] Instance eta_st : Eta st := fun r => mk_st (self r) (sh r).

(** * The environment of a call *)

Class Env := {
  (** what other threads do to the state while the caller waits or is between
      reading a word and swapping it *)
  interfere : M st unit;
  (** the same while the qp thread waits *)
  qp_interfere : M shared unit;
  (** bound on the rounds of a busy-wait or retry loop *)
  spin_bound : nat;
  (** the [n]-th reading of the time stamp counter *)
  tsc : nat -> Z;
  (** the result of the [n]-th allocation; [None] is failure *)
  alloc_result : nat -> option Z;
  (** the address of the root object on NVM *)
  nvm_root_addr : Z;
  (** the build options of [config.h] *)
  TS_ENABLE_SERIALIZABILITY_LINEARIZABILITY : bool;
  TS_NESTED_LOCKING : bool }.

(** * Accessors *)

Notation "'self!' f" := (asks (fun s => f (self s))) (at level 10, f at level 9) : ts_scope.
Notation "'sh!' f" := (asks (fun s => f (sh s))) (at level 10, f at level 9) : ts_scope.

Definition mod_self (f : ts_thread_struct -> ts_thread_struct) : M st unit :=
  modify (fun s => s <| self ::= f |>).
Definition mod_sh (f : shared -> shared) : M st unit := modify (fun s => s <| sh ::= f |>).
(** an operation that needs only the shared memory *)
Definition on_sh {A} (m : M shared A) : M st A := zoom sh (fun t s => s <| sh := t |>) m.

(** [p_act_vhdr->...] *)
Definition get_vhdr (a : Z) : M st ts_act_vhdr := fun s => deref (vhdrs (sh s) !! a) s.
Definition put_vhdr (a : Z) (f : ts_act_vhdr -> ts_act_vhdr) : M st unit :=
  let* v := get_vhdr a in mod_sh (fun h => h <| vhdrs ::= (fun m => <[a := f v]> m) |>).

(** the header structures before the object [obj] *)
Definition get_ahs (obj : Z) : M st ts_act_hdr_struct :=
  fun s => match heap (sh s) !! obj with Some (CAct a) => Ok (a, s) | _ => Fault UB end.
Definition get_chs (obj : Z) : M st ts_cpy_hdr_struct :=
  fun s => match heap (sh s) !! obj with Some (CCpy c) => Ok (c, s) | _ => Fault UB end.
Definition put_ahs (obj : Z) (f : ts_act_hdr_struct -> ts_act_hdr_struct) : M st unit :=
  let* a := get_ahs obj in mod_sh (fun h => h <| heap ::= (fun m => <[obj := CAct (f a)]> m) |>).
Definition put_chs (obj : Z) (f : ts_cpy_hdr_struct -> ts_cpy_hdr_struct) : M st unit :=
  let* c := get_chs obj in mod_sh (fun h => h <| heap ::= (fun m => <[obj := CCpy (f c)]> m) |>).

Definition get_ws (a : Z) : M st ts_wrt_set := fun s => deref (wrt_sets (sh s) !! a) s.
Definition put_ws (a : Z) (f : ts_wrt_set -> ts_wrt_set) : M st unit :=
  let* w := get_ws a in mod_sh (fun h => h <| wrt_sets ::= (fun m => <[a := f w]> m) |>).

(** [memcpy(dst, src, size)] between objects *)
Definition memcpy_obj (dst src size : Z) : M st unit :=
  let* b := asks (fun s => obj_data (sh s) !! src) in
  let* b := deref b in
  mod_sh (fun h => h <| obj_data ::= (fun d =>
    <[dst := take (Z.to_nat size) b ++ drop (Z.to_nat size) (default [] (d !! dst))]> d) |>).

(** an allocator call *)
Definition sh_alloc `{Env} : M shared Z :=
  let* n := asks allocs in
  modify (fun h => h <| allocs := S n |>) ;;;
  ret (default NULL (alloc_result n)).
Definition alloc `{Env} : M st Z := on_sh sh_alloc.

(** an allocator call whose outcome alone matters *)
Definition alloc_ok `{Env} : M st bool :=
  let* a := alloc in ret (negb (a =? NULL)).

Definition note_free (a : Z) : M st unit := mod_sh (fun h => h <| freed ::= cons a |>).

(** [smp_cas] on a word read by [rd] and written by [wr]: others may run just
    before it *)
Definition smp_cas `{Env} (rd : M st Z) (wr : Z -> M st unit) (old new : Z) : M st bool :=
  interfere ;;;
  let* v := rd in
  if v =? old then wr new ;;; ret true else ret false.

(** [smp_wmb] and [wmb]: the pending write-backs complete *)
Definition st_wmb : M st unit := mod_sh (fun h => h <| sh_pm ::= wmb |>).
Definition st_clwb (a : Z) : M st unit := mod_sh (fun h => h <| sh_pm ::= clwb a |>).

(** * Running a log operation on the caller's logs *)

(** a log of the thread: how to get it and to put it back *)
Record log_sel := mk_log_sel {
  sel_get : ts_thread_struct -> ts_nvlog;
  sel_put : ts_nvlog -> ts_thread_struct -> ts_thread_struct }.
Definition OPLOG : log_sel := mk_log_sel oplog (fun n t => t <| oplog := n |>).
Definition CKPTLOG : log_sel := mk_log_sel ckptlog (fun n t => t <| ckptlog := n |>).

Definition with_log {A} (L : log_sel) (m : M nvst A) : M st A := fun s =>
  let n := sel_get L (self s) in
  match stores (sh s) !! n_store n with
  | None => Fault UB
  | Some t =>
      match m (mk_nvst n t (sh_pm (sh s))) with
      | Ok (a, r) =>
          Ok (a, s <| self ::= sel_put L (nv r) |>
                   <| sh ::= (fun h => h <| stores ::= (fun m => <[n_store n := sto r]> m) |>
                                          <| sh_pm := pm r |>) |>)
      | Fault e => Fault e
      end
  end.

Definition mod_log (L : log_sel) (f : ts_nvlog -> ts_nvlog) : M st unit :=
  mod_self (fun t => sel_put L (f (sel_get L t)) t).

(** * Statistics of the calling thread *)

Definition stat_thread_inc (n : stat_name) : M st unit := mod_self (fun t => t <| stat ::= (fun s => stat_inc s n) |>).
Definition stat_thread_acc (n : stat_name) (v : Z) : M st unit :=
  mod_self (fun t => t <| stat ::= (fun s => stat_acc s n v) |>).
Definition stat_thread_asgn (n : stat_name) (v : Z) : M st unit :=
  mod_self (fun t => t <| stat ::= (fun s => stat_asgn s n v) |>).
Definition stat_thread_merge : M st unit :=
  let* t := asks self in
  mod_sh (fun h => h <| g_stat ::= (fun a => stat_atomic_merge a (stat t)) |>).

(** * Zeroed structures *)

Definition zero_set : ts_ptr_set := mk_ptr_set 0 0 None.
Definition zero_nvlog : ts_nvlog :=
  mk_nvlog 0 0 0 0 NULL NULL 0 0 TYPE_NVLOG STATUS_NVLOG_NORMAL false NULL.

(** [memset(self, 0, sizeof( *self))] *)
Definition zero_thread (p : Z) : ts_thread_struct :=
  mk_thread p 0 false false (mk_isolation TS_SNAPSHOT false zero_set) zero_set zero_set zero_set
    (fun _ => 0) (mk_op_info 0 0 (replicate (Z.to_nat TS_MAX_OPERAND_SIZE) 0)) 0 THREAD_LIVE 0
    (mk_clks 0 0 0 0 0) (mk_qp_info false 0) (mk_reclaim 0 0)
    (mk_tvlog 0 0 0 0 0 NULL NULL) zero_nvlog zero_nvlog.

Definition zero_qp_thread : ts_qp_thread :=
  mk_qp_thread (mk_clks 0 0 0 0 0) false (mk_reclaim 0 0) (fun _ => 0).

(** * Facts: a log of the calling thread *)

(** what the log operations rely on of a log selector *)
Class LogSel (L : log_sel) : Prop := {
  sel_get_put n t : sel_get L (sel_put L n t) = n;
  sel_put_clks n t : clks (sel_put L n t) = clks t;
  sel_get_stat f t : sel_get L (t <| stat ::= f |>) = sel_get L t }.
#[export] Instance oplog_sel : LogSel OPLOG.
Proof. by split. Qed.
#[export] Instance ckptlog_sel : LogSel CKPTLOG.
Proof. by split. Qed.

(** the log of [L] with its store and the NVM *)
Definition log_of (L : log_sel) (s : st) : option nvst :=
  (fun t => mk_nvst (sel_get L (self s)) t (sh_pm (sh s))) <$> stores (sh s) !! n_store (sel_get L (self s)).

(** [s'] is [s] after an operation on the log of [L] that left [r] *)
Definition log_step (L : log_sel) (s : st) (r : nvst) : st :=
  s <| self ::= sel_put L (nv r) |>
    <| sh ::= (fun h => h <| stores ::= (fun m => <[n_store (sel_get L (self s)) := sto r]> m) |>
                          <| sh_pm := pm r |>) |>.

Lemma with_log_run `{LogSel L} {A} (m : M nvst A) s r a r' :
  log_of L s = Some r -> m r = Ok (a, r') -> with_log L m s = Ok (a, log_step L s r').
Proof.
  unfold log_of, with_log. destruct (stores (sh s) !! _); [| done]. cbn. intros [= <-] E. by rewrite E.
Qed.

Lemma log_of_step `{LogSel L} s r r' :
  log_of L s = Some r -> n_store (nv r') = n_store (nv r) -> log_of L (log_step L s r') = Some r'.
Proof.
  unfold log_of. destruct (stores (sh s) !! _) eqn:E; [| done]. cbn. intros [= <-] Hn. cbn in Hn.
  rewrite sel_get_put, Hn, lookup_insert_eq. by destruct r'.
Qed.

(** [log_holds] of a log of the calling thread *)
Definition holds (L : log_sel) (s : st) (k : Z) (q : entries) : Prop :=
  exists r, log_of L s = Some r /\ log_holds r k q.

(** other threads, when they run, keep [R] *)
Class Rely `{Env} (R : st -> st -> Prop) : Prop :=
  interfere_rely s : exists s', interfere s = Ok (tt, s') /\ R s s'.

(** the same if they run only in states with [G], which is then what the caller
    guarantees them *)
Class RelyWhen `{Env} (G : st -> Prop) (R : st -> st -> Prop) : Prop :=
  interfere_when s : G s -> exists s', interfere s = Ok (tt, s') /\ R s s'.
#[export] Instance rely_always `{Env} G R : Rely R -> RelyWhen G R.
Proof. intros HR s _. apply HR. Qed.

(** they leave the caller's structure and its logs alone *)
Definition logs_kept (s s' : st) : Prop :=
  self s' = self s /\ stores (sh s') = stores (sh s) /\ sh_pm (sh s') = sh_pm (sh s).

Lemma log_of_kept L s s' : logs_kept s s' -> log_of L s' = log_of L s.
Proof. unfold log_of. by intros (-> & -> & ->). Qed.

(** * A small machine, on which the examples evaluate *)

(** nobody else runs, the counter ticks by ten, the allocator hands out [al] *)
Definition ex_env_of (i : M st unit) (al : nat -> option Z) (ser nested : bool) : Env := {|
  interfere := i; qp_interfere := ret tt; spin_bound := 5;
  tsc := fun n => 1000 + 10 * Z.of_nat n; alloc_result := al; nvm_root_addr := 64;
  TS_ENABLE_SERIALIZABILITY_LINEARIZABILITY := ser; TS_NESTED_LOCKING := nested |}.
Definition ex_alloc (n : nat) : option Z := Some (65536 + 4096 * Z.of_nat n).
Definition ex_env : Env := ex_env_of (ret tt) ex_alloc false false.

(** one thread at 8192 on the live list, whose head is at 512; the tvlog region
    is [2 ^ 20, 3 * 2 ^ 20) *)
Definition ex_links : links :=
  <[512 := mk_list 8192 8192]> (<[8192 := mk_list 512 512]> (<[576 := mk_list 576 576]> ∅)).
Definition ex_shared : shared :=
  mk_shared ∅ ∅ ∅ ∅ (pmem_with ∅ ∅) ∅ (mk_root NVPOOL_MAGIC 1 NULL 0) false
    (mk_region (2 ^ 20) 2 [0] (2 ^ 20) (3 * 2 ^ 20)) zero_qp_thread
    {[ 8192 := zero_thread 8192 ]} (mk_thread_list false false 1 1 512)
    (mk_thread_list false false 0 0 576) ex_links 1 (fun _ => 0) 0 0 [].
Definition ex_st : st := mk_st (zero_thread 8192) ex_shared.
