(* ===== verification/Store.v ===== *)
(** The list of log stores on NVM and the life of a log: the creating and
    destroying half of [lib/nvlog.c] and [lib/nvm.c]'s heap initialisation.

    The root object points to the first store; [nvlog_lock] is a mutex of the
    default kind, so a second lock by its holder waits for ever ([SPIN]). *)
From S2P Require Import State.

Section Store.
Context `{Env}.

Definition lock_nvlog : M shared unit :=
  let* b := asks nvlog_lock in
  if b then raise SPIN else modify (fun h => h <| nvlog_lock := true |>).
Definition unlock_nvlog : M shared unit := modify (fun h => h <| nvlog_lock := false |>).

(** [nvm_free] and [port_free] *)
Definition sh_free (a : Z) : M shared unit := modify (fun h => h <| freed ::= cons a |>).

Definition get_store (a : Z) : M shared ts_nvlog_store := fun h => deref (stores h !! a) h.
(** a write into the store at [a] (its 64 bytes' lines get dirty), which starts
    with the counters *)
Definition sizeof_nvlog_store : Z := 64.
Definition store_struct (a : Z) (t : ts_nvlog_store) (m : pmem) : pmem :=
  (store_lines a sizeof_nvlog_store m) <| words ::= (fun w => <[a + 8 := s_tail_cnt t]> (<[a := s_head_cnt t]> w)) |>.
Definition put_store (a : Z) (f : ts_nvlog_store -> ts_nvlog_store) : M shared unit :=
  let* s := get_store a in
  modify (fun h => h <| stores ::= (fun m => <[a := f s]> m) |>
                     <| sh_pm ::= store_struct a (f s) |>).
Definition set_root_next (a : Z) : M shared unit :=
  modify (fun h => h <| root ::= (fun r => r <| root_next := a |>) |>).

(** [flush_to_nvm] and [wmb] on the store at [a] *)
Definition flush_store (a : Z) : M shared unit :=
  modify (fun h => h <| sh_pm ::= (fun m => wmb (flush_to_nvm a sizeof_nvlog_store m)) |>).

Definition nvlog_init (root_obj : ts_nvm_root_obj) : M shared Z :=
  modify (fun h => h <| root := root_obj |>) ;;; ret 0.

Definition nvlog_set_last_ckpt_clk (last_ckpt : Z) : M shared unit :=
  let* r := asks root in
  when (negb (last_ckpt_clk r =? last_ckpt))
    (modify (fun h => h <| root ::= (fun r => r <| last_ckpt_clk := last_ckpt |>) |>
                        <| sh_pm ::= memcpy_to_nvm_lines (nvm_root_addr + 24) 8 |>) ;;;
     modify (fun h => h <| sh_pm ::= wmb |>)).

Definition nvlog_get_last_ckpt_clk : M shared Z :=
  let* r := asks root in ret (last_ckpt_clk r).

(** [while (current != nvlog_store && current != NULL)]: the store found, or
    NULL, with its predecessor *)
Definition store_search (nvlog_store current : Z) : M shared (Z * Z) :=
  let* m := asks stores in
  loop (S (S (size m))) (fun '(current, temp) =>
    if (current =? nvlog_store) || (current =? NULL) then ret (inr (current, temp))
    else let* c := get_store current in ret (inl (s_next c, current))) (current, NULL).

Definition _nvlog_store_destroy (nvlog_store : Z) : M shared unit :=
  if nvlog_store =? NULL then ret tt
  else
    lock_nvlog ;;;
    let* r := asks root in
    let current := root_next r in
    if current =? NULL then unlock_nvlog
    else
      let* found :=
        (if current =? nvlog_store then
           let* c := get_store current in
           set_root_next (if s_next c =? NULL then NULL else s_next c) ;;;
           ret current
         else
           let* ' (current, temp) := store_search nvlog_store current in
           if current =? NULL then ret NULL
           else
             let* c := get_store current in
             put_store temp (fun t => t <| s_next := if s_next c =? NULL then NULL else s_next c |>) ;;;
             ret current) in
      when (negb (found =? NULL))
        (let* c := get_store found in
         sh_free (s__buffer c) ;;;
         sh_free found ;;;
         modify (fun h => h <| stores ::= delete found |>)) ;;;
      unlock_nvlog.

(** freshly allocated memory of a store: every field is written before use *)
Definition raw_store : ts_nvlog_store :=
  mk_nvlog_store 0 0 NULL NULL 0 0 TYPE_NVLOG STATUS_NVLOG_NORMAL NULL.

(** its second half: the buffer of the store at [a], which is already linked *)
Definition store_create_buffer (a size : Z) (type : nvlog_type) (status : nvlog_status) : M shared Z :=
  let* b := sh_alloc in
  put_store a (fun t => t <| s__buffer := b |>) ;;;
  if b =? NULL then _nvlog_store_destroy a ;;; ret NULL
  else
    put_store a (fun t => t <| s_buffer := align_ptr_to_cacheline b |>
      <| s_head_cnt := 0 |> <| s_tail_cnt := 0 |> <| s_type := type |>
      <| s_status := status |> <| s_log_size := size |> <| s_mask := lnot64 (u64 (size - 1)) |>) ;;;
    flush_store a ;;;
    unlock_nvlog ;;;
    ret a.

Definition _nvlog_store_create (size : Z) (type : nvlog_type) (status : nvlog_status) : M shared Z :=
  let err_out (nvlog_store : Z) := _nvlog_store_destroy nvlog_store ;;; ret NULL in
  if negb (is_power_of_2 (u32 size)) then err_out NULL
  else
    lock_nvlog ;;;
    let* a := sh_alloc in
    if a =? NULL then err_out NULL
    else
      modify (fun h => h <| stores ::= (fun m => <[a := raw_store]> m) |>) ;;;
      flush_store a ;;;
      let* r := asks root in
      (if root_next r =? NULL then
         set_root_next a ;;; put_store a (fun t => t <| s_next := NULL |>)
       else
         put_store a (fun t => t <| s_next := root_next r |>) ;;; set_root_next a) ;;;
      store_create_buffer a size type status.

(** [nvlog_create]: the control structure of the new log, or ENOMEM *)
Definition nvlog_create (self : Z) (size : Z) (type : nvlog_type) (status : nvlog_status) :
    M shared (Z * option ts_nvlog) :=
  let* a := _nvlog_store_create size type status in
  if a =? NULL then ret (ENOMEM, None)
  else
    let* t := get_store a in
    ret (0, Some ((nvlog_load a t) <| n_thread := self |>)).

Definition nvlog_destroy (n : ts_nvlog) : M shared ts_nvlog :=
  if negb (n_store n =? NULL) then
    _nvlog_store_destroy (n_store n) ;;; ret (n <| n_store := NULL |>)
  else ret n.

(** [nvm_init_heap] on the heap that [nvm_load_heap] returns: the root object
    [r], and [is_created].  [need_recovery] is a local variable
    without initialiser; [nr0] is the value it happens to have. *)
Definition nvm_init_heap (loaded : option ts_nvm_root_obj) (is_created nr0 : bool) :
    M shared (option bool) :=
  match loaded with
  | None => ret None
  | Some r =>
      modify (fun h => h <| root := r |>) ;;;
      let* nr :=
        (if negb (magic r =? NVPOOL_MAGIC) then
           modify (fun h => h <| root ::= (fun r => r <| root_next := NULL |>
                               <| last_ckpt_clk := MIN_VERSION |> <| magic := 0 |>) |>
                         <| sh_pm ::= (fun m => wmb (flush_to_nvm nvm_root_addr 32 (store_lines nvm_root_addr 32 m))) |>) ;;;
           modify (fun h => h <| root ::= (fun r => r <| magic := NVPOOL_MAGIC |>) |>
                         <| sh_pm ::= (fun m => wmb (clwb nvm_root_addr (store_lines nvm_root_addr 8 m))) |>) ;;;
           ret true
         else ret nr0) in
      let* r := asks root in
      let nr := if negb nr && negb (root_next r =? NULL) then true else nr in
      let nr := if is_created then false else nr in
      modify (fun h => h <| root ::= (fun r => r <| root_gen_id ::= (fun g => u64 (g + 1)) |>) |>
                    <| sh_pm ::= (fun m => wmb (clwb (nvm_root_addr + 8) (store_lines (nvm_root_addr + 8) 8 m))) |>) ;;;
      ret (Some nr)
  end.

Definition nvm_get_gen_id : M shared Z := let* r := asks root in ret (root_gen_id r).

End Store.

(** * Facts: the list of stores *)

(** the stores in list order from [p]: each links to the next, the last to NULL *)
Fixpoint chain (m : gmap Z ts_nvlog_store) (p : Z) (l : list Z) : Prop :=
  match l with
  | [] => p = NULL
  | a :: l' => p = a /\ a <> NULL /\ exists s, m !! a = Some s /\ chain m (s_next s) l'
  end.

Definition stores_ok (h : shared) (l : list Z) : Prop :=
  NoDup l /\ chain (stores h) (root_next (root h)) l.

Lemma chain_insert_ne m p l a s : a ∉ l -> chain m p l -> chain (<[a := s]> m) p l.
Proof.
  revert p. induction l as [| b l IH]; intros p Ha; cbn; [done |].
  apply not_elem_of_cons in Ha as [Hab Ha].
  intros (-> & Hb & t & Ht & Hc). split; [done |]. split; [done |].
  exists t. split; [by rewrite lookup_insert_ne | by apply IH].
Qed.

Lemma chain_delete m p l a : a ∉ l -> chain m p l -> chain (delete a m) p l.
Proof.
  revert p. induction l as [| b l IH]; intros p Ha; cbn; [done |].
  apply not_elem_of_cons in Ha as [Hab Ha].
  intros (-> & Hb & t & Ht & Hc). split; [done |]. split; [done |].
  exists t. split; [by rewrite lookup_delete_ne | by apply IH].
Qed.

Lemma chain_null m p l : chain m p l -> (p =? NULL) = bool_decide (l = []).
Proof.
  destruct l as [| a l]; cbn.
  - intros ->. done.
  - intros (-> & Ha & _). by apply Z.eqb_neq.
Qed.

Lemma chain_elem m p l a : chain m p l -> a ∈ l -> a <> NULL /\ is_Some (m !! a).
Proof.
  revert p. induction l as [| b l IH]; intros p; cbn.
  - by intros _ Ha%not_elem_of_nil.
  - intros (-> & Hb & t & Ht & Hc) [-> | Ha]%elem_of_cons; [by rewrite Ht | by eapply IH].
Qed.

Lemma chain_length m p l : NoDup l -> chain m p l -> (length l <= size m)%nat.
Proof.
  intros Hnd Hc. rewrite <- (size_list_to_set (C := gset Z) l) by done. rewrite <- size_dom.
  apply subseteq_size. intros a Ha%elem_of_list_to_set. apply elem_of_dom.
  by destruct (chain_elem m p l a Hc Ha).
Qed.

(** unlinking [a], the successor of [b] *)
Lemma chain_unlink m p l1 b a l2 tb ta :
  NoDup (l1 ++ b :: a :: l2) -> chain m p (l1 ++ b :: a :: l2) ->
  m !! b = Some tb -> m !! a = Some ta ->
  chain (<[b := tb <| s_next := s_next ta |>]> m) p (l1 ++ b :: l2).
Proof.
  revert p. induction l1 as [| c l1 IH]; intros p Hnd; cbn.
  - intros (-> & Hb & t & Ht & _ & Ha & t' & Ht' & Hc) Etb Eta. simplify_eq.
    split; [done |]. split; [done |]. eexists. split; [by apply lookup_insert_eq |]. cbn.
    apply NoDup_cons in Hnd as [Hn _]. apply chain_insert_ne; [| done].
    intros H. apply Hn. by right.
  - apply NoDup_cons in Hnd as [Hn Hnd]. intros (-> & Hc0 & t & Ht & Hc) Etb Eta.
    split; [done |]. split; [done |]. exists t. split; [| by apply IH].
    rewrite lookup_insert_ne; [done |]. intros ->. apply Hn. elems.
Qed.

(** the geometry of the log that [nvlog_load] makes of a new store *)
Lemma new_store_inv a b k type status pm :
  6 <= k <= 30 -> 0 < b < 2 ^ 64 - 64 ->
  let t := mk_nvlog_store 0 0 b (align_ptr_to_cacheline b) (2 ^ k) (lnot64 (u64 (2 ^ k - 1)))
             type status in
  forall nxt, nvlog_inv (mk_nvst ((nvlog_load a (t nxt))) (t nxt) pm) k [].
Proof.
  intros Hk Hb t nxt. destruct (pow2_k_bounds k Hk) as [HL HdL].
  destruct (align_ptr_aligned b ltac:(lia)) as [Hal Hbd].
  assert (Hg : nvlog_geom (nvlog_load a (t nxt)) k).
  { split; cbn; [done | done | | by apply is_ptr_cacheline_aligned_iff | lia].
    by rewrite u64_small by lia. }
  split; cbn; [exact Hg | lia | apply Z.divide_0_r | lia | done | constructor | done].
Qed.

Section StoreFacts.
Context `{Env}.

(** the part of the memory that the store list is about *)
Definition view (h : shared) := (stores h, root h, nvlog_lock h, allocs h, freed h).

(** [m] returns [r] and leaves the view [v] *)
Definition runs {A} (m : M shared A) (h : shared) (r : A)
    (v : gmap Z ts_nvlog_store * ts_nvm_root_obj * bool * nat * list Z) : Prop :=
  exists h', m h = Ok (r, h') /\ view h' = v.

Lemma runs_lead {A B} (m : M shared A) (k : A -> M shared B) h a v (P : res (B * shared) -> Prop) :
  runs m h a v -> (forall h', view h' = v -> P (k a h')) -> P (bind m k h).
Proof. intros (h1 & E & V) Hk. mrun E. auto. Qed.

Lemma runs_bind {A B} (m : M shared A) (k : A -> M shared B) h a v b w :
  runs m h a v -> (forall h', view h' = v -> runs (k a) h' b w) -> runs (bind m k) h b w.
Proof.
  intros Hm Hk. apply (runs_lead m k h a v (fun r => exists h', r = Ok (b, h') /\ view h' = w)); auto.
Qed.

Ltac vstep := intros; unfold runs, view in *; simplify_eq; eexists; split; [reflexivity | cbn; congruence].

Lemma runs_ret {A} (a : A) h : runs (ret a) h a (view h).
Proof. by vstep. Qed.

Lemma runs_asks {A} (f : shared -> A) h : runs (asks f) h (f h) (view h).
Proof. by vstep. Qed.

Lemma runs_lock h m r n f :
  view h = (m, r, false, n, f) -> runs lock_nvlog h tt (m, r, true, n, f).
Proof.
  intros V. injection V as <- <- Hl <- <-. exists (h <| nvlog_lock := true |>).
  split; [| done]. unfold lock_nvlog. msteps. by rewrite Hl.
Qed.

Lemma runs_unlock h m r b n f :
  view h = (m, r, b, n, f) -> runs unlock_nvlog h tt (m, r, false, n, f).
Proof. by vstep. Qed.

Lemma runs_root_next h m r b n f x :
  view h = (m, r, b, n, f) -> runs (set_root_next x) h tt (m, r <| root_next := x |>, b, n, f).
Proof. by vstep. Qed.

Lemma runs_flush h a : runs (flush_store a) h tt (view h).
Proof. by vstep. Qed.

Lemma runs_free h m r b n f a :
  view h = (m, r, b, n, f) -> runs (sh_free a) h tt (m, r, b, n, a :: f).
Proof. by vstep. Qed.

Lemma runs_get h m r b n f a t :
  view h = (m, r, b, n, f) -> m !! a = Some t -> runs (get_store a) h t (m, r, b, n, f).
Proof. intros V E. unfold view in V. simplify_eq. exists h. unfold get_store. by rewrite E. Qed.

Lemma runs_put h m r b n f a t g :
  view h = (m, r, b, n, f) -> m !! a = Some t ->
  runs (put_store a g) h tt (<[a := g t]> m, r, b, n, f).
Proof.
  intros V E. eapply runs_bind; [by eapply runs_get |]. intros h' V'.
  unfold view in V'. simplify_eq. by vstep.
Qed.

Lemma runs_alloc h m r b n f :
  view h = (m, r, b, n, f) -> runs sh_alloc h (default NULL (alloc_result n)) (m, r, b, S n, f).
Proof. intros V. injection V as <- <- <- <- <-. unfold sh_alloc. eexists. split; [by msteps | done]. Qed.

Lemma power_of_2_size k : 6 <= k <= 30 -> is_power_of_2 (u32 (2 ^ k)) = true.
Proof.
  intros Hk. destruct (pow2_k_bounds k Hk) as [HL _].
  unfold is_power_of_2. rewrite !u32_small by lia.
  rewrite land_ones_mod, Z.mod_same by lia.
  by rewrite (proj2 (Z.eqb_neq _ _)) by lia.
Qed.

(** the store that a creation of a log of [2 ^ k] bytes writes *)
Definition new_store (k b : Z) (type : nvlog_type) (status : nvlog_status) (next : Z) : ts_nvlog_store :=
  mk_nvlog_store 0 0 b (align_ptr_to_cacheline b) (2 ^ k) (lnot64 (u64 (2 ^ k - 1))) type status next.

(** the creation up to the linking of the store *)
Lemma store_create_lead h m r n f k type status a (P : res (Z * shared) -> Prop) :
  view h = (m, r, false, n, f) -> 6 <= k <= 30 -> alloc_result n = Some a -> a <> NULL ->
  (forall h', view h' = (<[a := raw_store <| s_next := root_next r |>]> m,
                         r <| root_next := a |>, true, S n, f) ->
     P (store_create_buffer a (2 ^ k) type status h')) ->
  P (_nvlog_store_create (2 ^ k) type status h).
Proof.
  intros V Hk Ha Ha0 HP. unfold _nvlog_store_create. rewrite power_of_2_size by done. cbn [negb].
  eapply runs_lead; [by eapply runs_lock |]. clear h V. intros h V.
  eapply runs_lead; [by eapply runs_alloc |]. clear h V. intros h V. rewrite Ha. cbn [default from_option id].
  rewrite (proj2 (Z.eqb_neq a NULL)) by done.
  eapply (runs_lead _ _ _ _ (<[a := raw_store]> m, r, true, S n, f)).
  { unfold view in V. simplify_eq. by vstep. }
  clear h V. intros h V. eapply runs_lead; [apply runs_flush |]. rewrite V. clear h V. intros h V.
  eapply runs_lead; [apply runs_asks |]. rewrite V. intros h' V'.
  assert (Hr : root h = r) by (unfold view in V; by simplify_eq). rewrite Hr. clear h V Hr.
  eapply (runs_lead _ _ _ tt (<[a := raw_store <| s_next := root_next r |>]> m, r <| root_next := a |>, true, S n, f)).
  { destruct (Z.eqb_spec (root_next r) NULL) as [E | E].
    - eapply runs_bind; [by eapply runs_root_next |]. intros h V.
      rewrite E. erewrite <- (insert_insert_eq m a _ raw_store). eapply runs_put; [done | by rewrite lookup_insert_eq].
    - eapply runs_bind; [eapply runs_put; [done | by rewrite lookup_insert_eq] |]. intros h V.
      rewrite insert_insert_eq in V. by eapply runs_root_next. }
  exact HP.
Qed.

Lemma store_create_runs h m r n f k type status a b :
  view h = (m, r, false, n, f) -> 6 <= k <= 30 ->
  alloc_result n = Some a -> a <> NULL -> alloc_result (S n) = Some b -> b <> NULL ->
  runs (_nvlog_store_create (2 ^ k) type status) h a
    (<[a := new_store k b type status (root_next r)]> m, r <| root_next := a |>, false, S (S n), f).
Proof.
  intros V Hk Ha Ha0 Hb Hb0. unfold runs.
  apply (store_create_lead h m r n f k type status a (fun x => exists h', x = Ok (a, h') /\ view h' = _)); try done.
  clear h V. intros h V. unfold store_create_buffer.
  eapply runs_bind; [by eapply runs_alloc |]. clear h V. intros h V.
  rewrite Hb. cbn [default from_option id].
  eapply runs_bind; [eapply runs_put; [done | by rewrite lookup_insert_eq] |].
  rewrite insert_insert_eq. clear h V. intros h V. rewrite (proj2 (Z.eqb_neq b NULL)) by done.
  eapply runs_bind; [eapply runs_put; [done | by rewrite lookup_insert_eq] |].
  rewrite insert_insert_eq. clear h V. intros h V.
  eapply runs_bind; [apply runs_flush |]. rewrite V. clear h V. intros h V.
  eapply runs_bind; [by eapply runs_unlock |]. clear h V. intros h V. exists h. by split.
Qed.

(** C40. [nvlog_create] with a working allocator: the new store becomes the first
    of the list, every other store is untouched, the lock is free again, and the
    log that it returns is a well-formed empty log of the requested size, type
    and status. *)
Theorem nvlog_create_ok h l k self type status a b :
  6 <= k <= 30 -> nvlog_lock h = false -> stores_ok h l ->
  alloc_result (allocs h) = Some a -> a <> NULL -> stores h !! a = None ->
  alloc_result (S (allocs h)) = Some b -> 0 < b < 2 ^ 64 - 64 ->
  exists n t h', nvlog_create self (2 ^ k) type status h = Ok ((0, Some n), h') /\
    nvlog_lock h' = false /\ stores_ok h' (a :: l) /\
    n_store n = a /\ n_thread n = self /\
    stores h' !! a = Some t /\ s_type t = type /\ s_status t = status /\
    nvlog_inv (mk_nvst n t (sh_pm h')) k [] /\
    forall x, x <> a -> stores h' !! x = stores h !! x.
Proof.
  intros Hk Hlock [Hnd Hch] Ha Ha0 Hfresh Hb Hb0.
  assert (V : view h = (stores h, root h, false, allocs h, freed h)) by (unfold view; by rewrite Hlock).
  destruct (store_create_runs h _ _ _ _ k type status a b V) as (h1 & E & V1);
    try done; [unfold NULL; lia |].
  injection V1 as Vs Vr Vl Vn Vf.
  set (t := new_store k b type status (root_next (root h))) in *.
  assert (Hlk : stores h1 !! a = Some t) by (by rewrite Vs, lookup_insert_eq).
  exists ((nvlog_load a t) <| n_thread := self |>), t, h1.
  split. { unfold nvlog_create. mrun E. rewrite (proj2 (Z.eqb_neq a NULL)) by done.
           unfold get_store, bind. by rewrite Hlk. }
  assert (Hna : a ∉ l).
  { intros Hin. destruct (chain_elem _ _ _ a Hch Hin) as [_ [? ?]]. congruence. }
  split; [done |]. split; [split |].
  - by constructor.
  - rewrite Vr, Vs. split; [done |]. split; [done |]. exists t. rewrite lookup_insert_eq.
    split; [done |]. by apply chain_insert_ne.
  - do 3 (split; [done |]). do 2 (split; [done |]). split.
    + destruct (new_store_inv a b k type status (sh_pm h1) Hk Hb0 (root_next (root h))) as [Hg ? ? ? ? ? ?].
      split; try done. by destruct Hg.
    + intros x Hx. by rewrite Vs, lookup_insert_ne.
Qed.

(** C36. The error paths of [_nvlog_store_create]: when the store cannot be
    allocated the function returns NULL with the mutex of the logs still held,
    so that every later creation waits for ever; when the buffer cannot be
    allocated, the function itself waits for ever, because its clean-up takes
    the mutex it already holds.  In both cases the errors never reach the
    caller as ENOMEM with a usable list. *)
Theorem nvlog_store_create_errors h k type status :
  6 <= k <= 30 -> nvlog_lock h = false ->
  (alloc_result (allocs h) = None ->
   exists h', _nvlog_store_create (2 ^ k) type status h = Ok (NULL, h') /\ nvlog_lock h' = true /\
     forall k' type' status', 6 <= k' <= 30 ->
       _nvlog_store_create (2 ^ k') type' status' h' = Fault SPIN) /\
  (forall a, alloc_result (allocs h) = Some a -> a <> NULL ->
     alloc_result (S (allocs h)) = None ->
     _nvlog_store_create (2 ^ k) type status h = Fault SPIN).
Proof.
  intros Hk Hlock. split.
  - intros Hn. unfold _nvlog_store_create. rewrite power_of_2_size by done. cbn [negb].
    unfold lock_nvlog. exists (h <| nvlog_lock := true |> <| allocs := S (allocs h) |>).
    split; [| split; [done |]].
    + msteps. rewrite Hlock. msteps. unfold bind at 1, sh_alloc. msteps. cbn [upd allocs]. by rewrite Hn.
    + intros k' type' status' Hk'. rewrite power_of_2_size by done. by msteps.
  - intros a Ha Ha0 Hb.
    assert (V : view h = (stores h, root h, false, allocs h, freed h)) by (unfold view; by rewrite Hlock).
    apply (store_create_lead h _ _ _ _ k type status a (fun x => x = Fault SPIN) V); try done.
    clear V. intros h1 V. unfold store_create_buffer.
    eapply (runs_lead _ _ _ _ _ (fun x => x = Fault SPIN)); [by eapply runs_alloc |]. clear h1 V.
    intros h1 V. rewrite Hb. cbn [default from_option].
    eapply (runs_lead _ _ _ _ _ (fun x => x = Fault SPIN));
      [eapply runs_put; [done | by rewrite lookup_insert_eq] |]. clear h1 V. intros h1 V.
    unfold _nvlog_store_destroy. rewrite (proj2 (Z.eqb_neq a NULL)) by done.
    injection V as _ _ V _ _. unfold lock_nvlog. cbn [Z.eqb NULL]. msteps. by rewrite V.
Qed.

Lemma last_default (d : Z) l x y : List.last (d :: l) x = List.last (d :: l) y.
Proof. revert d. induction l as [| e l IH]; intros d; [done |]. apply (IH e). Qed.

(** the search finds the store and its predecessor *)
Lemma store_search_loop h l1 a l2 p temp n :
  chain (stores h) p (l1 ++ a :: l2) -> a ∉ l1 -> (length l1 < n)%nat ->
  loop n (fun '(current, temp) =>
    if (current =? a) || (current =? NULL) then ret (inr (current, temp))
    else let* c := get_store current in ret (inl (s_next c, current))) (p, temp) h
  = Ok ((a, List.last l1 temp), h).
Proof.
  revert p temp n. induction l1 as [| c l1 IH]; intros p temp n Hc Ha Hn.
  - destruct n as [| n]; [lia |]. cbn in Hc. destruct Hc as (-> & _). cbn.
    by rewrite Z.eqb_refl.
  - destruct n as [| n]; [cbn in Hn; lia |]. cbn in Hc. destruct Hc as (-> & Hc0 & t & Ht & Hc).
    apply not_elem_of_cons in Ha as [Hca Ha]. cbn [loop].
    rewrite (proj2 (Z.eqb_neq c a)), (proj2 (Z.eqb_neq c NULL)) by done. cbn [orb].
    unfold bind at 1 2, get_store. rewrite Ht. cbn [deref ret].
    rewrite IH by (done || cbn in Hn; lia). by destruct l1; [| rewrite (last_default _ _ c temp)].
Qed.

Lemma next_or_null x : (if x =? NULL then NULL else x) = x.
Proof. by destruct (Z.eqb_spec x NULL) as [-> |]. Qed.

(** [_nvlog_store_destroy] unlinks its store: the list keeps every other
    store in order, the store's buffer and then the store are freed, and the
    lock is free again. *)
Theorem nvlog_store_destroy_ok h l1 a l2 t :
  nvlog_lock h = false -> stores_ok h (l1 ++ a :: l2) -> stores h !! a = Some t ->
  exists h', _nvlog_store_destroy a h = Ok (tt, h') /\ nvlog_lock h' = false /\
    stores_ok h' (l1 ++ l2) /\ stores h' !! a = None /\
    freed h' = a :: s__buffer t :: freed h.
Proof.
  intros Hlock [Hnd Hch] Ht.
  assert (Hlen : (length (l1 ++ a :: l2) <= size (stores h))%nat) by (by eapply chain_length).
  assert (V : view h = (stores h, root h, false, allocs h, freed h)) by (unfold view; by rewrite Hlock).
  destruct (chain_elem _ _ _ a Hch ltac:(elems)) as [Ha0 _].
  pose proof Hnd as (Hnd1 & Hdisj & Hnd2)%NoDup_app. apply NoDup_cons in Hnd2 as [Hna2 Hnd2].
  assert (Hna1 : a ∉ l1) by (intros Hin; apply (Hdisj a Hin); by left).
  assert (Hnd' : NoDup (l1 ++ l2)).
  { apply NoDup_app. split; [done |]. split; [| done]. intros x Hx Hx2. apply (Hdisj x Hx). by right. }
  assert (Hfin : forall h1 m r, view h1 = (m, r, true, allocs h, freed h) -> m !! a = Some t ->
     chain m (root_next r) (l1 ++ l2) ->
     exists h', bind (when (negb (a =? NULL))
        (let* c := get_store a in sh_free (s__buffer c) ;;; sh_free a ;;;
         modify (fun h => h <| stores ::= delete a |>))) (fun _ => unlock_nvlog) h1 = Ok (tt, h') /\
       nvlog_lock h' = false /\ stores_ok h' (l1 ++ l2) /\ stores h' !! a = None /\
       freed h' = a :: s__buffer t :: freed h).
  { intros h1 m r V1 Hm Hc1. rewrite (proj2 (Z.eqb_neq a NULL)) by done. cbn [negb when].
    injection V1 as <- <- Hl1 Hn1 Hf1. msteps.
    erewrite bind_run by (unfold get_store; by rewrite Hm).
    unfold sh_free. msteps. eexists. split; [reflexivity |]. cbn.
    split; [done |]. split; [split; [done |] |].
    - apply chain_delete; [| done]. elems.
    - split; [apply lookup_delete_eq | by rewrite Hf1]. }
  unfold _nvlog_store_destroy. rewrite (proj2 (Z.eqb_neq a NULL)) by done.
  eapply runs_lead; [by eapply runs_lock |]. clear V. intros h1 V. msteps.
  injection V as Vs Vr Vl Vn Vf. rewrite Vr.
  rewrite (chain_null _ _ _ Hch). rewrite bool_decide_eq_false_2 by (by destruct l1).
  destruct l1 as [| c l1'].
  - cbn in Hch. destruct Hch as (Hp & _ & t' & Ht' & Hc). assert (t' = t) as -> by congruence.
    rewrite Hp, Z.eqb_refl. msteps.
    erewrite bind_run by (unfold get_store; rewrite Vs, Ht; reflexivity).
    unfold set_root_next. msteps. rewrite next_or_null.
    eapply (Hfin _ (stores h) ((root h) <| root_next := s_next t |>)); try done.
    unfold view. cbn. by rewrite Vs, Vr, Vl, Vn, Vf.
  - destruct (exists_last (l := c :: l1') ltac:(done)) as (l0 & b & El).
    assert (Hin : b ∈ (c :: l1') ++ a :: l2) by (rewrite El; elems).
    destruct (chain_elem _ _ _ b Hch Hin) as [Hb0 [tb Htb]].
    assert (Hp : root_next (root h) <> a).
    { cbn in Hch. destruct Hch as (-> & _). intros ->. apply Hna1. by left. }
    rewrite (proj2 (Z.eqb_neq _ a)) by done. msteps.
    erewrite bind_run.
    2: { unfold store_search. msteps. rewrite Vs.
         rewrite <- Vs in Hch. eapply (store_search_loop h1 _ a l2 _ NULL _ Hch Hna1).
         rewrite length_app in Hlen. cbn in *. lia. }
    rewrite El, last_last. cbv beta iota zeta. rewrite (proj2 (Z.eqb_neq a NULL)) by done. msteps.
    erewrite bind_run by (unfold get_store; rewrite Vs, Ht; reflexivity). msteps.
    rewrite next_or_null.
    eapply runs_lead.
    { eapply runs_put; [| exact Htb]. unfold view. by rewrite Vs, Vr, Vl, Vn, Vf. }
    intros h2 V2. msteps. rewrite <- El.
    assert (Hab : b <> a) by (intros ->; apply Hna1; rewrite El; elems).
    eapply (Hfin h2 _ _ V2); [by rewrite lookup_insert_ne |].
    rewrite El, <- app_assoc in *. cbn in *. by eapply chain_unlink.
Qed.
End StoreFacts.

(** * Examples *)

Lemma ex_stores_ok : stores_ok ex_shared [].
Proof. split; [constructor | done]. Qed.

(** the machine after the creation of a log of 4096 bytes *)
Definition ex_shared_log : shared :=
  match @nvlog_create ex_env 8192 (2 ^ 12) TYPE_OPLOG STATUS_NVLOG_NORMAL ex_shared with
  | Ok (_, h) => h
  | Fault _ => ex_shared
  end.

Lemma nvlog_create_ok_witness :
  exists n t h', @nvlog_create ex_env 8192 (2 ^ 12) TYPE_OPLOG STATUS_NVLOG_NORMAL ex_shared
      = Ok ((0, Some n), h') /\
    stores_ok h' [65536] /\ nvlog_inv (mk_nvst n t (sh_pm h')) 12 [].
Proof.
  destruct (@nvlog_create_ok ex_env ex_shared [] 12 8192 TYPE_OPLOG STATUS_NVLOG_NORMAL 65536 69632
    ltac:(lia) eq_refl ex_stores_ok eq_refl ltac:(done) eq_refl eq_refl ltac:(lia))
    as (n & t & h' & H & _ & Hl & _ & _ & _ & _ & _ & Hi & _).
  exists n, t, h'. split; [exact H | split; [exact Hl | exact Hi]].
Defined.

Lemma nvlog_store_create_errors_witness :
  @_nvlog_store_create (ex_env_of (ret tt) (fun n => if decide (n = 0%nat) then Some 65536 else None) false false)
     (2 ^ 12) TYPE_OPLOG STATUS_NVLOG_NORMAL ex_shared = Fault SPIN.
Proof.
  exact (proj2 (@nvlog_store_create_errors
    (ex_env_of (ret tt) (fun n => if decide (n = 0%nat) then Some 65536 else None) false false)
    ex_shared 12 TYPE_OPLOG STATUS_NVLOG_NORMAL ltac:(lia) eq_refl) 65536 eq_refl ltac:(done) eq_refl).
Defined.

Lemma nvlog_store_destroy_ok_witness :
  exists h', _nvlog_store_destroy 65536 ex_shared_log = Ok (tt, h') /\ stores_ok h' [] /\
    freed h' = [65536; 69632].
Proof.
  assert (Hok : stores_ok ex_shared_log ([] ++ 65536 :: [])).
  { split; [repeat constructor; by intros ?%not_elem_of_nil |].
    split; [by vm_compute |]. split; [done |]. eexists. split; [by vm_compute | by vm_compute]. }
  destruct (nvlog_store_destroy_ok ex_shared_log [] 65536 []
    (new_store 12 69632 TYPE_OPLOG STATUS_NVLOG_NORMAL NULL) ltac:(by vm_compute) Hok ltac:(by vm_compute))
    as (h' & H & _ & Hl & _ & Hf).
  exists h'. split; [exact H | split; [exact Hl |]]. rewrite Hf. by vm_compute.
Defined.
