(* ===== verification/Objects.v ===== *)
(** Object access ([lib/util.h]) and the write clocks of versions
    ([lib/clock.h]).

    A header pointer is represented by the address of the object it precedes:
    [&vobj_to_ahs(obj)->act_nvhdr], [vobj_to_chs(obj)] and
    [vobj_to_obj_hdr(obj)] are all [obj]. *)
From S2P Require Export State Clock.

Section Objects.
Context `{Env}.

(** a checkpointed object starts [sizeof_ckpt_entry] bytes into its entry *)
Definition obj_to_ckpt_ent (obj : Z) : Z := obj - sizeof_ckpt_entry.
Definition ckpt_ent_obj (ent : Z) : Z := ent + sizeof_ckpt_entry.

Definition ckpt_entry_of (h : shared) (ent : Z) : option (ts_nvlog_entry * ts_ckpt_entry_hdr) :=
  match cells (sh_pm h) !! ent with
  | Some e => match e_body e with EB_ckpt c => Some (e, c) | _ => None end
  | None => None
  end.

(** the contents of [*obj_to_obj_hdr(obj)] *)
Definition obj_hdr_of (h : shared) (obj : Z) : option ts_obj_hdr :=
  match heap h !! obj with
  | Some (CAct a) => Some (a_hdr a)
  | Some (CCpy c) => Some (c_hdr c)
  | None => (fun ec => ce_hdr ec.2) <$> ckpt_entry_of h (obj_to_ckpt_ent obj)
  end.
Definition obj_to_obj_hdr (obj : Z) : M st ts_obj_hdr := fun s => deref (obj_hdr_of (sh s) obj) s.
Definition vobj_to_obj_hdr : Z -> M st ts_obj_hdr := obj_to_obj_hdr.

Definition get_ckpt_entry (ent : Z) : M st (ts_nvlog_entry * ts_ckpt_entry_hdr) :=
  fun s => deref (ckpt_entry_of (sh s) ent) s.

(** by address: the header is not in the tvlog region *)
Definition is_obj_actual (obj : Z) : M st bool :=
  let* r := sh! g_lr in ret (negb (port_addr_in_tvlog_region (obj - sizeof_obj_hdr) r)).

Definition vchs_obj_to_ws (obj : Z) : M st Z := let* c := get_chs obj in ret (p_ws (cpy_hdr c)).

(** the object whose [act_nvhdr] it is *)
Definition get_act_nvhdr (obj : Z) : M st Z :=
  let* act := is_obj_actual obj in
  if negb act then
    let* c := get_chs obj in
    let* v := get_vhdr (c_act_vhdr (cpy_hdr c)) in
    ret (np_org_act v)
  else ret obj.

Definition get_act_vhdr (obj : Z) : M st Z :=
  let* hd := obj_to_obj_hdr obj in
  match o_type hd with
  | TYPE_ACTUAL => let* a := get_ahs obj in ret (nvh_act_vhdr (act_nvhdr a))
  | TYPE_NVLOG_ENTRY =>
      let* ' (_, c) := get_ckpt_entry (obj_to_ckpt_ent obj) in
      let* a := get_ahs (ce_np_org_act c) in
      ret (nvh_act_vhdr (act_nvhdr a))
  | TYPE_COPY => let* c := get_chs obj in ret (c_act_vhdr (cpy_hdr c))
  | _ => ret NULL
  end.
Definition get_vact_vhdr : Z -> M st Z := get_act_vhdr.

Definition get_cur_act_obj (obj : Z) : M st Z :=
  let* a := get_act_vhdr obj in
  if negb (a =? NULL) then let* v := get_vhdr a in ret (np_cur_act v) else ret obj.

Definition get_org_act_obj (obj : Z) : M st Z :=
  let* a := get_act_vhdr obj in
  if negb (a =? NULL) then let* v := get_vhdr a in ret (np_org_act v) else ret obj.

Definition get_org_ahs (p_act_vhdr : Z) : M st Z :=
  let* v := get_vhdr p_act_vhdr in ret (np_org_act v).

Definition get_entry_size (c : ts_cpy_hdr_struct) : Z :=
  u32 (obj_size (c_hdr c) + padding_size (c_hdr c)).
Definition sizeof_chs (c : ts_cpy_hdr_struct) : Z :=
  u32 (sizeof_cpy_hdr_struct + get_entry_size c).

Definition alloc_act_vhdr (np_org_act : Z) : M st Z :=
  let* a := alloc in
  if a =? NULL then ret NULL
  else
    mod_sh (fun h => h <| vhdrs ::= (fun m =>
      <[a := mk_act_vhdr NULL NULL np_org_act np_org_act MAX_VERSION]> m) |>) ;;;
    st_wmb ;;;
    ret a.

Definition free_act_vhdr (p_act_vhdr : Z) : M st unit :=
  mod_sh (fun h => h <| vhdrs ::= delete p_act_vhdr |>) ;;; note_free p_act_vhdr.

(** * Write clocks *)

Definition get_raw_wrt_clk (c : ts_cpy_hdr_struct) : Z := __wrt_clk (cpy_hdr c).

(** [while ((wrt_clk = ws->wrt_clk) == MAX_VERSION) port_cpu_relax_and_yield();] *)
Definition wait_ws_commit (ws : Z) : M st Z :=
  loop spin_bound (fun _ : unit =>
    let* w := get_ws ws in
    if ws_wrt_clk w =? MAX_VERSION then interfere ;;; ret (inl tt)
    else ret (inr (ws_wrt_clk w))) tt.

Definition get_wrt_clk (c : ts_cpy_hdr_struct) (local : Z) : M st Z :=
  let wrt_clk := __wrt_clk (cpy_hdr c) in
  if negb (wrt_clk =? MAX_VERSION) then ret wrt_clk
  else
    let ws := p_ws (cpy_hdr c) in
    let* w := get_ws ws in
    if pending_wrt_clk w =? MAX_VERSION then ret MAX_VERSION
    else if local <? pending_wrt_clk w then ret MAX_VERSION
    else wait_ws_commit ws.

(** readings of the clock by the calling thread *)
Definition on_ticks {A} (m : M nat A) : M st A :=
  zoom (fun s => ticks (sh s)) (fun n s => s <| sh ::= (fun h => h <| ticks := n |>) |>) m.
Definition st_get_clock : M st Z := on_ticks (ordo_get_clock tsc).
Definition st_get_clock_relaxed : M st Z := on_ticks (ordo_get_clock_relaxed tsc).
Definition st_new_clock (local : Z) : M st Z := on_ticks (new_clock tsc spin_bound local).

(** * The pointer sets of the calling thread *)

Record set_sel := mk_set_sel {
  set_get : ts_thread_struct -> ts_ptr_set;
  set_put : ts_ptr_set -> ts_thread_struct -> ts_thread_struct }.
Definition TX_ALLOC_SET := mk_set_sel tx_alloc_set (fun p t => t <| tx_alloc_set := p |>).
Definition TX_FREE_SET := mk_set_sel tx_free_set (fun p t => t <| tx_free_set := p |>).
Definition CKPT_FREE_SET := mk_set_sel ckpt_free_set (fun p t => t <| ckpt_free_set := p |>).
Definition READ_SET := mk_set_sel (fun t => read_set (isolation t))
  (fun p t => t <| isolation ::= (fun i => i <| read_set := p |>) |>).

(** lift a [res] of the set operations *)
Definition lift {S A} (r : res A) : M S A :=
  match r with Ok a => ret a | Fault e => raise e end.

Definition set_push (P : set_sel) (p : Z) : M st Z :=
  let* ps := asks (fun s => set_get P (self s)) in
  let* ok := (if num_max_ptrs ps <=? num_ptrs ps then alloc_ok else ret true) in
  let* ' (r, ps') := lift (ptrset_push ok ps p) in
  mod_self (set_put P ps') ;;;
  ret r.
Definition set_pop (P : set_sel) : M st Z :=
  let* ps := asks (fun s => set_get P (self s)) in
  let* ' (p, ps') := lift (ptrset_pop ps) in
  mod_self (set_put P ps') ;;;
  ret p.
Definition set_reset (P : set_sel) : M st unit :=
  mod_self (fun t => set_put P (ptrset_reset (set_get P t)) t).
Definition set_init (P : set_sel) : M st Z :=
  let* ok := alloc_ok in
  let '(r, ps) := ptrset_init ok in
  mod_self (set_put P ps) ;;; ret r.
Definition set_deinit (P : set_sel) : M st unit :=
  mod_self (fun t => set_put P (ptrset_deinit (set_get P t)) t).

End Objects.

(** * Facts *)

Section ObjectFacts.
Context `{Env}.

Lemma get_vhdr_run s a v : vhdrs (sh s) !! a = Some v -> get_vhdr a s = Ok (v, s).
Proof. intros E. unfold get_vhdr. by rewrite E. Qed.
Lemma get_ahs_run s o a : heap (sh s) !! o = Some (CAct a) -> get_ahs o s = Ok (a, s).
Proof. intros E. unfold get_ahs. by rewrite E. Qed.
Lemma get_chs_run s o c : heap (sh s) !! o = Some (CCpy c) -> get_chs o s = Ok (c, s).
Proof. intros E. unfold get_chs. by rewrite E. Qed.
Lemma get_ws_run s a w : wrt_sets (sh s) !! a = Some w -> get_ws a s = Ok (w, s).
Proof. intros E. unfold get_ws. by rewrite E. Qed.
Lemma put_chs_run s o c f :
  heap (sh s) !! o = Some (CCpy c) ->
  put_chs o f s = Ok (tt, s <| sh ::= (fun h => h <| heap ::= (fun m => <[o := CCpy (f c)]> m) |>) |>).
Proof. intros E. unfold put_chs. by mrun (get_chs_run s o c E). Qed.
Lemma put_vhdr_run s a v f :
  vhdrs (sh s) !! a = Some v ->
  put_vhdr a f s = Ok (tt, s <| sh ::= (fun h => h <| vhdrs ::= (fun m => <[a := f v]> m) |>) |>).
Proof. intros E. unfold put_vhdr. by mrun (get_vhdr_run s a v E). Qed.

Lemma get_vhdr_Ok s a v s' : get_vhdr a s = Ok (v, s') -> vhdrs (sh s) !! a = Some v /\ s' = s.
Proof. unfold get_vhdr. by intros [? ->]%deref_Ok. Qed.
Lemma get_chs_Ok s o c s' : get_chs o s = Ok (c, s') -> heap (sh s) !! o = Some (CCpy c) /\ s' = s.
Proof. unfold get_chs. destruct (heap (sh s) !! o) as [[] |]; try done. by intros [= -> ->]. Qed.
Lemma get_ahs_Ok s o c s' : get_ahs o s = Ok (c, s') -> heap (sh s) !! o = Some (CAct c) /\ s' = s.
Proof. unfold get_ahs. destruct (heap (sh s) !! o) as [[] |]; try done. by intros [= -> ->]. Qed.

Lemma is_obj_actual_run s o :
  is_obj_actual o s = Ok (negb (port_addr_in_tvlog_region (o - sizeof_obj_hdr) (g_lr (sh s))), s).
Proof. done. Qed.

(** the address of an actual object is outside the tvlog region *)
Definition outside_region (s : st) (o : Z) : Prop :=
  port_addr_in_tvlog_region (o - sizeof_obj_hdr) (g_lr (sh s)) = false.

Lemma get_act_nvhdr_actual s o : outside_region s o -> get_act_nvhdr o s = Ok (o, s).
Proof.
  intros Ho. unfold get_act_nvhdr. mrun (is_obj_actual_run s o). by rewrite Ho.
Qed.

(** a version as a transaction with clock [local] sees it: the clock
    [get_wrt_clk] answers without waiting *)
Definition settled (s : st) (local : Z) (c : ts_cpy_hdr_struct) (clk : Z) : Prop :=
  (__wrt_clk (cpy_hdr c) <> MAX_VERSION /\ clk = __wrt_clk (cpy_hdr c)) \/
  (__wrt_clk (cpy_hdr c) = MAX_VERSION /\ exists w, wrt_sets (sh s) !! p_ws (cpy_hdr c) = Some w /\
     ((clk = MAX_VERSION /\ (pending_wrt_clk w = MAX_VERSION \/ local < pending_wrt_clk w)) \/
      (pending_wrt_clk w <= local /\ pending_wrt_clk w <> MAX_VERSION /\
       ws_wrt_clk w <> MAX_VERSION /\ clk = ws_wrt_clk w))).

Lemma get_wrt_clk_settled s local c clk :
  settled s local c clk -> (0 < spin_bound)%nat -> get_wrt_clk c local s = Ok (clk, s).
Proof.
  intros Hset Hs. unfold get_wrt_clk. destruct Hset as [[Hne ->] | (He & w & Hw & Hc)].
  - by rewrite (proj2 (Z.eqb_neq _ _)).
  - rewrite He, Z.eqb_refl. cbn [negb]. mrun (get_ws_run s _ w Hw).
    destruct Hc as [[-> [Hp | Hp]] | (Hp & Hpm & Hwm & ->)].
    + by rewrite Hp, Z.eqb_refl.
    + destruct (_ =? MAX_VERSION); [done |]. by rewrite (proj2 (Z.ltb_lt _ _)).
    + rewrite (proj2 (Z.eqb_neq _ _)) by done. rewrite (proj2 (Z.ltb_ge _ _)) by done.
      unfold wait_ws_commit. destruct spin_bound as [| n]; [lia |]. cbn [loop].
      rewrite bind_assoc. mrun (get_ws_run s _ w Hw). rewrite (proj2 (Z.eqb_neq _ _)) by done. done.
Qed.

(** C26. [get_wrt_clk] on a version whose transaction is committing before
    [local]: it waits while the others run ([trace] is what they make of the
    state) until they publish the write clock, and answers the clock they
    published, provided that they do so within the bound. *)
Theorem get_wrt_clk_waits c local s w k wk (trace : nat -> st) :
  __wrt_clk (cpy_hdr c) = MAX_VERSION ->
  wrt_sets (sh s) !! p_ws (cpy_hdr c) = Some w ->
  pending_wrt_clk w <> MAX_VERSION -> pending_wrt_clk w <= local ->
  trace 0%nat = s -> (k < spin_bound)%nat ->
  (forall i, (i < k)%nat -> interfere (trace i) = Ok (tt, trace (S i)) /\
     exists wi, wrt_sets (sh (trace i)) !! p_ws (cpy_hdr c) = Some wi /\ ws_wrt_clk wi = MAX_VERSION) ->
  wrt_sets (sh (trace k)) !! p_ws (cpy_hdr c) = Some wk -> ws_wrt_clk wk <> MAX_VERSION ->
  get_wrt_clk c local s = Ok (ws_wrt_clk wk, trace k).
Proof.
  intros He Hw Hpm Hpl Ht0 Hk Htr Ek Em.
  unfold get_wrt_clk. rewrite He, Z.eqb_refl. cbn [negb]. mrun (get_ws_run s _ w Hw).
  rewrite (proj2 (Z.eqb_neq _ _)) by done. rewrite (proj2 (Z.ltb_ge _ _)) by done.
  unfold wait_ws_commit. revert Hk. generalize spin_bound as n. rewrite <- Ht0.
  enough (Hgen : forall i n, (i <= k)%nat -> (k - i < n)%nat ->
    loop n (fun _ : unit => let* w := get_ws (p_ws (cpy_hdr c)) in
      if ws_wrt_clk w =? MAX_VERSION then interfere ;;; ret (inl tt) else ret (inr (ws_wrt_clk w))) tt (trace i)
    = Ok (ws_wrt_clk wk, trace k)) by (intros; apply Hgen; lia).
  intros i n Hi. remember (k - i)%nat as d eqn:Ed. revert i n Hi Ed.
  induction d as [| d IH]; intros i n Hi Ed Hn; (destruct n as [| n]; [lia |]); cbn [loop]; rewrite bind_assoc.
  - replace i with k by lia. mrun (get_ws_run (trace k) _ wk Ek).
    by rewrite (proj2 (Z.eqb_neq _ _)) by done.
  - destruct (Htr i ltac:(lia)) as [Hint (wi & Hwi & Hmax)].
    mrun (get_ws_run (trace i) _ wi Hwi). rewrite Hmax, Z.eqb_refl, bind_assoc. mrun Hint. msteps.
    apply IH; lia.
Qed.
End ObjectFacts.

(** * Examples: a write set at 100 whose commit clock, 900, is not yet public *)

Definition ex_pending : st :=
  ex_st <| sh ::= (fun h => h <| wrt_sets := {[ 100 := mk_wrt_set MAX_VERSION 900 1 0 8192 ]} |>) |>.
(** its transaction publishes the clock *)
Definition ex_publish : M st unit :=
  put_ws 100 (fun w => w <| ws_wrt_clk := pending_wrt_clk w |>).
Definition ex_published : st :=
  ex_st <| sh ::= (fun h => h <| wrt_sets := {[ 100 := mk_wrt_set 900 900 1 0 8192 ]} |>) |>.
Definition ex_version : ts_cpy_hdr_struct :=
  mk_chs (mk_cpy_hdr 100 MAX_VERSION 0 0 NULL 300) (mk_obj_hdr 8 0 TYPE_COPY STATUS_NONE).

Lemma get_wrt_clk_waits_witness :
  @get_wrt_clk (ex_env_of ex_publish ex_alloc false false) ex_version 950 ex_pending
  = Ok (900, ex_published).
Proof.
  refine (@get_wrt_clk_waits (ex_env_of ex_publish ex_alloc false false) ex_version 950 ex_pending
    (mk_wrt_set MAX_VERSION 900 1 0 8192) 1 (mk_wrt_set 900 900 1 0 8192)
    (fun i => match i with O => ex_pending | S _ => ex_published end)
    eq_refl ltac:(by vm_compute) ltac:(by vm_compute) ltac:(by vm_compute) eq_refl ltac:(cbn; lia) _
    ltac:(by vm_compute) ltac:(by vm_compute)).
  intros i Hi. assert (i = 0%nat) as -> by lia. split; [by vm_compute |].
  eexists. split; by vm_compute.
Defined.
