(* ===== verification/Isolation.v ===== *)
(** Isolation levels: [lib/isolation.h].  The read set of a transaction holds
    three pointers per read: the volatile header of the object (or NULL), the
    newest version when it was read, and the version that was read. *)
From S2P Require Export Objects.

Section Isolation.
Context `{Env}.

Definition mod_iso (f : ts_isolation_info -> ts_isolation_info) : M st unit :=
  mod_self (fun t => t <| isolation ::= f |>).

Definition isolation_reset (lv : isolation_level) : M st unit :=
  when TS_ENABLE_SERIALIZABILITY_LINEARIZABILITY
    (set_reset READ_SET ;;; mod_iso (fun i => i <| stale_read_occured := false |>)) ;;;
  mod_iso (fun i => i <| level := lv |>).

Definition isolation_init : M st Z :=
  if TS_ENABLE_SERIALIZABILITY_LINEARIZABILITY then
    let* rc := set_init READ_SET in
    isolation_reset TS_INVALID ;;;
    ret rc
  else ret 0.

Definition isolation_deinit : M st unit :=
  when TS_ENABLE_SERIALIZABILITY_LINEARIZABILITY
    (isolation_reset TS_INVALID ;;; set_deinit READ_SET).

Definition is_stale (i : ts_isolation_info) : bool :=
  stale_read_occured i && bool_decide (level i = TS_LINEARIZABILITY).
Definition stale_read_occurred : M st bool :=
  if TS_ENABLE_SERIALIZABILITY_LINEARIZABILITY then
    let* i := self! isolation in ret (is_stale i)
  else ret false.

Definition read_set_add (p_act_vhdr p_latest p_copy : Z) : M st unit :=
  if TS_ENABLE_SERIALIZABILITY_LINEARIZABILITY then
    let* i := self! isolation in
    let serializability :=
      set_push READ_SET p_act_vhdr ;;;
      set_push READ_SET p_latest ;;;
      set_push READ_SET p_copy ;;;
      ret tt in
    match level i with
    | TS_LINEARIZABILITY =>
        if negb (is_stale i) && negb (p_latest =? NULL) && negb (p_latest =? p_copy) then
          mod_iso (fun i => i <| stale_read_occured := true |>)
        else serializability
    | TS_SERIALIZABILITY => serializability
    | TS_SNAPSHOT | TS_INVALID => ret tt
    end
  else ret tt.

Definition write_set_add (p_lock : Z) : M st unit := ret tt.

(** the loop over the triples of the read set, from index [i], [n] left *)
Fixpoint validate_loop (n : nat) (ps : ts_ptr_set) (i : Z) : M st bool :=
  match n with
  | O => ret true
  | S n' =>
      if i <? num_ptrs ps then
        let* p_act_vhdr := lift (ptrset_load ps i) in
        let* p_latest := lift (ptrset_load ps (i + 1)) in
        let* p_copy := lift (ptrset_load ps (i + 2)) in
        if negb (p_act_vhdr =? NULL) then
          let* v := get_vhdr p_act_vhdr in
          if negb (v_copy v =? p_latest) then ret false else validate_loop n' ps (i + 3)
        else
          let* p_act_vhdr := get_act_vhdr p_copy in
          if negb (p_act_vhdr =? NULL) then
            let* v := get_vhdr p_act_vhdr in
            if negb (v_copy v =? NULL) then ret false else validate_loop n' ps (i + 3)
          else validate_loop n' ps (i + 3)
      else ret true
  end.

Definition validate_read_set : M st bool :=
  if TS_ENABLE_SERIALIZABILITY_LINEARIZABILITY then
    let* i := self! isolation in
    let serializability := validate_loop (S (Z.to_nat (num_ptrs (read_set i)))) (read_set i) 0 in
    match level i with
    | TS_LINEARIZABILITY => if is_stale i then ret false else serializability
    | TS_SERIALIZABILITY => serializability
    | TS_SNAPSHOT => ret true
    | TS_INVALID => ret false
    end
  else ret true.

End Isolation.

(** * Facts: validation *)

Section IsolationFacts.
Context `{Env}.

(** a read of the transaction: the volatile header (or NULL), the newest version
    when it was read, the version that was read *)
Record read := mk_read { r_vhdr : Z; r_latest : Z; r_copy : Z }.
Definition read_ptrs (r : read) : list Z := [r_vhdr r; r_latest r; r_copy r].

(** no transaction committed a version of the object since it was read *)
Definition current (s : st) (r : read) (b : bool) : Prop :=
  if r_vhdr r =? NULL then
    exists v, get_act_vhdr (r_copy r) s = Ok (v, s) /\
      if v =? NULL then b = true
      else exists vh, vhdrs (sh s) !! v = Some vh /\ b = (v_copy vh =? NULL)
  else exists vh, vhdrs (sh s) !! r_vhdr r = Some vh /\ b = (v_copy vh =? r_latest r).

(** the read set holds the reads [l] *)
Definition read_set_holds (ps : ts_ptr_set) (l : list read) : Prop :=
  exists rest, ptrs ps = Some ((Some <$> (l ≫= read_ptrs)) ++ rest) /\ num_ptrs ps = 3 * Z.of_nat (length l).

Lemma ptrset_load_at ps slots i p :
  ptrs ps = Some slots -> 0 <= i -> slots !! Z.to_nat i = Some (Some p) -> ptrset_load ps i = Ok p.
Proof. intros E Hi Hl. unfold ptrset_load. rewrite E, (proj2 (Z.leb_le 0 i)), Hl by done. done. Qed.

Lemma reads_lookup (l1 : list read) r l2 rest j p :
  read_ptrs r !! j = Some p ->
  ((Some <$> ((l1 ++ r :: l2) ≫= read_ptrs)) ++ rest) !! (3 * length l1 + j)%nat = Some (Some p).
Proof.
  intros Hj. rewrite bind_app, fmap_app, <- app_assoc, lookup_app_r.
  - assert (Hlen : length (Some <$> (l1 ≫= read_ptrs)) = (3 * length l1)%nat).
    { rewrite length_fmap. clear. induction l1 as [| x l1 IH]; [done |]. cbn in *. lia. }
    rewrite Hlen. replace (3 * length l1 + j - 3 * length l1)%nat with j by lia.
    rewrite bind_cons, fmap_app, <- app_assoc, lookup_app_l, list_lookup_fmap, Hj; [done |].
    rewrite length_fmap. by apply lookup_lt_Some in Hj.
  - rewrite length_fmap. clear. induction l1 as [| x l1 IH]; cbn in *; lia.
Qed.

Lemma validate_loop_run s ps l2 :
  forall l1 bs n, read_set_holds ps (l1 ++ l2) -> Forall2 (current s) l2 bs -> (length l2 < n)%nat ->
  validate_loop n ps (3 * Z.of_nat (length l1)) s = Ok (forallb id bs, s).
Proof.
  induction l2 as [| r l2 IH]; intros l1 bs n (rest & Hps & Hnum) Hcur Hn.
  - apply Forall2_nil_inv_l in Hcur as ->. destruct n as [| n]; [lia |]. cbn.
    rewrite Hnum, app_nil_r. by rewrite (proj2 (Z.ltb_ge _ _)) by lia.
  - apply Forall2_cons_inv_l in Hcur as (b & bs' & Hb & Hbs & ->). destruct n as [| n]; [lia |].
    cbn [validate_loop]. rewrite length_app in Hnum. cbn [length] in Hnum, Hn.
    rewrite (proj2 (Z.ltb_lt _ _)) by lia.
    assert (Hload : forall j p, read_ptrs r !! j = Some p ->
              ptrset_load ps (3 * Z.of_nat (length l1) + Z.of_nat j) = Ok p).
    { intros j p Hj. eapply ptrset_load_at; [exact Hps | lia |].
      replace (Z.to_nat (3 * Z.of_nat (length l1) + Z.of_nat j)) with (3 * length l1 + j)%nat by lia.
      by apply reads_lookup. }
    pose proof (Hload 0%nat _ eq_refl) as L0. rewrite Z.add_0_r in L0. rewrite L0.
    pose proof (Hload 1%nat _ eq_refl) as L1. pose proof (Hload 2%nat _ eq_refl) as L2.
    change (Z.of_nat 1) with 1 in L1. change (Z.of_nat 2) with 2 in L2. rewrite L1, L2. cbn [lift]. msteps.
    assert (Hnext : forall m, (length l2 < m)%nat -> validate_loop m ps (3 * Z.of_nat (length l1) + 3) s = Ok (forallb id bs', s)).
    { intros m Hm. replace (3 * Z.of_nat (length l1) + 3) with (3 * Z.of_nat (length (l1 ++ [r]))) by (rewrite length_app; cbn; lia).
      apply IH; [| done | lia]. exists rest. rewrite <- app_assoc. split; [done |].
      rewrite length_app. cbn [length app]. lia. }
    unfold current in Hb. destruct (r_vhdr r =? NULL) eqn:Ev; cbn [negb].
    + destruct Hb as (v & Hv & Hb). mrun Hv. destruct (v =? NULL) eqn:Evn; cbn [negb].
      * rewrite Hb. cbn. apply Hnext. lia.
      * destruct Hb as (vh & Hvh & ->). mrun (get_vhdr_run s v vh Hvh).
        destruct (v_copy vh =? NULL); cbn; [apply Hnext; lia | done].
    + destruct Hb as (vh & Hvh & ->). mrun (get_vhdr_run s _ vh Hvh).
      destruct (v_copy vh =? r_latest r); cbn; [apply Hnext; lia | done].
Qed.

(** C15. Validation is exact: under serializability a transaction validates iff
    every object it read has no version newer than the newest one when it was
    read, and under linearizability iff moreover no read was stale; snapshot
    transactions always validate; the state does not change. *)
Theorem validate_read_set_exact s l bs :
  TS_ENABLE_SERIALIZABILITY_LINEARIZABILITY = true ->
  read_set_holds (read_set (isolation (self s))) l -> Forall2 (current s) l bs ->
  validate_read_set s = Ok (
    match level (isolation (self s)) with
    | TS_LINEARIZABILITY => negb (stale_read_occured (isolation (self s))) && forallb id bs
    | TS_SERIALIZABILITY => forallb id bs
    | TS_SNAPSHOT => true
    | TS_INVALID => false
    end, s).
Proof.
  intros Hen Hl Hb. unfold validate_read_set. rewrite Hen. msteps.
  set (i := isolation (self s)) in *.
  assert (Hrun : validate_loop (S (Z.to_nat (num_ptrs (read_set i)))) (read_set i) 0 s = Ok (forallb id bs, s)).
  { apply (validate_loop_run s (read_set i) l []); [done | done |]. destruct Hl as (? & _ & ->). lia. }
  destruct (level i) eqn:El; try done. unfold is_stale. rewrite El, bool_decide_eq_true_2, andb_true_r by done.
  by destruct (stale_read_occured i).
Qed.
End IsolationFacts.

(** * Examples: one read, whose object has a newer version now *)

Definition ex_reads : st :=
  (ex_st <| sh ::= (fun h => h <| vhdrs := {[ 400 := mk_act_vhdr 1048832 NULL 300000 300000 MAX_VERSION ]} |>) |>)
  <| self ::= (fun t => t <| isolation := mk_isolation TS_SERIALIZABILITY false
       (mk_ptr_set 3 512 (Some (Some <$> [400; 1048704; 1048704]))) |>) |>.

Lemma validate_read_set_exact_witness :
  @validate_read_set (ex_env_of (ret tt) ex_alloc true false) ex_reads = Ok (false, ex_reads).
Proof.
  apply (@validate_read_set_exact (ex_env_of (ret tt) ex_alloc true false) ex_reads
    [mk_read 400 1048704 1048704] [false] eq_refl).
  - exists []. by vm_compute.
  - constructor; [| constructor]. eexists. by vm_compute.
Defined.
