(* ===== verification/Request.v ===== *)
(** Reclamation requests to the qp thread: the requesting half of [lib/qp.c].
    (Waking the qp thread up touches no state of the model.) *)
From S2P Require Export Objects.

Section Request.
Context `{Env}.

Definition mod_qp_reclaim (f : ts_reclaim -> ts_reclaim) : M st unit :=
  mod_sh (fun h => h <| g_qp_thread ::= (fun q => q <| q_reclaim ::= f |>) |>).

(** a request byte of [g_qp_thread.reclaim]: how to read and to write it *)
Record req_sel := mk_req_sel { req_get : ts_reclaim -> Z; req_put : Z -> ts_reclaim -> ts_reclaim }.
Definition REQ_TVLOG := mk_req_sel r_tvlog (fun v r => r <| r_tvlog := v |>).
Definition REQ_CKPTLOG := mk_req_sel r_ckptlog (fun v r => r <| r_ckptlog := v |>).

Definition read_req (R : req_sel) : M st Z := asks (fun s => req_get R (q_reclaim (g_qp_thread (sh s)))).

Definition _request_reclaim (R : req_sel) (new_req : Z) : M st bool :=
  let* old_req := read_req R in
  if old_req <? new_req then
    smp_cas (read_req R) (fun v => mod_qp_reclaim (req_put R v)) old_req new_req
  else ret false.

Definition request_tvlog_reclaim (new_req : Z) : M st bool := _request_reclaim REQ_TVLOG new_req.
Definition request_ckptlog_reclaim (new_req : Z) : M st bool := _request_reclaim REQ_CKPTLOG new_req.

End Request.

(** * Facts *)

(** the two request bytes are fields of their own *)
Class ReqSel (R : req_sel) : Prop := { req_get_put v r : req_get R (req_put R v r) = v }.
#[export] Instance req_tvlog_sel : ReqSel REQ_TVLOG.
Proof. by split. Qed.
#[export] Instance req_ckptlog_sel : ReqSel REQ_CKPTLOG.
Proof. by split. Qed.

Section RequestFacts.
Context `{Env}.

Definition pending_req (R : req_sel) (s : st) : Z := req_get R (q_reclaim (g_qp_thread (sh s))).

Lemma request_reclaim_run (R : req_sel) `{!ReqSel R} req s b s' :
  _request_reclaim R req s = Ok (b, s') ->
  exists s1, (s1 = s \/ interfere s = Ok (tt, s1)) /\
    if b then pending_req R s1 = pending_req R s /\ pending_req R s < req /\ pending_req R s' = req
    else s' = s1 /\ (req <= pending_req R s \/ pending_req R s1 <> pending_req R s).
Proof.
  unfold _request_reclaim, read_req. msteps. fold (pending_req R s).
  destruct (Z.ltb_spec (pending_req R s) req) as [Hlt | Hge].
  - unfold smp_cas. unfold bind at 1. destruct (interfere s) as [[[] s1] |] eqn:Ei; [| done]. msteps.
    fold (pending_req R s1). destruct (Z.eqb_spec (pending_req R s1) (pending_req R s)) as [E | E].
    + unfold mod_qp_reclaim, mod_sh. msteps. intros [= <- <-]. exists s1. split; [by right |].
      split; [done |]. split; [done |]. apply req_get_put.
    + intros [= <- <-]. exists s1. split; [by right |]. split; [done |]. by right.
  - intros [= <- <-]. exists s. split; [by left |]. split; [done |]. by left.
Qed.

(** A request never weakens what is already requested, whatever other threads
    do in between ([s1] is the state they leave): the call either replaces the
    byte it read by a stronger request, and then nobody changed the byte in
    between, or it changes nothing, because the request was as strong already or
    somebody else was faster. *)
Theorem request_monotone R req s b s' :
  R = REQ_TVLOG \/ R = REQ_CKPTLOG ->
  _request_reclaim R req s = Ok (b, s') ->
  exists s1, (s1 = s \/ interfere s = Ok (tt, s1)) /\ pending_req R s1 <= pending_req R s' /\
    if b then pending_req R s1 = pending_req R s /\ pending_req R s < req /\ pending_req R s' = req
    else s' = s1 /\ (req <= pending_req R s \/ pending_req R s1 <> pending_req R s).
Proof.
  intros HR Hrun. assert (HS : ReqSel R) by (destruct HR as [-> | ->]; by split).
  destruct (request_reclaim_run R req s b s' Hrun) as (s1 & H1 & H2). exists s1. split; [done |]. split; [| done].
  destruct b; [lia | by destruct H2 as [-> _]].
Qed.
End RequestFacts.

(** * Examples *)

Lemma request_monotone_witness :
  exists s', @_request_reclaim ex_env REQ_TVLOG RECLAIM_TVLOG_CKPT ex_st = Ok (true, s') /\
    pending_req REQ_TVLOG s' = RECLAIM_TVLOG_CKPT.
Proof.
  eexists. split; [reflexivity |].
  destruct (@request_monotone ex_env REQ_TVLOG RECLAIM_TVLOG_CKPT ex_st true _ (or_introl eq_refl) eq_refl)
    as (s1 & _ & _ & _ & _ & E). exact E.
Defined.
