(* ===== verification/Oplog.v ===== *)
(** The operation log: [lib/oplog.c].  A committed transaction leaves one
    entry with its operation type, its operands and its clocks; an entry is
    reclaimed when a checkpoint covers it. *)
From S2P Require Export Request Store.

Section Oplog.
Context `{Env}.

(** [nvlog_create] into a log of the thread: 0 or ENOMEM *)
Definition log_create (L : log_sel) (size : Z) (type : nvlog_type) (status : nvlog_status) : M st Z :=
  let* me := self! self_ptr in
  let* ' (rc, n) := on_sh (nvlog_create me size type status) in
  match n with Some n => mod_log L (fun _ => n) ;;; ret rc | None => ret rc end.

Definition log_destroy (L : log_sel) : M st unit :=
  let* n := asks (fun s => sel_get L (self s)) in
  let* n' := on_sh (nvlog_destroy n) in
  mod_log L (fun _ => n').

Definition oplog_create (size : Z) (status : nvlog_status) : M st Z :=
  log_create OPLOG size TYPE_OPLOG status.
Definition oplog_destroy : M st unit := log_destroy OPLOG.

(** writes to the new entry: its header's clock, then its body *)
Definition fill_op_entry (a : Z) (local wrt_clk : Z) (op_info : ts_op_info) : M nvst unit :=
  upd_entry a 0 8 (fun e => e <| e_wrt_clk := wrt_clk |>) ;;;
  upd_entry a sizeof_nvlog_entry_hdr (sizeof_op_entry_hdr + oi_curr op_info)
    (fun e => e <| e_body := EB_op (mk_op_entry_hdr local (oi_op_type op_info)
                                      (take (Z.to_nat (oi_curr op_info)) (oi_opd op_info))) |>).

Definition oplog_enq (local wrt_clk : Z) (op_info : ts_op_info) : M st Z :=
  let opd_size := oi_curr op_info in
  let* a := with_log OPLOG (nvlog_enq (u32 (sizeof_op_entry_hdr + opd_size))) in
  with_log OPLOG (fill_op_entry a local wrt_clk op_info) ;;;
  let* n := self! oplog in
  stat_thread_asgn n_oplog_written_bytes (n_tail_cnt n) ;;;
  ret a.

Definition oplog_enq_persist : M st unit := with_log OPLOG nvlog_enq_persist.
Definition oplog_deq : M st Z := with_log OPLOG nvlog_deq.
Definition oplog_deq_persist : M st unit := with_log OPLOG nvlog_deq_persist.
Definition oplog_peek_head : M st Z := with_log OPLOG nvlog_peek_head.
Definition oplog_used : M st Z := asks (fun s => nvlog_used (oplog (self s))).

(** an entry of one of the logs *)
Definition get_log_entry (a : Z) : M st ts_nvlog_entry := fun s => deref (cells (sh_pm (sh s)) !! a) s.

(** the loop of [oplog_reclaim]; an iteration dequeues an entry, and a log has
    at most one entry per cache line.  Answers the number of operations. *)
Definition oplog_reclaim_loop (last_ckpt force : Z) : M st Z :=
  let* used := oplog_used in
  loop (S (S (Z.to_nat (used / TS_CACHE_LINE_SIZE)))) (fun reclaimed_ops =>
    let* op_entry := oplog_peek_head in
    if op_entry =? NULL then ret (inr reclaimed_ops)
    else
      let* e := get_log_entry op_entry in
      if lt_clock (e_wrt_clk e) last_ckpt || (force =? RECLAIM_OPLOG_FORCE) then
        oplog_deq ;;; ret (inl (reclaimed_ops + 1))
      else ret (inr reclaimed_ops)) 0.

(** the words of a log's [reclaim_lock] *)
Definition try_lock_log (L : log_sel) : M st bool :=
  let* n := asks (fun s => sel_get L (self s)) in
  if n_reclaim_lock n =? 0 then
    smp_cas (asks (fun s => n_reclaim_lock (sel_get L (self s))))
      (fun v => mod_log L (fun n => n <| n_reclaim_lock := v |>)) 0 1
  else ret false.
Definition unlock_log (L : log_sel) : M st unit := mod_log L (fun n => n <| n_reclaim_lock := 0 |>).

Definition oplog_reclaim (force : Z) : M st bool :=
  st_wmb ;;;
  let* ok := try_lock_log OPLOG in
  if negb ok then ret false
  else
    let* old_head_cnt := asks (fun s => n_head_cnt (oplog (self s))) in
    let* last_ckpt := asks (fun s => __last_ckpt (clks (self s))) in
    let* reclaimed_ops := oplog_reclaim_loop last_ckpt force in
    let* head := asks (fun s => n_head_cnt (oplog (self s))) in
    when (negb (head =? old_head_cnt))
      (oplog_deq_persist ;;;
       stat_thread_inc n_oplog_reclaim ;;;
       stat_thread_acc n_oplog_reclaimed_ops reclaimed_ops ;;;
       stat_thread_acc n_oplog_reclaimed_bytes (u64 (head - old_head_cnt))) ;;;
    unlock_log OPLOG ;;;
    ret true.

Definition oplog_try_request_ckpt_if_needed : M st bool :=
  let* used := oplog_used in
  if TS_OPLOG_HIGH_MARK <=? used then
    oplog_reclaim RECLAIM_OPLOG_NORMAL ;;;
    let* used := oplog_used in
    if TS_OPLOG_HIGH_MARK <=? used then
      request_tvlog_reclaim RECLAIM_TVLOG_CKPT ;;; ret true
    else ret false
  else ret false.

End Oplog.

(** * Facts: the queue of a thread's log *)

Section LogFacts.
Context `{Env} (L : log_sel) `{!LogSel L}.

Lemma log_holds_ext r r' k q :
  log_holds r k q ->
  n_buffer (nv r') = n_buffer (nv r) -> n_log_size (nv r') = n_log_size (nv r) ->
  n_mask (nv r') = n_mask (nv r) -> n_head_cnt (nv r') = n_head_cnt (nv r) ->
  n_tail_cnt (nv r') = n_tail_cnt (nv r) -> cells (pm r') = cells (pm r) -> log_holds r' k q.
Proof. intros (l & Hi & Hc) ??????. exists l. split; [by eapply nvlog_inv_ext | done]. Qed.

Lemma holds_at_pos r k q c : log_holds r k q -> nvlog_at (nv r) c <> NULL.
Proof.
  intros (l & [[Hk ? ? ? Hp] ? ? ? ? ? ?] & _). rewrite (nvlog_at_slot _ k) by done.
  pose proof (slot_range (n_buffer (nv r)) k c ltac:(lia)). unfold NULL. lia.
Qed.

(** peeking and dequeuing on the thread's log *)
Lemma holds_peek s k q :
  holds L s k q ->
  exists a s', with_log L nvlog_peek_head s = Ok (a, s') /\ holds L s' k q /\
    match q with
    | [] => a = NULL
    | (_, e) :: _ => a <> NULL /\ get_log_entry a s' = Ok (e, s')
    end.
Proof.
  intros (r & Hr & Hh). pose proof Hh as (l & Hi & <-).
  destruct (nvlog_peek_head_spec r k l Hi) as (a & r' & l' & E & Hs & Hi' & Hc & Hq).
  exists a, (log_step L s r'). split; [by apply (with_log_run _ s r) |]. split.
  { exists r'. split; [apply (log_of_step s r); [done | by rewrite Hs] |]. by exists l'. }
  destruct (contents l) as [| [c e] q']; [done |]. destruct Hq as (-> & He & _).
  split; [by eapply holds_at_pos |]. unfold get_log_entry. cbn. rewrite Hs. cbn. by rewrite He.
Qed.

Lemma holds_deq s k q :
  holds L s k q -> exists a s', with_log L nvlog_deq s = Ok (a, s') /\ holds L s' k (List.tl q).
Proof.
  intros (r & Hr & l & Hi & <-).
  destruct (nvlog_deq_spec r k l Hi) as (a & r' & l' & E & Hs & Hi' & Hq).
  exists a, (log_step L s r'). split; [by apply (with_log_run _ s r) |].
  exists r'. split; [apply (log_of_step s r); [done | by rewrite Hs] |].
  destruct (contents l) as [| [c e] q'] eqn:Ec.
  - destruct Hq as [_ ->]. by exists l.
  - destruct Hq as (_ & _ & _ & Hq). by exists l'.
Qed.

(** the count and the size of the entry that an enqueue of [sz] bytes makes *)
Definition enq_count (n : ts_nvlog) (k sz : Z) : Z :=
  n_tail_cnt n + enq_skip k (n_tail_cnt n) (entry_size_of sz).

(** an entry of [sz] bytes fits *)
Record has_room (n : ts_nvlog) (k sz : Z) : Prop := {
  room_size : 0 <= sz < 2 ^ 31;
  room_entry : entry_size_of sz < 2 ^ k;
  room_count : n_tail_cnt n + 2 * 2 ^ k < 2 ^ 63;
  room_left : enq_count n k sz + entry_size_of sz - n_head_cnt n <= 2 ^ k }.

Lemma has_room_after n k sz : has_room n k sz -> n_tail_cnt n < enq_count n k sz + entry_size_of sz.
Proof.
  intros [H1 H2 H3 H4]. destruct (entry_size_bounds sz H1) as (_ & H64 & _). unfold enq_count, enq_skip.
  pose proof (Z.mod_pos_bound (n_tail_cnt n) (2 ^ k) ltac:(lia)). destruct (_ <? _); lia.
Qed.

Lemma holds_log s k q : holds L s k q -> exists r, log_of L s = Some r /\ nv r = sel_get L (self s) /\ log_holds r k q.
Proof.
  intros (r & Hr & Hh). exists r. split; [done |]. split; [| done]. unfold log_of in Hr.
  destruct (stores (sh s) !! _); [| done]. cbn in Hr. by injection Hr as <-.
Qed.

(** what an enqueue leaves of the log's control structure, its store and the
    memory outside its buffer *)
Record enqueued (r0 r : nvst) (t : Z) : Prop := {
  enq_sto : sto r = sto r0;
  enq_buffer : n_buffer (nv r) = n_buffer (nv r0);
  enq_log_size : n_log_size (nv r) = n_log_size (nv r0);
  enq_store : n_store (nv r) = n_store (nv r0);
  enq_head : n_head_cnt (nv r) = n_head_cnt (nv r0);
  enq_tail : n_tail_cnt (nv r) = t;
  enq_cells : forall a, a < n_buffer (nv r0) \/ n_buffer (nv r0) + n_log_size (nv r0) <= a ->
                cells (pm r) !! a = cells (pm r0) !! a }.

(** enqueuing on the thread's log *)
Lemma holds_enq s k q sz :
  let n := sel_get L (self s) in
  let c := enq_count n k sz in
  holds L s k q -> has_room n k sz ->
  exists r, with_log L (nvlog_enq sz) s = Ok (nvlog_at n c, log_step L s r) /\ nvlog_at n c <> NULL /\
    log_of L (log_step L s r) = Some r /\ nvlog_at (nv r) c = nvlog_at n c /\
    log_holds r k (q ++ [(c, new_entry (entry_size_of sz))]) /\
    forall r0, log_of L s = Some r0 -> enqueued r0 r (c + entry_size_of sz).
Proof.
  intros n c Hs [H1 H2 H3 H4]. destruct (holds_log s k q Hs) as (r & Hr & Hn & l & Hi & <-).
  fold n in Hn. rewrite <- Hn in H3, H4.
  destruct (nvlog_enq_spec r k l sz Hi H1 H2 H3) as (a & r' & E & Hf & Hq).
  unfold enq_count in H4. rewrite (proj2 (Z.leb_le _ _)) in Hq by done. destruct Hq as (-> & Hne & Hhd & Htl & l' & Hi' & Hc).
  exists r'. pose proof (frame_geo _ _ Hf) as (Eb & Es & Em & Est & _).
  assert (Hat : nvlog_at (nv r') c = nvlog_at n c) by (unfold nvlog_at, nvlog_index; by rewrite Eb, Em, Hn).
  unfold c, enq_count in *. rewrite Hn in *.
  split; [by apply (with_log_run _ s r) |]. split; [done |].
  split; [apply (log_of_step s r); [done | by rewrite Hn] |]. split; [done |]. split; [by exists l' |].
  intros r0 Hr0. assert (r0 = r) as -> by congruence. split; try congruence; by apply Hf.
Qed.

(** filling the entry enqueued last, in two writes that keep its size and type *)
Lemma holds_fill r k q c e o1 l1 f o2 l2 g :
  log_holds r k (q ++ [(c, e)]) ->
  (forall x, e_size (f x) = e_size x /\ e_type (f x) = e_type x) ->
  (forall x, e_size (g x) = e_size x /\ e_type (g x) = e_type x) ->
  let a := nvlog_at (nv r) c in
  exists r', (upd_entry a o1 l1 f ;;; upd_entry a o2 l2 g) r = Ok (tt, r') /\ nv r' = nv r /\ sto r' = sto r /\
    log_holds r' k (q ++ [(c, g (f e))]) /\
    forall x, x < n_buffer (nv r) \/ n_buffer (nv r) + n_log_size (nv r) <= x -> cells (pm r') !! x = cells (pm r) !! x.
Proof.
  intros Hh Hf Hg a. pose proof Hh as (l & [Hgeo ? ? ? ? Hseg ?] & Hc).
  assert (He : cells (pm r) !! a = Some e).
  { unfold a. rewrite (nvlog_at_slot _ k) by done. apply (seg_lookup _ _ _ _ _ _ (c, e) Hseg).
    apply contents_elem. rewrite Hc. elems. }
  unfold upd_entry. rewrite bind_assoc. mrun (get_entry_run _ _ _ He). msteps.
  erewrite bind_run by (apply get_entry_run; cbn; apply lookup_insert_eq). cbn beta.
  eexists. split; [reflexivity |]. split; [done |]. split; [done |]. split.
  - eapply log_holds_upd_last; [exact Hh | done | cbn; by rewrite insert_insert_eq | ..].
    + rewrite (proj1 (Hg _)). by apply Hf.
    + rewrite (proj2 (Hg _)). by apply Hf.
  - intros x Hx. cbn. unfold a. rewrite (nvlog_at_slot _ k), (geom_size _ _ Hgeo) in * by done.
    pose proof (geom_k _ _ Hgeo). pose proof (slot_range (n_buffer (nv r)) k c ltac:(lia)).
    by rewrite !lookup_insert_ne by lia.
Qed.

Lemma enqueued_fill r0 r r' t :
  enqueued r0 r t -> nv r' = nv r -> sto r' = sto r ->
  (forall x, x < n_buffer (nv r) \/ n_buffer (nv r) + n_log_size (nv r) <= x -> cells (pm r') !! x = cells (pm r) !! x) ->
  enqueued r0 r' t.
Proof.
  intros [E1 E2 E3 E4 E5 E6 E7] Hn Hs Hc. split; rewrite ?Hn, ?Hs; try done.
  intros a Ha. rewrite Hc by (by rewrite E2, E3). by apply E7.
Qed.

Lemma holds_step s r r' k q :
  log_of L s = Some r -> n_store (nv r') = n_store (nv r) -> log_holds r' k q -> holds L (log_step L s r') k q.
Proof. intros Hr Hn Hh. exists r'. split; [by eapply log_of_step | done]. Qed.

(** storing the head leaves the queue *)
Lemma holds_deq_persist_run s k q :
  holds L s k q -> exists r r', log_of L s = Some r /\
    with_log L nvlog_deq_persist s = Ok (tt, log_step L s r') /\ nv r' = nv r /\
    log_of L (log_step L s r') = Some r' /\ log_holds r' k q /\ s_head_cnt (sto r') = n_head_cnt (nv r').
Proof.
  intros (r & Hr & Hh).
  assert (E : exists r', nvlog_deq_persist r = Ok (tt, r') /\ nv r' = nv r /\
            cells (pm r') = cells (pm r) /\ s_head_cnt (sto r') = n_head_cnt (nv r)).
  { unfold nvlog_deq_persist. msteps. destruct (Z.eqb_spec (s_head_cnt (sto r)) (n_head_cnt (nv r))); cbn [negb].
    - by exists r.
    - unfold set_store_head. cbn [when]. msteps. eexists. split; [reflexivity |]. split; [done |]. cbn.
      split; [| done]. unfold clwb. by case_decide. }
  destruct E as (r' & E & Hn & Hc & Hs). exists r, r'. split; [done |]. split; [by apply (with_log_run _ s r) |].
  split; [done |]. split; [apply (log_of_step s r); congruence |]. split; [| congruence].
  eapply log_holds_ext; [exact Hh | ..]; congruence.
Qed.

Lemma holds_deq_persist s k q :
  holds L s k q -> exists s', with_log L nvlog_deq_persist s = Ok (tt, s') /\ holds L s' k q /\
    exists r, log_of L s' = Some r /\ s_head_cnt (sto r) = n_head_cnt (nv r).
Proof.
  intros Hs. destruct (holds_deq_persist_run s k q Hs) as (r & r' & _ & E & _ & Hl & Hh & Hc).
  exists (log_step L s r'). split; [done |]. split; by exists r'.
Qed.
(** a store of a log beside its buffer *)
Definition store_ok (r : nvst) : Prop := store_apart (nv r) /\ (64 | n_store (nv r)) /\ (64 | s_tail_cnt (sto r)).

(** making the log durable up to its tail *)
Lemma holds_enq_persist s k q r :
  log_of L s = Some r -> log_holds r k q -> store_ok r ->
  s_tail_cnt (sto r) <= n_tail_cnt (nv r) < s_tail_cnt (sto r) + 2 ^ k ->
  exists r', with_log L nvlog_enq_persist s = Ok (tt, log_step L s r') /\ log_of L (log_step L s r') = Some r' /\
    log_holds r' k q /\ nv r' = nv r /\ s_tail_cnt (sto r') = n_tail_cnt (nv r) /\
    cells (pm r') = cells (pm r) /\ store_ok r' /\
    (s_tail_cnt (sto r) < n_tail_cnt (nv r) -> tail_written (n_tail_cnt (nv r)) (nv r) (pm r')) /\
    forall c, (64 | c) -> s_tail_cnt (sto r) <= c < n_tail_cnt (nv r) ->
      durable (pm r') (line_of (slot (n_buffer (nv r)) k c)).
Proof.
  intros Hr Hh (Ha & Hb & Hc) Ht. pose proof Hh as (l & Hi & Hl). pose proof Hi as [Hg ? ? ? ? Hseg _].
  assert (H64 : (64 | n_tail_cnt (nv r))) by (by eapply seg_64).
  destruct (nvlog_enq_persist_spec r k _ Hg Ha Hb eq_refl Hc H64 Ht) as (r' & E & Hn & Hs & Hce & Hw & Hd).
  exists r'. split; [by apply (with_log_run _ s r) |]. split; [by apply (log_of_step _ r); [| rewrite Hn] |].
  split; [eapply log_holds_ext; [exact Hh | ..]; congruence |]. split; [done |]. split; [by rewrite Hs |]. split; [done |].
  split; [unfold store_ok; by rewrite Hn, Hs |]. split; [done |]. intros c H1 H2. apply Hd; [done | by left].
Qed.
End LogFacts.

(** * Facts: reclaiming the operation log *)

Section ReclaimFacts.
Context `{Env}.

(** a checkpoint covers the entry, or reclamation is forced *)
Definition covered (last_ckpt force : Z) (e : ts_nvlog_entry) : bool :=
  lt_clock (e_wrt_clk e) last_ckpt || (force =? RECLAIM_OPLOG_FORCE).

(** the length of the longest prefix of covered entries *)
Fixpoint covered_len (last_ckpt force : Z) (q : entries) : nat :=
  match q with
  | [] => 0
  | (_, e) :: q' => if covered last_ckpt force e then S (covered_len last_ckpt force q') else 0
  end.

Lemma oplog_reclaim_loop_run last_ckpt force k q :
  forall s, holds OPLOG s k q ->
  exists s', oplog_reclaim_loop last_ckpt force s = Ok (Z.of_nat (covered_len last_ckpt force q), s') /\
    holds OPLOG s' k (drop (covered_len last_ckpt force q) q).
Proof.
  intros s Hs. unfold oplog_reclaim_loop, oplog_used. msteps.
  assert (Hf : (length q < S (S (Z.to_nat (nvlog_used (oplog (self s)) / TS_CACHE_LINE_SIZE))))%nat).
  { destruct Hs as (r & Hr & Hh). apply log_holds_length in Hh. unfold log_of in Hr.
    destruct (stores (sh s) !! _); [| done]. cbn in Hr. injection Hr as <-. cbn [nv] in Hh. cbn in Hh |- *. lia. }
  revert Hf. generalize (S (S (Z.to_nat (nvlog_used (oplog (self s)) / TS_CACHE_LINE_SIZE)))) as n. intros n Hf.
  enough (Hgen : forall q n s acc, holds OPLOG s k q -> (length q < n)%nat -> exists s',
    loop n (fun reclaimed_ops => let* op_entry := oplog_peek_head in
      if op_entry =? NULL then ret (inr reclaimed_ops)
      else let* e := get_log_entry op_entry in
           if lt_clock (e_wrt_clk e) last_ckpt || (force =? RECLAIM_OPLOG_FORCE)
           then oplog_deq ;;; ret (inl (reclaimed_ops + 1)) else ret (inr reclaimed_ops)) acc s
    = Ok (acc + Z.of_nat (covered_len last_ckpt force q), s') /\
      holds OPLOG s' k (drop (covered_len last_ckpt force q) q)) by exact (Hgen q n s 0 Hs Hf).
  clear. intros q. induction q as [| [c e] q IH]; intros n s acc Hs Hf; (destruct n as [| n]; [cbn in Hf; lia |]);
    cbn [loop]; destruct (holds_peek OPLOG s k _ Hs) as (a & s1 & E1 & Hs1 & Ha);
    rewrite bind_assoc; unfold oplog_peek_head; mrun E1.
  - rewrite Ha, Z.eqb_refl. exists s1. msteps. split; [cbn; by rewrite Z.add_0_r | done].
  - destruct Ha as [Hne He]. rewrite (proj2 (Z.eqb_neq a NULL)) by done. rewrite bind_assoc. mrun He.
    fold (covered last_ckpt force e). cbn [covered_len]. destruct (covered last_ckpt force e) eqn:Ec.
    + destruct (holds_deq OPLOG s1 k _ Hs1) as (a2 & s2 & E2 & Hs2). unfold oplog_deq. msteps. mrun E2. msteps.
      destruct (IH n s2 (acc + 1) Hs2 ltac:(cbn in Hf; lia)) as (s3 & E3 & Hs3).
      exists s3. split; [| done]. etransitivity; [exact E3 |]. do 2 f_equal. lia.
    + exists s1. msteps. split; [cbn; by rewrite Z.add_0_r | done].
Qed.

(** the persisted head is the log's *)
Definition head_stored (s : st) : Prop :=
  exists r, log_of OPLOG s = Some r /\ s_head_cnt (sto r) = n_head_cnt (nv r).

(** the log but for its lock and its saved head *)
Definition log_core (n : ts_nvlog) : ts_nvlog :=
  n <| n_reclaim_lock := 0 |> <| n_prev_head_cnt := 0 |>.

(** steps that leave the log's contents: write-backs, others, its lock *)
Lemma holds_ext (L : log_sel) s s' k q :
  holds L s k q -> stores (sh s') = stores (sh s) -> cells (sh_pm (sh s')) = cells (sh_pm (sh s)) ->
  log_core (sel_get L (self s')) = log_core (sel_get L (self s)) -> holds L s' k q.
Proof.
  intros (r & Hr & Hh) Es Ec El.
  injection El as Eh Et En Eb Esz Em _ _ _ _. unfold log_of in Hr.
  destruct (stores (sh s) !! n_store (sel_get L (self s))) as [t |] eqn:Et'; [| done]. cbn in Hr. injection Hr as <-.
  exists (mk_nvst (sel_get L (self s')) t (sh_pm (sh s'))). split.
  - unfold log_of. by rewrite Es, En, Et'.
  - by eapply log_holds_ext.
Qed.

Lemma head_stored_ext s s' :
  head_stored s -> stores (sh s') = stores (sh s) -> log_core (oplog (self s')) = log_core (oplog (self s)) ->
  head_stored s'.
Proof.
  intros (r & Hr & Hs) Es El. injection El as Eh Et En Eb Esz Em _ _ _ _. unfold head_stored, log_of in *. cbn in *.
  rewrite Es, En. destruct (stores (sh s) !! _) as [t |]; [| done]. cbn in *. injection Hr as <-.
  eexists. split; [reflexivity |]. cbn in *. congruence.
Qed.

(** taking a log's free lock *)
Lemma try_lock_log_free (L : log_sel) `{!LogSel L} `{!Rely logs_kept} s :
  n_reclaim_lock (sel_get L (self s)) = 0 ->
  exists s', try_lock_log L s = Ok (true, s') /\ stores (sh s') = stores (sh s) /\ sh_pm (sh s') = sh_pm (sh s) /\
    self s' = sel_put L ((sel_get L (self s)) <| n_reclaim_lock := 1 |>) (self s).
Proof.
  intros Hl. unfold try_lock_log. msteps. rewrite Hl, Z.eqb_refl. unfold smp_cas.
  destruct (interfere_rely s) as (s2 & Ei & Hs & Hst & Hp). mrun Ei. msteps. rewrite Hs, Hl, Z.eqb_refl.
  unfold mod_log, mod_self. msteps. eexists. split; [reflexivity |]. cbn. by rewrite Hs.
Qed.

(** only the operation log, its store, the NVM and the statistics changed *)
Definition only_oplog (s s' : st) : Prop :=
  self s' = (self s) <| oplog := oplog (self s') |> <| stat := stat (self s') |> /\
  sh s' = (sh s) <| stores := stores (sh s') |> <| sh_pm := sh_pm (sh s') |>.

Lemma only_oplog_trans s1 s2 s3 : only_oplog s1 s2 -> only_oplog s2 s3 -> only_oplog s1 s3.
Proof. intros [A1 A2] [B1 B2]. split; [by rewrite B1, A1 | by rewrite B2, A2]. Qed.

Lemma log_step_only r s : only_oplog s (log_step OPLOG s r).
Proof. split; [| done]. cbn. by destruct (self s). Qed.

(** the entry that a committing transaction leaves in the operation log *)
Definition op_entry (local wrt_clk : Z) (op : ts_op_info) : ts_nvlog_entry :=
  mk_nvlog_entry wrt_clk (entry_size_of (sizeof_op_entry_hdr + oi_curr op)) TYPE_ACTUAL
    (EB_op (mk_op_entry_hdr local (oi_op_type op) (take (Z.to_nat (oi_curr op)) (oi_opd op)))).
Definition op_count (n : ts_nvlog) (k : Z) (op : ts_op_info) : Z := enq_count n k (sizeof_op_entry_hdr + oi_curr op).

(** [oplog_enq], when its entry fits, appends one entry to the operation log
    that holds exactly the transaction's clocks, its operation type and its
    operands, and leaves the older entries as they were *)
Lemma oplog_enq_run s k q r0 local wrt_clk op :
  holds OPLOG s k q -> log_of OPLOG s = Some r0 -> 0 <= oi_curr op < 2 ^ 30 ->
  has_room (oplog (self s)) k (sizeof_op_entry_hdr + oi_curr op) ->
  let c := op_count (oplog (self s)) k op in
  exists a s' r, oplog_enq local wrt_clk op s = Ok (a, s') /\ a <> NULL /\ log_of OPLOG s' = Some r /\
    log_holds r k (q ++ [(c, op_entry local wrt_clk op)]) /\ only_oplog s s' /\
    enqueued r0 r (c + e_size (op_entry local wrt_clk op)).
Proof.
  intros Hs Hr0 Hsz Hroom c. unfold oplog_enq. rewrite u32_small by (unfold sizeof_op_entry_hdr; lia).
  destruct (holds_enq OPLOG s k q _ Hs Hroom) as (r & E & Hne & Hr & Hat & Hh & Hf).
  change (sel_get OPLOG (self s)) with (oplog (self s)) in *.
  change (enq_count (oplog (self s)) k (sizeof_op_entry_hdr + oi_curr op)) with c in *.
  set (a := nvlog_at (oplog (self s)) c) in *. mrun E.
  destruct (holds_fill r k q c _ 0 8 (fun e => e <| e_wrt_clk := wrt_clk |>) sizeof_nvlog_entry_hdr
    (sizeof_op_entry_hdr + oi_curr op) (fun e => e <| e_body := EB_op (mk_op_entry_hdr local (oi_op_type op)
       (take (Z.to_nat (oi_curr op)) (oi_opd op))) |>) Hh) as (r' & E' & Hn & Hst & Hh' & Hc'); [done | done |].
  rewrite Hat in E'.
  pose proof (with_log_run (L := OPLOG) _ _ _ _ _ Hr E') as E2. unfold fill_op_entry. mrun E2.
  unfold stat_thread_asgn, mod_self. msteps.
  assert (Hl : log_of OPLOG (log_step OPLOG (log_step OPLOG s r) r') = Some r').
  { by apply (log_of_step _ r); [| rewrite Hn]. }
  do 2 eexists. exists r'. split; [reflexivity |]. split; [done |]. split; [exact Hl |]. split; [exact Hh' |]. split.
  - apply (only_oplog_trans _ _ _ (log_step_only r s)). apply (only_oplog_trans _ _ _ (log_step_only r' _)).
    split; [| by destruct (sh s)]. cbn. by destruct (self s).
  - apply (enqueued_fill _ r); auto.
Qed.

Lemma log_holds_counts r k q : log_holds r k q -> 0 <= n_head_cnt (nv r) <= n_tail_cnt (nv r).
Proof. intros (l & [_ Hh _ _ _ Hseg _] & _). destruct (seg_range _ _ _ _ _ _ Hseg) as [? _]. lia. Qed.

Lemma log_of_oplog s r : log_of OPLOG s = Some r -> oplog (self s) = nv r.
Proof. unfold log_of. destruct (stores (sh s) !! _); [| done]. cbn. by intros [= <-]. Qed.

(** the persisted tail is the log's *)
Definition tail_stored (s : st) : Prop :=
  exists r, log_of OPLOG s = Some r /\ s_tail_cnt (sto r) = n_tail_cnt (nv r).

(** the lines of the log from [t0] on are durable, and so is the tail once the
    write-backs that were started are complete *)
Definition lines_persisted (k t0 : Z) (s : st) : Prop :=
  (forall c, (64 | c) -> t0 <= c < n_tail_cnt (oplog (self s)) ->
     durable (sh_pm (sh s)) (line_of (slot (n_buffer (oplog (self s))) k c))) /\
  tail_written (n_tail_cnt (oplog (self s))) (oplog (self s)) (sh_pm (sh s)).

Lemma oplog_enq_persist_run s k q r :
  log_of OPLOG s = Some r -> log_holds r k q -> store_ok r ->
  s_tail_cnt (sto r) <= n_tail_cnt (nv r) < s_tail_cnt (sto r) + 2 ^ k ->
  exists s', oplog_enq_persist s = Ok (tt, s') /\ holds OPLOG s' k q /\ tail_stored s' /\ only_oplog s s' /\
    oplog (self s') = oplog (self s) /\
    (s_tail_cnt (sto r) < n_tail_cnt (nv r) -> lines_persisted k (s_tail_cnt (sto r)) s').
Proof.
  intros Hr Hh Hst Ht.
  destruct (holds_enq_persist OPLOG s k q r Hr Hh Hst Ht) as (r' & E & Hl & Hh' & Hn & Hs & _ & _ & Hw & Hd).
  exists (log_step OPLOG s r'). split; [exact E |]. split; [by exists r' |].
  split; [exists r'; by rewrite Hs, Hn |]. split; [by apply log_step_only |].
  assert (Eo : oplog (self (log_step OPLOG s r')) = nv r) by (by rewrite (log_of_oplog _ _ Hl)).
  split; [by rewrite Eo, (log_of_oplog _ _ Hr) |]. intros Hlt. unfold lines_persisted. rewrite Eo. by split; [exact Hd | apply Hw].
Qed.

(** C22. [oplog_reclaim] with the lock of the log free and others leaving the
    caller's logs alone: it removes exactly the longest prefix of entries that
    the last checkpoint covers (all of them under RECLAIM_OPLOG_FORCE), keeps the
    others in order, releases the lock and, if it moved the head, stores the new
    head on NVM. *)
Theorem oplog_reclaim_prefix `{!Rely logs_kept} s k q force :
  holds OPLOG s k q -> n_reclaim_lock (oplog (self s)) = 0 ->
  let n := covered_len (__last_ckpt (clks (self s))) force q in
  exists s', oplog_reclaim force s = Ok (true, s') /\ holds OPLOG s' k (drop n q) /\
    n_reclaim_lock (oplog (self s')) = 0 /\
    (n_head_cnt (oplog (self s')) = n_head_cnt (oplog (self s)) \/ head_stored s').
Proof.
  intros Hh Hl n. unfold oplog_reclaim, st_wmb, mod_sh. msteps. set (s1 := upd sh _ s).
  destruct (try_lock_log_free OPLOG s1 Hl) as (s2 & E2 & Hst2 & Hp2 & Hs2).
  mrun E2. cbn [negb]. msteps.
  assert (Hh2 : holds OPLOG s2 k q) by (eapply holds_ext; [exact Hh | ..]; by rewrite ?Hst2, ?Hp2, ?Hs2).
  assert (Hc : __last_ckpt (clks (self s2)) = __last_ckpt (clks (self s))) by (by rewrite Hs2).
  assert (Hd : n_head_cnt (oplog (self s2)) = n_head_cnt (oplog (self s))) by (by rewrite Hs2).
  rewrite Hc, Hd. destruct (oplog_reclaim_loop_run (__last_ckpt (clks (self s))) force k q s2 Hh2) as (s3 & E3 & Hh3).
  fold n in Hh3, E3. mrun E3. msteps.
  destruct (Z.eqb_spec (n_head_cnt (oplog (self s3))) (n_head_cnt (oplog (self s)))) as [Eh | Eh]; cbn [negb]; msteps.
  - unfold unlock_log, mod_log, mod_self. msteps. eexists. split; [reflexivity |].
    split; [by eapply holds_ext |]. split; [done |]. by left.
  - destruct (holds_deq_persist OPLOG s3 k _ Hh3) as (s4 & E4 & Hh4 & Hs4). unfold oplog_deq_persist.
    mrun E4. unfold stat_thread_inc, stat_thread_acc, unlock_log, mod_log, mod_self. msteps.
    eexists. split; [reflexivity |]. split; [by eapply holds_ext |]. split; [done |]. right.
    by eapply head_stored_ext.
Qed.
End ReclaimFacts.

(** * Examples: the 256-byte log with one entry, as a thread's log *)

Definition ex_oplog : st :=
  (ex_st <| sh ::= (fun h => h <| stores := {[ 1024 := ex_store 64 64 ]} |> <| sh_pm := pm (ex_log 64) |>) |>)
  <| self ::= (fun t => t <| oplog := ex_nv 64 192 |> <| ckptlog := ex_nv 64 192 |>) |>.

#[local] Instance ex_logs_rely : @Rely ex_env logs_kept.
Proof. intros s. by exists s. Qed.

Lemma ex_holds : holds OPLOG ex_oplog 8 [(64, new_entry 128)].
Proof. exists (ex_log 64). split; [by vm_compute |]. exists [(64, new_entry 128)]. split; [exact (ex_log_inv 64) | done]. Qed.
Lemma ex_holds_ckpt : holds CKPTLOG ex_oplog 8 [(64, new_entry 128)].
Proof. exists (ex_log 64). split; [by vm_compute |]. exists [(64, new_entry 128)]. split; [exact (ex_log_inv 64) | done]. Qed.

Lemma ex_room sz : sz = 16 \/ sz = 40 -> has_room (ex_nv 64 192) 8 sz.
Proof. intros [-> | ->]; split; by vm_compute. Qed.

Lemma oplog_reclaim_prefix_witness :
  exists s', @oplog_reclaim ex_env RECLAIM_OPLOG_FORCE ex_oplog = Ok (true, s') /\ holds OPLOG s' 8 [].
Proof.
  destruct (@oplog_reclaim_prefix ex_env ex_logs_rely ex_oplog 8 _ RECLAIM_OPLOG_FORCE ex_holds eq_refl)
    as (s' & E & Hh & _).
  exists s'. split; [exact E | exact Hh].
Defined.
