(* ===== verification/Ckptlog.v ===== *)
(** The checkpoint log: [lib/ckptlog.c].  An entry is a checkpointed version of
    an object; reclamation first writes the current ones back to their original
    object ([head, prev_head) of the next round) and frees them one grace period
    later.  A tombstone entry marks an object that was freed. *)
From S2P Require Export Oplog.

Section Ckptlog.
Context `{Env}.

Definition ckptlog_create (size : Z) (status : nvlog_status) : M st Z :=
  let* rc := log_create CKPTLOG size TYPE_CKPTLOG status in
  when (rc =? 0) (mod_log CKPTLOG (fun n => n <| n_free_set := true |>)) ;;;
  ret rc.

Definition ckptlog_used : M st Z := asks (fun s => nvlog_used (ckptlog (self s))).
Definition ckptlog_need_reclaim : M st Z := asks (fun s => r_ckptlog (reclaim (self s))).
Definition ckptlog_head : M st Z := asks (fun s => n_head_cnt (ckptlog (self s))).

(** bytes written at [a] by a store on NVM: its lines get dirty *)
Definition st_dirty (a len : Z) : M st unit := mod_sh (fun h => h <| sh_pm ::= store_lines a len |>).

(** writes to a new entry: the log entry's clock, then the checkpoint header
    with the object header (the code leaves the [padding_size] and [status] of
    the latter as they are; nothing reads them) *)
Definition fill_ckpt_entry (a wrt_clk ckpt_s np_org : Z) (is_tombstone : bool) (size : Z) : M nvst unit :=
  upd_entry a 0 8 (fun e => e <| e_wrt_clk := wrt_clk |>) ;;;
  upd_entry a sizeof_nvlog_entry_hdr (sizeof_ckpt_entry_hdr + sizeof_obj_hdr)
    (fun e => e <| e_body := EB_ckpt (mk_ckpt_entry_hdr ckpt_s np_org (Z.b2z is_tombstone)
       (mk_obj_hdr size 0 TYPE_NVLOG_ENTRY STATUS_NONE)) |>).

Definition _ckptlog_enq (wrt_clk ckpt_s_clk chs : Z) : M st Z :=
  let* c := get_chs chs in
  let is_tombstone := bool_decide (o_type (c_hdr c) = TYPE_FREE) in
  let size := obj_size (c_hdr c) in
  let* a := with_log CKPTLOG (nvlog_enq (u32 (sizeof_ckpt_entry_hdr + sizeof_obj_hdr + size))) in
  let p_act_vhdr := c_act_vhdr (cpy_hdr c) in
  let* v := get_vhdr p_act_vhdr in
  with_log CKPTLOG (fill_ckpt_entry a wrt_clk ckpt_s_clk (np_org_act v) is_tombstone size) ;;;
  when (negb is_tombstone)
    (memcpy_obj (ckpt_ent_obj a) chs size ;;; st_dirty (ckpt_ent_obj a) size) ;;;
  put_vhdr p_act_vhdr (fun v => v <| np_cur_act := ckpt_ent_obj a |>) ;;;
  ret a.

Definition ckptlog_enq (wrt_clk ckpt_s_clk chs : Z) : M st Z := _ckptlog_enq wrt_clk ckpt_s_clk chs.
Definition ckptlog_enq_tombstone (wrt_clk ckpt_s_clk chs : Z) : M st Z :=
  _ckptlog_enq wrt_clk ckpt_s_clk chs.

Definition ckptlog_try_request_reclaim_if_needed : M st unit :=
  let* used := ckptlog_used in
  if TS_CKPTLOG_LOW_MARK <? used then
    (if TS_CKPTLOG_HIGH_MARK <? used then request_ckptlog_reclaim RECLAIM_CKPTLOG_WRITEBACK
     else request_ckptlog_reclaim RECLAIM_CKPTLOG_BEST_EFFORT) ;;;
    ret tt
  else ret tt.

Definition ckptlog_enq_persist : M st unit :=
  with_log CKPTLOG nvlog_enq_persist ;;; ckptlog_try_request_reclaim_if_needed.
Definition ckptlog_deq : M st Z := with_log CKPTLOG nvlog_deq.
Definition ckptlog_deq_persist : M st unit := with_log CKPTLOG nvlog_deq_persist.
Definition ckptlog_peek_head : M st Z := with_log CKPTLOG nvlog_peek_head.

(** [nvm_free] of an object with its header *)
Definition nvm_free_obj (obj : Z) : M st unit :=
  mod_sh (fun h => h <| heap ::= delete obj |>) ;;; note_free obj.

(** the loop of [ckptlog_cleanup] from index [i]; [first] is where the next
    kept pointer goes.  Answers the final [first]. *)
Fixpoint cleanup_loop (n : nat) (until_clk i first : Z) : M st Z :=
  match n with
  | O => ret first
  | S n' =>
      let* fs := self! ckpt_free_set in
      if i <? num_ptrs fs then
        let* p_act_vhdr := lift (ptrset_load fs i) in
        let* v := get_vhdr p_act_vhdr in
        if lt_clock (tombstone_clk v) until_clk then
          let* ahs := get_org_ahs p_act_vhdr in
          nvm_free_obj ahs ;;;
          free_act_vhdr p_act_vhdr ;;;
          cleanup_loop n' until_clk (i + 1) first
        else
          let* fs' := lift (ptrset_store fs first p_act_vhdr) in
          mod_self (fun t => t <| ckpt_free_set := fs' |>) ;;;
          cleanup_loop n' until_clk (i + 1) (first + 1)
      else ret first
  end.

Definition ckptlog_cleanup (until_clk : Z) : M st unit :=
  let* n := self! ckptlog in
  let* fs := self! ckpt_free_set in
  if negb (n_free_set n) || bool_decide (ptrs fs = None) then ret tt
  else
    let* first := cleanup_loop (S (Z.to_nat (num_ptrs fs))) until_clk 0 0 in
    mod_self (fun t => t <| ckpt_free_set ::= (fun p => p <| num_ptrs := first |>) |>).

Definition ckptlog_destroy : M st unit :=
  let* n := self! ckptlog in
  when (n_free_set n) (ckptlog_cleanup MAX_VERSION) ;;;
  log_destroy CKPTLOG.

(** an iteration dequeues an entry, and a log has at most one per cache line *)
Definition ckptlog_fuel : M st nat :=
  let* used := ckptlog_used in ret (S (S (Z.to_nat (used / TS_CACHE_LINE_SIZE)))).

(** a dropped entry that is a tombstone: its object waits in the free set *)
Definition collect_free (c : ts_ckpt_entry_hdr) : M st unit :=
  if negb (tombstone c =? 0) then
    let* p_act_vhdr := get_vact_vhdr (ce_np_org_act c) in
    set_push CKPT_FREE_SET p_act_vhdr ;;; ret tt
  else ret tt.

(** first loop of [ckptlog_reclaim_x]: reclaim [head, prev_head).  Answers the
    entry it stopped at, or NULL. *)
Definition ckpt_reclaim_round (prev_head_cnt : Z) (_ : unit) : M st (unit + Z) :=
  let* ent := ckptlog_peek_head in
  if ent =? NULL then ret (inr NULL)
  else
    let* head := ckptlog_head in
    if head =? prev_head_cnt then ret (inr ent)
    else
      let* ' (_, c) := get_ckpt_entry ent in
      collect_free c ;;;
      ckptlog_deq ;;;
      ret (inl tt).
Definition ckpt_reclaim_loop (prev_head_cnt : Z) : M st Z :=
  let* n := ckptlog_fuel in loop n (ckpt_reclaim_round prev_head_cnt) tt.

(** the current master [ent] is copied to the original object, which becomes
    the current master again *)
Definition write_back (p_act_vhdr : Z) (v : ts_act_vhdr) (ent size : Z) : M st unit :=
  memcpy_obj (np_org_act v) (ckpt_ent_obj ent) size ;;;
  mod_sh (fun h => h <| sh_pm ::= memcpy_to_nvm_lines (np_org_act v) size |>) ;;;
  put_vhdr p_act_vhdr (fun v => v <| np_cur_act := np_org_act v |>).

(** second loop: write back up to [wb_limit_clk].  Answers the bytes written. *)
Definition ckpt_writeback_round (wb_limit_clk watermark writeback_bytes : Z) : M st (Z + Z) :=
  let* ent := ckptlog_peek_head in
  if ent =? NULL then ret (inr writeback_bytes)
  else
    let* ' (_, c) := get_ckpt_entry ent in
    if gt_clock (ckpt_s_clk c) wb_limit_clk then ret (inr writeback_bytes)
    else
      let* p_act_vhdr := get_vact_vhdr (ce_np_org_act c) in
      let* v := get_vhdr p_act_vhdr in
      if (np_cur_act v =? ckpt_ent_obj ent) && (tombstone c =? 0) then
        let* used := ckptlog_used in
        if used <? watermark then ret (inr writeback_bytes)
        else
          let size := obj_size (ce_hdr c) in
          write_back p_act_vhdr v ent size ;;;
          ckptlog_deq ;;;
          ret (inl (u64 (writeback_bytes + size)))
      else
        ckptlog_deq ;;;
        ret (inl writeback_bytes).
Definition ckpt_writeback_loop (wb_limit_clk watermark : Z) : M st Z :=
  let* n := ckptlog_fuel in loop n (ckpt_writeback_round wb_limit_clk watermark) 0.

(** the checkpoint clock of the oldest entry that is left *)
Definition note_reclaimed_clk (ent : Z) : M st unit :=
  if negb (ent =? NULL) then
    let* ' (_, c) := get_ckpt_entry ent in
    mod_self (fun t => t <| clks ::= (fun k => k <| __min_ckpt_reclaimed := ckpt_s_clk c |>) |>)
  else ret tt.

(** the end of [ckptlog_reclaim_x], from where the write-back is done *)
Definition ckptlog_reclaim_finish (old_head_cnt new_head_cnt writeback_bytes : Z) : M st bool :=
  mod_log CKPTLOG (fun n => n <| n_prev_head_cnt := n_head_cnt n |>) ;;;
  mod_log CKPTLOG (fun n => n <| n_head_cnt := new_head_cnt |>) ;;;
  when (negb (new_head_cnt =? old_head_cnt))
    (ckptlog_deq_persist ;;;
     stat_thread_acc n_ckptlog_reclaimed_bytes (u64 (new_head_cnt - old_head_cnt))) ;;;
  stat_thread_acc n_ckptlog_writeback_bytes writeback_bytes ;;;
  mod_self (fun t => t <| reclaim ::= (fun r => r <| r_ckptlog := 0 |>) |>) ;;;
  unlock_log CKPTLOG ;;;
  ret true.

Definition ckptlog_reclaim_x (watermark : Z) : M st bool :=
  st_wmb ;;;
  let* need := ckptlog_need_reclaim in
  if need =? 0 then ret false
  else
    let* ok := try_lock_log CKPTLOG in
    if negb ok then ret false
    else
      let* old_head_cnt := ckptlog_head in
      let* wb_limit_clk := asks (fun s => __qp2 (clks (self s))) in
      let* prev_head_cnt := asks (fun s => n_prev_head_cnt (ckptlog (self s))) in
      let* ent := ckpt_reclaim_loop prev_head_cnt in
      note_reclaimed_clk ent ;;;
      let* new_head_cnt := ckptlog_head in
      let* writeback_bytes := ckpt_writeback_loop wb_limit_clk watermark in
      ckptlog_reclaim_finish old_head_cnt new_head_cnt writeback_bytes.

Definition ckptlog_reclaim : M st unit :=
  let* need := ckptlog_need_reclaim in
  let* log_size := asks (fun s => n_log_size (ckptlog (self s))) in
  if need =? RECLAIM_CKPTLOG_BEST_EFFORT then
    let* r := ckptlog_reclaim_x (u64 (log_size + 1)) in
    when r (stat_thread_inc n_ckptlog_best_effort)
  else if need =? RECLAIM_CKPTLOG_WRITEBACK then
    let* r := ckptlog_reclaim_x TS_CKPTLOG_LOW_MARK in
    when r (stat_thread_inc n_ckptlog_writeback)
  else if need =? RECLAIM_CKPTLOG_WRITEBACK_ALL then
    let* r := ckptlog_reclaim_x 0 in
    when r (stat_thread_inc n_ckptlog_writeback)
  else ret tt.

(** [do { yield; every 1000 rounds request again; } while (!need_reclaim);] *)
Definition ckptlog_flush_wait : M st unit :=
  loop spin_bound (fun count : Z =>
    interfere ;;;
    let count := count + 1 in
    let* count := (if count =? 1000 then
                     request_ckptlog_reclaim RECLAIM_CKPTLOG_WRITEBACK_ALL ;;; ret 0
                   else ret count) in
    let* need := ckptlog_need_reclaim in
    if need =? 0 then ret (inl count) else ret (inr tt)) 0.

Definition ckptlog_flush : M st unit :=
  let* need := ckptlog_need_reclaim in
  when (negb (need =? 0)) ckptlog_reclaim ;;;
  loop spin_bound (fun _ : unit =>
    let* n := self! ckptlog in
    if n_head_cnt n =? n_tail_cnt n then ret (inr tt)
    else
      request_ckptlog_reclaim RECLAIM_CKPTLOG_WRITEBACK_ALL ;;;
      ckptlog_flush_wait ;;;
      ckptlog_reclaim ;;;
      ret (inl tt)) tt.

End Ckptlog.

(** * Facts: checkpointing an object *)

Section CkptFacts.
Context `{Env}.

Lemma memcpy_obj_run dst src size s b :
  obj_data (sh s) !! src = Some b ->
  memcpy_obj dst src size s = Ok (tt, s <| sh ::= (fun h => h <| obj_data ::= (fun d =>
    <[dst := take (Z.to_nat size) b ++ drop (Z.to_nat size) (default [] (d !! dst))]> d) |>) |>).
Proof. intros E. unfold memcpy_obj. msteps. rewrite E. by msteps. Qed.

(** the entry that checkpoints version [c] of the object with header [v] *)
Definition ckpt_entry (wrt_clk ckpt_s : Z) (c : ts_cpy_hdr_struct) (v : ts_act_vhdr) : ts_nvlog_entry :=
  mk_nvlog_entry wrt_clk (entry_size_of (sizeof_ckpt_entry_hdr + sizeof_obj_hdr + obj_size (c_hdr c)))
    TYPE_ACTUAL (EB_ckpt (mk_ckpt_entry_hdr ckpt_s (np_org_act v)
      (Z.b2z (bool_decide (o_type (c_hdr c) = TYPE_FREE)))
      (mk_obj_hdr (obj_size (c_hdr c)) 0 TYPE_NVLOG_ENTRY STATUS_NONE))).

Lemma holds_data L s k q f : holds L s k q ->
  holds L (s <| sh ::= (fun h => h <| obj_data ::= f |>) |>) k q.
Proof. done. Qed.

(** [s'] differs from [s] only by the caller's checkpoint log, its store and the
    NVM *)
Definition only_ckptlog (s s' : st) : Prop :=
  self s' = (self s) <| ckptlog := ckptlog (self s') |> /\
  sh s' = (sh s) <| stores := stores (sh s') |> <| sh_pm := sh_pm (sh s') |>.

Lemma only_ckptlog_trans s1 s2 s3 : only_ckptlog s1 s2 -> only_ckptlog s2 s3 -> only_ckptlog s1 s3.
Proof. intros [A1 A2] [B1 B2]. split; [by rewrite B1, A1 | by rewrite B2, A2]. Qed.

Lemma ckptlog_step_only r s : only_ckptlog s (log_step CKPTLOG s r).
Proof. split; [| done]. cbn. by destruct (self s). Qed.

(** the bytes that a checkpoint of [c] takes in the log, its count and address *)
Definition ckpt_size (c : ts_cpy_hdr_struct) : Z := sizeof_ckpt_entry_hdr + sizeof_obj_hdr + obj_size (c_hdr c).
Definition ckpt_count (n : ts_nvlog) (k : Z) (c : ts_cpy_hdr_struct) : Z := enq_count n k (ckpt_size c).
Definition ckpt_addr (n : ts_nvlog) (k : Z) (c : ts_cpy_hdr_struct) : Z := nvlog_at n (ckpt_count n k c).
Definition is_free (c : ts_cpy_hdr_struct) : bool := bool_decide (o_type (c_hdr c) = TYPE_FREE).

(** [_ckptlog_enq], when its entry fits, appends the entry; what is left is to
    copy the object's bytes and to make the entry the current master *)
Lemma ckptlog_enq_run s k q wrt_clk ckpt_s obj c v :
  let a := ckpt_addr (ckptlog (self s)) k c in
  holds CKPTLOG s k q -> heap (sh s) !! obj = Some (CCpy c) ->
  vhdrs (sh s) !! c_act_vhdr (cpy_hdr c) = Some v ->
  0 <= obj_size (c_hdr c) < 2 ^ 30 -> has_room (ckptlog (self s)) k (ckpt_size c) ->
  exists s2 r, _ckptlog_enq wrt_clk ckpt_s obj s =
      (when (negb (is_free c))
         (memcpy_obj (ckpt_ent_obj a) obj (obj_size (c_hdr c)) ;;; st_dirty (ckpt_ent_obj a) (obj_size (c_hdr c))) ;;;
       put_vhdr (c_act_vhdr (cpy_hdr c)) (fun v => v <| np_cur_act := ckpt_ent_obj a |>) ;;;
       ret a) s2 /\
    a <> NULL /\ only_ckptlog s s2 /\ log_of CKPTLOG s2 = Some r /\
    log_holds r k (q ++ [(ckpt_count (ckptlog (self s)) k c, ckpt_entry wrt_clk ckpt_s c v)]) /\
    forall r0, log_of CKPTLOG s = Some r0 ->
      enqueued r0 r (ckpt_count (ckptlog (self s)) k c + entry_size_of (ckpt_size c)).
Proof.
  intros a Hs Hc Hv Hsz Hroom. unfold _ckptlog_enq. mrun (get_chs_run s obj c Hc). unfold ckpt_size in Hroom.
  rewrite u32_small by (unfold sizeof_ckpt_entry_hdr, sizeof_obj_hdr; lia).
  destruct (holds_enq CKPTLOG s k q _ Hs Hroom) as (r & E & Hne & Hr & Hat & Hh & Hf).
  fold (ckpt_size c) in E, Hne, Hr, Hat, Hh, Hf. change (sel_get CKPTLOG (self s)) with (ckptlog (self s)) in *.
  fold (ckpt_count (ckptlog (self s)) k c) in *. set (cnt := ckpt_count _ _ _) in *.
  fold (ckpt_addr (ckptlog (self s)) k c) in E, Hne, Hat. fold a in E, Hne, Hat. fold (ckpt_size c). mrun E. fold (is_free c).
  mrun (get_vhdr_run (log_step CKPTLOG s r) _ v Hv).
  destruct (holds_fill r k q cnt _ 0 8 (fun e => e <| e_wrt_clk := wrt_clk |>) sizeof_nvlog_entry_hdr
    (sizeof_ckpt_entry_hdr + sizeof_obj_hdr) (fun e => e <| e_body := EB_ckpt (mk_ckpt_entry_hdr ckpt_s (np_org_act v)
      (Z.b2z (is_free c)) (mk_obj_hdr (obj_size (c_hdr c)) 0 TYPE_NVLOG_ENTRY STATUS_NONE)) |>) Hh)
    as (r' & E' & Hn & Hst & Hh' & Hc'); [done | done |].
  rewrite Hat in E'.
  pose proof (with_log_run (L := CKPTLOG) _ _ _ _ _ Hr E') as E2. unfold fill_ckpt_entry. mrun E2.
  do 2 eexists. split; [reflexivity |]. split; [done |].
  split; [apply (only_ckptlog_trans _ _ _ (ckptlog_step_only r s)), ckptlog_step_only |].
  split; [by apply (log_of_step _ r); [| rewrite Hn] |]. split; [exact Hh' |].
  intros r0 Hr0. apply (enqueued_fill _ r); auto.
Qed.

(** what both calls do: the new entry is [a], which is the current master *)
Record checkpointed (s : st) (k : Z) (q : entries) (c : ts_cpy_hdr_struct) (v : ts_act_vhdr) (e : ts_nvlog_entry)
    (a : Z) (s' : st) : Prop := {
  cp_fresh : a <> NULL;
  cp_log : holds CKPTLOG s' k (q ++ [(ckpt_count (ckptlog (self s)) k c, e)]);
  cp_heap : heap (sh s') = heap (sh s);
  cp_master : vhdrs (sh s') = <[c_act_vhdr (cpy_hdr c) := v <| np_cur_act := ckpt_ent_obj a |>]> (vhdrs (sh s));
  cp_data : forall o, o <> ckpt_ent_obj a -> obj_data (sh s') !! o = obj_data (sh s) !! o }.

(** the entry of a checkpoint that starts at [ckpt_s], of a version with clock
    [wrt_clk] of an object of [size] bytes with the original [org] *)
Definition checkpoint_entry (wrt_clk ckpt_s org tomb size : Z) : ts_nvlog_entry :=
  mk_nvlog_entry wrt_clk (entry_size_of (sizeof_ckpt_entry_hdr + sizeof_obj_hdr + size)) TYPE_ACTUAL
    (EB_ckpt (mk_ckpt_entry_hdr ckpt_s org tomb (mk_obj_hdr size 0 TYPE_NVLOG_ENTRY STATUS_NONE))).

End CkptFacts.

(** * Facts: freeing the objects whose tombstone is old *)

Section CleanupFacts.
Context `{Env} (until_clk : Z).

(** the object of header [p] is freed *)
Definition dead (m : gmap Z ts_act_vhdr) (p : Z) : bool :=
  match m !! p with Some v => lt_clock (tombstone_clk v) until_clk | None => false end.

Definition ps_slots (s : st) : list (option Z) := default [] (ptrs (ckpt_free_set (self s))).

Definition org_of (m : gmap Z ts_act_vhdr) (p : Z) : Z := default NULL (np_org_act <$> m !! p).
Definition dead_of (m : gmap Z ts_act_vhdr) (l : list Z) : list Z := List.filter (dead m) l.
Definition kept_of (m : gmap Z ts_act_vhdr) (l : list Z) : list Z := List.filter (fun p => negb (dead m p)) l.

(** [cleanup_loop] with [before] done and [rest] to do: the kept pointers are
    compacted to the front, the dead ones are freed *)
Record cleaning (s0 : st) (before rest : list Z) (s : st) : Prop := {
  cl_num : num_ptrs (ckpt_free_set (self s)) = Z.of_nat (length (before ++ rest));
  cl_kept : exists k tail, ptrs (ckpt_free_set (self s)) =
      Some ((Some <$> kept_of (vhdrs (sh s0)) before) ++ k ++ (Some <$> rest) ++ tail) /\
      (length (kept_of (vhdrs (sh s0)) before) + length k = length before)%nat;
  cl_vhdrs : vhdrs (sh s) = foldr delete (vhdrs (sh s0)) (dead_of (vhdrs (sh s0)) before);
  cl_heap : heap (sh s) = foldr delete (heap (sh s0)) (org_of (vhdrs (sh s0)) <$> dead_of (vhdrs (sh s0)) before) }.

Lemma foldr_delete_snoc {A} (m : gmap Z A) l p : foldr delete m (l ++ [p]) = delete p (foldr delete m l).
Proof.
  rewrite foldr_app. cbn. induction l as [| x l IH]; cbn; [done |]. rewrite IH. apply delete_delete.
Qed.

Lemma foldr_delete_lookup {A} (m : gmap Z A) l p : p ∉ l -> foldr delete m l !! p = m !! p.
Proof.
  induction l as [| x l IH]; cbn; [done |]. intros [Hx Hl]%not_elem_of_cons.
  rewrite lookup_delete_ne by done. by apply IH.
Qed.

Lemma filter_elem (f : Z -> bool) l p : p ∈ List.filter f l <-> p ∈ l /\ f p = true.
Proof. by rewrite !list_elem_of_In, List.filter_In. Qed.

Lemma kept_snoc m l p : kept_of m (l ++ [p]) = kept_of m l ++ (if dead m p then [] else [p]).
Proof. unfold kept_of. rewrite List.filter_app. cbn. by destruct (dead m p). Qed.
Lemma dead_snoc m l p : dead_of m (l ++ [p]) = dead_of m l ++ (if dead m p then [p] else []).
Proof. unfold dead_of. rewrite List.filter_app. cbn. by destruct (dead m p). Qed.

Lemma cleaning_step s0 before p rest s v n :
  cleaning s0 before (p :: rest) s -> NoDup (before ++ p :: rest) -> vhdrs (sh s0) !! p = Some v ->
  exists s', cleanup_loop (S n) until_clk (Z.of_nat (length before)) (Z.of_nat (length (kept_of (vhdrs (sh s0)) before))) s
    = cleanup_loop n until_clk (Z.of_nat (length (before ++ [p])))
        (Z.of_nat (length (kept_of (vhdrs (sh s0)) (before ++ [p])))) s' /\
    cleaning s0 (before ++ [p]) rest s' /\ ckptlog (self s') = ckptlog (self s).
Proof.
  intros [Hnum (k & tail & Hps & Hk) Hv Hh] Hnd Hp. cbn [cleanup_loop]. msteps.
  set (m0 := vhdrs (sh s0)) in *. set (nk := length (kept_of m0 before)) in *.
  rewrite Hnum, (proj2 (Z.ltb_lt _ _)) by (rewrite length_app; cbn; lia).
  assert (Hpb : p ∉ dead_of m0 before).
  { apply NoDup_app in Hnd as (_ & Hd & _). intros [Hin _]%filter_elem. apply (Hd p Hin). by left. }
  assert (Hload : ptrset_load (ckpt_free_set (self s)) (Z.of_nat (length before)) = Ok p).
  { unfold ptrset_load. rewrite Hps, (proj2 (Z.leb_le 0 _)), Nat2Z.id by lia.
    rewrite app_assoc, lookup_app_r by (rewrite length_app, length_fmap; fold nk; lia).
    rewrite length_app, length_fmap. fold nk. replace (length before - (nk + length k))%nat with 0%nat by lia. done. }
  rewrite Hload. cbn [lift]. msteps.
  assert (Hv1 : vhdrs (sh s) !! p = Some v) by (by rewrite Hv, foldr_delete_lookup).
  mrun (get_vhdr_run s p v Hv1). replace (Z.of_nat (length before) + 1) with (Z.of_nat (length (before ++ [p]))) by (rewrite length_app; cbn; lia).
  assert (Hdead : dead m0 p = lt_clock (tombstone_clk v) until_clk) by (unfold dead; by rewrite Hp).
  assert (Eapp : before ++ p :: rest = (before ++ [p]) ++ rest) by (by rewrite <- app_assoc).
  pose proof (kept_snoc m0 before p) as Hks. pose proof (dead_snoc m0 before p) as Hds. rewrite Hdead in Hks, Hds.
  destruct (lt_clock (tombstone_clk v) until_clk) eqn:Ed.
  - unfold get_org_ahs. rewrite bind_assoc. mrun (get_vhdr_run s p v Hv1).
    unfold nvm_free_obj, free_act_vhdr, note_free, mod_sh. msteps. rewrite app_nil_r in Hks. rewrite Hks. fold nk.
    eexists. split; [reflexivity |]. split; [| done]. rewrite Eapp in Hnum. split; cbn; fold m0; rewrite ?Hks, ?Hds; try done.
    + exists (k ++ [Some p]), tail. rewrite Hps, <- !app_assoc. split; [done |]. rewrite !length_app. cbn. fold nk. lia.
    + rewrite foldr_delete_snoc. f_equal. exact Hv.
    + rewrite fmap_app. cbn. rewrite foldr_delete_snoc. unfold org_of at 1. rewrite Hp. cbn. f_equal. exact Hh.
  - set (slots := _ ++ k ++ _) in Hps.
    assert (Hlen : (nk < length slots)%nat).
    { unfold slots. rewrite !length_app, !length_fmap. fold nk. cbn. lia. }
    unfold ptrset_store. rewrite Hps, (proj2 (Z.leb_le 0 _)), (proj2 (Z.ltb_lt _ _)) by lia. cbn [andb lift].
    rewrite Nat2Z.id. unfold mod_self. msteps. rewrite Hks, (length_app (kept_of m0 before)). cbn [length]. fold nk.
    replace (Z.of_nat nk + 1) with (Z.of_nat (nk + 1)) by lia.
    eexists. split; [reflexivity |]. split; [| done]. rewrite Eapp in Hnum. split; cbn; fold m0; rewrite ?Hks, ?Hds, ?app_nil_r; try done.
    destruct (k ++ [Some p]) as [| x k'] eqn:Ek; [by destruct k |]. exists k', tail. split.
    + f_equal. unfold slots. rewrite (fmap_cons Some p rest). cbn [app].
      change (Some p :: (Some <$> rest) ++ tail) with ([Some p] ++ (Some <$> rest) ++ tail).
      rewrite (app_assoc k [Some p]), Ek. replace nk with (length (Some <$> kept_of m0 before) + 0)%nat by (rewrite length_fmap; fold nk; lia).
      rewrite insert_app_r. cbn. rewrite fmap_app, <- app_assoc. done.
    + rewrite !length_app. cbn. fold nk. apply (f_equal length) in Ek. rewrite length_app in Ek. cbn in Ek. lia.
Qed.

Lemma cleanup_loop_run s0 rest : forall before s n,
  cleaning s0 before rest s -> NoDup (before ++ rest) -> (length rest < n)%nat ->
  (forall p, p ∈ before ++ rest -> is_Some (vhdrs (sh s0) !! p)) ->
  exists s', cleanup_loop n until_clk (Z.of_nat (length before)) (Z.of_nat (length (kept_of (vhdrs (sh s0)) before))) s
    = Ok (Z.of_nat (length (kept_of (vhdrs (sh s0)) (before ++ rest))), s') /\
    cleaning s0 (before ++ rest) [] s' /\ ckptlog (self s') = ckptlog (self s).
Proof.
  induction rest as [| p rest IH]; intros before s n Hc Hnd Hn Hm; (destruct n as [| n]; [cbn in Hn; lia |]).
  - exists s. rewrite app_nil_r. split; [| done]. cbn [cleanup_loop]. msteps.
    rewrite (cl_num _ _ _ _ Hc), app_nil_r. by rewrite Z.ltb_irrefl.
  - destruct (Hm p ltac:(elems)) as [v Hv].
    destruct (cleaning_step s0 before p rest s v n Hc Hnd Hv) as (s1 & -> & Hc1 & Hl1).
    rewrite cons_middle, app_assoc in Hnd, Hm.
    destruct (IH (before ++ [p]) s1 n Hc1 Hnd ltac:(cbn in Hn; lia) Hm) as (s2 & E & Hc2 & Hl2).
    rewrite <- app_assoc in E, Hc2. exists s2. split; [exact E |]. split; [done | congruence].
Qed.

(** C25. [ckptlog_cleanup] frees exactly the objects of the free set whose
    tombstone is older than the given clock, each with its volatile header, and
    keeps the others in the set, in order. *)
Theorem ckptlog_cleanup_partition s l :
  ptrset_wf (ckpt_free_set (self s)) -> ptrset_elems (ckpt_free_set (self s)) = l ->
  n_free_set (ckptlog (self s)) = true -> NoDup l -> (forall p, p ∈ l -> is_Some (vhdrs (sh s) !! p)) ->
  exists s', ckptlog_cleanup until_clk s = Ok (tt, s') /\
    ptrset_elems (ckpt_free_set (self s')) = kept_of (vhdrs (sh s)) l /\
    vhdrs (sh s') = foldr delete (vhdrs (sh s)) (dead_of (vhdrs (sh s)) l) /\
    heap (sh s') = foldr delete (heap (sh s)) (org_of (vhdrs (sh s)) <$> dead_of (vhdrs (sh s)) l).
Proof.
  intros (slots & Hps & Hmax & Hnum & _ & Hf) Hl Hfs Hnd Hm. unfold ckptlog_cleanup. msteps. rewrite Hfs, Hps. cbn [negb orb].
  rewrite bool_decide_eq_false_2 by done. msteps.
  assert (El : take (Z.to_nat (num_ptrs (ckpt_free_set (self s)))) slots = Some <$> l).
  { rewrite <- Hl. unfold ptrset_elems. rewrite Hps. cbn. revert Hf. generalize (take (Z.to_nat (num_ptrs (ckpt_free_set (self s)))) slots).
    intros xs. induction 1 as [| x xs [y ->] _ IH]; [done |]. cbn. by f_equal. }
  assert (Elen : Z.of_nat (length l) = num_ptrs (ckpt_free_set (self s))).
  { apply (f_equal length) in El. rewrite length_take, length_fmap in El. lia. }
  assert (Hc : cleaning s [] l s).
  { split; try done. exists [], (drop (length l) slots). cbn. split; [| done]. rewrite Hps. f_equal.
    rewrite <- El, <- Elen, Nat2Z.id. by rewrite take_drop. }
  destruct (cleanup_loop_run s l [] s (S (Z.to_nat (num_ptrs (ckpt_free_set (self s))))) Hc Hnd ltac:(lia) Hm)
    as (s' & E & [Hn' (k & tail & Hp' & _) Hv Hh] & _). cbn [app length] in *. mrun E.
  unfold mod_self, modify. eexists. split; [reflexivity |]. split; [| done].
  unfold ptrset_elems. cbn. rewrite Hp'. cbn. rewrite Nat2Z.id, take_app_length' by (by rewrite length_fmap).
  clear. induction (kept_of (vhdrs (sh s)) l) as [| x xs IH]; [done |]. cbn. by f_equal.
Qed.
End CleanupFacts.

(** * Examples: the copy at 1048704 of the object at 300000 is checkpointed *)

Definition ex_ckpt_copy : ts_cpy_hdr_struct :=
  mk_chs (mk_cpy_hdr 1048640 800 MIN_VERSION MAX_VERSION NULL 400) (mk_obj_hdr 8 56 TYPE_COPY STATUS_NONE).
Definition ex_ckpt : st := ex_oplog <| sh ::= (fun h => h
  <| heap := {[ 1048704 := CCpy ex_ckpt_copy ]} |>
  <| vhdrs := {[ 400 := mk_act_vhdr 1048704 NULL 300000 300000 MAX_VERSION ]} |>
  <| obj_data := {[ 1048704 := [1; 2; 3; 4; 5; 6; 7; 8] ]} |>) |>.


Definition ex_free_set : st := ex_ckpt
  <| self ::= (fun t => t <| ckpt_free_set := mk_ptr_set 2 2 (Some (Some <$> [400; 500])) |>
                          <| ckptlog ::= (fun n => n <| n_free_set := true |>) |>) |>
  <| sh ::= (fun h => h <| vhdrs ::= (fun m => <[400 := mk_act_vhdr NULL NULL 300000 300000 70]>
                                     (<[500 := mk_act_vhdr NULL NULL 310000 310000 90]> m)) |>) |>.

Lemma ckptlog_cleanup_partition_witness :
  exists s', ckptlog_cleanup 80 ex_free_set = Ok (tt, s') /\ ptrset_elems (ckpt_free_set (self s')) = [500].
Proof.
  destruct (ckptlog_cleanup_partition 80 ex_free_set [400; 500]) as (s' & E & H & _).
  - exists (Some <$> [400; 500]). split; [done |]. split; [done |]. split; [by vm_compute |].
    split; [by vm_compute |]. repeat constructor; by eexists.
  - by vm_compute.
  - done.
  - repeat constructor; set_solver.
  - intros p [-> | ->%list_elem_of_singleton]%elem_of_cons; by eexists.
  - exists s'. split; [exact E |]. rewrite H. by vm_compute.
Defined.
