(* ===== verification/Tvlog.v ===== *)
(** The transient version log on DRAM: [lib/tvlog.c], [lib/tvlog.h].

    A write set is a header entry followed by the copies a transaction locked;
    commit moves the copies to the version chains of their objects, reclamation
    walks write sets from the oldest. *)
From S2P Require Export Ckptlog.

Section Tvlog.
Context `{Env}.

(** * Positions *)

Definition tvlog_index (cnt : Z) : Z := u32 (Z.land cnt (lnot64 TS_TVLOG_MASK)).
Definition tvlog_at (t : ts_tvlog) (cnt : Z) : Z := t_buffer t + tvlog_index cnt.
(** the object of the entry at [cnt]: it follows the entry's headers *)
Definition tvlog_obj (t : ts_tvlog) (cnt : Z) : Z := tvlog_at t cnt + sizeof_cpy_hdr_struct.
Definition tvlog_used (t : ts_tvlog) : Z := u64 (t_tail_cnt t - t_head_cnt t).

Definition mod_tvlog (f : ts_tvlog -> ts_tvlog) : M st unit := mod_self (fun t => t <| tvlog ::= f |>).

(** * Allocation *)

Definition add_extra_padding (t : ts_tvlog) (tvlog_size extra_size : Z) (bogus : bool) : Z :=
  let extra_size := align_uint_to_cacheline (u32 (extra_size + sizeof_cpy_hdr_struct)) in
  if negb bogus && (tvlog_index (u64 (t_tail_cnt t + tvlog_size + extra_size)) <?
                    tvlog_index (t_tail_cnt t)) then
    u32 (TS_TVLOG_SIZE - tvlog_index (u64 (t_tail_cnt t + tvlog_size)))
  else 0.

(** [memset(chs, 0, sizeof( *chs))] *)
Definition zero_chs : ts_cpy_hdr_struct :=
  mk_chs (mk_cpy_hdr NULL 0 0 0 NULL NULL) (mk_obj_hdr 0 0 TYPE_ACTUAL STATUS_NONE).

Definition write_chs (obj : Z) (c : ts_cpy_hdr_struct) : M st unit :=
  mod_sh (fun h => h <| heap ::= (fun m => <[obj := CCpy c]> m) |>).

(** [padding_size] is an [unsigned short] *)
Definition tvlog_put_bogus : M st unit :=
  let* t := self! tvlog in
  let bogus_size := u32 (TS_TVLOG_SIZE - tvlog_index (t_tail_cnt t)) in
  write_chs (tvlog_obj t (t_tail_cnt t))
    (zero_chs <| c_hdr ::= (fun h => h <| padding_size := u16 bogus_size |> <| o_type := TYPE_BOGUS |>) |>) ;;;
  mod_tvlog (fun t => t <| t_tail_cnt := u64 (t_tail_cnt t + bogus_size) |>).

(** [tvlog_alloc]: the object of the new entry, and the value of [*bogus] *)
Definition tvlog_alloc (size : Z) (bogus : bool) : M st (Z * bool) :=
  let entry_size := align_uint_to_cacheline (u32 (size + sizeof_cpy_hdr_struct)) in
  let* t := self! tvlog in
  let wraps := tvlog_index (u64 (t_tail_cnt t + entry_size)) <? tvlog_index (t_tail_cnt t) in
  when wraps tvlog_put_bogus ;;;
  let bogus := bogus || wraps in
  let* t := self! tvlog in
  let extra_pad := add_extra_padding t entry_size sizeof_wrt_set_struct bogus in
  let entry_size := u32 (entry_size + extra_pad) in
  let obj := tvlog_obj t (t_tail_cnt t) in
  write_chs obj
    (zero_chs <| cpy_hdr ::= (fun c => c <| __wrt_clk := MAX_VERSION |>) |>
              <| c_hdr ::= (fun h => h <| obj_size := size |>
                                       <| padding_size := u16 (entry_size - size) |>) |>) ;;;
  ret (obj, bogus).

(** a new write set at the tail of the log *)
Definition append_wrt_set : M st bool :=
  let* ' (ws, bogus) := tvlog_alloc sizeof_wrt_set false in
  put_chs ws (fun c => c <| cpy_hdr ::= (fun h => h <| p_ws := ws |>) |>
                         <| c_hdr ::= (fun h => h <| o_type := TYPE_WRT_SET |>) |>) ;;;
  let* me := self! self_ptr in
  let* t := self! tvlog in
  mod_sh (fun h => h <| wrt_sets ::= (fun m =>
    <[ws := mk_wrt_set MAX_VERSION MAX_VERSION 0 (t_tail_cnt t) me]> m) |>) ;;;
  mod_tvlog (fun t => t <| cur_wrt_set := ws |>) ;;;
  let* c := get_chs ws in
  mod_tvlog (fun t => t <| t_tail_cnt := u64 (t_tail_cnt t + get_entry_size c) |>) ;;;
  ret bogus.

Definition tvlog_append_begin (p_act_vhdr size : Z) : M st (Z * bool) :=
  let* t := self! tvlog in
  let* bogus := (if cur_wrt_set t =? NULL then append_wrt_set else ret false) in
  let* ' (obj, bogus) := tvlog_alloc size bogus in
  let* ws := asks (fun s => cur_wrt_set (tvlog (self s))) in
  put_chs obj (fun c => c <| cpy_hdr ::= (fun h => h <| p_ws := ws |> <| c_act_vhdr := p_act_vhdr |>) |>
                          <| c_hdr ::= (fun h => h <| o_type := TYPE_COPY |>) |>) ;;;
  let* c := get_chs obj in
  stat_thread_acc n_tvlog_cpobj_written_bytes (get_entry_size c) ;;;
  ret (obj, bogus).

Definition tvlog_append_abort (obj : Z) : M st unit := ret tt.

Definition tvlog_append_end (obj : Z) (bogus_allocated : bool) : M st unit :=
  let* c := get_chs obj in
  mod_tvlog (fun t => t <| t_tail_cnt := u64 (t_tail_cnt t + get_entry_size c) |>) ;;;
  let* ws := asks (fun s => cur_wrt_set (tvlog (self s))) in
  put_ws ws (fun w => w <| num_objs := u32 (num_objs w + 1) |>) ;;;
  when bogus_allocated (put_ws ws (fun w => w <| num_objs := u32 (num_objs w + 1) |>)) ;;;
  let* t := self! tvlog in
  stat_thread_asgn n_tvlog_written_bytes (t_tail_cnt t).

(** * Walking a write set *)

Definition ws_iter_begin (ws : Z) : M st Z :=
  let* c := get_chs ws in
  let* w := get_ws ws in
  ret (u64 (start_tail_cnt w + get_entry_size c)).
Definition ws_iter_next (iter : Z) (c : ts_cpy_hdr_struct) : Z := u64 (iter + get_entry_size c).

(** [ws_for_each(tvlog, ws, i, cnt) body]: the body gets the object of the entry
    and an accumulator, and goes on with [inl] or leaves the loop with [inr];
    a loop that runs to its end answers the final [cnt] *)
Definition ws_for_each {A B} (ws : Z) (body : Z -> A -> M st (A + B)) (a : A) : M st (Z * A + B) :=
  let* w := get_ws ws in
  let* cnt := ws_iter_begin ws in
  loop (S (Z.to_nat (num_objs w))) (fun '(i, cnt, a) =>
    let* w := get_ws ws in
    if i <? num_objs w then
      let* t := self! tvlog in
      let obj := tvlog_obj t cnt in
      let* r := body obj a in
      match r with
      | inl a' =>
          let* c := get_chs obj in
          ret (inl (u32 (i + 1), ws_iter_next cnt c, a'))
      | inr b => ret (inr (inr b))
      end
    else ret (inr (inl (cnt, a)))) (0, cnt, a).

(** a walk that is never left early and accumulates nothing *)
Definition ws_iter (ws : Z) (body : Z -> M st unit) : M st unit :=
  let* _ := ws_for_each (B := Empty_set) ws (fun obj _ => body obj ;;; ret (inl tt)) tt in
  ret tt.

(** * Commit and abort *)

(** one round of the loop that inserts the copy at [obj] at the head of the
    version chain, in front of [p_old_copy] *)
Definition insert_version_round (p_act_vhdr obj p_old_copy : Z) : M st (Z + unit) :=
  put_chs obj (fun c => c <| cpy_hdr ::= (fun h => h <| c_copy := p_old_copy |>) |>) ;;;
  (if p_old_copy =? NULL then
     put_chs obj (fun c => c <| cpy_hdr ::= (fun h => h <| wrt_clk_next := MIN_VERSION |>) |>)
   else
     let* old := get_chs p_old_copy in
     put_chs obj (fun c => c <| cpy_hdr ::= (fun h => h <| wrt_clk_next := get_raw_wrt_clk old |>) |>)) ;;;
  let* ok := smp_cas (let* v := get_vhdr p_act_vhdr in ret (v_copy v))
               (fun x => put_vhdr p_act_vhdr (fun v => v <| v_copy := x |>)) p_old_copy obj in
  if ok then ret (inr tt)
  else let* v := get_vhdr p_act_vhdr in ret (inl (v_copy v)).

Definition insert_version (p_act_vhdr obj : Z) : M st unit :=
  let* v := get_vhdr p_act_vhdr in
  loop spin_bound (insert_version_round p_act_vhdr obj) (v_copy v).

(** the body of [ws_move_lock_to_copy]'s loop; [num_free] counts the freed
    objects still to be found *)
Definition move_lock_to_copy_body (free_set : ts_ptr_set) (obj : Z) (num_free : Z) : M st (Z + Empty_set) :=
  let* c := get_chs obj in
  if bool_decide (o_type (c_hdr c) = TYPE_BOGUS) then ret (inl num_free)
  else
    let p_act_vhdr := c_act_vhdr (cpy_hdr c) in
    let* v := get_vhdr p_act_vhdr in
    if (0 <? num_free) && ptrset_is_member free_set (np_org_act v) then
      put_chs obj (fun c => c <| c_hdr ::= (fun h => h <| o_type := TYPE_FREE |>) |>) ;;;
      ret (inl (u32 (num_free - 1)))
    else if obj_size (c_hdr c) =? 0 then ret (inl num_free)
    else
      put_chs obj (fun c => c <| cpy_hdr ::= (fun h => h <| wrt_clk_prev := MAX_VERSION |>) |>) ;;;
      insert_version p_act_vhdr obj ;;;
      ret (inl num_free).

Definition ws_move_lock_to_copy : M st unit :=
  let* t := self! tvlog in
  let* free_set := self! tx_free_set in
  let* _ := ws_for_each (cur_wrt_set t) (move_lock_to_copy_body free_set) (num_ptrs free_set) in
  ret tt.

(** [smp_cas(&p_act_vhdr->p_lock, obj, NULL)] *)
Definition release_obj_lock (p_act_vhdr obj : Z) : M st bool :=
  smp_cas (let* v := get_vhdr p_act_vhdr in ret (v_lock v))
    (fun x => put_vhdr p_act_vhdr (fun v => v <| v_lock := x |>)) obj NULL.

Definition unlock_commit_body (wrt_clk obj : Z) : M st unit :=
  let* c := get_chs obj in
  match o_type (c_hdr c) with
  | TYPE_COPY =>
      put_chs obj (fun c => c <| cpy_hdr ::= (fun h => h <| __wrt_clk := wrt_clk |>) |>) ;;;
      release_obj_lock (c_act_vhdr (cpy_hdr c)) obj ;;;
      let* c := get_chs obj in
      let p_old_copy := c_copy (cpy_hdr c) in
      when (negb (p_old_copy =? NULL))
        (put_chs p_old_copy (fun c => c <| cpy_hdr ::= (fun h => h <| wrt_clk_prev := wrt_clk |>) |>))
  | TYPE_FREE =>
      put_chs obj (fun c => c <| cpy_hdr ::= (fun h => h <| __wrt_clk := wrt_clk |>) |>) ;;;
      put_chs obj (fun c => c <| cpy_hdr ::= (fun h => h <| c_copy := NULL |>) |>)
  | _ => ret tt
  end.

Definition ws_unlock_commit : M st unit :=
  let* t := self! tvlog in
  let* w := get_ws (cur_wrt_set t) in
  ws_iter (cur_wrt_set t) (unlock_commit_body (ws_wrt_clk w)).

Definition unlock_abort_body (obj : Z) : M st unit :=
  let* c := get_chs obj in
  match o_type (c_hdr c) with
  | TYPE_COPY | TYPE_FREE => release_obj_lock (c_act_vhdr (cpy_hdr c)) obj ;;; ret tt
  | _ => ret tt
  end.

Definition ws_unlock_abort : M st unit :=
  let* t := self! tvlog in ws_iter (cur_wrt_set t) unlock_abort_body.

Definition tvlog_try_request_reclaim_if_needed : M st unit :=
  let* t := self! tvlog in
  let used := tvlog_used t in
  if TS_TVLOG_LOW_MARK <? used then
    (if TS_TVLOG_HIGH_MARK <? used then request_tvlog_reclaim RECLAIM_TVLOG_CKPT
     else request_tvlog_reclaim RECLAIM_TVLOG_BEST_EFFORT) ;;;
    ret tt
  else ret tt.

(** the first steps of [tvlog_commit]: the copies are moved and the write clock
    is read *)
Definition commit_clock (local : Z) : M st Z := ws_move_lock_to_copy ;;; st_new_clock local.

(** the write clock is stored as pending and the operation is logged *)
Definition commit_log_at (local : Z) (op : ts_op_info) (clk : Z) : M st Z :=
  let* ws := asks (fun s => cur_wrt_set (tvlog (self s))) in
  put_ws ws (fun w => w <| pending_wrt_clk := clk |>) ;;;
  let* w := get_ws ws in
  let pending := pending_wrt_clk w in
  oplog_enq local pending op ;;;
  oplog_enq_persist ;;;
  ret pending.

(** [tvlog_commit] up to the point where the operation is logged: the pending
    write clock *)
Definition commit_log (local : Z) (op : ts_op_info) : M st Z :=
  let* clk := commit_clock local in commit_log_at local op clk.

(** the clock becomes public, and the copies get it and unlock their objects *)
Definition commit_publish (pending : Z) : M st unit :=
  st_wmb ;;;
  let* ws := asks (fun s => cur_wrt_set (tvlog (self s))) in
  put_ws ws (fun w => w <| ws_wrt_clk := pending |>) ;;;
  ws_unlock_commit.

Definition commit_request : M st unit :=
  let* requested := oplog_try_request_ckpt_if_needed in
  when (negb requested) tvlog_try_request_reclaim_if_needed.

Definition tvlog_commit (local : Z) (op : ts_op_info) : M st unit :=
  let* pending := commit_log local op in
  commit_publish pending ;;;
  commit_request ;;;
  mod_tvlog (fun t => t <| cur_wrt_set := NULL |>) ;;;
  set_reset TX_FREE_SET.

Definition tvlog_abort : M st unit :=
  ws_unlock_abort ;;;
  let* ws := asks (fun s => cur_wrt_set (tvlog (self s))) in
  let* w := get_ws ws in
  mod_tvlog (fun t => t <| t_tail_cnt := start_tail_cnt w |>) ;;;
  mod_tvlog (fun t => t <| cur_wrt_set := NULL |>) ;;;
  set_reset TX_FREE_SET.

(** * Reclamation *)

Definition is_copy_latest (obj : Z) : M st bool :=
  let* c := get_chs obj in
  let* v := get_vhdr (c_act_vhdr (cpy_hdr c)) in
  ret (v_copy v =? obj).

Definition try_detach_obj (obj : Z) : M st unit :=
  put_chs obj (fun c => c <| c_hdr ::= (fun h => h <| o_status := STATUS_DETACHED |>) |>) ;;;
  let* c := get_chs obj in
  let p_act_vhdr := c_act_vhdr (cpy_hdr c) in
  let* v := get_vhdr p_act_vhdr in
  if negb (v_copy v =? obj) then ret tt
  else
    smp_cas (let* v := get_vhdr p_act_vhdr in ret (v_copy v))
      (fun x => put_vhdr p_act_vhdr (fun v => v <| v_copy := x |>)) obj NULL ;;;
    ret tt.

Definition is_at_borderline (c : ts_cpy_hdr_struct) (ckpt_s_clk last_ckpt_clk : Z) : bool :=
  let wrt_clk := get_raw_wrt_clk c in
  let prev := wrt_clk_prev (cpy_hdr c) in
  if prev =? MAX_VERSION then lt_clock wrt_clk ckpt_s_clk
  else gte_clock prev ckpt_s_clk && lt_clock wrt_clk ckpt_s_clk && gte_clock wrt_clk last_ckpt_clk.

(** the newest version of the object of [obj] before [ckpt_s_clk], or NULL *)
Definition get_ckpt_chs (obj : Z) (ckpt_s_clk last_ckpt_clk : Z) : M st Z :=
  let* c := get_chs obj in
  let* v := get_vhdr (c_act_vhdr (cpy_hdr c)) in
  let* n := asks (fun s => size (heap (sh s))) in
  if v_copy v =? NULL then ret NULL
  else
    loop (S n) (fun p_copy =>
      let* c := get_chs p_copy in
      let wrt_clk := get_raw_wrt_clk c in
      let next := if c_copy (cpy_hdr c) =? NULL then inr NULL else inl (c_copy (cpy_hdr c)) in
      if wrt_clk =? MAX_VERSION then ret next
      else if lt_clock wrt_clk ckpt_s_clk then ret (inr p_copy)
      else if lt_clock (wrt_clk_next (cpy_hdr c)) last_ckpt_clk then ret (inr NULL)
      else ret next) (v_copy v).

Definition tvlog_need_reclaim : M st Z := asks (fun s => r_tvlog (reclaim (self s))).

Definition try_lock_tvlog : M st bool :=
  let* t := self! tvlog in
  if t_reclaim_lock t =? 0 then
    smp_cas (asks (fun s => t_reclaim_lock (tvlog (self s))))
      (fun v => mod_tvlog (fun t => t <| t_reclaim_lock := v |>)) 0 1
  else ret false.

(** mark the tombstone of the checkpointed object [cur] *)
Definition mark_tombstone (cur : Z) : M st unit :=
  let ent := obj_to_ckpt_ent cur in
  let* ' (e, c) := get_ckpt_entry ent in
  mod_sh (fun h => h <| sh_pm ::= (fun m => clwb (ent + 32) (store_lines (ent + 32) 1
    (m <| cells ::= (fun k => <[ent := e <| e_body := EB_ckpt (c <| tombstone := 1 |>) |>]> k) |>))) |>).

(** one entry of the first walk, which reclaims: [dirty] tells whether the
    checkpoint log was written; [inr] stops the reclamation *)
Definition reclaim_body (mode ckpt_s wrt_clk obj : Z) (dirty : bool) : M st (bool + bool) :=
  let* c := get_chs obj in
  match o_type (c_hdr c) with
  | TYPE_COPY =>
      if (mode =? RECLAIM_TVLOG_BEST_EFFORT) && gte_clock (wrt_clk_prev (cpy_hdr c)) ckpt_s then
        ret (inr dirty)
      else ret (inl dirty)
  | TYPE_FREE =>
      if bool_decide (o_status (c_hdr c) = STATUS_TOMBSTONE_MARKED) then ret (inl dirty)
      else
        let p_act_vhdr := c_act_vhdr (cpy_hdr c) in
        let* v := get_vhdr p_act_vhdr in
        let* dirty' :=
          (if np_cur_act v =? np_org_act v then
             put_vhdr p_act_vhdr (fun v => v <| tombstone_clk := ckpt_s |>) ;;;
             ckptlog_enq_tombstone wrt_clk ckpt_s obj ;;;
             ret true
           else mark_tombstone (np_cur_act v) ;;; ret dirty) in
        put_chs obj (fun c => c <| c_hdr ::= (fun h => h <| o_status := STATUS_TOMBSTONE_MARKED |>) |>) ;;;
        ret (inl dirty')
  | _ => ret (inl dirty)
  end.

(** a walk over write sets takes at least one cache line of the log each *)
Definition tvlog_fuel (start_cnt tail_cnt : Z) : nat :=
  S (S (Z.to_nat ((tail_cnt - start_cnt) / TS_CACHE_LINE_SIZE))).

(** the first walk, over [head, prev_head), one write set a round: the new head
    and [dirty] *)
Definition reclaim_round (mode ckpt_s prev_head_cnt tail_cnt : Z) (a : Z * bool) : M st (Z * bool + Z * bool) :=
  let '(start_cnt, dirty) := a in
  if negb (start_cnt <? tail_cnt) then ret (inr (start_cnt, dirty))
  else if start_cnt =? prev_head_cnt then ret (inr (start_cnt, dirty))
  else
    let* t := self! tvlog in
    let ws := tvlog_obj t start_cnt in
    let* w := get_ws ws in
    if ws_wrt_clk w =? MAX_VERSION then ret (inr (start_cnt, dirty))
    else
      let* r := ws_for_each ws (reclaim_body mode ckpt_s (ws_wrt_clk w)) dirty in
      match r with
      | inl (cnt, dirty') => ret (inl (cnt, dirty'))
      | inr dirty' => ret (inr (start_cnt, dirty'))
      end.
Definition reclaim_walk (mode ckpt_s prev_head_cnt start_cnt tail_cnt : Z) : M st (Z * bool) :=
  loop (tvlog_fuel start_cnt tail_cnt) (reclaim_round mode ckpt_s prev_head_cnt tail_cnt) (start_cnt, false).

(** one entry of the second walk, which checkpoints: the accumulator is
    [dirty] and the bytes checkpointed *)
Definition ckpt_body (mode ckpt_s last_ckpt wrt_clk obj : Z) (acc : bool * Z) :
    M st ((bool * Z) + (bool * Z)) :=
  let* c := get_chs obj in
  if negb (bool_decide (o_type (c_hdr c) = TYPE_COPY)) then ret (inl acc)
  else if bool_decide (o_status (c_hdr c) = STATUS_DETACHED) then ret (inl acc)
  else if is_at_borderline c ckpt_s last_ckpt then
    if mode =? RECLAIM_TVLOG_CKPT then
      ckptlog_enq wrt_clk ckpt_s obj ;;;
      try_detach_obj obj ;;;
      ret (inl (true, u64 (acc.2 + sizeof_chs c)))
    else ret (inr acc)
  else ret (inl acc).

(** the second walk, from the new head: the new [prev_head_cnt], [dirty] and
    the bytes checkpointed *)
Definition ckpt_round (mode ckpt_s last_ckpt tail_cnt : Z) (a : Z * (bool * Z)) :
    M st (Z * (bool * Z) + Z * (bool * Z)) :=
  let '(start_cnt, acc) := a in
  if negb (start_cnt <? tail_cnt) then ret (inr (start_cnt, acc))
  else
    let* t := self! tvlog in
    let ws := tvlog_obj t start_cnt in
    let* w := get_ws ws in
    let wrt_clk := ws_wrt_clk w in
    if gte_clock wrt_clk ckpt_s || (wrt_clk =? MAX_VERSION) then ret (inr (start_cnt, acc))
    else
      let* r := ws_for_each ws (ckpt_body mode ckpt_s last_ckpt wrt_clk) acc in
      match r with
      | inl (cnt, acc') => ret (inl (cnt, acc'))
      | inr acc' => ret (inr (start_cnt, acc'))
      end.
Definition ckpt_walk (mode ckpt_s last_ckpt start_cnt tail_cnt : Z) (dirty : bool) :
    M st (Z * (bool * Z)) :=
  loop (tvlog_fuel start_cnt tail_cnt) (ckpt_round mode ckpt_s last_ckpt tail_cnt) (start_cnt, (dirty, 0)).

(** the end of [tvlog_reclaim_x], from where the new head and the new
    [prev_head_cnt] are known *)
Definition reclaim_finish (mode old_head_cnt new_head_cnt prev_head : Z) (dirty : bool) (ckpt_bytes : Z) : M st bool :=
  mod_tvlog (fun t => t <| t_prev_head_cnt := prev_head |>) ;;;
  mod_tvlog (fun t => t <| t_head_cnt := new_head_cnt |>) ;;;
  when dirty ckptlog_enq_persist ;;;
  let* t := self! tvlog in
  (if (new_head_cnt =? old_head_cnt) && (TS_TVLOG_LOW_MARK <? tvlog_used t) &&
      (mode =? RECLAIM_TVLOG_BEST_EFFORT) then
     request_tvlog_reclaim RECLAIM_TVLOG_CKPT ;;; ret tt
   else ret tt) ;;;
  when (negb (new_head_cnt =? old_head_cnt))
    (stat_thread_acc n_tvlog_reclaimed_bytes (u64 (new_head_cnt - old_head_cnt))) ;;;
  stat_thread_acc n_tvlog_ckpt_bytes ckpt_bytes ;;;
  mod_self (fun t => t <| reclaim ::= (fun r => r <| r_tvlog := 0 |>) |>) ;;;
  mod_tvlog (fun t => t <| t_reclaim_lock := 0 |>) ;;;
  ret true.

Definition tvlog_reclaim_x (mode : Z) : M st bool :=
  let* need := tvlog_need_reclaim in
  if need =? 0 then ret false
  else
    let* ok := try_lock_tvlog in
    if negb ok then ret false
    else
      let* k := self! clks in
      let ckpt_s := __qp0 k in
      let last_ckpt := __last_ckpt k in
      let* t := self! tvlog in
      let old_head_cnt := t_head_cnt t in
      let tail_cnt := t_tail_cnt t in
      let* ' (new_head_cnt, dirty) := reclaim_walk mode ckpt_s (t_prev_head_cnt t) old_head_cnt tail_cnt in
      let* ' (prev_head, (dirty, ckpt_bytes)) := ckpt_walk mode ckpt_s last_ckpt new_head_cnt tail_cnt dirty in
      reclaim_finish mode old_head_cnt new_head_cnt prev_head dirty ckpt_bytes.

Definition tvlog_reclaim : M st unit :=
  let* need := tvlog_need_reclaim in
  if need =? RECLAIM_TVLOG_BEST_EFFORT then
    let* r := tvlog_reclaim_x RECLAIM_TVLOG_BEST_EFFORT in
    when r (stat_thread_inc n_tvlog_best_effort)
  else if need =? RECLAIM_TVLOG_CKPT then
    let* r := tvlog_reclaim_x RECLAIM_TVLOG_CKPT in
    when r (stat_thread_inc n_tvlog_ckpt)
  else ret tt.

(** the number of reclamations it made *)
Definition reclaim_tvlog_ckptlog : M st Z :=
  let* need := tvlog_need_reclaim in
  let* n1 := (if negb (need =? 0) then tvlog_reclaim ;;; ret 1 else ret 0) in
  let* need := ckptlog_need_reclaim in
  let* n2 := (if negb (need =? 0) then ckptlog_reclaim ;;; ret 1 else ret 0) in
  ret (n1 + n2).

(** [request; do { yield; ...; } while (!reclaim_cnt);], which both blocking
    loops share *)
Definition tvlog_wait_reclaim : M st unit :=
  request_tvlog_reclaim RECLAIM_TVLOG_CKPT ;;;
  loop spin_bound (fun count : Z =>
    interfere ;;;
    let count := count + 1 in
    let* count := (if count =? 1000 then request_tvlog_reclaim RECLAIM_TVLOG_CKPT ;;; ret 0
                   else ret count) in
    let* reclaim_cnt := reclaim_tvlog_ckptlog in
    if reclaim_cnt =? 0 then ret (inl count) else ret (inr tt)) 0.

Definition tvlog_reclaim_below_high_watermark : M st unit :=
  loop spin_bound (fun _ : unit =>
    let* t := self! tvlog in
    if TS_TVLOG_HIGH_MARK <=? tvlog_used t then tvlog_wait_reclaim ;;; ret (inl tt)
    else ret (inr tt)) tt.

Definition tvlog_flush : M st unit :=
  loop spin_bound (fun _ : unit =>
    let* t := self! tvlog in
    if negb (t_head_cnt t =? t_tail_cnt t) then tvlog_wait_reclaim ;;; ret (inl tt)
    else ret (inr tt)) tt.

Definition tvlog_create : M st Z :=
  mod_tvlog (fun _ => mk_tvlog 0 0 0 0 0 NULL NULL) ;;;
  let* r := sh! g_lr in
  let '(buffer, r') := port_alloc_tvlog_mem r in
  mod_sh (fun h => h <| g_lr := r' |>) ;;;
  mod_tvlog (fun t => t <| t_buffer := buffer |>) ;;;
  if buffer =? NULL then ret ENOMEM else ret 0.

Definition tvtlog_destroy : M st unit :=
  let* t := self! tvlog in
  if negb (t_buffer t =? NULL) then
    mod_sh (fun h => h <| g_lr ::= port_free_tvlog_mem (t_buffer t) |>) ;;;
    mod_tvlog (fun t => t <| t_buffer := NULL |>)
  else ret tt.

End Tvlog.
