(* ===== verification/WriteSet.v ===== *)
(** Write sets in the version log: how a walk over a write set runs
    ([ws_for_each] of [lib/tvlog.c]). *)
From S2P Require Export Tvlog.

(** * Facts: the entries of a write set *)

Section WalkFacts.
Context `{Env}.

(** the header of the log entry at count [c] *)
Definition entry_at (s : st) (c : Z) : option ts_cpy_hdr_struct :=
  match heap (sh s) !! tvlog_obj (tvlog (self s)) c with Some (CCpy h) => Some h | _ => None end.

Lemma tvlog_obj_pos t c : 0 <= t_buffer t -> tvlog_obj t c <> NULL.
Proof.
  intros Hb. unfold tvlog_obj, tvlog_at, tvlog_index, u32, NULL.
  pose proof (Z.mod_pos_bound (Z.land c (lnot64 TS_TVLOG_MASK)) (2 ^ 32) ltac:(lia)).
  assert (0 < sizeof_cpy_hdr_struct) by done. lia.
Qed.

Lemma entry_at_heap s c h : entry_at s c = Some h -> heap (sh s) !! tvlog_obj (tvlog (self s)) c = Some (CCpy h).
Proof. unfold entry_at. destruct (heap (sh s) !! _) as [[|]|]; try done. by intros [= ->]. Qed.

(** walking by entry sizes from count [c] meets the entries at the counts [l]
    and ends at [e] *)
Inductive path (s : st) : Z -> list Z -> Z -> Prop :=
| path_nil c : path s c [] c
| path_cons c h l e : entry_at s c = Some h -> 0 <= c -> 0 < get_entry_size h ->
    c + get_entry_size h < 2 ^ 63 -> path s (c + get_entry_size h) l e -> path s c (c :: l) e.

(** the write set [ws] has the entries [l], up to count [e] *)
Record ws_layout (s : st) (ws : Z) (w : ts_wrt_set) (l : list Z) (e : Z) : Prop := {
  lay_ws : wrt_sets (sh s) !! ws = Some w;
  lay_num : num_objs w = Z.of_nat (length l);
  lay_small : Z.of_nat (length l) < 2 ^ 31;
  lay_path : exists h, heap (sh s) !! ws = Some (CCpy h) /\ 0 <= start_tail_cnt w + get_entry_size h < 2 ^ 63 /\
               path s (start_tail_cnt w + get_entry_size h) l e }.

(** what a step of a walk over the entries [all] of [ws] keeps: their sizes, the
    write set, the log *)
Record sizes_kept (ws : Z) (all : list Z) (s s' : st) : Prop := {
  kept_sizes : forall c, c ∈ all -> (get_entry_size <$> entry_at s' c) = (get_entry_size <$> entry_at s c);
  kept_ws : wrt_sets (sh s') !! ws = wrt_sets (sh s) !! ws;
  kept_tvlog : tvlog (self s') = tvlog (self s) }.

#[export] Instance sizes_kept_preorder ws all : PreOrder (sizes_kept ws all).
Proof.
  split; [by split |]. intros s1 s2 s3 [H1 W1 T1] [H2 W2 T2].
  split; [intros o Ho; by rewrite H2, H1 | congruence | congruence].
Qed.

Lemma entry_at_kept ws all s s' c h : sizes_kept ws all s s' -> c ∈ all -> entry_at s c = Some h ->
  exists h', entry_at s' c = Some h' /\ get_entry_size h' = get_entry_size h.
Proof.
  intros [Hs _ _] Hc He. specialize (Hs c Hc). rewrite He in Hs.
  destruct (entry_at s' c) as [h' |]; [| done]. exists h'. split; [done |]. by injection Hs.
Qed.

Lemma path_kept ws all s s' c l e :
  sizes_kept ws all s s' -> (forall x, x ∈ l -> x ∈ all) -> path s c l e -> path s' c l e.
Proof.
  intros Hk Hall Hp. induction Hp as [c | c h l e He Hc Hpos Hlt Hpath IH]; [constructor |].
  destruct (entry_at_kept _ _ _ _ _ _ Hk (Hall c ltac:(by left)) He) as (h' & He' & Hsz).
  econstructor; [exact He' | done | lia | lia |]. rewrite Hsz. apply IH. intros. apply Hall. by right.
Qed.

Lemma path_same s s' c l e :
  (forall x, x ∈ l -> entry_at s' x = entry_at s x) -> path s c l e -> path s' c l e.
Proof.
  intros Hs Hp. induction Hp as [c | c h l e He Hc Hpos Hlt _ IH]; [constructor |].
  econstructor; [rewrite Hs; [exact He | by left] | done | done | done |]. apply IH. intros. apply Hs. by right.
Qed.

(** the rule for walks over a write set *)
Section WalkRule.
Context {A B : Type} (ws : Z) (body : Z -> A -> M st (A + B)).
Context (I : list Z -> A -> st -> Prop) (Q : B -> st -> Prop) (all : list Z) (e : Z) (w : ts_wrt_set).
Context (Hnum : num_objs w = Z.of_nat (length all)) (Hsmall : Z.of_nat (length all) < 2 ^ 31).
Context (Hbody : forall c rest a s, c ∈ all -> I (c :: rest) a s -> path s c (c :: rest) e ->
   exists r s', body (tvlog_obj (tvlog (self s)) c) a s = Ok (r, s') /\ sizes_kept ws all s s' /\
     match r with inl a' => I rest a' s' | inr b => Q b s' end).

Lemma ws_loop_run rest : forall done_ c a s n,
  all = done_ ++ rest -> wrt_sets (sh s) !! ws = Some w -> path s c rest e -> I rest a s -> (length rest < n)%nat ->
  exists r s', loop n (fun '(i, cnt, a) =>
    let* w := get_ws ws in
    if i <? num_objs w then
      let* t := self! tvlog in
      let obj := tvlog_obj t cnt in
      let* r := body obj a in
      match r with
      | inl a' => let* c := get_chs obj in ret (inl (u32 (i + 1), ws_iter_next cnt c, a'))
      | inr b => ret (inr (inr b))
      end
    else ret (inr (inl (cnt, a)))) (Z.of_nat (length done_), c, a) s = Ok (r, s') /\ sizes_kept ws all s s' /\
    match r with inl (cnt, a') => cnt = e /\ I [] a' s' | inr b => Q b s' end.
Proof.
  induction rest as [| x rest IH]; intros before c a s n Hall Hw Hp HI Hn; (destruct n as [| n]; [cbn in Hn; lia |]);
    cbn [loop]; rewrite bind_assoc; mrun (get_ws_run s ws w Hw); rewrite Hnum, Hall, length_app.
  - inversion Hp; subst. cbn [length]. rewrite (proj2 (Z.ltb_ge _ _)) by lia. msteps.
    exists (inl (e, a)), s. split; [done |]. split; [done |]. by split.
  - cbn [length]. rewrite (proj2 (Z.ltb_lt _ _)) by lia. msteps.
    inversion Hp as [| ? h ? ? He Hc Hpos Hlt Hp' Ex]; subst x.
    destruct (Hbody c rest a s ltac:(rewrite Hall; elems) HI Hp) as (r & s1 & E1 & Hk & Hr). mrun E1. destruct r as [a' | b].
    + destruct (entry_at_kept _ _ _ _ _ _ Hk ltac:(rewrite Hall; elems) He) as (h' & He' & Hsz).
      rewrite bind_assoc. unfold entry_at in He'. rewrite (kept_tvlog _ _ _ _ Hk) in He'.
      destruct (heap (sh s1) !! _) as [[|]|] eqn:Eh; try done. injection He' as ->.
      mrun (get_chs_run s1 _ h' Eh). msteps. unfold ws_iter_next. rewrite Hsz, u64_small by lia.
      rewrite u32_small. 2: { rewrite Hall, length_app in Hsmall. cbn in Hsmall. lia. }
      replace (Z.of_nat (length before) + 1) with (Z.of_nat (length (before ++ [c]))) by (rewrite length_app; cbn; lia).
      destruct (IH (before ++ [c]) (c + get_entry_size h) a' s1 n) as (r & s2 & E2 & Hk2 & Hr2).
      * by rewrite <- app_assoc.
      * by rewrite (kept_ws _ _ _ _ Hk).
      * eapply path_kept; [exact Hk | | done]. intros. rewrite Hall. elems.
      * done.
      * cbn in Hn. lia.
      * exists r, s2. split; [exact E2 |]. split; [rewrite <- Hall; etransitivity; [exact Hk | exact Hk2] | done].
    + msteps. exists (inr b), s1. split; [done |]. split; [by rewrite <- Hall | done].
Qed.
End WalkRule.

Lemma ws_for_each_rule {A B} ws (body : Z -> A -> M st (A + B)) (I : list Z -> A -> st -> Prop) Q w l e a s :
  ws_layout s ws w l e -> I l a s ->
  (forall c rest a s, c ∈ l -> I (c :: rest) a s -> path s c (c :: rest) e ->
     exists r s', body (tvlog_obj (tvlog (self s)) c) a s = Ok (r, s') /\ sizes_kept ws l s s' /\
       match r with inl a' => I rest a' s' | inr b => Q b s' end) ->
  exists r s', ws_for_each ws body a s = Ok (r, s') /\ sizes_kept ws l s s' /\
    match r with inl (cnt, a') => cnt = e /\ I [] a' s' | inr b => Q b s' end.
Proof.
  intros [Hw Hnum Hsm (h & Hh & Hr & Hp)] HI Hbody. unfold ws_for_each. mrun (get_ws_run s ws w Hw).
  unfold ws_iter_begin. rewrite bind_assoc. mrun (get_chs_run s ws h Hh). rewrite bind_assoc.
  mrun (get_ws_run s ws w Hw). msteps. rewrite u64_small by lia.
  apply (ws_loop_run ws body I Q l e w Hnum Hsm Hbody l []); try done. rewrite Hnum. lia.
Qed.
End WalkFacts.

(** * Facts: positions in the log *)

Lemma tvlog_index_mod cnt : 0 <= cnt < 2 ^ 64 -> tvlog_index cnt = cnt mod TS_TVLOG_SIZE.
Proof.
  intros Hc. unfold tvlog_index. change (lnot64 TS_TVLOG_MASK) with (2 ^ 20 - 1).
  rewrite land_ones_mod by lia. change TS_TVLOG_SIZE with (2 ^ 20).
  pose proof (Z.mod_pos_bound cnt (2 ^ 20) ltac:(lia)). apply u32_small. lia.
Qed.

(** the size of a new entry for an object of [size] bytes *)
Definition copy_size (size : Z) : Z := align_uint_to_cacheline (u32 (size + sizeof_cpy_hdr_struct)).
(** what the code keeps free behind a new entry for the next write set *)
Definition ws_reserve : Z := align_uint_to_cacheline (u32 (sizeof_wrt_set_struct + sizeof_cpy_hdr_struct)).

(** objects for which an entry and its padding fit [unsigned short] *)
Definition small_object (size : Z) : Prop := 0 <= size <= 2 ^ 15.

Lemma copy_size_bounds size : small_object size ->
  (64 | copy_size size) /\ size + 56 <= copy_size size < size + 120 /\ 64 <= copy_size size.
Proof.
  unfold small_object, copy_size, sizeof_cpy_hdr_struct. intros Hs. cbn.
  change (sizeof_cpy_hdr + sizeof_obj_hdr) with 56. rewrite u32_small by lia.
  destruct (align_uint_bounds (size + 56)) as (H1 & H2 & H3); [lia |]. split; [done |]. lia.
Qed.

(** an entry of [es] bytes at [cnt] would run over the end of the log *)
Definition wraps_at (cnt es : Z) : bool := TS_TVLOG_SIZE <=? cnt mod TS_TVLOG_SIZE + es.

Lemma wraps_at_index cnt es :
  0 <= cnt < 2 ^ 63 -> 0 < es < TS_TVLOG_SIZE ->
  (tvlog_index (u64 (cnt + es)) <? tvlog_index cnt) = wraps_at cnt es.
Proof.
  intros Hc He. assert (HL : TS_TVLOG_SIZE = 2 ^ 20) by done. rewrite u64_small by lia. rewrite !tvlog_index_mod by lia.
  unfold wraps_at. pose proof (Z.mod_pos_bound cnt TS_TVLOG_SIZE ltac:(lia)) as Hm.
  pose proof (Z.div_mod cnt TS_TVLOG_SIZE ltac:(lia)) as Hd.
  destruct (Z.leb_spec TS_TVLOG_SIZE (cnt mod TS_TVLOG_SIZE + es)) as [Hw | Hw].
  - apply Z.ltb_lt. rewrite <- (Z.mod_unique_pos (cnt + es) TS_TVLOG_SIZE (cnt / TS_TVLOG_SIZE + 1)
      (cnt mod TS_TVLOG_SIZE + es - TS_TVLOG_SIZE)); lia.
  - apply Z.ltb_ge. rewrite <- (Z.mod_unique_pos (cnt + es) TS_TVLOG_SIZE (cnt / TS_TVLOG_SIZE)
      (cnt mod TS_TVLOG_SIZE + es)); lia.
Qed.

(** entries of one turn of the log are at different addresses *)
Lemma tvlog_obj_inj t c c' :
  0 <= c < 2 ^ 63 -> 0 <= c' < 2 ^ 63 -> Z.abs (c - c') < TS_TVLOG_SIZE -> tvlog_obj t c = tvlog_obj t c' -> c = c'.
Proof.
  intros Hc Hc' Hd He. unfold tvlog_obj, tvlog_at in He. rewrite !tvlog_index_mod in He by lia.
  apply (mod_window_inj TS_TVLOG_SIZE); [done | done | lia].
Qed.

(** * Facts: allocation *)

Section AllocFacts.
Context `{Env}.

(** the count at which [tvlog_alloc] puts the entry when the tail is at [cnt] *)
Definition alloc_at (cnt size : Z) : Z :=
  if wraps_at cnt (copy_size size) then cnt + (TS_TVLOG_SIZE - cnt mod TS_TVLOG_SIZE) else cnt.
(** the padding that ends the log before the next write set would run over it *)
Definition alloc_pad (cnt size : Z) : Z :=
  if wraps_at cnt (copy_size size + ws_reserve) then TS_TVLOG_SIZE - (cnt mod TS_TVLOG_SIZE + copy_size size) else 0.

(** the tail of a log: aligned, with room for the header of a write set *)
Definition tail_room (cnt : Z) : Prop := cnt mod TS_TVLOG_SIZE + ws_reserve < TS_TVLOG_SIZE.
Definition tail_ok (cnt : Z) : Prop := (64 | cnt) /\ 0 <= cnt < 2 ^ 62 /\ tail_room cnt.

Definition bogus_entry (cnt : Z) : ts_cpy_hdr_struct :=
  mk_chs (mk_cpy_hdr NULL 0 0 0 NULL NULL)
    (mk_obj_hdr 0 (TS_TVLOG_SIZE - cnt mod TS_TVLOG_SIZE) TYPE_BOGUS STATUS_NONE).
Definition raw_entry (size es : Z) : ts_cpy_hdr_struct :=
  mk_chs (mk_cpy_hdr NULL MAX_VERSION 0 0 NULL NULL) (mk_obj_hdr size (es - size) TYPE_ACTUAL STATUS_NONE).

Definition set_tail (cnt : Z) (s : st) : st := s <| self ::= (fun t => t <| tvlog ::= (fun t => t <| t_tail_cnt := cnt |>) |>) |>.
Definition set_cell (o : Z) (c : ts_cpy_hdr_struct) (s : st) : st :=
  s <| sh ::= (fun h => h <| heap ::= (fun m => <[o := CCpy c]> m) |>) |>.

(** the state that [tvlog_alloc] leaves *)
Definition alloc_state (size : Z) (bogus : bool) (s : st) : st :=
  let t := tvlog (self s) in
  let cnt := t_tail_cnt t in
  let at_ := alloc_at cnt size in
  if wraps_at cnt (copy_size size) then
    set_cell (tvlog_obj t at_) (raw_entry size (copy_size size))
      (set_tail at_ (set_cell (tvlog_obj t cnt) (bogus_entry cnt) s))
  else
    set_cell (tvlog_obj t at_)
      (raw_entry size (copy_size size + (if bogus then 0 else alloc_pad cnt size))) s.

Lemma alloc_at_ok cnt size : small_object size -> tail_ok cnt ->
  (64 | alloc_at cnt size) /\ cnt <= alloc_at cnt size <= cnt + copy_size size /\
  alloc_at cnt size mod TS_TVLOG_SIZE + copy_size size < TS_TVLOG_SIZE /\
  (wraps_at cnt (copy_size size) = true -> alloc_at cnt size mod TS_TVLOG_SIZE = 0 /\
     0 < TS_TVLOG_SIZE - cnt mod TS_TVLOG_SIZE < 2 ^ 16).
Proof.
  intros Hs (H64 & Hc & Hr). unfold tail_room in Hr. destruct (copy_size_bounds size Hs) as (Ha & Hb & Hp). unfold small_object in Hs.
  assert (HL : TS_TVLOG_SIZE = 2 ^ 20) by done. unfold alloc_at, wraps_at.
  pose proof (Z.mod_pos_bound cnt TS_TVLOG_SIZE ltac:(lia)) as Hm.
  pose proof (Z.div_mod cnt TS_TVLOG_SIZE ltac:(lia)) as Hd.
  destruct (Z.leb_spec TS_TVLOG_SIZE (cnt mod TS_TVLOG_SIZE + copy_size size)) as [Hw | Hw].
  - assert (E : cnt + (TS_TVLOG_SIZE - cnt mod TS_TVLOG_SIZE) = (cnt / TS_TVLOG_SIZE + 1) * TS_TVLOG_SIZE) by lia.
    rewrite E, Z.mod_mul by lia. split; [apply Z.divide_mul_r; by exists (2 ^ 14) |]. split; [lia |]. split; [lia |]. lia.
  - split; [done |]. split; [lia |]. split; [lia | done].
Qed.

Lemma index_plus cnt es : 0 <= cnt < 2 ^ 62 -> 0 <= es -> cnt mod TS_TVLOG_SIZE + es < TS_TVLOG_SIZE ->
  tvlog_index (u64 (cnt + es)) = cnt mod TS_TVLOG_SIZE + es.
Proof.
  intros Hc He Hm. assert (HL : TS_TVLOG_SIZE = 2 ^ 20) by done.
  pose proof (Z.mod_pos_bound cnt TS_TVLOG_SIZE ltac:(lia)). pose proof (Z.div_mod cnt TS_TVLOG_SIZE ltac:(lia)).
  rewrite u64_small, tvlog_index_mod by lia.
  symmetry. apply (Z.mod_unique_pos _ _ (cnt / TS_TVLOG_SIZE)); lia.
Qed.

Lemma ws_reserve_eq : ws_reserve = 192.
Proof. by vm_compute. Qed.

Lemma alloc_pad_bounds cnt size : small_object size -> tail_ok cnt ->
  cnt mod TS_TVLOG_SIZE + copy_size size < TS_TVLOG_SIZE ->
  0 <= alloc_pad cnt size <= ws_reserve /\ (64 | copy_size size + alloc_pad cnt size) /\
  tail_room (cnt + (copy_size size + alloc_pad cnt size)).
Proof.
  intros Hs (H64 & Hc & Hr) Hlt. unfold tail_room in Hr. destruct (copy_size_bounds size Hs) as (Ha & Hb & Hp). unfold small_object in Hs.
  assert (HL : TS_TVLOG_SIZE = 2 ^ 20) by done. pose proof (Z.mod_pos_bound cnt TS_TVLOG_SIZE ltac:(lia)) as Hm.
  pose proof (Z.div_mod cnt TS_TVLOG_SIZE ltac:(lia)) as Hd. rewrite ws_reserve_eq in *.
  assert (H64m : (64 | cnt mod TS_TVLOG_SIZE)).
  { rewrite Z.mod_eq by lia. apply Z.divide_sub_r; [done |]. apply Z.divide_mul_l. by exists (2 ^ 14). }
  unfold alloc_pad, wraps_at, tail_room. rewrite ws_reserve_eq.
  destruct (Z.leb_spec TS_TVLOG_SIZE (cnt mod TS_TVLOG_SIZE + (copy_size size + 192))) as [Hw | Hw].
  - split; [lia |]. replace (copy_size size + _) with (TS_TVLOG_SIZE - cnt mod TS_TVLOG_SIZE) by lia.
    split; [apply Z.divide_sub_r; [by exists (2 ^ 14) | done] |].
    replace (cnt + _) with ((cnt / TS_TVLOG_SIZE + 1) * TS_TVLOG_SIZE) by lia. rewrite Z.mod_mul by lia. lia.
  - split; [lia |]. rewrite Z.add_0_r. split; [done |].
    rewrite <- (Z.mod_unique_pos (cnt + copy_size size) TS_TVLOG_SIZE (cnt / TS_TVLOG_SIZE)
      (cnt mod TS_TVLOG_SIZE + copy_size size)); lia.
Qed.

Lemma set_tail_id s : set_tail (t_tail_cnt (tvlog (self s))) s = s.
Proof. destruct s as [t ?], t as [? ? ? ? ? ? ? ? ? ? ? ? ? ? ? ? l ? ?]. by destruct l. Qed.

Lemma tvlog_put_bogus_run s : tail_ok (t_tail_cnt (tvlog (self s))) ->
  let cnt := t_tail_cnt (tvlog (self s)) in
  0 < TS_TVLOG_SIZE - cnt mod TS_TVLOG_SIZE < 2 ^ 16 ->
  tvlog_put_bogus s = Ok (tt, set_tail (cnt + (TS_TVLOG_SIZE - cnt mod TS_TVLOG_SIZE))
    (set_cell (tvlog_obj (tvlog (self s)) cnt) (bogus_entry cnt) s)).
Proof.
  intros (_ & Hc & _) cnt Hb. assert (HL : TS_TVLOG_SIZE = 2 ^ 20) by done. unfold cnt in *. unfold tvlog_put_bogus, write_chs, mod_tvlog, mod_self, mod_sh. msteps. unfold modify.
  cbn [upd self tvlog t_tail_cnt]. rewrite tvlog_index_mod, u32_small, u16_small, u64_small by lia. done.
Qed.

Lemma tvlog_alloc_run size bogus s :
  small_object size -> tail_ok (t_tail_cnt (tvlog (self s))) ->
  let cnt := t_tail_cnt (tvlog (self s)) in
  tvlog_alloc size bogus s =
    Ok ((tvlog_obj (tvlog (self s)) (alloc_at cnt size), bogus || wraps_at cnt (copy_size size)), alloc_state size bogus s).
Proof.
  intros Hs Ht cnt. destruct (copy_size_bounds size Hs) as (Ha & Hb & Hp).
  destruct (alloc_at_ok cnt size Hs Ht) as (A1 & A2 & A3 & A4). pose proof Ht as (H64 & Hc & Hr). fold cnt in Hc, Hr. unfold tail_room in Hr.
  assert (HL : TS_TVLOG_SIZE = 2 ^ 20) by done. unfold small_object in Hs.
  unfold tvlog_alloc. fold (copy_size size). msteps. fold cnt. rewrite wraps_at_index by lia.
  unfold alloc_state. fold cnt. destruct (wraps_at cnt (copy_size size)) eqn:Ew; cbn [when].
  - destruct (A4 eq_refl) as [A5 A6]. mrun (tvlog_put_bogus_run s Ht A6). msteps. rewrite orb_true_r.
    unfold add_extra_padding. cbn [negb andb]. rewrite Z.add_0_r, u32_small, u16_small by lia.
    unfold write_chs, mod_sh, alloc_at. rewrite Ew. unfold modify. by msteps.
  - msteps. rewrite orb_false_r. fold cnt. unfold add_extra_padding. fold cnt.
    change (align_uint_to_cacheline (u32 (sizeof_wrt_set_struct + sizeof_cpy_hdr_struct))) with ws_reserve.
    assert (Eat : alloc_at cnt size = cnt) by (unfold alloc_at; by rewrite Ew). rewrite Eat in *.
    destruct (alloc_pad_bounds cnt size Hs Ht A3) as (P1 & _). rewrite ws_reserve_eq in P1.
    rewrite <- Z.add_assoc, wraps_at_index by (rewrite ?ws_reserve_eq; lia).
    assert (Epad : (if negb bogus && wraps_at cnt (copy_size size + ws_reserve)
        then u32 (TS_TVLOG_SIZE - tvlog_index (u64 (cnt + copy_size size))) else 0)
      = if bogus then 0 else alloc_pad cnt size).
    { destruct bogus; [done |]. cbn [negb andb]. unfold alloc_pad in *. destruct (wraps_at cnt (copy_size size + ws_reserve)); [| reflexivity].
      rewrite index_plus, u32_small by lia. done. }
    rewrite Epad. set (pad := if bogus then 0 else _) in *. assert (0 <= pad <= 192) by (unfold pad; destruct bogus; lia).
    rewrite (u32_small (copy_size size + pad)), u16_small by lia. unfold write_chs, mod_sh, modify. by msteps.
Qed.
End AllocFacts.
