(* ===== verification/Tombstone.v ===== *)
(** Tombstones of freed objects ([tvlog_reclaim_x] of [lib/tvlog.c]): the
    reclamation of a freed object's copy leaves a tombstone at the object's
    current master, in the caller's checkpoint log or in another thread's. *)
From S2P Require Export WriteSet.

Section Tombstone.
Context `{Env}.

(** * Checkpoint entries that stay while the caller's log grows *)

(** [ent] is an entry of the queue [q] of a log of [2 ^ k] bytes at [b], or
    outside of that log *)
Definition live (b k : Z) (q : entries) (ent : Z) : Prop :=
  (exists x, x ∈ q /\ ent = slot b k x.1) \/ ent < b \/ b + 2 ^ k <= ent.

Definition is_ckpt (h : shared) (ent : Z) : Prop := is_Some (ckpt_entry_of h ent).
Definition tombstoned (h : shared) (ent : Z) : Prop :=
  exists e c, ckpt_entry_of h ent = Some (e, c) /\ tombstone c <> 0.

Definition cur_ent (v : ts_act_vhdr) : Z := obj_to_ckpt_ent (np_cur_act v).

(** the current master is the original object or a live checkpoint *)
Definition master_ok (b k : Z) (q : entries) (h : shared) (v : ts_act_vhdr) : Prop :=
  np_cur_act v = np_org_act v \/ (live b k q (cur_ent v) /\ is_ckpt h (cur_ent v)).

(** [n] more tombstones, of at most [M] bytes each, fit the log *)
Definition room_for (n : ts_nvlog) (k M : Z) (m : nat) : Prop :=
  64 <= M < 2 ^ k /\ n_tail_cnt n + 2 * (Z.of_nat m * M) - n_head_cnt n <= 2 ^ k /\
  n_tail_cnt n + 2 * (Z.of_nat m * M) + 2 * 2 ^ k < 2 ^ 63.

(** what a tombstone for the freed copy [c] needs, and what it leaves when [c]
    says that it is marked *)
Definition free_ok (b k M : Z) (q : entries) (h : shared) (c : ts_cpy_hdr_struct) : Prop :=
  0 <= obj_size (c_hdr c) < 2 ^ 30 /\ entry_size_of (ckpt_size c) <= M /\
  exists v, vhdrs h !! c_act_vhdr (cpy_hdr c) = Some v /\ master_ok b k q h v /\
    (o_status (c_hdr c) = STATUS_TOMBSTONE_MARKED -> live b k q (cur_ent v) /\ tombstoned h (cur_ent v)).

(** the log's store is sound, and the tail on NVM stays within one turn of the
    tail of the log after [m] more entries *)
Definition stored (k M : Z) (m : nat) (s : st) : Prop :=
  exists r, log_of CKPTLOG s = Some r /\ store_ok r /\ s_tail_cnt (sto r) <= n_tail_cnt (nv r) /\
    n_tail_cnt (nv r) + 2 * (Z.of_nat m * M) < s_tail_cnt (sto r) + 2 ^ k.

(** the checkpoint log is ready for the freed copies among [objs], [m] of which
    may still be without tombstone *)
Definition tomb_ready (k M : Z) (m : nat) (objs : list Z) (s : st) : Prop :=
  exists q, holds CKPTLOG s k q /\ room_for (ckptlog (self s)) k M m /\ stored k M m s /\
    forall o c, o ∈ objs -> heap (sh s) !! o = Some (CCpy c) -> is_free c = true ->
      free_ok (n_buffer (ckptlog (self s))) k M q (sh s) c.

(** * What the marking of tombstones changes *)

Definition mark (c : ts_cpy_hdr_struct) : ts_cpy_hdr_struct :=
  c <| c_hdr ::= (fun h => h <| o_status := STATUS_TOMBSTONE_MARKED |>) |>.

(** a freed copy may get its mark *)
Definition cell_marking (x y : option cell) : Prop :=
  y = x \/ exists c, x = Some (CCpy c) /\ is_free c = true /\ y = Some (CCpy (mark c)).

(** nothing but marks, tombstones and the checkpoint log changes *)
Record marking (s s' : st) : Prop := {
  mk_self : self s' = (self s) <| ckptlog := ckptlog (self s') |>;
  mk_buffer : n_buffer (ckptlog (self s')) = n_buffer (ckptlog (self s));
  mk_heap : forall o, cell_marking (heap (sh s) !! o) (heap (sh s') !! o);
  mk_vhdrs : forall p, (fun v => (v_copy v, v_lock v, np_org_act v)) <$> vhdrs (sh s') !! p =
                       (fun v => (v_copy v, v_lock v, np_org_act v)) <$> vhdrs (sh s) !! p;
  mk_rest : sh s' = (sh s) <| heap := heap (sh s') |> <| vhdrs := vhdrs (sh s') |>
                           <| stores := stores (sh s') |> <| sh_pm := sh_pm (sh s') |> }.

Lemma cell_marking_trans x y z : cell_marking x y -> cell_marking y z -> cell_marking x z.
Proof.
  intros [-> | (c & -> & Hc & ->)]; [done |]. intros [-> | (d & [= <-] & Hd & ->)]; right; exists c; done.
Qed.

#[export] Instance marking_preorder : PreOrder marking.
Proof.
  split.
  - intros s. split; [by destruct (self s) | done | by left | done | by destruct (sh s)].
  - intros s1 s2 s3 [A1 A0 A2 A3 A4] [B1 B0 B2 B3 B4]. split.
    + by rewrite B1, A1.
    + by rewrite B0, A0.
    + intros o. eapply cell_marking_trans; [apply A2 | apply B2].
    + intros p. by rewrite B3, A3.
    + by rewrite B4, A4.
Qed.

(** * Facts: the queue of the checkpoint log *)

Lemma holds_geom s k q : holds CKPTLOG s k q -> nvlog_geom (ckptlog (self s)) k.
Proof.
  intros (r & Hr & Hg)%holds_log. destruct Hg as (En & Hg). change (sel_get CKPTLOG (self s)) with (ckptlog (self s)) in En.
  rewrite <- En. by eapply log_holds_geom.
Qed.

Lemma holds_cell s k q x : holds CKPTLOG s k q -> x ∈ q ->
  cells (sh_pm (sh s)) !! slot (n_buffer (ckptlog (self s))) k x.1 = Some x.2.
Proof.
  intros (r & Hr & Hg) Hx. unfold log_of in Hr. destruct (stores (sh s) !! _); [| done]. cbn in Hr.
  injection Hr as <-. by apply (log_holds_cell _ _ _ _ Hg).
Qed.

(** the entries that are live stay where they are when the log grows *)
Lemma live_kept s s' k q x ent :
  holds CKPTLOG s k q -> holds CKPTLOG s' k (q ++ [x]) ->
  n_buffer (ckptlog (self s')) = n_buffer (ckptlog (self s)) ->
  (forall a, a < n_buffer (ckptlog (self s)) \/ n_buffer (ckptlog (self s)) + 2 ^ k <= a ->
     cells (sh_pm (sh s')) !! a = cells (sh_pm (sh s)) !! a) ->
  live (n_buffer (ckptlog (self s))) k q ent ->
  live (n_buffer (ckptlog (self s'))) k (q ++ [x]) ent /\ ckpt_entry_of (sh s') ent = ckpt_entry_of (sh s) ent.
Proof.
  intros Hs Hs' Eb Hout [(y & Hy & ->) | Ho].
  - split; [left; exists y; split; [elems | by rewrite Eb] |]. unfold ckpt_entry_of.
    rewrite (holds_cell s k q y Hs Hy). rewrite <- Eb at 1. by rewrite (holds_cell s' k _ y Hs') by elems.
  - split; [right; by rewrite Eb |]. unfold ckpt_entry_of. by rewrite Hout.
Qed.

(** what is live stays live, with its tombstone *)
Definition grows (b k : Z) (q : entries) (h : shared) (q' : entries) (h' : shared) : Prop :=
  forall ent, live b k q ent -> live b k q' ent /\ (is_ckpt h ent -> is_ckpt h' ent) /\
    (tombstoned h ent -> tombstoned h' ent).

Lemma tombstoned_ckpt h ent : tombstoned h ent -> is_ckpt h ent.
Proof. intros (e & c & E & _). by exists (e, c). Qed.

Lemma free_ok_step b k M q h q' h' c :
  grows b k q h q' h' ->
  (forall p v, vhdrs h !! p = Some v -> exists v', vhdrs h' !! p = Some v' /\
     ((live b k q' (cur_ent v') /\ tombstoned h' (cur_ent v')) \/
      (np_cur_act v' = np_cur_act v /\ np_org_act v' = np_org_act v))) ->
  free_ok b k M q h c -> free_ok b k M q' h' c.
Proof.
  intros Hg Hv (H1 & H2 & v & Ev & Hm & Ht). split; [done |]. split; [done |].
  destruct (Hv _ _ Ev) as (v' & Ev' & [[Hl Hb] | [Ec Eo]]); exists v'; (split; [done |]).
  - split; [| done]. right. split; [done | by apply tombstoned_ckpt].
  - unfold master_ok, cur_ent. rewrite Ec, Eo. fold (cur_ent v). split.
    + destruct Hm as [Hm | [Hm Hc]]; [by left |]. right. destruct (Hg _ Hm) as (? & ? & ?). auto.
    + intros Hst. destruct (Ht Hst) as [Hm' Hd]. destruct (Hg _ Hm') as (? & ? & ?). auto.
Qed.

Lemma room_for_has n k M m sz :
  room_for n k M (S m) -> 0 <= n_tail_cnt n -> 0 <= sz < 2 ^ 31 -> entry_size_of sz <= M -> has_room n k sz /\
  enq_count n k sz + entry_size_of sz <= n_tail_cnt n + 2 * M.
Proof.
  intros (HM & H1 & H2) Ht Hs Hes. assert (Hk : 0 <= k) by (destruct (Z.leb_spec 0 k); [done | rewrite Z.pow_neg_r in HM; lia]).
  assert (HmM : 0 <= Z.of_nat m * M) by lia.
  destruct (entry_size_bounds sz Hs) as (_ & H64 & _).
  pose proof (Z.mod_pos_bound (n_tail_cnt n) (2 ^ k) ltac:(lia)).
  assert (Hskip : enq_count n k sz + entry_size_of sz <= n_tail_cnt n + 2 * M).
  { unfold enq_count, enq_skip. destruct (Z.ltb_spec (n_tail_cnt n mod 2 ^ k + entry_size_of sz) (2 ^ k)); lia. }
  split; [| done]. split; try lia.
Qed.
(** * Facts: marking a tombstone *)

Lemma live_counts b k q q' ent : q'.*1 = q.*1 -> live b k q ent -> live b k q' ent.
Proof.
  intros Eq [(x & Hx & ->) | Ho]; [| by right]. left.
  assert (Hin : x.1 ∈ q'.*1) by (rewrite Eq; by apply list_elem_of_fmap_2).
  apply list_elem_of_fmap in Hin as (y & Ey & Hy). exists y. by rewrite Ey.
Qed.

Lemma upd_count_counts c e q : (upd_count c e <$> q).*1 = q.*1.
Proof.
  rewrite <- list_fmap_compose. apply list_fmap_ext. intros i x _. cbn. unfold upd_count.
  by destruct (Z.eqb_spec x.1 c).
Qed.

Definition set_tombstone (e : ts_nvlog_entry) (c : ts_ckpt_entry_hdr) : ts_nvlog_entry :=
  e <| e_body := EB_ckpt (c <| tombstone := 1 |>) |>.

Lemma ckpt_entry_cell h ent e c :
  ckpt_entry_of h ent = Some (e, c) <-> cells (sh_pm h) !! ent = Some e /\ e_body e = EB_ckpt c.
Proof.
  unfold ckpt_entry_of. destruct (cells (sh_pm h) !! ent) as [e' |]; [| by split; [| intros [? _]]].
  destruct (e_body e') eqn:Eb; split; try done.
  - intros [[= ->] E]. congruence.
  - intros [[= ->] E]. congruence.
  - by intros [= -> ->].
  - intros [[= ->] E]. congruence.
Qed.

(** the rewritten entry keeps the queue *)
Lemma holds_set_tombstone s k q ent e c m :
  holds CKPTLOG s k q -> live (n_buffer (ckptlog (self s))) k q ent ->
  cells (sh_pm (sh s)) !! ent = Some e ->
  cells m = <[ent := set_tombstone e c]> (cells (sh_pm (sh s))) ->
  exists q', holds CKPTLOG (s <| sh ::= (fun h => h <| sh_pm := m |>) |>) k q' /\ q'.*1 = q.*1.
Proof.
  intros (r & Hr & Hg) Hl He Hm. unfold log_of in Hr. destruct (stores (sh s) !! _) as [t |] eqn:Et; [| done].
  cbn in Hr. injection Hr as <-. pose proof (log_holds_geom _ _ _ Hg) as Hgeo.
  change (sel_get CKPTLOG (self s)) with (ckptlog (self s)) in *. cbn in Hgeo.
  set (r' := mk_nvst (ckptlog (self s)) t m).
  assert (Hlog : log_of CKPTLOG (s <| sh ::= (fun h => h <| sh_pm := m |>) |>) = Some r').
  { unfold log_of. cbn. by rewrite Et. }
  destruct Hl as [(x & Hx & ->) | Ho].
  - exists (upd_count x.1 (set_tombstone e c) <$> q). split; [| apply upd_count_counts].
    exists r'. split; [done |]. pose proof (log_holds_cell _ _ _ _ Hg Hx) as Hc. cbn in Hc.
    assert (Ee : Some e = Some x.2) by (rewrite <- He; exact Hc). injection Ee as ->.
    apply (log_holds_upd _ r' k q x.1 x.2 (set_tombstone x.2 c) Hg); try done; [by destruct x |].
    cbn. by rewrite (nvlog_at_slot _ k).
  - exists q. split; [| done]. exists r'. split; [done |].
    eapply log_holds_outside; [exact Hg | done |]. cbn. intros a Ha. rewrite Hm.
    by rewrite lookup_insert_ne by lia.
Qed.

Lemma mark_tombstone_run s k q cur :
  holds CKPTLOG s k q -> live (n_buffer (ckptlog (self s))) k q (obj_to_ckpt_ent cur) ->
  is_ckpt (sh s) (obj_to_ckpt_ent cur) ->
  exists s' q', mark_tombstone cur s = Ok (tt, s') /\ holds CKPTLOG s' k q' /\ q'.*1 = q.*1 /\
    self s' = self s /\ sh s' = (sh s) <| sh_pm := sh_pm (sh s') |> /\
    tombstoned (sh s') (obj_to_ckpt_ent cur) /\
    (forall e, is_ckpt (sh s) e -> is_ckpt (sh s') e) /\ (forall e, tombstoned (sh s) e -> tombstoned (sh s') e).
Proof.
  intros Hs Hl [[e c] Hc]. set (ent := obj_to_ckpt_ent cur) in *. unfold mark_tombstone. fold ent.
  erewrite bind_run by (unfold get_ckpt_entry; by rewrite Hc). cbv zeta.
  pose proof (proj1 (ckpt_entry_cell _ _ _ _) Hc) as [He Hb].
  set (m := clwb (ent + 32) (store_lines (ent + 32) 1
    ((sh_pm (sh s)) <| cells ::= (fun k => <[ent := set_tombstone e c]> k) |>))).
  destruct (holds_set_tombstone s k q ent e c m Hs Hl He) as (q' & Hq' & Eq'); [unfold m; by rewrite cells_clwb |].
  exists (s <| sh ::= (fun h => h <| sh_pm := m |>) |>), q'. split; [done |]. split; [done |]. split; [done |].
  split; [done |]. split; [done |].
  assert (Hent : forall a, ckpt_entry_of ((sh s) <| sh_pm := m |>) a =
    if decide (a = ent) then Some (set_tombstone e c, c <| tombstone := 1 |>) else ckpt_entry_of (sh s) a).
  { intros a. unfold ckpt_entry_of. cbn. unfold m. rewrite cells_clwb. cbn. case_decide as Ha.
    - subst. by rewrite lookup_insert_eq.
    - by rewrite lookup_insert_ne. }
  cbn [upd sh]. split.
  { do 2 eexists. rewrite Hent, decide_True by done. split; [reflexivity |]. done. }
  split; intros a; [unfold is_ckpt | unfold tombstoned]; rewrite Hent; case_decide; try done.
  do 2 eexists. split; [reflexivity |]. done.
Qed.
(** * Facts: a freed copy in a write set that is reclaimed *)

Lemma stored_same s s' k M m :
  ckptlog (self s') = ckptlog (self s) ->
  stores (sh s') !! n_store (ckptlog (self s)) = stores (sh s) !! n_store (ckptlog (self s)) ->
  stored k M m s -> stored k M m s'.
Proof.
  intros En Est (r & Hr & Hok & Hlt). unfold log_of in Hr. change (sel_get CKPTLOG (self s)) with (ckptlog (self s)) in Hr.
  destruct (stores (sh s) !! n_store (ckptlog (self s))) as [t |] eqn:Et; [| done]. cbn in Hr. injection Hr as <-.
  exists (mk_nvst (ckptlog (self s')) t (sh_pm (sh s'))). unfold log_of. cbn. rewrite En, Est. done.
Qed.

(** the checkpoint log after [_ckptlog_enq] has written its entry for [c], of
    the object with header [v], and before the object's bytes are copied *)
Record entry_written (k M : Z) (m : nat) (q : entries) (wrt_clk ckpt_s : Z) (c : ts_cpy_hdr_struct)
    (v : ts_act_vhdr) (s : st) (cnt : Z) (s' : st) : Prop := {
  ew_log : holds CKPTLOG s' k (q ++ [(cnt, ckpt_entry wrt_clk ckpt_s c v)]);
  ew_room : room_for (ckptlog (self s')) k M m;
  ew_stored : stored k M m s';
  ew_buffer : n_buffer (ckptlog (self s')) = n_buffer (ckptlog (self s));
  ew_only : only_ckptlog s s';
  ew_grows : grows (n_buffer (ckptlog (self s))) k q (sh s) (q ++ [(cnt, ckpt_entry wrt_clk ckpt_s c v)]) (sh s') }.

Lemma enq_entry_run s k q M m wrt_clk ckpt_s obj c v :
  holds CKPTLOG s k q -> room_for (ckptlog (self s)) k M (S m) -> stored k M (S m) s ->
  heap (sh s) !! obj = Some (CCpy c) -> vhdrs (sh s) !! c_act_vhdr (cpy_hdr c) = Some v ->
  0 <= obj_size (c_hdr c) < 2 ^ 30 -> entry_size_of (ckpt_size c) <= M ->
  exists cnt s2, let a := slot (n_buffer (ckptlog (self s))) k cnt in
    _ckptlog_enq wrt_clk ckpt_s obj s =
      (when (negb (is_free c))
         (memcpy_obj (ckpt_ent_obj a) obj (obj_size (c_hdr c)) ;;; st_dirty (ckpt_ent_obj a) (obj_size (c_hdr c))) ;;;
       put_vhdr (c_act_vhdr (cpy_hdr c)) (fun v => v <| np_cur_act := ckpt_ent_obj a |>) ;;;
       ret a) s2 /\
    entry_written k M m q wrt_clk ckpt_s c v s cnt s2.
Proof.
  intros Hs Hroom Hsto Hc Hv Hsz HM. destruct (holds_log CKPTLOG s k q Hs) as (r0 & Hr0 & En0 & Hg0).
  change (sel_get CKPTLOG (self s)) with (ckptlog (self s)) in En0. pose proof (log_holds_counts _ _ _ Hg0) as Hcnt.
  rewrite En0 in Hcnt. assert (Hsz' : 0 <= ckpt_size c < 2 ^ 31) by (unfold ckpt_size, sizeof_ckpt_entry_hdr, sizeof_obj_hdr; lia).
  destruct (room_for_has _ _ _ _ _ Hroom ltac:(lia) Hsz' HM) as [Hhas Htl].
  destruct (ckptlog_enq_run s k q wrt_clk ckpt_s obj c v Hs Hc Hv Hsz Hhas) as (s2 & r & E & Hne & Honly & Hr & Hh & Henq).
  pose proof (has_room_after _ _ _ Hhas) as Hgrow. fold (ckpt_count (ckptlog (self s)) k c) in *.
  set (cnt := ckpt_count (ckptlog (self s)) k c) in *. specialize (Henq r0 Hr0).
  assert (Ea : ckpt_addr (ckptlog (self s)) k c = slot (n_buffer (ckptlog (self s))) k cnt).
  { unfold ckpt_addr. rewrite (nvlog_at_slot _ k); [done |]. by eapply holds_geom. }
  exists cnt, s2. cbv zeta. rewrite <- Ea. split; [exact E |].
  set (x := (cnt, ckpt_entry wrt_clk ckpt_s c v)) in *.
  assert (Hs2 : holds CKPTLOG s2 k (q ++ [x])) by (by exists r).
  assert (En2 : ckptlog (self s2) = nv r).
  { unfold log_of in Hr. destruct (stores (sh s2) !! _); [| done]. cbn in Hr. by injection Hr as <-. }
  assert (Hsto2 : stored k M m s2).
  { destruct Hsto as (r1 & Hr1 & Hok & Hle & Hlt). assert (r1 = r0) as -> by congruence. exists r. split; [done |].
    destruct Henq as [E1 E2 E3 E4 E5 E6 _]. destruct Hroom as ((HM1 & _) & _ & _). split.
    - destruct Hok as (S1 & S2 & S3). unfold store_ok, store_apart in *. by rewrite E1, E2, E3, E4.
    - rewrite E1, E6. rewrite En0 in Hle, Hlt. lia. }
  destruct Henq as [_ Eb Es _ Eh Et Ecells]. rewrite En0 in *. rewrite <- En2 in Eb, Es, Eh, Et.
  split; [done | | done | done | done |].
  { destruct Hroom as (R1 & R2 & R3). split; [done |]. rewrite Eh, Et. lia. }
  intros ent Hl. destruct (live_kept s s2 k q x ent Hs Hs2 Eb) as [Hl' Ee]; [| done |].
  { intros y Hy. rewrite En2 in *. unfold log_of in Hr, Hr0. destruct (stores (sh s2) !! _); [| done]. destruct (stores (sh s) !! _); [| done].
    cbn in Hr, Hr0. injection Hr as <-. injection Hr0 as <-. apply Ecells. cbn. by rewrite (geom_size _ k) by (by eapply holds_geom). }
  rewrite Eb in Hl'. split; [done |]. unfold is_ckpt, tombstoned. by rewrite Ee.
Qed.

(** the written entry in memory *)
Lemma entry_written_cell k M m q wrt_clk ckpt_s c v s cnt s' :
  entry_written k M m q wrt_clk ckpt_s c v s cnt s' ->
  cells (sh_pm (sh s')) !! slot (n_buffer (ckptlog (self s))) k cnt = Some (ckpt_entry wrt_clk ckpt_s c v).
Proof.
  intros Hw. rewrite <- (ew_buffer _ _ _ _ _ _ _ _ _ _ _ Hw).
  exact (holds_cell s' k _ (cnt, ckpt_entry wrt_clk ckpt_s c v) (ew_log _ _ _ _ _ _ _ _ _ _ _ Hw) ltac:(elems)).
Qed.

Lemma enq_tombstone_run s k q M m wrt_clk ckpt_s obj c v :
  let b := n_buffer (ckptlog (self s)) in
  holds CKPTLOG s k q -> room_for (ckptlog (self s)) k M (S m) -> stored k M (S m) s ->
  heap (sh s) !! obj = Some (CCpy c) -> is_free c = true -> vhdrs (sh s) !! c_act_vhdr (cpy_hdr c) = Some v ->
  0 <= obj_size (c_hdr c) < 2 ^ 30 -> entry_size_of (ckpt_size c) <= M ->
  exists a s' q', ckptlog_enq_tombstone wrt_clk ckpt_s obj s = Ok (a, s') /\
    holds CKPTLOG s' k q' /\ room_for (ckptlog (self s')) k M m /\ stored k M m s' /\ n_buffer (ckptlog (self s')) = b /\
    self s' = (self s) <| ckptlog := ckptlog (self s') |> /\
    sh s' = (sh s) <| stores := stores (sh s') |> <| sh_pm := sh_pm (sh s') |>
                   <| vhdrs := <[c_act_vhdr (cpy_hdr c) := v <| np_cur_act := ckpt_ent_obj a |>]> (vhdrs (sh s)) |> /\
    live b k q' a /\ tombstoned (sh s') a /\ grows b k q (sh s) q' (sh s').
Proof.
  intros b Hs Hroom Hsto Hc Hf Hv Hsz HM.
  destruct (enq_entry_run s k q M m wrt_clk ckpt_s obj c v Hs Hroom Hsto Hc Hv Hsz HM) as (cnt & s2 & E & Hw).
  pose proof (entry_written_cell _ _ _ _ _ _ _ _ _ _ _ Hw) as Hcell. destruct Hw as [Hs2 Hr2 Hst2 Eb [Hse Hsh] Hg].
  cbv zeta in E. fold b in E, Hcell, Eb, Hg. set (a := slot b k cnt) in *.
  unfold ckptlog_enq_tombstone. rewrite E, Hf. cbn [negb]. msteps.
  assert (Hv2 : vhdrs (sh s2) !! c_act_vhdr (cpy_hdr c) = Some v) by (by rewrite Hsh).
  mrun (put_vhdr_run s2 _ v (fun v => v <| np_cur_act := ckpt_ent_obj a |>) Hv2).
  set (s3 := _ <| sh ::= _ |>). exists a, s3, (q ++ [(cnt, ckpt_entry wrt_clk ckpt_s c v)]).
  split; [reflexivity |]. split; [by eapply holds_ext |]. split; [done |]. split; [exact Hst2 |]. split; [done |].
  split; [exact Hse |]. split; [cbn; rewrite Hsh at 1; by rewrite Hsh |].
  split; [left; eexists; split; [apply elem_of_app; right; by left | done] |]. split; [| exact Hg].
  exists (ckpt_entry wrt_clk ckpt_s c v),
    (mk_ckpt_entry_hdr ckpt_s (np_org_act v) 1 (mk_obj_hdr (obj_size (c_hdr c)) 0 TYPE_NVLOG_ENTRY STATUS_NONE)).
  split; [| done]. apply ckpt_entry_cell. split; [exact Hcell |]. cbn. unfold is_free in Hf. by rewrite Hf.
Qed.

(** a copy that is checkpointed: its bytes are in the entry, which becomes the
    current master *)
Lemma enq_copy_run s k q M m wrt_clk ckpt_s obj c v bytes :
  let b := n_buffer (ckptlog (self s)) in
  holds CKPTLOG s k q -> room_for (ckptlog (self s)) k M (S m) -> stored k M (S m) s ->
  heap (sh s) !! obj = Some (CCpy c) -> is_free c = false -> vhdrs (sh s) !! c_act_vhdr (cpy_hdr c) = Some v ->
  obj_data (sh s) !! obj = Some bytes -> 0 <= obj_size (c_hdr c) < 2 ^ 30 -> entry_size_of (ckpt_size c) <= M ->
  exists cnt rest s', let a := slot b k cnt in let q' := q ++ [(cnt, ckpt_entry wrt_clk ckpt_s c v)] in
    ckptlog_enq wrt_clk ckpt_s obj s = Ok (a, s') /\
    holds CKPTLOG s' k q' /\ room_for (ckptlog (self s')) k M m /\ stored k M m s' /\ n_buffer (ckptlog (self s')) = b /\
    self s' = (self s) <| ckptlog := ckptlog (self s') |> /\
    sh s' = (sh s) <| stores := stores (sh s') |> <| sh_pm := sh_pm (sh s') |>
      <| vhdrs := <[c_act_vhdr (cpy_hdr c) := v <| np_cur_act := ckpt_ent_obj a |>]> (vhdrs (sh s)) |>
      <| obj_data := <[ckpt_ent_obj a := take (Z.to_nat (obj_size (c_hdr c))) bytes ++ rest]> (obj_data (sh s)) |> /\
    is_ckpt (sh s') a /\ grows b k q (sh s) q' (sh s').
Proof.
  intros b Hs Hroom Hsto Hc Hf Hv Hbytes Hsz HM.
  destruct (enq_entry_run s k q M m wrt_clk ckpt_s obj c v Hs Hroom Hsto Hc Hv Hsz HM) as (cnt & s2 & E & Hw).
  pose proof (entry_written_cell _ _ _ _ _ _ _ _ _ _ _ Hw) as Hcell. destruct Hw as [Hs2 Hr2 Hst2 Eb [Hse Hsh] Hg].
  cbv zeta in E. fold b in E, Hcell, Eb, Hg. set (a := slot b k cnt) in *.
  set (rest := drop (Z.to_nat (obj_size (c_hdr c))) (default [] (obj_data (sh s2) !! ckpt_ent_obj a))).
  assert (Hb2 : obj_data (sh s2) !! obj = Some bytes) by (by rewrite Hsh).
  unfold ckptlog_enq. rewrite E, Hf. cbn [negb]. msteps.
  mrun (memcpy_obj_run (ckpt_ent_obj a) obj (obj_size (c_hdr c)) s2 bytes Hb2). unfold st_dirty, mod_sh. msteps.
  erewrite bind_run by (apply (put_vhdr_run _ _ v); cbn; by rewrite Hsh).
  set (s3 := _ <| sh ::= _ |>). exists cnt, rest, s3. cbv zeta. fold a. split; [reflexivity |].
  split; [by eapply holds_ext |]. split; [done |]. split; [by eapply stored_same; [| | exact Hst2] |]. split; [done |].
  split; [exact Hse |]. split; [cbn; subst rest; rewrite Hsh; reflexivity |]. split; [| exact Hg].
  eexists (_, _). apply ckpt_entry_cell. split; [exact Hcell |]. reflexivity.
Qed.

Lemma room_for_less n k M m : room_for n k M (S m) -> room_for n k M m.
Proof. intros (H1 & H2 & H3). split; [done |]. lia. Qed.

Lemma stored_less k M m s : 0 <= M -> stored k M (S m) s -> stored k M m s.
Proof. intros HM (r & H1 & H2 & H3 & H4). exists r. split; [done |]. split; [done |]. split; [done |]. lia. Qed.

Lemma tomb_ready_less k M m objs s : tomb_ready k M (S m) objs s -> tomb_ready k M m objs s.
Proof.
  intros (q & H1 & H2 & H3 & H4). exists q. split; [done |]. split; [by apply room_for_less |]. split; [| done].
  destruct H2 as ((HM & _) & _ & _). apply stored_less; [lia | done].
Qed.

Lemma mark_marked c : o_status (c_hdr c) = STATUS_TOMBSTONE_MARKED -> mark c = c.
Proof. destruct c as [? []]. cbn. by intros ->. Qed.

(** marking the copy [obj], whose tombstone is set *)
Lemma tomb_ready_mark k M m objs s obj c q :
  holds CKPTLOG s k q -> room_for (ckptlog (self s)) k M m -> stored k M m s ->
  heap (sh s) !! obj = Some (CCpy c) -> is_free c = true ->
  (forall o d, o ∈ objs -> heap (sh s) !! o = Some (CCpy d) -> is_free d = true ->
     free_ok (n_buffer (ckptlog (self s))) k M q (sh s) d) ->
  (exists v, vhdrs (sh s) !! c_act_vhdr (cpy_hdr c) = Some v /\
     live (n_buffer (ckptlog (self s))) k q (cur_ent v) /\ tombstoned (sh s) (cur_ent v)) ->
  tomb_ready k M m objs (s <| sh ::= (fun h => h <| heap ::= (fun m => <[obj := CCpy (mark c)]> m) |>) |>).
Proof.
  intros Hs Hroom Hsto Hc Hf Hall Hv. exists q. split; [by eapply holds_ext |]. split; [done |]. split; [done |]. intros o d Ho Hd Hfd.
  cbn in Hd. destruct (decide (o = obj)) as [-> | Hne].
  - rewrite lookup_insert_eq in Hd. injection Hd as <-. destruct (Hall obj c Ho Hc Hf) as (F1 & F2 & v & Ev & Fm & _).
    split; [done |]. split; [done |]. exists v. destruct Hv as (v' & Ev' & Hl). assert (v' = v) as -> by congruence. done.
  - rewrite lookup_insert_ne in Hd by done. exact (Hall o d Ho Hd Hfd).
Qed.

Definition mark_state (obj : Z) (c : ts_cpy_hdr_struct) (s : st) : st :=
  s <| sh ::= (fun h => h <| heap ::= (fun m => <[obj := CCpy (mark c)]> m) |>) |>.

(** the caller's log and the objects' headers as they are after [s], up to the
    checkpoint log and the headers [vh] *)
Lemma marking_state s s' obj c :
  heap (sh s) !! obj = Some (CCpy c) -> is_free c = true ->
  self s' = (self s) <| ckptlog := ckptlog (self s') |> -> n_buffer (ckptlog (self s')) = n_buffer (ckptlog (self s)) ->
  sh s' = (sh s) <| vhdrs := vhdrs (sh s') |> <| stores := stores (sh s') |> <| sh_pm := sh_pm (sh s') |> ->
  (forall p, (fun v => (v_copy v, v_lock v, np_org_act v)) <$> vhdrs (sh s') !! p =
             (fun v => (v_copy v, v_lock v, np_org_act v)) <$> vhdrs (sh s) !! p) ->
  marking s (mark_state obj c s').
Proof.
  intros Hc Hf Hse Eb Hsh Hv. split; [done | done | | done |].
  - intros o. cbn. rewrite Hsh. cbn. destruct (decide (o = obj)) as [-> | Hne].
    + right. exists c. by rewrite lookup_insert_eq.
    + left. by rewrite lookup_insert_ne.
  - cbn. rewrite Hsh. by destruct (sh s).
Qed.

Lemma vhdr_kept_insert (m : gmap Z ts_act_vhdr) p v v' x :
  m !! p = Some v -> (v_copy v', v_lock v', np_org_act v') = (v_copy v, v_lock v, np_org_act v) ->
  (fun v => (v_copy v, v_lock v, np_org_act v)) <$> <[p := v']> m !! x =
  (fun v => (v_copy v, v_lock v, np_org_act v)) <$> m !! x.
Proof.
  intros Hp Hv. destruct (decide (x = p)) as [-> | Hne].
  - rewrite lookup_insert_eq, Hp. cbn. by f_equal.
  - by rewrite lookup_insert_ne.
Qed.

Lemma reclaim_free_step k M m objs s obj c mode ckpt_s wrt_clk dirty :
  tomb_ready k M (S m) objs s -> obj ∈ objs -> heap (sh s) !! obj = Some (CCpy c) -> is_free c = true ->
  o_status (c_hdr c) <> STATUS_TOMBSTONE_MARKED ->
  exists dirty' s', reclaim_body mode ckpt_s wrt_clk obj dirty s = Ok (inl dirty', s') /\
    tomb_ready k M m objs s' /\ marking s s' /\ heap (sh s') !! obj = Some (CCpy (mark c)).
Proof.
  intros (q & Hs & Hroom & Hsto & Hall) Ho Hc Hf Hst. destruct (Hall obj c Ho Hc Hf) as (F1 & F2 & v & Ev & Fm & _).
  unfold reclaim_body. mrun (get_chs_run s obj c Hc). pose proof Hf as Hty. unfold is_free in Hty. apply bool_decide_eq_true in Hty.
  rewrite Hty, bool_decide_eq_false_2 by done. mrun (get_vhdr_run s _ v Ev). set (p := c_act_vhdr (cpy_hdr c)) in *.
  destruct (Z.eqb_spec (np_cur_act v) (np_org_act v)) as [Ecur | Ecur].
  - rewrite !bind_assoc. mrun (put_vhdr_run s p v (fun v => v <| tombstone_clk := ckpt_s |>) Ev).
    set (s1 := _ <| sh ::= _ |>). set (v1 := _ <| tombstone_clk := ckpt_s |>) in *. rewrite bind_assoc.
    destruct (enq_tombstone_run s1 k q M m wrt_clk ckpt_s obj c v1) as
      (a & s2 & q' & E & Hs2 & Hroom2 & Hsto2 & Eb & Hse & Hsh & Hl & Ht & Hg); try done.
    { cbn. by rewrite lookup_insert_eq. }
    mrun E. msteps. assert (Hc2 : heap (sh s2) !! obj = Some (CCpy c)) by (by rewrite Hsh).
    change (n_buffer (ckptlog (self s1))) with (n_buffer (ckptlog (self s))) in *.
    mrun (put_chs_run s2 obj c (fun c => c <| c_hdr ::= (fun h => h <| o_status := STATUS_TOMBSTONE_MARKED |>) |>) Hc2).
    exists true, (mark_state obj c s2). split; [reflexivity |].
    assert (Evs : vhdrs (sh s2) = <[p := v1 <| np_cur_act := ckpt_ent_obj a |>]> (vhdrs (sh s))).
    { rewrite Hsh. cbn. by rewrite insert_insert_eq. }
    assert (Ea : cur_ent (v1 <| np_cur_act := ckpt_ent_obj a |>) = a).
    { unfold cur_ent, obj_to_ckpt_ent, ckpt_ent_obj. cbn. lia. }
    split; [| split].
    + eapply (tomb_ready_mark k M m objs s2 obj c q'); try done.
      * intros o d Hin Hd Hfd. rewrite Eb. rewrite Hsh in Hd. apply (free_ok_step _ _ _ q (sh s)); [exact Hg | | by apply (Hall o)].
        intros x w Hw. rewrite Evs. destruct (decide (x = p)) as [-> | Hne].
        -- rewrite lookup_insert_eq. eexists. split; [reflexivity |]. left. by rewrite Ea.
        -- rewrite lookup_insert_ne by done. exists w. split; [done |]. by right.
      * eexists. rewrite Evs, lookup_insert_eq. split; [reflexivity |]. by rewrite Ea, Eb.
    + apply marking_state; try done.
      * rewrite Evs, Hsh. cbn. by rewrite insert_insert_eq.
      * intros x. rewrite Evs. by eapply vhdr_kept_insert.
    + cbn. by rewrite lookup_insert_eq.
  - destruct Fm as [Fm | [Fl Fc]]; [done |].
    destruct (mark_tombstone_run s k q (np_cur_act v) Hs Fl Fc) as (s2 & q' & E & Hs2 & Eq & Hse & Hsh & Ht & Hck & Htm).
    rewrite bind_assoc. mrun E. msteps. assert (Hc2 : heap (sh s2) !! obj = Some (CCpy c)) by (by rewrite Hsh).
    mrun (put_chs_run s2 obj c (fun c => c <| c_hdr ::= (fun h => h <| o_status := STATUS_TOMBSTONE_MARKED |>) |>) Hc2).
    assert (Ev2 : vhdrs (sh s2) = vhdrs (sh s)) by (by rewrite Hsh).
    exists dirty, (mark_state obj c s2). split; [reflexivity |]. split; [| split].
    + eapply (tomb_ready_mark k M m objs s2 obj c q'); try done.
      * rewrite Hse. by apply room_for_less.
      * destruct Hroom as ((HM & _) & _ & _). apply stored_less; [lia |].
        apply (stored_same s); [by rewrite Hse | by rewrite Hsh | done].
      * intros o d Hin Hd Hfd. rewrite Hse. rewrite Hsh in Hd. apply (free_ok_step _ _ _ q (sh s)).
        -- intros ent Hl. split; [by eapply live_counts | auto].
        -- intros x w Hw. rewrite Ev2. exists w. split; [done |]. by right.
        -- by apply (Hall o).
      * exists v. rewrite Ev2, Hse. split; [done |]. split; [by eapply live_counts | done].
    + apply marking_state; try done.
      * rewrite Hse. by destruct (self s).
      * by rewrite Hse.
      * rewrite Hsh. by destruct (sh s).
      * intros x. by rewrite Ev2.
    + cbn. by rewrite lookup_insert_eq.
Qed.
End Tombstone.
