(* ===== verification/LogSets.v ===== *)
(** The version log as the sequence of write sets that reclamation walks
    ([tvlog_reclaim_x] of [lib/tvlog.c]). *)
From S2P Require Export Tombstone.

Section LogSets.
Context `{Env}.

(** * Write sets in a row *)

(** a write set at count [s_cnt], its entries and where it ends *)
Record wset := mk_wset { s_cnt : Z; s_end : Z; s_ws : ts_wrt_set; s_entries : list Z }.

(** [L] are the write sets between two counts *)
Inductive log_sets (s : st) : Z -> list wset -> Z -> Prop :=
| sets_nil c : log_sets s c [] c
| sets_cons d L e :
    0 <= s_cnt d -> s_cnt d + 64 <= s_end d ->
    ws_layout s (tvlog_obj (tvlog (self s)) (s_cnt d)) (s_ws d) (s_entries d) (s_end d) ->
    log_sets s (s_end d) L e -> log_sets s (s_cnt d) (d :: L) e.

(** a walk takes the first write sets on which [f] holds: where it ends, and
    which it takes and which it leaves *)
Fixpoint span_sets (f : wset -> bool) (c : Z) (L : list wset) : Z :=
  match L with d :: L' => if f d then span_sets f (s_end d) L' else c | [] => c end.
Fixpoint taken (f : wset -> bool) (L : list wset) : list wset :=
  match L with d :: L' => if f d then d :: taken f L' else [] | [] => [] end.
Fixpoint left_over (f : wset -> bool) (L : list wset) : list wset :=
  match L with d :: L' => if f d then left_over f L' else L | [] => [] end.

Lemma taken_left f L : taken f L ++ left_over f L = L.
Proof. induction L as [| d L IH]; cbn; [done |]. destruct (f d); cbn; [by rewrite IH | done]. Qed.

Lemma taken_true f L d : d ∈ taken f L -> f d = true /\ d ∈ L.
Proof.
  induction L as [| x L IH]; cbn; [by intros ?%not_elem_of_nil |]. destruct (f x) eqn:E; [| by intros ?%not_elem_of_nil].
  intros [-> | Hd]%elem_of_cons; [split; [done | by left] |]. destruct (IH Hd). split; [done | by right].
Qed.

Lemma left_over_false f L : match left_over f L with [] => True | d :: _ => f d = false end.
Proof. induction L as [| x L IH]; cbn; [done |]. by destruct (f x) eqn:E. Qed.

Lemma span_ext f g c L : (forall d, d ∈ L -> f d = g d) -> span_sets f c L = span_sets g c L.
Proof.
  revert c. induction L as [| d L IH]; intros c Hfg; cbn; [done |]. rewrite (Hfg d) by (by left).
  destruct (g d); [| done]. apply IH. intros. apply Hfg. by right.
Qed.

Lemma log_sets_start s c L e : log_sets s c L e -> match L with d :: _ => c = s_cnt d | [] => c = e end.
Proof. by inversion 1. Qed.

Lemma log_sets_span f s c L e : log_sets s c L e -> log_sets s (span_sets f c L) (left_over f L) e.
Proof.
  induction 1 as [c | d L e Hc Hd Hl Hs IH]; cbn; [constructor |]. destruct (f d); [done |]. by constructor.
Qed.

Lemma log_sets_le s c L e : log_sets s c L e -> c <= e /\ 64 * Z.of_nat (length L) <= e - c.
Proof. induction 1 as [c | d L e Hc Hd Hl Hs IH]; cbn [length]; lia. Qed.

Lemma span_bounds f s c L e : log_sets s c L e -> c <= span_sets f c L <= e.
Proof.
  induction 1 as [c | d L e Hc Hd Hl Hs IH]; cbn; [lia |].
  pose proof (log_sets_le _ _ _ _ Hs). destruct (f d); lia.
Qed.

Lemma fuel_enough s c L e : log_sets s c L e -> (length L < tvlog_fuel c e)%nat.
Proof.
  intros Hs. destruct (log_sets_le _ _ _ _ Hs) as [_ Hl]. unfold tvlog_fuel.
  change TS_CACHE_LINE_SIZE with 64. assert (Z.of_nat (length L) <= (e - c) / 64) by (apply Z.div_le_lower_bound; lia). lia.
Qed.

Definition n_entries (L : list wset) : nat := foldr (fun d n => length (s_entries d) + n)%nat 0%nat L.
Definition set_objs (s : st) (L : list wset) : list Z := d ← L; tvlog_obj (tvlog (self s)) <$> s_entries d.

Lemma set_objs_elem s L d c : d ∈ L -> c ∈ s_entries d -> tvlog_obj (tvlog (self s)) c ∈ set_objs s L.
Proof. intros Hd Hc. apply list_elem_of_bind. exists d. split; [by apply list_elem_of_fmap_2 | done]. Qed.

(** * Facts: marking keeps the write sets *)

Lemma marking_tvlog s s' : marking s s' -> tvlog (self s') = tvlog (self s).
Proof. intros [E _ _ _ _]. by rewrite E. Qed.
Lemma marking_ws s s' : marking s s' -> wrt_sets (sh s') = wrt_sets (sh s).
Proof. intros [_ _ _ _ E]. by rewrite E. Qed.

Lemma marking_entry s s' c h :
  marking s s' -> entry_at s c = Some h ->
  exists h', entry_at s' c = Some h' /\ (h' = h \/ (is_free h = true /\ h' = mark h)).
Proof.
  intros Hm He. apply entry_at_heap in He. unfold entry_at. rewrite (marking_tvlog _ _ Hm).
  destruct (mk_heap _ _ Hm (tvlog_obj (tvlog (self s)) c)) as [-> | (d & Hd & Hf & ->)].
  - rewrite He. exists h. split; [done | by left].
  - rewrite He in Hd. injection Hd as <-. exists (mark h). split; [done | by right].
Qed.

Lemma marking_sizes ws all s s' : marking s s' -> sizes_kept ws all s s'.
Proof.
  intros Hm. split; [| by rewrite (marking_ws _ _ Hm) | by apply marking_tvlog].
  intros c _. destruct (entry_at s c) as [h |] eqn:E.
  - destruct (marking_entry _ _ _ _ Hm E) as (h' & -> & [-> | [_ ->]]); [done |]. by destruct h as [? []].
  - unfold entry_at in *. rewrite (marking_tvlog _ _ Hm).
    destruct (mk_heap _ _ Hm (tvlog_obj (tvlog (self s)) c)) as [-> | (d & Hd & Hf & ->)]; [by rewrite E | by rewrite Hd in E].
Qed.

Lemma marking_layout s s' ws w l e : marking s s' -> ws_layout s ws w l e -> ws_layout s' ws w l e.
Proof.
  intros Hm [Hw Hn Hs (h & Hh & Hr & Hp)]. split; [by rewrite (marking_ws _ _ Hm) | done | done |].
  pose proof (path_kept ws l s s' _ l e (marking_sizes ws l s s' Hm) ltac:(done) Hp) as Hp'.
  destruct (mk_heap _ _ Hm ws) as [E | (d & Hd & Hf & E)].
  - exists h. by rewrite E.
  - rewrite Hh in Hd. injection Hd as <-. exists (mark h). split; [done |]. by destruct h as [? []].
Qed.

Lemma marking_sets s s' c L e : marking s s' -> log_sets s c L e -> log_sets s' c L e.
Proof.
  intros Hm. induction 1 as [c | d L e Hc Hd Hl Hs IH]; constructor; try done.
  rewrite (marking_tvlog _ _ Hm). by eapply marking_layout.
Qed.

Lemma entry_unmarked s s' c h' :
  marking s s' -> entry_at s' c = Some h' ->
  exists h, entry_at s c = Some h /\ (h' = h \/ (is_free h = true /\ h' = mark h)).
Proof.
  intros Hm He. pose proof (kept_sizes _ _ _ _ (marking_sizes 0 [c] _ _ Hm) c ltac:(elems)) as K. rewrite He in K.
  destruct (entry_at s c) as [h |] eqn:E; [| done]. exists h. split; [done |].
  destruct (marking_entry _ _ _ _ Hm E) as (h2 & E2 & Hh). by assert (h2 = h') as -> by congruence.
Qed.

(** a property that holds of the entry at a count, and of all entries of a write
    set *)
Definition passes (P : ts_cpy_hdr_struct -> bool) (s : st) (c : Z) : bool :=
  match entry_at s c with Some h => P h | None => false end.
Definition all_entries (P : ts_cpy_hdr_struct -> bool) (s : st) (d : wset) : bool :=
  forallb (passes P s) (s_entries d).

Lemma all_entries_true P s d : (forall c, c ∈ s_entries d -> passes P s c = true) -> all_entries P s d = true.
Proof. intros HP. apply forallb_forall. intros x Hx. apply HP. by apply list_elem_of_In. Qed.
Lemma not_all_entries P s d c : c ∈ s_entries d -> passes P s c = false -> all_entries P s d = false.
Proof.
  intros Hc Hf. apply not_true_is_false. intros Ht. unfold all_entries in Ht. rewrite forallb_forall in Ht.
  rewrite (Ht c) in Hf; [done |]. by apply list_elem_of_In.
Qed.

Lemma all_entries_marking P s s' d :
  (forall h, is_free h = true -> P (mark h) = P h) -> marking s s' -> all_entries P s' d = all_entries P s d.
Proof.
  intros HP Hm. unfold all_entries. induction (s_entries d) as [| x l IH]; [done |]. cbn. rewrite IH. f_equal. unfold passes.
  destruct (entry_at s x) as [h |] eqn:E.
  - destruct (marking_entry _ _ _ _ Hm E) as (h' & -> & [-> | [Hf ->]]); auto.
  - pose proof (kept_sizes _ _ _ _ (marking_sizes 0 [x] _ _ Hm) x ltac:(elems)) as K. rewrite E in K.
    by destruct (entry_at s' x).
Qed.

(** * The first walk: what it may take *)

(** in best-effort mode a copy must have been superseded before [qp0] *)
Definition may_reclaim (mode qp0 : Z) (h : ts_cpy_hdr_struct) : bool :=
  negb (bool_decide (o_type (c_hdr h) = TYPE_COPY) && (mode =? RECLAIM_TVLOG_BEST_EFFORT) &&
        gte_clock (wrt_clk_prev (cpy_hdr h)) qp0).

Definition reclaimable (mode qp0 prev_head : Z) (s : st) (d : wset) : bool :=
  negb (s_cnt d =? prev_head) && negb (ws_wrt_clk (s_ws d) =? MAX_VERSION) && all_entries (may_reclaim mode qp0) s d.

(** * The second walk *)

(** a version that a checkpoint has to take *)
Definition needs_ckpt (qp0 last : Z) (h : ts_cpy_hdr_struct) : bool :=
  bool_decide (o_type (c_hdr h) = TYPE_COPY) && negb (bool_decide (o_status (c_hdr h) = STATUS_DETACHED)) &&
  is_at_borderline h qp0 last.

Definition committed_before (qp0 : Z) (d : wset) : bool :=
  negb (gte_clock (ws_wrt_clk (s_ws d)) qp0 || (ws_wrt_clk (s_ws d) =? MAX_VERSION)).

(** what the best-effort mode passes *)
Definition ckpt_done (qp0 last : Z) (s : st) (d : wset) : bool :=
  committed_before qp0 d && all_entries (fun h => negb (needs_ckpt qp0 last h)) s d.

Lemma not_free_copy h : o_type (c_hdr h) = TYPE_COPY -> is_free h = false.
Proof. unfold is_free. by intros ->. Qed.

Lemma may_reclaim_mark mode qp0 h : is_free h = true -> may_reclaim mode qp0 (mark h) = may_reclaim mode qp0 h.
Proof. done. Qed.

Lemma may_reclaim_free mode qp0 h : is_free h = true -> may_reclaim mode qp0 h = true.
Proof. unfold is_free, may_reclaim. intros E%bool_decide_eq_true. by rewrite E. Qed.

Lemma reclaimable_marking mode qp0 prev s s' d :
  marking s s' -> reclaimable mode qp0 prev s' d = reclaimable mode qp0 prev s d.
Proof. intros Hm. unfold reclaimable. f_equal. by apply all_entries_marking. Qed.

(** * Facts: the first walk *)

(** the freed copy at [c] has its mark *)
Definition marked (s0 s : st) (c : Z) : Prop :=
  forall h, entry_at s0 c = Some h -> is_free h = true -> entry_at s c = Some (mark h).

Lemma marked_kept s0 s s' c : marking s0 s -> marking s s' -> marked s0 s c -> marked s0 s' c.
Proof.
  intros Hm Hm' Hc h He Hf. destruct (marking_entry _ _ _ _ Hm' (Hc h He Hf)) as (h' & -> & [-> | [_ ->]]); done.
Qed.

(** one entry: it is passed exactly when it may be reclaimed, and then a freed
    object has its tombstone *)
Lemma reclaim_body_run k M m objs s obj c mode ckpt_s wrt_clk dirty :
  tomb_ready k M (S m) objs s -> obj ∈ objs -> heap (sh s) !! obj = Some (CCpy c) ->
  if may_reclaim mode ckpt_s c then
    exists dirty' s', reclaim_body mode ckpt_s wrt_clk obj dirty s = Ok (inl dirty', s') /\
      tomb_ready k M m objs s' /\ marking s s' /\ (is_free c = true -> heap (sh s') !! obj = Some (CCpy (mark c)))
  else reclaim_body mode ckpt_s wrt_clk obj dirty s = Ok (inr dirty, s).
Proof.
  intros Hr Ho Hc. pose proof (tomb_ready_less _ _ _ _ _ Hr) as Hr'. destruct (is_free c) eqn:Hf.
  - rewrite (may_reclaim_free _ _ _ Hf). destruct (decide (o_status (c_hdr c) = STATUS_TOMBSTONE_MARKED)) as [Hst | Hst].
    + exists dirty, s. unfold reclaim_body. mrun (get_chs_run s obj c Hc). pose proof Hf as Hty. unfold is_free in Hty.
      apply bool_decide_eq_true in Hty. rewrite Hty, bool_decide_eq_true_2 by done. split; [done |]. split; [done |].
      split; [done |]. intros _. by rewrite mark_marked.
    + destruct (reclaim_free_step k M m objs s obj c mode ckpt_s wrt_clk dirty Hr Ho Hc Hf Hst) as (d & s' & ? & ? & ? & ?).
      by exists d, s'.
  - unfold may_reclaim, reclaim_body. destruct (o_type (c_hdr c)) eqn:Hty; cbn [andb negb].
    all: try (mrun (get_chs_run s obj c Hc); rewrite Hty; exists dirty, s; done).
    + rewrite bool_decide_eq_true_2 by done. cbn [andb].
      destruct ((mode =? RECLAIM_TVLOG_BEST_EFFORT) && gte_clock (wrt_clk_prev (cpy_hdr c)) ckpt_s) eqn:E; cbn [negb].
      * mrun (get_chs_run s obj c Hc). by rewrite Hty, E.
      * exists dirty, s. mrun (get_chs_run s obj c Hc). by rewrite Hty, E.
    + unfold is_free in Hf. by rewrite Hty in Hf.
Qed.

(** one write set *)
Lemma reclaim_set_run k M m objs s d mode ckpt_s wrt_clk dirty :
  let ws := tvlog_obj (tvlog (self s)) (s_cnt d) in
  tomb_ready k M (length (s_entries d) + m) objs s -> ws_layout s ws (s_ws d) (s_entries d) (s_end d) ->
  (forall c, c ∈ s_entries d -> tvlog_obj (tvlog (self s)) c ∈ objs) ->
  exists r s', ws_for_each ws (reclaim_body mode ckpt_s wrt_clk) dirty s = Ok (r, s') /\
    tomb_ready k M m objs s' /\ marking s s' /\
    match r with
    | inl (cnt, _) => cnt = s_end d /\ all_entries (may_reclaim mode ckpt_s) s d = true /\
                      forall c, c ∈ s_entries d -> marked s s' c
    | inr _ => all_entries (may_reclaim mode ckpt_s) s d = false
    end.
Proof.
  intros ws Hr Hl Hin.
  destruct (ws_for_each_rule ws (reclaim_body mode ckpt_s wrt_clk)
    (fun rest _ s1 => marking s s1 /\ tomb_ready k M (length rest + m) objs s1 /\ exists before,
       s_entries d = before ++ rest /\ forall c, c ∈ before -> passes (may_reclaim mode ckpt_s) s c = true /\ marked s s1 c)
    (fun _ s1 => marking s s1 /\ tomb_ready k M m objs s1 /\ all_entries (may_reclaim mode ckpt_s) s d = false)
    _ _ _ dirty s Hl) as (r & s' & E & _ & Hq).
  - split; [done |]. split; [done |]. exists []. split; [done |]. by intros c ?%not_elem_of_nil.
  - intros c rest a s1 Hc (Hm & Hr1 & before & Eb & Hb) Hp.
    inversion Hp as [| ? h1 ? ? He1 _ _ _ _]; subst. rewrite (marking_tvlog _ _ Hm).
    destruct (entry_unmarked _ _ _ _ Hm He1) as (h & He & Hh). assert (Ho := Hin c Hc).
    pose proof (entry_at_heap _ _ _ He1) as Hcell. rewrite (marking_tvlog _ _ Hm) in Hcell.
    pose proof (reclaim_body_run k M (length rest + m) objs s1 _ h1 mode ckpt_s wrt_clk a Hr1 Ho Hcell) as Hrun.
    assert (EP : may_reclaim mode ckpt_s h1 = passes (may_reclaim mode ckpt_s) s c).
    { unfold passes. rewrite He. by destruct Hh as [-> | [Hf ->]]. }
    rewrite EP in Hrun. destruct (passes (may_reclaim mode ckpt_s) s c) eqn:Ep.
    + destruct Hrun as (a' & s2 & E2 & Hr2 & Hm2 & Hmark). exists (inl a'), s2. split; [exact E2 |].
      split; [by apply marking_sizes |]. split; [by transitivity s1 |]. split; [done |].
      exists (before ++ [c]). split; [by rewrite <- app_assoc |]. intros x [Hx | ->%list_elem_of_singleton]%elem_of_app.
      * destruct (Hb x Hx). split; [done |]. by eapply (marked_kept _ s1).
      * split; [done |]. intros h0 He0 Hf. assert (h0 = h) as -> by congruence. unfold entry_at.
        rewrite (marking_tvlog s s2) by (by transitivity s1).
        destruct Hh as [-> | [_ ->]]; rewrite Hmark by done; done.
    + exists (inr a), s1. split; [exact Hrun |]. split; [done |]. split; [done |]. split; [| by eapply not_all_entries].
      clear -Hr1. induction (length (c :: rest)) as [| n IH]; [done |]. apply IH. by apply tomb_ready_less.
  - exists r, s'. split; [exact E |]. destruct r as [[cnt a] | b].
    + destruct Hq as (-> & Hm & Hr' & before & Eb & Hb). rewrite app_nil_r in Eb. subst before.
      split; [done |]. split; [done |]. split; [done |]. split; [| intros c Hc; by apply Hb].
      apply all_entries_true. intros c Hc. by apply Hb.
    + destruct Hq as (Hm & Hr' & Ha). done.
Qed.

Lemma tomb_ready_sub k M m m' objs s : (m' <= m)%nat -> tomb_ready k M m objs s -> tomb_ready k M m' objs s.
Proof. induction 1 as [| m _ IH]; [done |]. intros ?%tomb_ready_less. auto. Qed.

Lemma span_taken f c d L : f d = true -> span_sets f c (d :: L) = span_sets f (s_end d) L.
Proof. cbn. by intros ->. Qed.

(** the first walk takes the longest run of write sets that may be reclaimed *)
Lemma reclaim_walk_run k M m objs mode ckpt_s prev tail L : forall s start dirty n,
  let f := reclaimable mode ckpt_s prev s in
  log_sets s start L tail -> tomb_ready k M (n_entries L + m) objs s ->
  (forall o, o ∈ set_objs s L -> o ∈ objs) -> (length L < n)%nat ->
  exists dirty' s', loop n (reclaim_round mode ckpt_s prev tail) (start, dirty) s =
      Ok ((span_sets f start L, dirty'), s') /\
    marking s s' /\ tomb_ready k M m objs s' /\
    forall d c, d ∈ taken f L -> c ∈ s_entries d -> marked s s' c.
Proof.
  induction L as [| d L IH]; intros s start dirty n f Hs Hr Hin Hn; (destruct n as [| n]; [cbn in Hn; lia |]);
    cbn [loop]; unfold reclaim_round at 1.
  - inversion Hs; subst. rewrite Z.ltb_irrefl. cbn [negb]. msteps. exists dirty, s. split; [done |]. split; [done |].
    split; [done |]. by intros d c ?%not_elem_of_nil.
  - inversion Hs as [| ? ? ? Hd Hd2 Hl Hs']; subst. pose proof (log_sets_le _ _ _ _ Hs') as [Hle _].
    rewrite (proj2 (Z.ltb_lt _ _)) by lia. cbn [negb].
    assert (Hf : f d = negb (s_cnt d =? prev) && negb (ws_wrt_clk (s_ws d) =? MAX_VERSION) && all_entries (may_reclaim mode ckpt_s) s d) by done.
    assert (Hstop : f d = false -> exists dirty' s', Ok (s_cnt d, dirty, s) = Ok (span_sets f (s_cnt d) (d :: L), dirty', s') /\
      marking s s' /\ tomb_ready k M m objs s' /\ forall d' c, d' ∈ taken f (d :: L) -> c ∈ s_entries d' -> marked s s' c).
    { intros E. exists dirty, s. cbn. rewrite E. split; [done |]. split; [done |]. split; [by eapply tomb_ready_sub; [| exact Hr]; lia |].
      by intros ? ? ?%not_elem_of_nil. }
    destruct (s_cnt d =? prev) eqn:Eprev; cbn [negb andb] in Hf; [msteps; by apply Hstop |].
    msteps. mrun (get_ws_run s _ _ (lay_ws _ _ _ _ _ Hl)).
    destruct (ws_wrt_clk (s_ws d) =? MAX_VERSION) eqn:Ewc; cbn [negb andb] in Hf; [msteps; by apply Hstop |].
    assert (Hin' : forall c, c ∈ s_entries d -> tvlog_obj (tvlog (self s)) c ∈ objs).
    { intros c Hc. apply Hin. by eapply set_objs_elem; [left |]. }
    cbn [n_entries foldr] in Hr. fold (n_entries L) in Hr. rewrite <- Nat.add_assoc in Hr.
    destruct (reclaim_set_run k M (n_entries L + m) objs s d mode ckpt_s (ws_wrt_clk (s_ws d)) dirty Hr Hl Hin')
      as (r & s1 & E & Hr1 & Hm & Hcase). rewrite bind_assoc. mrun E. destruct r as [[cnt dirty1] | dirty1].
    + destruct Hcase as (-> & Hall & Hmark). rewrite Hall in Hf. msteps. rewrite (span_taken _ _ _ _ Hf).
      destruct (IH s1 (s_end d) dirty1 n) as (dirty2 & s2 & E2 & Hm2 & Hr2 & Hmk2).
      * by eapply marking_sets.
      * exact Hr1.
      * intros o Ho. apply Hin. unfold set_objs in *. rewrite (marking_tvlog _ _ Hm) in Ho. cbn. apply elem_of_app. by right.
      * cbn in Hn. lia.
      * assert (Ext : forall x, reclaimable mode ckpt_s prev s1 x = f x) by (intros; by apply reclaimable_marking).
        exists dirty2, s2. rewrite E2. split; [do 3 f_equal; by apply span_ext |]. split; [by transitivity s1 |].
        split; [done |]. intros d' c Hd' Hc. cbn in Hd'. rewrite Hf in Hd'. apply elem_of_cons in Hd' as [-> | Hd'].
        -- apply (marked_kept s s1); auto.
        -- intros h He Hfr. destruct (marking_entry _ _ _ _ Hm He) as (h1 & He1 & Hh1).
           assert (Hd1 : d' ∈ taken (reclaimable mode ckpt_s prev s1) L).
           { clear -Hd' Ext. induction L as [| x L IH]; cbn in *; [done |]. rewrite Ext. destruct (f x); [| done].
             apply elem_of_cons in Hd' as [-> | Hd']; [by left | right; auto]. }
           destruct Hh1 as [-> | [_ ->]]; [by apply (Hmk2 d' c Hd1 Hc) |]. exact (Hmk2 d' c Hd1 Hc (mark h) He1 Hfr).
    + rewrite Hcase in Hf. msteps. exists dirty1, s1. cbn. rewrite Hf. split; [done |]. split; [done |].
      split; [by eapply tomb_ready_sub; [| exact Hr1]; lia |]. by intros ? ? ?%not_elem_of_nil.
Qed.

(** * Facts: the second walk in best-effort mode *)

Lemma ckpt_body_best_effort s obj c ckpt_s last wrt_clk acc :
  heap (sh s) !! obj = Some (CCpy c) ->
  ckpt_body RECLAIM_TVLOG_BEST_EFFORT ckpt_s last wrt_clk obj acc s =
    Ok (if needs_ckpt ckpt_s last c then inr acc else inl acc, s).
Proof.
  intros Hc. unfold ckpt_body, needs_ckpt. mrun (get_chs_run s obj c Hc).
  destruct (bool_decide (o_type (c_hdr c) = TYPE_COPY)); cbn [negb andb]; [| done].
  destruct (bool_decide (o_status (c_hdr c) = STATUS_DETACHED)); cbn [negb andb]; [done |].
  destruct (is_at_borderline c ckpt_s last); by vm_compute.
Qed.

Lemma ckpt_set_best_effort s d ckpt_s last wrt_clk acc :
  let ws := tvlog_obj (tvlog (self s)) (s_cnt d) in
  ws_layout s ws (s_ws d) (s_entries d) (s_end d) ->
  ws_for_each ws (ckpt_body RECLAIM_TVLOG_BEST_EFFORT ckpt_s last wrt_clk) acc s =
    Ok (if all_entries (fun h => negb (needs_ckpt ckpt_s last h)) s d then inl (s_end d, acc) else inr acc, s).
Proof.
  intros ws Hl. set (P := fun h => negb (needs_ckpt ckpt_s last h)).
  destruct (ws_for_each_rule ws (ckpt_body RECLAIM_TVLOG_BEST_EFFORT ckpt_s last wrt_clk)
    (fun rest a s1 => s1 = s /\ a = acc /\ exists before,
       s_entries d = before ++ rest /\ forall c, c ∈ before -> passes P s c = true)
    (fun b s1 => s1 = s /\ b = acc /\ all_entries P s d = false) _ _ _ acc s Hl) as (r & s' & E & _ & Hq).
  - split; [done |]. split; [done |]. exists []. split; [done |]. by intros c ?%not_elem_of_nil.
  - intros c rest a s1 Hc (-> & -> & before & Eb & Hb) Hp. inversion Hp as [| ? h ? ? He _ _ _ _]; subst.
    rewrite (ckpt_body_best_effort s _ h) by (by apply entry_at_heap). do 2 eexists. split; [reflexivity |]. split; [done |].
    assert (EP : passes P s c = negb (needs_ckpt ckpt_s last h)) by (unfold passes; by rewrite He).
    destruct (needs_ckpt ckpt_s last h); cbn in EP.
    + split; [done |]. split; [done |]. by eapply not_all_entries.
    + split; [done |]. split; [done |]. exists (before ++ [c]). split; [by rewrite <- app_assoc |].
      intros x [Hx | ->%list_elem_of_singleton]%elem_of_app; auto.
  - rewrite E. destruct r as [[cnt a] | b].
    + destruct Hq as (-> & -> & -> & before & Eb & Hb). rewrite app_nil_r in Eb. subst before. by rewrite all_entries_true.
    + by destruct Hq as (-> & -> & ->).
Qed.

(** in best-effort mode the second walk passes the longest run of write sets
    that the checkpoint need not look at again, and writes nothing *)
Lemma ckpt_walk_best_effort ckpt_s last tail acc s L : forall start n,
  log_sets s start L tail -> (length L < n)%nat ->
  loop n (ckpt_round RECLAIM_TVLOG_BEST_EFFORT ckpt_s last tail) (start, acc) s =
    Ok ((span_sets (ckpt_done ckpt_s last s) start L, acc), s).
Proof.
  induction L as [| d L IH]; intros start n Hs Hn; (destruct n as [| n]; [cbn in Hn; lia |]);
    cbn [loop]; unfold ckpt_round at 1.
  - inversion Hs; subst. rewrite Z.ltb_irrefl. cbn [negb]. by msteps.
  - inversion Hs as [| ? ? ? Hd Hd2 Hl Hs']; subst. pose proof (log_sets_le _ _ _ _ Hs') as [Hle _].
    rewrite (proj2 (Z.ltb_lt _ _)) by lia. cbn [negb]. msteps. mrun (get_ws_run s _ _ (lay_ws _ _ _ _ _ Hl)).
    cbn [span_sets]. unfold ckpt_done at 1, committed_before at 1.
    destruct (gte_clock (ws_wrt_clk (s_ws d)) ckpt_s || (ws_wrt_clk (s_ws d) =? MAX_VERSION)); cbn [negb andb]; [by msteps |].
    rewrite bind_assoc. mrun (ckpt_set_best_effort s d ckpt_s last (ws_wrt_clk (s_ws d)) acc Hl).
    destruct (all_entries _ s d); msteps; [| done]. apply IH; [done | cbn in Hn; lia].
Qed.
End LogSets.
