(* ===== verification/CkptReclaim.v ===== *)
(** Reclaiming the checkpoint log ([ckptlog_reclaim_x] of [lib/ckptlog.c]):
    what it drops, and what it writes back to the original objects. *)
From S2P Require Export Tombstone.

Section CkptReclaim.
Context `{Env}.

(** * The entries of the log and their objects *)

(** the object of an entry of the log of [2 ^ k] bytes at [b] *)
Definition ent_obj (b k : Z) (x : Z * ts_nvlog_entry) : Z := ckpt_ent_obj (slot b k x.1).

(** the volatile header of an original object *)
Definition vhdr_of (h : shared) (org : Z) : option Z :=
  match heap h !! org with
  | Some (CAct a) => if bool_decide (o_type (a_hdr a) = TYPE_ACTUAL) then Some (nvh_act_vhdr (act_nvhdr a)) else None
  | _ => None
  end.

(** the entry [x] checkpoints, with header [hd], the object with volatile header
    [v] at [p] *)
Record item (h : shared) (x : Z * ts_nvlog_entry) (hd : ts_ckpt_entry_hdr) (p : Z) (v : ts_act_vhdr) : Prop := {
  it_body : e_body x.2 = EB_ckpt hd;
  it_org : vhdr_of h (ce_np_org_act hd) = Some p;
  it_vhdr : vhdrs h !! p = Some v;
  it_np_org : np_org_act v = ce_np_org_act hd }.

(** the header of an entry *)
Definition hdr_of (x : Z * ts_nvlog_entry) : option ts_ckpt_entry_hdr :=
  match e_body x.2 with EB_ckpt hd => Some hd | _ => None end.
Definition has_tombstone (x : Z * ts_nvlog_entry) : bool :=
  match hdr_of x with Some hd => negb (tombstone hd =? 0) | None => false end.

(** every entry of [q] checkpoints an object, has its bytes unless the object is
    freed, and is none of the original objects *)
Record items_ok (b k : Z) (q : entries) (h : shared) : Prop := {
  its_item : forall x, x ∈ q -> exists hd p v, item h x hd p v;
  its_data : forall x, x ∈ q -> has_tombstone x = false -> is_Some (obj_data h !! ent_obj b k x);
  its_apart : forall x y hd, x ∈ q -> y ∈ q -> e_body x.2 = EB_ckpt hd -> ce_np_org_act hd <> ent_obj b k y }.

(** * What a reclamation does *)

(** the entries before the boundary of the last write-back, and from it on *)
Fixpoint before_cnt (prev : Z) (q : entries) : entries :=
  match q with x :: q' => if x.1 =? prev then [] else x :: before_cnt prev q' | [] => [] end.
Fixpoint from_cnt (prev : Z) (q : entries) : entries :=
  match q with x :: q' => if x.1 =? prev then q else from_cnt prev q' | [] => [] end.

(** the volatile header of the object of an entry *)
Definition vhdr_addr (h : shared) (x : Z * ts_nvlog_entry) : option Z :=
  hd ← hdr_of x; vhdr_of h (ce_np_org_act hd).

(** the freed objects among the dropped entries, by volatile header *)
Definition freed_objs (h : shared) (q : entries) : list Z :=
  omap (vhdr_addr h) (List.filter has_tombstone q).

(** the entry is its object's current master and is to be written back *)
Definition is_current (b k : Z) (h : shared) (x : Z * ts_nvlog_entry) : bool :=
  match vhdr_addr h x with
  | Some p => match vhdrs h !! p with Some v => np_cur_act v =? ent_obj b k x | None => false end
  | None => false
  end && negb (has_tombstone x).

(** the write-back stops at [x] *)
Definition wb_stop (b k wb_limit watermark tail : Z) (h : shared) (x : Z * ts_nvlog_entry) : bool :=
  match hdr_of x with Some hd => gt_clock (ckpt_s_clk hd) wb_limit | None => true end ||
  (is_current b k h x && (u64 (tail - x.1) <? watermark)).

(** the entries that the write-back passes, and the rest *)
Fixpoint wb_passed (stop : Z * ts_nvlog_entry -> bool) (q : entries) : entries :=
  match q with x :: q' => if stop x then [] else x :: wb_passed stop q' | [] => [] end.
Fixpoint wb_rest (stop : Z * ts_nvlog_entry -> bool) (q : entries) : entries :=
  match q with x :: q' => if stop x then q else wb_rest stop q' | [] => [] end.

Lemma before_from prev q : before_cnt prev q ++ from_cnt prev q = q.
Proof. induction q as [| x q IH]; cbn; [done |]. destruct (x.1 =? prev); cbn; [done | by rewrite IH]. Qed.
Lemma passed_rest stop q : wb_passed stop q ++ wb_rest stop q = q.
Proof. induction q as [| x q IH]; cbn; [done |]. destruct (stop x); cbn; [done | by rewrite IH]. Qed.

(** * Facts: moving the head *)

(** the state with the head of the checkpoint log at [c] *)
Definition head_at (c : Z) (s : st) : st :=
  s <| self ::= (fun t => t <| ckptlog ::= (fun n => n <| n_head_cnt := c |>) |>) |>.

Lemma ckptlog_nvst s k q : holds CKPTLOG s k q ->
  exists t, stores (sh s) !! n_store (ckptlog (self s)) = Some t /\
    log_holds (mk_nvst (ckptlog (self s)) t (sh_pm (sh s))) k q.
Proof.
  intros (r & Hr & Hh). unfold log_of in Hr. change (sel_get CKPTLOG (self s)) with (ckptlog (self s)) in Hr.
  destruct (stores (sh s) !! _) as [t |]; [| done]. cbn in Hr. injection Hr as <-. by exists t.
Qed.

(** a log operation that moves the head only *)
Lemma with_ckptlog_head {A} (m : M nvst A) s t (a : A) c :
  stores (sh s) !! n_store (ckptlog (self s)) = Some t ->
  m (mk_nvst (ckptlog (self s)) t (sh_pm (sh s))) = Ok (a, set_head c (mk_nvst (ckptlog (self s)) t (sh_pm (sh s)))) ->
  with_log CKPTLOG m s = Ok (a, head_at c s).
Proof.
  intros Ht Hm. unfold with_log. change (sel_get CKPTLOG (self s)) with (ckptlog (self s)). rewrite Ht, Hm.
  unfold head_at. do 2 f_equal. destruct s as [me h]. cbn in *. f_equal. rewrite insert_id by done. by destruct h.
Qed.

Lemma ckptlog_peek_run s k q :
  holds CKPTLOG s k q -> exists a c, ckptlog_peek_head s = Ok (a, head_at c s) /\ holds CKPTLOG (head_at c s) k q /\
    match q with
    | [] => a = NULL /\ c = n_tail_cnt (ckptlog (self s))
    | x :: _ => a = slot (n_buffer (ckptlog (self s))) k x.1 /\ a <> NULL /\ c = x.1
    end.
Proof.
  intros Hs. destruct (ckptlog_nvst s k q Hs) as (t & Ht & Hh). pose proof Hh as (l & Hi & <-).
  destruct (nvlog_peek_head_spec _ k l Hi) as (a & r' & l' & E & Er & Hi' & Hc & Hq). rewrite Er in E.
  set (c := n_head_cnt (nv r')) in *. exists a, c. split; [exact (with_ckptlog_head _ s t a c Ht E) |]. split.
  - exists r'. split; [rewrite Er; unfold log_of; cbn; by rewrite Ht |]. by exists l'.
  - destruct (contents l) as [| [c0 e] q'] eqn:El.
    + split; [done |]. unfold c. apply bogus_ok_contents in Hc; [| apply Hi']. subst l'.
      rewrite (inv_empty r' k Hi'). by rewrite Er.
    + destruct Hq as (-> & _ & ->). split; [| split; [by eapply holds_at_pos | done]].
      apply (nvlog_at_slot _ k), (inv_geom _ _ _ Hi).
Qed.

Lemma ckptlog_deq_run s k x q :
  holds CKPTLOG s k (x :: q) -> exists a c, ckptlog_deq s = Ok (a, head_at c s) /\ holds CKPTLOG (head_at c s) k q.
Proof.
  intros Hs. destruct (ckptlog_nvst s k _ Hs) as (t & Ht & Hh). pose proof Hh as (l & Hi & El).
  destruct (nvlog_deq_spec _ k l Hi) as (a & r' & l' & E & Er & Hi' & Hq). rewrite El in Hq. destruct x as [c0 e].
  destruct Hq as (_ & _ & _ & Hq). rewrite Er in E. exists a, (n_head_cnt (nv r')).
  split; [exact (with_ckptlog_head _ s t a _ Ht E) |]. exists r'.
  split; [rewrite Er; unfold log_of; cbn; by rewrite Ht |]. by exists l'.
Qed.

(** * Facts: the first loop *)

(** the allocator never fails *)
Definition alloc_total : Prop := forall n, exists a, alloc_result n = Some a /\ a <> NULL.

(** the free set is sound and has room for [m] more expansions *)
Definition set_ready (m : nat) (ps : ts_ptr_set) : Prop :=
  ptrset_wf ps /\ num_max_ptrs ps + TS_INIT_PTR_SET_SIZE * (Z.of_nat m + 2) < 2 ^ 32.

Lemma alloc_ok_run s :
  alloc_total -> alloc_ok s = Ok (true, s <| sh ::= (fun h => h <| allocs := S (allocs h) |>) |>).
Proof.
  intros Ha. destruct (Ha (allocs (sh s))) as (a & E & Hne).
  unfold alloc_ok, alloc, on_sh, zoom, sh_alloc, bind, asks, modify, ret. rewrite E. cbn [default]. unfold id.
  by rewrite (proj2 (Z.eqb_neq a NULL)).
Qed.

Lemma free_set_push_run m p s :
  alloc_total -> set_ready (S m) (ckpt_free_set (self s)) ->
  exists ps' n, set_push CKPT_FREE_SET p s =
      Ok (0, s <| self ::= (fun t => t <| ckpt_free_set := ps' |>) |> <| sh ::= (fun h => h <| allocs := n |>) |>) /\
    set_ready m ps' /\ ptrset_elems ps' = ptrset_elems (ckpt_free_set (self s)) ++ [p].
Proof.
  intros Ha [Hwf Hb]. destruct (ptrset_push_elems (ckpt_free_set (self s)) p Hwf ltac:(unfold TS_INIT_PTR_SET_SIZE in *; lia))
    as (ps' & E & Hwf' & He & Hm). unfold set_push. msteps. cbn [set_get CKPT_FREE_SET].
  assert (Hr : set_ready m ps') by (split; [done | unfold TS_INIT_PTR_SET_SIZE in *; lia]).
  destruct (_ <=? _).
  - mrun (alloc_ok_run s Ha). cbn [upd self]. rewrite E. cbn [lift]. msteps.
    unfold mod_self. msteps. exists ps', (S (allocs (sh s))). by split.
  - msteps. rewrite E. cbn [lift]. msteps. unfold mod_self. msteps. exists ps', (allocs (sh s)).
    split; [| done]. do 2 f_equal. destruct s as [me h]. cbn. by destruct h.
Qed.

Lemma get_ckpt_entry_run s k q x hd :
  holds CKPTLOG s k q -> x ∈ q -> e_body x.2 = EB_ckpt hd ->
  get_ckpt_entry (slot (n_buffer (ckptlog (self s))) k x.1) s = Ok ((x.2, hd), s).
Proof.
  intros Hs Hx Hb. unfold get_ckpt_entry. rewrite (proj2 (ckpt_entry_cell _ _ _ _) (conj (holds_cell s k q x Hs Hx) Hb)).
  done.
Qed.

Lemma get_vact_vhdr_run s org p : vhdr_of (sh s) org = Some p -> get_vact_vhdr org s = Ok (p, s).
Proof.
  unfold vhdr_of, get_vact_vhdr, get_act_vhdr. intros Hv. destruct (heap (sh s) !! org) as [[a |] |] eqn:Eh; try done.
  destruct (decide (o_type (a_hdr a) = TYPE_ACTUAL)) as [Et |]; [| by rewrite bool_decide_eq_false_2 in Hv].
  rewrite bool_decide_eq_true_2 in Hv by done. injection Hv as <-.
  erewrite bind_run by (unfold obj_to_obj_hdr, obj_hdr_of; by rewrite Eh). rewrite Et. by mrun (get_ahs_run s org a Eh).
Qed.

(** what the first loop changes: the head, the free set, the allocator *)
Record dropping (s s' : st) : Prop := {
  dr_self : self s' = (self s) <| ckptlog ::= (fun n => n <| n_head_cnt := n_head_cnt (ckptlog (self s')) |>) |>
                               <| ckpt_free_set := ckpt_free_set (self s') |>;
  dr_sh : sh s' = (sh s) <| allocs := allocs (sh s') |> }.

Lemma dropping_trans s1 s2 s3 : dropping s1 s2 -> dropping s2 s3 -> dropping s1 s3.
Proof. intros [A1 A2] [B1 B2]. split; [rewrite B1 at 1; by rewrite A1 | by rewrite B2, A2]. Qed.

Lemma dropping_head c s : dropping s (head_at c s).
Proof. destruct s as [me h]. split; cbn; [by destruct me | by destruct h]. Qed.

Lemma dropping_buffer s s' : dropping s s' -> n_buffer (ckptlog (self s')) = n_buffer (ckptlog (self s)).
Proof. intros [E _]. by rewrite E. Qed.

Lemma vhdr_of_heap h h' org : heap h' = heap h -> vhdr_of h' org = vhdr_of h org.
Proof. unfold vhdr_of. by intros ->. Qed.

Lemma items_ok_ext b k q h h' :
  heap h' = heap h -> vhdrs h' = vhdrs h -> obj_data h' = obj_data h -> items_ok b k q h -> items_ok b k q h'.
Proof.
  intros Eh Ev Ed [I1 I2 I3]. split; [| by rewrite Ed | done].
  intros x Hx. destruct (I1 x Hx) as (hd & p & v & [A1 A2 A3 A4]). exists hd, p, v.
  split; [done | by rewrite (vhdr_of_heap h) | by rewrite Ev | done].
Qed.

Lemma items_ok_tail b k x q h : items_ok b k (x :: q) h -> items_ok b k q h.
Proof.
  intros [I1 I2 I3]. split.
  - intros y Hy. apply I1. by right.
  - intros y Hy. apply I2. by right.
  - intros y z hd Hy Hz. apply I3; by right.
Qed.

Lemma freed_objs_cons x q h : freed_objs h (x :: q) = freed_objs h [x] ++ freed_objs h q.
Proof. unfold freed_objs. cbn [List.filter]. destruct (has_tombstone x); cbn; [by destruct (vhdr_addr h x) | done]. Qed.

Lemma freed_objs_heap h h' q : heap h' = heap h -> freed_objs h' q = freed_objs h q.
Proof.
  intros Eh. unfold freed_objs. induction (List.filter has_tombstone q) as [| x l IH]; [done |]. cbn. unfold vhdr_addr in *.
  rewrite IH. destruct (hdr_of x) as [hd |]; cbn; [| done]. by rewrite (vhdr_of_heap h).
Qed.

Lemma dropping_free_set ps a s s' :
  self s' = (self s) <| ckpt_free_set := ps |> -> sh s' = (sh s) <| allocs := a |> -> dropping s s'.
Proof.
  destruct s as [me h], me as [? ? ? ? ? ? ? ? ? ? ? ? ? ? ? ? ? ? n]. intros Es Eh. split; rewrite ?Es, ?Eh; [| done].
  by destruct n.
Qed.

(** one dropped entry *)
Lemma collect_free_run k q x hd p m s :
  alloc_total -> e_body x.2 = EB_ckpt hd -> vhdr_of (sh s) (ce_np_org_act hd) = Some p ->
  holds CKPTLOG s k q -> set_ready (S m) (ckpt_free_set (self s)) ->
  exists s', collect_free hd s = Ok (tt, s') /\ dropping s s' /\ holds CKPTLOG s' k q /\
    set_ready m (ckpt_free_set (self s')) /\
    ptrset_elems (ckpt_free_set (self s')) = ptrset_elems (ckpt_free_set (self s)) ++ freed_objs (sh s) [x].
Proof.
  intros Ha Hb Ho Hs Hset. unfold collect_free, freed_objs. cbn [List.filter]. unfold has_tombstone, hdr_of. rewrite Hb.
  destruct (negb (tombstone hd =? 0)).
  - mrun (get_vact_vhdr_run s (ce_np_org_act hd) p Ho).
    destruct (free_set_push_run m p s Ha Hset) as (ps' & a & E2 & Hset' & He'). mrun E2.
    eexists. split; [reflexivity |]. split; [| split; [exact Hs | split; [exact Hset' |]]].
    + by apply (dropping_free_set ps' a).
    + cbn. rewrite He'. unfold vhdr_addr, hdr_of. rewrite Hb. cbn. by rewrite Ho.
  - exists s. split; [done |]. split.
    { apply (dropping_free_set (ckpt_free_set (self s)) (allocs (sh s))); [by destruct (self s) | by destruct (sh s)]. }
    split; [done |].
    destruct Hset as [S1 S2]. split; [split; [done | unfold TS_INIT_PTR_SET_SIZE in *; lia] |]. by rewrite app_nil_r.
Qed.

(** the first loop drops the entries before the boundary and collects the freed
    objects among them *)
Lemma ckpt_reclaim_loop_run k prev q : forall s n,
  alloc_total -> holds CKPTLOG s k q -> items_ok (n_buffer (ckptlog (self s))) k q (sh s) ->
  set_ready (length q) (ckpt_free_set (self s)) -> (length q < n)%nat ->
  exists ent s', loop n (ckpt_reclaim_round prev) tt s = Ok (ent, s') /\ dropping s s' /\
    holds CKPTLOG s' k (from_cnt prev q) /\
    ptrset_elems (ckpt_free_set (self s')) =
      ptrset_elems (ckpt_free_set (self s)) ++ freed_objs (sh s) (before_cnt prev q) /\
    match from_cnt prev q with
    | [] => ent = NULL
    | x :: _ => ent = slot (n_buffer (ckptlog (self s))) k x.1 /\ ent <> NULL /\ n_head_cnt (ckptlog (self s')) = x.1
    end.
Proof.
  induction q as [| x q IH]; intros s n Ha Hs Hi Hset Hn; (destruct n as [| n]; [cbn in Hn; lia |]); cbn [loop];
    unfold ckpt_reclaim_round at 1;
    destruct (ckptlog_peek_run s k _ Hs) as (a & c & Ep & Hs1 & Hq); rewrite bind_assoc; mrun Ep.
  - destruct Hq as [-> _]. rewrite Z.eqb_refl. msteps. exists NULL, (head_at c s). split; [done |].
    split; [apply dropping_head |]. split; [done |]. split; [by rewrite app_nil_r | done].
  - destruct Hq as (Ea & Hne & Ec). rewrite (proj2 (Z.eqb_neq a NULL)) by done. unfold ckptlog_head. msteps.
    cbn [upd head_at self ckptlog n_head_cnt]. subst c. cbn [before_cnt from_cnt]. destruct (x.1 =? prev) eqn:Eprev; msteps.
    + exists a, (head_at x.1 s). split; [done |]. split; [apply dropping_head |]. split; [done |].
      split; [by rewrite app_nil_r |]. by split.
    + destruct (its_item _ _ _ _ Hi x ltac:(by left)) as (hd & p & v & [Hb Ho Hv Hnp]).
      pose proof (get_ckpt_entry_run (head_at x.1 s) k _ x hd Hs1 ltac:(by left) Hb) as Ee.
      change (n_buffer (ckptlog (self (head_at x.1 s)))) with (n_buffer (ckptlog (self s))) in Ee. rewrite <- Ea in Ee.
      mrun Ee. cbv iota.
      destruct (collect_free_run k _ x hd p (length q) (head_at x.1 s) Ha Hb Ho Hs1 Hset) as (s2 & E2 & Hd2 & Hs2 & Hset2 & He2).
      pose proof (dropping_trans _ _ _ (dropping_head x.1 s) Hd2) as Hd2'.
      rewrite bind_assoc. mrun E2.
      destruct (ckptlog_deq_run s2 k x q Hs2) as (a3 & c3 & E3 & Hs3). msteps. mrun E3. msteps.
      pose proof (dropping_trans _ _ _ Hd2' (dropping_head c3 s2)) as Hd3.
      destruct (IH (head_at c3 s2) n Ha Hs3) as (ent & s4 & E4 & Hd4 & Hs4 & He4 & Hq4).
      * change (n_buffer (ckptlog (self (head_at c3 s2)))) with (n_buffer (ckptlog (self s2))).
        change (sh (head_at c3 s2)) with (sh s2). rewrite (dropping_buffer _ _ Hd2'), (dr_sh _ _ Hd2').
        by apply (items_ok_tail _ _ x), (items_ok_ext _ _ _ (sh s)).
      * exact Hset2.
      * cbn in Hn. lia.
      * exists ent, s4. split; [exact E4 |]. split; [by eapply dropping_trans |]. split; [done |].
        rewrite (dropping_buffer _ _ Hd3) in Hq4. split; [| exact Hq4].
        rewrite He4. change (ckpt_free_set (self (head_at c3 s2))) with (ckpt_free_set (self s2)). rewrite He2.
        rewrite (freed_objs_cons x (before_cnt prev q)), <- app_assoc.
        rewrite (freed_objs_heap (sh s) (sh (head_at c3 s2))); [done |]. by rewrite (dr_sh _ _ Hd3).
Qed.

(** * Facts: the write-back *)

(** the object with volatile header [p] is written back from one of [q] *)
Definition written (b k : Z) (h : shared) (q : entries) (p : Z) : bool :=
  existsb (fun x => is_current b k h x && bool_decide (vhdr_addr h x = Some p)) q.

Definition restore (v : ts_act_vhdr) : ts_act_vhdr := v <| np_cur_act := np_org_act v |>.

(** [before] is written back, from [s0] to [s]: the current masters among it
    are copied to their original objects, which are current again *)
Record written_back (b k : Z) (s0 : st) (before : entries) (s : st) : Prop := {
  wb_self : self s = (self s0) <| ckptlog ::= (fun n => n <| n_head_cnt := n_head_cnt (ckptlog (self s)) |>) |>;
  wb_sh : sh s = (sh s0) <| obj_data := obj_data (sh s) |> <| vhdrs := vhdrs (sh s) |> <| sh_pm := sh_pm (sh s) |>;
  wb_cells : cells (sh_pm (sh s)) = cells (sh_pm (sh s0));
  wb_vhdrs : forall p, vhdrs (sh s) !! p =
    (fun v => if written b k (sh s0) before p then restore v else v) <$> vhdrs (sh s0) !! p;
  wb_data : forall x hd, x ∈ before -> is_current b k (sh s0) x = true -> hdr_of x = Some hd ->
    exists bytes rest, obj_data (sh s0) !! ent_obj b k x = Some bytes /\
      obj_data (sh s) !! ce_np_org_act hd = Some (take (Z.to_nat (obj_size (ce_hdr hd))) bytes ++ rest);
  wb_other : forall o, (forall x hd, x ∈ before -> is_current b k (sh s0) x = true -> hdr_of x = Some hd ->
      ce_np_org_act hd <> o) -> obj_data (sh s) !! o = obj_data (sh s0) !! o }.

Lemma holds_apart s k q : holds CKPTLOG s k q ->
  NoDup q /\ forall x y, x ∈ q -> y ∈ q -> slot (n_buffer (ckptlog (self s))) k x.1 = slot (n_buffer (ckptlog (self s))) k y.1 -> x = y.
Proof.
  intros Hs. destruct (ckptlog_nvst s k q Hs) as (t & Ht & Hh). pose proof (log_holds_NoDup _ _ _ Hh) as Hnd.
  split; [by eapply NoDup_fmap_1 |]. intros x y Hx Hy E. pose proof Hh as (l & [Hg _ _ Hu _ Hseg _] & Hc).
  assert (Hxl : x ∈ l) by (apply contents_elem; by rewrite Hc). assert (Hyl : y ∈ l) by (apply contents_elem; by rewrite Hc).
  destruct (seg_range _ _ _ _ _ _ Hseg) as [_ Hr]. pose proof (Hr x Hxl). pose proof (Hr y Hyl). cbn in *.
  apply slot_inj in E; [| destruct Hg; lia | lia]. destruct x as [c e], y as [c' e']. cbn in E. subst c'. f_equal.
  pose proof (log_holds_cell _ _ _ _ Hh Hx) as Cx. pose proof (log_holds_cell _ _ _ _ Hh Hy) as Cy. cbn in *. congruence.
Qed.

Lemma head_twice (t t0 : ts_thread_struct) a c :
  t = t0 <| ckptlog ::= (fun n => n <| n_head_cnt := a |>) |> ->
  t <| ckptlog ::= (fun n => n <| n_head_cnt := c |>) |> = t0 <| ckptlog ::= (fun n => n <| n_head_cnt := c |>) |>.
Proof. by intros ->. Qed.

Lemma shared_twice (h h0 : shared) d v m d' v' m' :
  h = h0 <| obj_data := d |> <| vhdrs := v |> <| sh_pm := m |> ->
  h <| obj_data := d' |> <| sh_pm := m' |> <| vhdrs := v' |> = h0 <| obj_data := d' |> <| vhdrs := v' |> <| sh_pm := m' |>.
Proof. by intros ->. Qed.

Section WriteBack.
Context (k : Z) (s0 : st) (q : entries).
Let b : Z := n_buffer (ckptlog (self s0)).
Context (Hi : items_ok b k q (sh s0)).
Context (Hnd : NoDup q).
Context (Hapart : forall x y, x ∈ q -> y ∈ q -> slot b k x.1 = slot b k y.1 -> x = y).

Lemma ent_obj_inj x y : x ∈ q -> y ∈ q -> ent_obj b k x = ent_obj b k y -> x = y.
Proof. intros Hx Hy E. apply Hapart; [done | done |]. unfold ent_obj, ckpt_ent_obj in E. lia. Qed.

(** an object has one current master *)
Lemma current_unique x y p :
  x ∈ q -> y ∈ q -> is_current b k (sh s0) x = true -> is_current b k (sh s0) y = true ->
  vhdr_addr (sh s0) x = Some p -> vhdr_addr (sh s0) y = Some p -> x = y.
Proof.
  unfold is_current. intros Hx Hy Cx Cy Ex Ey. rewrite Ex in Cx. rewrite Ey in Cy.
  destruct (vhdrs (sh s0) !! p) as [v |]; [| done]. apply andb_prop in Cx as [Cx _]. apply andb_prop in Cy as [Cy _].
  apply ent_obj_inj; [done | done | lia].
Qed.

Lemma written_true before p : written b k (sh s0) before p = true <->
  exists y, y ∈ before /\ is_current b k (sh s0) y = true /\ vhdr_addr (sh s0) y = Some p.
Proof.
  unfold written. rewrite existsb_exists. split.
  - intros (y & Hy & [Hc Hp%bool_decide_eq_true]%andb_prop). exists y. by rewrite list_elem_of_In.
  - intros (y & Hy & Hc & Hp). exists y. rewrite <- list_elem_of_In, Hc. split; [done |]. by rewrite bool_decide_eq_true_2.
Qed.

Lemma written_snoc before x p : written b k (sh s0) (before ++ [x]) p =
  written b k (sh s0) before p || (is_current b k (sh s0) x && bool_decide (vhdr_addr (sh s0) x = Some p)).
Proof. unfold written. rewrite existsb_app. cbn. by rewrite orb_false_r. Qed.

Lemma item_addr h x hd p v : item h x hd p v -> hdr_of x = Some hd /\ vhdr_addr h x = Some p.
Proof.
  intros [Hb Ho _ _]. assert (E : hdr_of x = Some hd) by (unfold hdr_of; by rewrite Hb).
  split; [done |]. unfold vhdr_addr. rewrite E. exact Ho.
Qed.

(** writing back other entries does not change whether [x] is current *)
Lemma current_kept before x rest s hd p v :
  q = before ++ x :: rest -> written_back b k s0 before s -> item (sh s0) x hd p v ->
  (np_cur_act (if written b k (sh s0) before p then restore v else v) =? ent_obj b k x) && (tombstone hd =? 0) =
  is_current b k (sh s0) x.
Proof.
  intros Eq Hw Hit. destruct (item_addr _ _ _ _ _ Hit) as [Eh Ea]. pose proof Hit as [Hb Ho Hv Hnp].
  assert (Hx : x ∈ q) by (rewrite Eq; elems).
  assert (Ht : (tombstone hd =? 0) = negb (has_tombstone x)) by (unfold has_tombstone; rewrite Eh; by rewrite negb_involutive).
  destruct (written b k (sh s0) before p) eqn:Ew.
  - apply written_true in Ew as (y & Hy & Cy & Ey). cbn. rewrite Hnp.
    rewrite (proj2 (Z.eqb_neq _ _)) by (by apply (its_apart _ _ _ _ Hi x x hd)). cbn [andb]. symmetry.
    apply not_true_is_false. intros Cx. assert (x = y) as <- by (eapply current_unique; try done; rewrite Eq; elems).
    rewrite Eq in Hnd. apply NoDup_app in Hnd as (_ & Hd & _). apply (Hd x Hy). by left.
  - unfold is_current. by rewrite Ea, Hv, Ht.
Qed.

Lemma written_back_skip before x s :
  is_current b k (sh s0) x = false -> written_back b k s0 before s -> written_back b k s0 (before ++ [x]) s.
Proof.
  intros Hc [A1 A2 A3 A4 A5 A6]. split; try done.
  - intros p. by rewrite written_snoc, Hc, orb_false_r.
  - intros y hd [Hy | ->%list_elem_of_singleton]%elem_of_app; [by apply A5 | congruence].
  - intros o Ho. apply A6. intros y hd Hy. apply Ho. elems.
Qed.

Lemma written_back_head before c s : written_back b k s0 before s -> written_back b k s0 before (head_at c s).
Proof. intros [A1 A2 A3 A4 A5 A6]. split; try done. exact (head_twice _ _ _ _ A1). Qed.

Lemma memcpy_lines_cells dst size m : cells (memcpy_to_nvm_lines dst size m) = cells m.
Proof.
  unfold memcpy_to_nvm_lines, flush_to_nvm, clwb_range. generalize (S (Z.to_nat (size / TS_CACHE_LINE_SIZE))) as n.
  intros n. assert (Hg : forall n i m', cells (clwb_loop n dst i size m') = cells m'); [| by rewrite Hg].
  clear. intros n. induction n as [| n IH]; intros i m'; cbn [clwb_loop]; [done |].
  destruct (i <? size); [| done]. by rewrite IH, cells_clwb.
Qed.

Lemma current_live x : is_current b k (sh s0) x = true -> has_tombstone x = false.
Proof. by intros [_ Ht%negb_true_iff]%andb_prop. Qed.

Lemma current_unwritten before x rest p :
  q = before ++ x :: rest -> vhdr_addr (sh s0) x = Some p -> is_current b k (sh s0) x = true ->
  written b k (sh s0) before p = false.
Proof.
  intros Eq Ea Hc. apply not_true_is_false. intros (y & Hy & Cy & Ey)%written_true.
  assert (x = y) as <- by (eapply current_unique; try done; rewrite Eq; elems).
  rewrite Eq in Hnd. apply NoDup_app in Hnd as (_ & Hd & _). apply (Hd x Hy). by left.
Qed.

(** writing back the current master [x] *)
Lemma write_back_run before x rest s hd p v :
  q = before ++ x :: rest -> written_back b k s0 before s -> item (sh s0) x hd p v ->
  is_current b k (sh s0) x = true ->
  exists s', write_back p v (slot b k x.1) (obj_size (ce_hdr hd)) s = Ok (tt, s') /\
    written_back b k s0 (before ++ [x]) s' /\ ckptlog (self s') = ckptlog (self s) /\
    stores (sh s') = stores (sh s) /\ cells (sh_pm (sh s')) = cells (sh_pm (sh s)).
Proof.
  intros Eq Hw Hit Hc. destruct (item_addr _ _ _ _ _ Hit) as [Eh Ea]. pose proof Hit as [Hb Ho Hv Hnp].
  assert (Hx : x ∈ q) by (rewrite Eq; elems). destruct (its_data _ _ _ _ Hi x Hx (current_live x Hc)) as [bytes Hbytes].
  assert (Hnx : x ∉ before).
  { intros Hin. rewrite Eq in Hnd. apply NoDup_app in Hnd as (_ & Hd & _). apply (Hd x Hin). by left. }
  pose proof (current_unwritten before x rest p Eq Ea Hc) as Hwn.
  assert (Hbytes' : obj_data (sh s) !! ckpt_ent_obj (slot b k x.1) = Some bytes).
  { fold (ent_obj b k x). rewrite (wb_other _ _ _ _ _ Hw); [done |]. intros y hdy Hy _ Ehy.
    unfold hdr_of in Ehy. destruct (e_body y.2) eqn:Eby; try done. injection Ehy as ->.
    apply (its_apart _ _ _ _ Hi y x hdy); [rewrite Eq; elems | done | done]. }
  unfold write_back. mrun (memcpy_obj_run (np_org_act v) (ckpt_ent_obj (slot b k x.1)) (obj_size (ce_hdr hd)) s bytes Hbytes').
  unfold mod_sh. msteps. set (s1 := _ <| sh ::= _ |>).
  assert (Hv1 : vhdrs (sh s1) !! p = Some v).
  { change (vhdrs (sh s1)) with (vhdrs (sh s)). by rewrite (wb_vhdrs _ _ _ _ _ Hw), Hv, Hwn. }
  rewrite (put_vhdr_run s1 p v (fun v => v <| np_cur_act := np_org_act v |>) Hv1). eexists. split; [reflexivity |].
  destruct Hw as [A1 A2 A3 A4 A5 A6]. split; [split | split; [done | split; [done |]]].
  - exact A1.
  - exact (shared_twice _ _ _ _ _ _ _ _ A2).
  - etransitivity; [apply memcpy_lines_cells | exact A3].
  - intros p'. cbn. rewrite written_snoc, Hc, Ea. cbn [andb]. destruct (decide (p' = p)) as [-> | Hne].
    + rewrite lookup_insert_eq, Hv, Hwn, bool_decide_eq_true_2 by done. done.
    + rewrite lookup_insert_ne by done. rewrite bool_decide_eq_false_2 by congruence. by rewrite orb_false_r, A4.
  - intros y hdy [Hy | ->%list_elem_of_singleton]%elem_of_app Cy Ehy; cbn; rewrite Hnp.
    + destruct (A5 y hdy Hy Cy Ehy) as (by_ & rest_ & B1 & B2). exists by_, rest_. split; [done |].
      rewrite lookup_insert_ne; [done |]. intros E. apply Hnx.
      assert (Ey : vhdr_addr (sh s0) y = Some p) by (unfold vhdr_addr; rewrite Ehy; cbn; by rewrite <- E).
      by assert (x = y) as -> by (eapply current_unique; try done; rewrite Eq; elems).
    + assert (hdy = hd) as -> by congruence. rewrite lookup_insert_eq. by do 2 eexists.
  - intros o Hother. cbn. rewrite Hnp, lookup_insert_ne by (apply (Hother x); [elems | done | done]).
    apply A6. intros y hdy Hy. apply Hother. elems.
  - apply memcpy_lines_cells.
Qed.

Lemma written_back_log before s : written_back b k s0 before s ->
  n_buffer (ckptlog (self s)) = b /\ n_tail_cnt (ckptlog (self s)) = n_tail_cnt (ckptlog (self s0)) /\ heap (sh s) = heap (sh s0).
Proof. intros [A1 A2 _ _ _ _]. by rewrite A1, A2. Qed.

(** the second loop writes back the entries up to the first at which it stops *)
Lemma ckpt_writeback_loop_run wb_limit watermark rest :
  let tail := n_tail_cnt (ckptlog (self s0)) in
  let stop := wb_stop b k wb_limit watermark tail (sh s0) in
  forall before s acc n, q = before ++ rest -> written_back b k s0 before s -> holds CKPTLOG s k rest ->
  (length rest < n)%nat ->
  exists bytes s', loop n (ckpt_writeback_round wb_limit watermark) acc s = Ok (bytes, s') /\
    written_back b k s0 (before ++ wb_passed stop rest) s' /\ holds CKPTLOG s' k (wb_rest stop rest) /\
    n_head_cnt (ckptlog (self s')) = match wb_rest stop rest with [] => tail | x :: _ => x.1 end.
Proof.
  intros tail stop. induction rest as [| x rest IH]; intros before s acc n Eq Hw Hs Hn;
    (destruct n as [| n]; [cbn in Hn; lia |]); cbn [loop]; unfold ckpt_writeback_round at 1;
    destruct (ckptlog_peek_run s k _ Hs) as (a & c & Ep & Hs1 & Hq); rewrite bind_assoc; mrun Ep;
    destruct (written_back_log before s Hw) as (Eb & Et & Ehp).
  - destruct Hq as [-> ->]. rewrite Z.eqb_refl. msteps. do 2 eexists. split; [reflexivity |].
    rewrite app_nil_r. split; [by apply written_back_head |]. split; [exact Hs1 | exact Et].
  - destruct Hq as (Ea & Hne & ->). rewrite (proj2 (Z.eqb_neq a NULL)) by done. rewrite Eb in Ea.
    assert (Hx : x ∈ q) by (rewrite Eq; elems).
    destruct (its_item _ _ _ _ Hi x Hx) as (hd & p & v & Hit). pose proof Hit as [Hb Ho Hv Hnp].
    destruct (item_addr _ _ _ _ _ Hit) as [Ehd Ead]. set (s1 := head_at x.1 s) in *.
    pose proof (get_ckpt_entry_run s1 k _ x hd Hs1 ltac:(by left) Hb) as Ee.
    change (n_buffer (ckptlog (self s1))) with (n_buffer (ckptlog (self s))) in Ee. rewrite Eb, <- Ea in Ee.
    rewrite ?bind_assoc. mrun Ee. cbv iota. cbn [wb_passed wb_rest].
    assert (Hstop : stop x = gt_clock (ckpt_s_clk hd) wb_limit || (is_current b k (sh s0) x && (u64 (tail - x.1) <? watermark)))
      by (unfold stop, wb_stop; by rewrite Ehd).
    destruct (gt_clock (ckpt_s_clk hd) wb_limit); cbn [orb] in Hstop.
    { rewrite Hstop. msteps. do 2 eexists. split; [reflexivity |]. rewrite app_nil_r. by split; [apply written_back_head |]. }
    rewrite ?bind_assoc. mrun (get_vact_vhdr_run s1 (ce_np_org_act hd) p ltac:(rewrite (vhdr_of_heap (sh s0)) by done; exact Ho)).
    pose proof (current_kept before x rest s hd p v Eq Hw Hit) as Hcur.
    assert (Hv1 : vhdrs (sh s1) !! p = Some (if written b k (sh s0) before p then restore v else v)).
    { change (vhdrs (sh s1)) with (vhdrs (sh s)). by rewrite (wb_vhdrs _ _ _ _ _ Hw), Hv. }
    rewrite ?bind_assoc. mrun (get_vhdr_run s1 p _ Hv1). unfold ent_obj in Hcur. rewrite <- Ea in Hcur. rewrite Hcur.
    destruct (is_current b k (sh s0) x) eqn:Ec; cbn [andb] in Hstop.
    + rewrite (current_unwritten before x rest p Eq Ead Ec). unfold ckptlog_used. msteps.
      change (nvlog_used (ckptlog (self s1))) with (u64 (n_tail_cnt (ckptlog (self s)) - x.1)). rewrite Et. fold tail.
      rewrite Hstop. destruct (u64 (tail - x.1) <? watermark).
      { msteps. do 2 eexists. split; [reflexivity |]. rewrite app_nil_r. by split; [apply written_back_head |]. }
      destruct (write_back_run before x rest s1 hd p v Eq ltac:(by apply written_back_head) Hit Ec)
        as (s2 & E2 & Hw2 & El2 & Est2 & Ece2).
      rewrite Ea. rewrite ?bind_assoc. mrun E2. msteps.
      assert (Hs2 : holds CKPTLOG s2 k (x :: rest)).
      { eapply holds_ext; [exact Hs1 | done | done |]. cbn. by rewrite El2. }
      destruct (ckptlog_deq_run s2 k x rest Hs2) as (a3 & c3 & E3 & Hs3). rewrite ?bind_assoc. mrun E3. msteps.
      destruct (IH (before ++ [x]) (head_at c3 s2) (u64 (acc + obj_size (ce_hdr hd))) n) as (bytes & s4 & E4 & Hw4 & Hs4 & Hh4).
      * by rewrite <- app_assoc.
      * by apply written_back_head.
      * exact Hs3.
      * cbn in Hn. lia.
      * exists bytes, s4. split; [exact E4 |]. by rewrite <- app_assoc in Hw4.
    + rewrite Hstop. destruct (ckptlog_deq_run s1 k x rest Hs1) as (a3 & c3 & E3 & Hs3). rewrite ?bind_assoc. mrun E3. msteps.
      destruct (IH (before ++ [x]) (head_at c3 s1) acc n) as (bytes & s4 & E4 & Hw4 & Hs4 & Hh4).
      * by rewrite <- app_assoc.
      * by apply written_back_head, written_back_head, written_back_skip.
      * exact Hs3.
      * cbn in Hn. lia.
      * exists bytes, s4. split; [exact E4 |]. by rewrite <- app_assoc in Hw4.
Qed.
End WriteBack.

(** * Facts: a reclamation as a whole *)

(** what other threads keep while the caller takes the lock of its log *)
Record others_ckpt (s s' : st) : Prop := {
  oc_self : self s' = (self s) <| clks := clks (self s') |> <| reclaim := reclaim (self s') |>;
  oc_holds : forall k q, holds CKPTLOG s k q -> holds CKPTLOG s' k q;
  oc_items : forall b k q, items_ok b k q (sh s) -> items_ok b k q (sh s') }.

Lemma try_lock_ckptlog `{!Rely others_ckpt} s :
  n_reclaim_lock (ckptlog (self s)) = 0 ->
  exists s1, interfere s = Ok (tt, s1) /\ others_ckpt s s1 /\
    try_lock_log CKPTLOG s = Ok (true, s1 <| self ::= (fun t => t <| ckptlog ::= (fun n => n <| n_reclaim_lock := 1 |>) |>) |>).
Proof.
  intros Hl. destruct (interfere_rely s) as (s1 & Ei & Hr). exists s1. split; [done |]. split; [done |].
  unfold try_lock_log. msteps. change (sel_get CKPTLOG (self s)) with (ckptlog (self s)). rewrite Hl, Z.eqb_refl. unfold smp_cas.
  mrun Ei. msteps. change (sel_get CKPTLOG (self s1)) with (ckptlog (self s1)).
  assert (En : ckptlog (self s1) = ckptlog (self s)) by (by rewrite (oc_self _ _ Hr)). rewrite En, Hl, Z.eqb_refl.
  unfold mod_log, mod_self. by msteps.
Qed.

(** the log's head is stored on NVM *)
Definition ckpt_head_stored (s : st) : Prop :=
  exists r, log_of CKPTLOG s = Some r /\ s_head_cnt (sto r) = n_head_cnt (nv r).

(** the caller's structure up to its statistics, its clocks and its request *)
Definition same_log (s s' : st) : Prop :=
  ckptlog (self s') = ckptlog (self s) /\ ckpt_free_set (self s') = ckpt_free_set (self s) /\
  clks (self s') = clks (self s) /\
  heap (sh s') = heap (sh s) /\ vhdrs (sh s') = vhdrs (sh s) /\ obj_data (sh s') = obj_data (sh s).

Lemma ckptlog_deq_persist_same s k q :
  holds CKPTLOG s k q -> exists s', ckptlog_deq_persist s = Ok (tt, s') /\ same_log s s' /\ holds CKPTLOG s' k q /\
    ckpt_head_stored s'.
Proof.
  intros Hs. destruct (holds_deq_persist_run CKPTLOG s k q Hs) as (r & r' & Hr & E & Hn & Hl & Hh & Hst).
  assert (En : nv r = ckptlog (self s)).
  { unfold log_of in Hr. destruct (stores (sh s) !! _); [| done]. cbn in Hr. by injection Hr as <-. }
  exists (log_step CKPTLOG s r'). split; [exact E |]. split; [| split; by exists r'].
  split; [by cbn; rewrite Hn |]. done.
Qed.

Lemma ckptlog_reclaim_finish_run old new bytes s s0 k q :
  holds CKPTLOG s0 k q -> new = n_head_cnt (ckptlog (self s0)) ->
  log_core ((ckptlog (self s)) <| n_head_cnt := new |>) = log_core (ckptlog (self s0)) ->
  stores (sh s) = stores (sh s0) -> cells (sh_pm (sh s)) = cells (sh_pm (sh s0)) ->
  exists s', ckptlog_reclaim_finish old new bytes s = Ok (true, s') /\ holds CKPTLOG s' k q /\
    ckptlog (self s') = (ckptlog (self s)) <| n_prev_head_cnt := n_head_cnt (ckptlog (self s)) |>
                          <| n_head_cnt := new |> <| n_reclaim_lock := 0 |> /\
    ckpt_free_set (self s') = ckpt_free_set (self s) /\ clks (self s') = clks (self s) /\
    heap (sh s') = heap (sh s) /\ vhdrs (sh s') = vhdrs (sh s) /\ obj_data (sh s') = obj_data (sh s) /\
    r_ckptlog (reclaim (self s')) = 0 /\ (new = old \/ ckpt_head_stored s').
Proof.
  intros Hs0 Hnew Hcore Hst Hce. unfold ckptlog_reclaim_finish, mod_log, mod_self. msteps. set (s1 := _ <| self ::= _ |>).
  assert (Hs1 : holds CKPTLOG s1 k q) by (by eapply holds_ext).
  destruct (Z.eqb_spec new old) as [-> | Hne]; cbn [negb]; msteps.
  - unfold stat_thread_acc, unlock_log, mod_log, mod_self. msteps. eexists. split; [reflexivity |].
    split; [by eapply holds_ext |]. do 7 (split; [done |]). by left.
  - destruct (ckptlog_deq_persist_same s1 k q Hs1) as (s2 & E2 & (A1 & A2 & A3 & A4 & A5 & A6) & Hs2 & (r & Hr & Hh)). mrun E2.
    unfold stat_thread_acc, unlock_log, mod_log, mod_self. msteps. eexists. split; [reflexivity |].
    split; [by eapply holds_ext |]. repeat (apply conj); [| | | | | | done | right].
    + cbn. by rewrite A1.
    + cbn. by rewrite A2.
    + cbn. by rewrite A3.
    + cbn. by rewrite A4.
    + cbn. by rewrite A5.
    + cbn. by rewrite A6.
    + exists (mk_nvst ((nv r) <| n_reclaim_lock := 0 |>) (sto r) (pm r)). split; [| exact Hh].
      unfold log_of in *. change (sel_get CKPTLOG (self s2)) with (ckptlog (self s2)) in Hr. cbn.
      destruct (stores (sh s2) !! n_store (ckptlog (self s2))); [| done]. cbn in Hr. by injection Hr as <-.
Qed.

(** the clock of the oldest entry that is left *)
Definition oldest_clk (q : entries) (otherwise : Z) : Z :=
  match q with x :: _ => from_option ckpt_s_clk otherwise (hdr_of x) | [] => otherwise end.

Lemma note_reclaimed_clk_run b k q ent s :
  b = n_buffer (ckptlog (self s)) -> holds CKPTLOG s k q -> items_ok b k q (sh s) ->
  match q with [] => ent = NULL | x :: _ => ent = slot b k x.1 /\ ent <> NULL /\ n_head_cnt (ckptlog (self s)) = x.1 end ->
  note_reclaimed_clk ent s = Ok (tt, s <| self ::= (fun t => t <| clks ::= (fun c =>
    c <| __min_ckpt_reclaimed := oldest_clk q (__min_ckpt_reclaimed c) |>) |>) |>).
Proof.
  intros -> Hs Hi Hq. unfold note_reclaimed_clk. destruct q as [| x q].
  - subst ent. rewrite Z.eqb_refl. cbn [negb]. unfold ret. do 2 f_equal. destruct s as [me h]. cbn. f_equal.
    destruct me as [? ? ? ? ? ? ? ? ? ? ? ? ? c ? ? ? ? ?]. by destruct c.
  - destruct Hq as (-> & Hne & _). rewrite (proj2 (Z.eqb_neq _ NULL)) by done. cbn [negb].
    destruct (its_item _ _ _ _ Hi x ltac:(by left)) as (hd & p & v & [Hb _ _ _]).
    mrun (get_ckpt_entry_run s k _ x hd Hs ltac:(by left) Hb). cbv iota. unfold mod_self. msteps.
    unfold oldest_clk, hdr_of. by rewrite Hb.
Qed.

Lemma ckptlog_fuel_run s k q : holds CKPTLOG s k q -> exists n, ckptlog_fuel s = Ok (n, s) /\ (length q < n)%nat.
Proof.
  intros Hs. destruct (ckptlog_nvst s k q Hs) as (t & Ht & Hh). apply log_holds_length in Hh. cbn in Hh.
  eexists. unfold ckptlog_fuel, ckptlog_used. msteps. split; [reflexivity |]. lia.
Qed.

Lemma items_ok_from prev b k q h : items_ok b k q h -> items_ok b k (from_cnt prev q) h.
Proof.
  induction q as [| x q IH]; cbn; [done |]. intros Hi. destruct (x.1 =? prev); [done |].
  by apply IH, (items_ok_tail _ _ x).
Qed.

(** what the first loop leaves, at [left] *)
Record dropped_to (k prev : Z) (q : entries) (s s' : st) : Prop := {
  dt_sh : sh s' = (sh s) <| allocs := allocs (sh s') |>;
  dt_log : ckptlog (self s') = (ckptlog (self s)) <| n_head_cnt := n_head_cnt (ckptlog (self s')) |>;
  dt_holds : holds CKPTLOG s' k (from_cnt prev q);
  dt_set : ptrset_elems (ckpt_free_set (self s')) =
    ptrset_elems (ckpt_free_set (self s)) ++ freed_objs (sh s) (before_cnt prev q);
  dt_clks : clks (self s') = (clks (self s))
    <| __min_ckpt_reclaimed := oldest_clk (from_cnt prev q) (__min_ckpt_reclaimed (clks (self s))) |> }.

Lemma ckpt_drop_run k prev q s :
  alloc_total -> holds CKPTLOG s k q -> items_ok (n_buffer (ckptlog (self s))) k q (sh s) ->
  set_ready (length q) (ckpt_free_set (self s)) ->
  exists ent s2 s3, ckpt_reclaim_loop prev s = Ok (ent, s2) /\ note_reclaimed_clk ent s2 = Ok (tt, s3) /\
    dropped_to k prev q s s3.
Proof.
  intros Ha Hs Hi Hset. destruct (ckptlog_fuel_run s k q Hs) as (n & En & Hn).
  destruct (ckpt_reclaim_loop_run k prev q s n Ha Hs Hi Hset Hn) as (ent & s2 & E2 & Hd2 & Hs2 & He2 & Hq2).
  destruct Hd2 as [D1 D2]. pose proof (dropping_buffer _ _ (Build_dropping _ _ D1 D2)) as Eb.
  assert (Hi2 : items_ok (n_buffer (ckptlog (self s))) k (from_cnt prev q) (sh s2)).
  { apply (items_ok_ext _ _ _ (sh s)); [by rewrite D2 .. | by apply items_ok_from]. }
  pose proof (note_reclaimed_clk_run _ k _ ent s2 (eq_sym Eb) Hs2 Hi2 Hq2) as E3.
  exists ent, s2. eexists. unfold ckpt_reclaim_loop. mrun En. split; [exact E2 |]. split; [exact E3 |]. split.
  - exact D2.
  - cbn. by rewrite D1 at 1.
  - exact Hs2.
  - exact He2.
  - cbn. by rewrite D1.
Qed.

Lemma ckpt_writeback_run wb_limit watermark k q s :
  let b := n_buffer (ckptlog (self s)) in
  let tail := n_tail_cnt (ckptlog (self s)) in
  let stop := wb_stop b k wb_limit watermark tail (sh s) in
  holds CKPTLOG s k q -> items_ok b k q (sh s) ->
  exists bytes s', ckpt_writeback_loop wb_limit watermark s = Ok (bytes, s') /\
    written_back b k s (wb_passed stop q) s' /\
    n_head_cnt (ckptlog (self s')) = match wb_rest stop q with [] => tail | x :: _ => x.1 end.
Proof.
  intros b tail stop Hs Hi. destruct (holds_apart s k q Hs) as [Hnd Hap]. destruct (ckptlog_fuel_run s k q Hs) as (n & En & Hn).
  destruct (ckpt_writeback_loop_run k s q Hi Hnd Hap wb_limit watermark q [] s 0 n) as (bytes & s' & E & Hw & _ & Hh);
    [done | | done | done |].
  - split; [by destruct s as [[? ? ? ? ? ? ? ? ? ? ? ? ? ? ? ? ? ? []] ?] | by destruct s as [? []] | done | | | done].
    + intros p. cbn. by destruct (vhdrs (sh s) !! p).
    + by intros x hd Hx%not_elem_of_nil.
  - exists bytes, s'. unfold ckpt_writeback_loop. by mrun En.
Qed.

(** a reclamation of a requested checkpoint log, up to where its first loop stops *)
Lemma ckptlog_reclaim_x_run `{!Rely others_ckpt} k q watermark s :
  let b := n_buffer (ckptlog (self s)) in
  let prev := n_prev_head_cnt (ckptlog (self s)) in
  let tail := n_tail_cnt (ckptlog (self s)) in
  let left := from_cnt prev q in
  alloc_total -> r_ckptlog (reclaim (self s)) <> 0 -> n_reclaim_lock (ckptlog (self s)) = 0 ->
  holds CKPTLOG s k q -> items_ok b k q (sh s) -> set_ready (length q) (ckpt_free_set (self s)) ->
  exists s1 s', (st_wmb ;;; interfere) s = Ok (tt, s1) /\ ckptlog_reclaim_x watermark s = Ok (true, s') /\
    let stop := wb_stop b k (__qp2 (clks (self s1))) watermark tail (sh s1) in
    let passed := wb_passed stop left in
    holds CKPTLOG s' k left /\ heap (sh s') = heap (sh s1) /\
    n_prev_head_cnt (ckptlog (self s')) = match wb_rest stop left with [] => tail | x :: _ => x.1 end /\
    ptrset_elems (ckpt_free_set (self s')) =
      ptrset_elems (ckpt_free_set (self s)) ++ freed_objs (sh s1) (before_cnt prev q) /\
    (forall p, vhdrs (sh s') !! p =
      (fun v => if written b k (sh s1) passed p then restore v else v) <$> vhdrs (sh s1) !! p) /\
    (forall x hd, x ∈ passed -> is_current b k (sh s1) x = true -> hdr_of x = Some hd ->
      exists bytes rest, obj_data (sh s1) !! ent_obj b k x = Some bytes /\
        obj_data (sh s') !! ce_np_org_act hd = Some (take (Z.to_nat (obj_size (ce_hdr hd))) bytes ++ rest)) /\
    (forall o, (forall x hd, x ∈ passed -> is_current b k (sh s1) x = true -> hdr_of x = Some hd ->
      ce_np_org_act hd <> o) -> obj_data (sh s') !! o = obj_data (sh s1) !! o) /\
    __min_ckpt_reclaimed (clks (self s')) = oldest_clk left (__min_ckpt_reclaimed (clks (self s1))) /\
    r_ckptlog (reclaim (self s')) = 0 /\ n_reclaim_lock (ckptlog (self s')) = 0.
Proof.
  intros b prev tail left Ha Hreq Hl Hs Hi Hset. set (s0 := s <| sh ::= (fun h => h <| sh_pm ::= wmb |>) |>).
  assert (E0 : st_wmb s = Ok (tt, s0)) by done.
  destruct (try_lock_ckptlog s0 Hl) as (s1 & Ei & [Oself Oholds Oitems] & El). exists s1.
  assert (Hs1 : holds CKPTLOG s1 k q) by (apply Oholds; by eapply holds_ext).
  assert (Hi1 : items_ok b k q (sh s1)) by (apply Oitems; by apply (items_ok_ext _ _ _ (sh s))).
  assert (Elog : ckptlog (self s1) = ckptlog (self s)) by (by rewrite Oself).
  assert (Eset : ckpt_free_set (self s1) = ckpt_free_set (self s)) by (by rewrite Oself).
  set (s1' := s1 <| self ::= _ |>) in El.
  destruct (ckpt_drop_run k prev q s1' Ha) as (ent & s2 & s3 & E2 & E3 & [D1 D2 D3 D4 D5]);
    [by eapply holds_ext | by cbn; rewrite Elog | by cbn; rewrite Eset |].
  change (sh s1') with (sh s1) in *. change (clks (self s1')) with (clks (self s1)) in D5.
  change (ckpt_free_set (self s1')) with (ckpt_free_set (self s1)) in D4. cbn in D2. rewrite Elog in D2.
  assert (Eb : n_buffer (ckptlog (self s3)) = b) by (by rewrite D2).
  assert (Et : n_tail_cnt (ckptlog (self s3)) = tail) by (by rewrite D2).
  destruct (ckpt_writeback_run (__qp2 (clks (self s1))) watermark k left s3 D3) as (bytes & s4 & E4 & W & Hh4).
  { rewrite Eb. apply (items_ok_ext _ _ _ (sh s1)); [by rewrite D1 .. | by apply items_ok_from]. }
  rewrite Eb, Et in W, Hh4. rewrite D1 in Hh4. destruct W as [W1 W2 W3 W4 W5 W6].
  destruct (ckptlog_reclaim_finish_run (n_head_cnt (ckptlog (self s1))) (n_head_cnt (ckptlog (self s3))) bytes s4 s3 k left D3)
    as (s5 & E5 & F1 & F2 & F3 & F4 & F5 & F6 & F7 & F8 & _); [done | by rewrite W1 | by rewrite W2 | done |].
  exists s5. split; [by mrun E0 |]. split.
  { unfold ckptlog_reclaim_x, ckptlog_need_reclaim, ckptlog_head. mrun E0. msteps.
    change (r_ckptlog (reclaim (self s0))) with (r_ckptlog (reclaim (self s))). rewrite (proj2 (Z.eqb_neq _ 0)) by done.
    mrun El. cbn [negb]. msteps. cbn [upd self s1'] in *.
    change (n_prev_head_cnt (ckptlog (self s1'))) with (n_prev_head_cnt (ckptlog (self s1))). rewrite Elog. fold prev.
    mrun E2. mrun E3. msteps. mrun E4. rewrite <- E5, Elog. reflexivity. }
  cbv zeta. rewrite F2, F3, F4, F5, F6, F7, D1 in *.
  assert (Ecl : clks (self s4) = clks (self s3)) by (by rewrite W1).
  assert (Efs : ckpt_free_set (self s4) = ckpt_free_set (self s3)) by (by rewrite W1).
  rewrite Ecl, Efs, D4, D5, W2. do 2 (split; [done |]). split; [exact Hh4 |].
  rewrite Eset. split; [done |]. split; [exact W4 |]. split; [exact W5 |]. split; [exact W6 |]. by split.
Qed.

(** * The boundary *)

(** the entries before the count [prev], and the others *)
Definition older (prev : Z) (q : entries) : entries := List.filter (fun x => x.1 <? prev) q.
Definition younger (prev : Z) (q : entries) : entries := List.filter (fun x => prev <=? x.1) q.

(** the boundary is where an entry starts, or behind the last one *)
Definition at_entry (prev : Z) (q : entries) : Prop := prev ∈ q.*1 \/ forall x, x ∈ q -> x.1 < prev.

Lemma contents_sorted b k c h l t : seg b k c h l t -> StronglySorted (fun x y => x.1 < y.1) (contents l).
Proof.
  induction 1 as [t | h e l t Hc Hs Hd Hw Hseg IH]; [constructor |]. unfold contents in *. cbn [List.filter].
  destruct (negb _); [| done]. constructor; [done |]. apply Forall_forall. intros y Hy%contents_elem.
  destruct (seg_range _ _ _ _ _ _ Hseg) as [_ Hr]. specialize (Hr y Hy). cbn. lia.
Qed.

Lemma holds_sorted s k q : holds CKPTLOG s k q -> StronglySorted (fun x y => x.1 < y.1) q.
Proof. intros (r & _ & l & [_ _ _ _ _ Hseg _] & <-). by eapply contents_sorted. Qed.

Lemma cnt_split prev q : StronglySorted (fun x y => x.1 < y.1) q -> at_entry prev q ->
  before_cnt prev q = older prev q /\ from_cnt prev q = younger prev q.
Proof.
  unfold older, younger. induction 1 as [| x q Hs IH Hx]; intros Hb; [done |].
  cbn [before_cnt from_cnt List.filter]. rewrite Forall_forall in Hx. destruct (Z.eqb_spec x.1 prev) as [E | E].
  - rewrite (proj2 (Z.ltb_ge _ _)), (proj2 (Z.leb_le _ _)) by lia.
    assert (Hf : List.filter (fun x => x.1 <? prev) q = [] /\ List.filter (fun x => prev <=? x.1) q = q); [| by destruct Hf as [-> ->]].
    clear -Hx E. induction q as [| y q IH]; [done |]. cbn [List.filter]. pose proof (Hx y ltac:(by left)).
    rewrite (proj2 (Z.ltb_ge _ _)), (proj2 (Z.leb_le _ _)) by lia. destruct IH as [-> ->]; [| done].
    intros z Hz. apply Hx. by right.
  - assert (Hlt : x.1 < prev).
    { destruct Hb as [Hb | Hb]; [| apply Hb; by left]. rewrite fmap_cons in Hb. apply elem_of_cons in Hb as [Hb | Hb]; [by destruct E |].
      apply list_elem_of_fmap in Hb as (y & -> & Hy). by apply Hx. }
    rewrite (proj2 (Z.ltb_lt _ _)), (proj2 (Z.leb_gt _ _)) by lia.
    destruct IH as [-> ->]; [| done]. destruct Hb as [Hb | Hb]; [left | right; intros y Hy; apply Hb; by right].
    rewrite fmap_cons in Hb. apply elem_of_cons in Hb as [Hb | Hb]; [by destruct E | done].
Qed.

Lemma cnt_none prev q : prev ∉ q.*1 -> before_cnt prev q = q /\ from_cnt prev q = [].
Proof.
  induction q as [| x q IH]; [done |]. rewrite fmap_cons. intros [Hx Hq]%not_elem_of_cons. cbn.
  rewrite (proj2 (Z.eqb_neq _ _)) by done. by destruct (IH Hq) as [-> ->].
Qed.

(** C20. A reclamation of a requested checkpoint log, when the boundary where the
    last write-back stopped is where an entry starts, or the tail.  It drops
    exactly the entries before the boundary, and puts the freed objects among
    them into the free set; from the boundary on, it passes the entries up to
    the first that is younger than the grace period, or that is still its
    object's current master when enough of the log is free, and every current
    master that it passes is copied to its original object, which becomes the
    current master again.  No other header and no other object changes; every
    entry from the boundary on stays in the log, for those who still read it; the
    new boundary is where this write-back stopped. *)
Theorem ckptlog_reclaim_exact `{!Rely others_ckpt} k q watermark s :
  let b := n_buffer (ckptlog (self s)) in
  let prev := n_prev_head_cnt (ckptlog (self s)) in
  let tail := n_tail_cnt (ckptlog (self s)) in
  let left := younger prev q in
  alloc_total -> r_ckptlog (reclaim (self s)) <> 0 -> n_reclaim_lock (ckptlog (self s)) = 0 ->
  holds CKPTLOG s k q -> items_ok b k q (sh s) -> set_ready (length q) (ckpt_free_set (self s)) ->
  at_entry prev q ->
  exists s1 s', (st_wmb ;;; interfere) s = Ok (tt, s1) /\ ckptlog_reclaim_x watermark s = Ok (true, s') /\
    let stop := wb_stop b k (__qp2 (clks (self s1))) watermark tail (sh s1) in
    let passed := wb_passed stop left in
    holds CKPTLOG s' k left /\ heap (sh s') = heap (sh s1) /\
    n_prev_head_cnt (ckptlog (self s')) = match wb_rest stop left with [] => tail | x :: _ => x.1 end /\
    ptrset_elems (ckpt_free_set (self s')) =
      ptrset_elems (ckpt_free_set (self s)) ++ freed_objs (sh s1) (older prev q) /\
    (forall p, vhdrs (sh s') !! p =
      (fun v => if written b k (sh s1) passed p then restore v else v) <$> vhdrs (sh s1) !! p) /\
    (forall x hd, x ∈ passed -> is_current b k (sh s1) x = true -> hdr_of x = Some hd ->
      exists bytes rest, obj_data (sh s1) !! ent_obj b k x = Some bytes /\
        obj_data (sh s') !! ce_np_org_act hd = Some (take (Z.to_nat (obj_size (ce_hdr hd))) bytes ++ rest)) /\
    (forall o, (forall x hd, x ∈ passed -> is_current b k (sh s1) x = true -> hdr_of x = Some hd ->
      ce_np_org_act hd <> o) -> obj_data (sh s') !! o = obj_data (sh s1) !! o) /\
    __min_ckpt_reclaimed (clks (self s')) = oldest_clk left (__min_ckpt_reclaimed (clks (self s1))) /\
    r_ckptlog (reclaim (self s')) = 0 /\ n_reclaim_lock (ckptlog (self s')) = 0.
Proof.
  intros b prev tail left Ha Hreq Hl Hs Hi Hset Hat.
  destruct (ckptlog_reclaim_x_run k q watermark s Ha Hreq Hl Hs Hi Hset) as (s1 & s' & E1 & E & R).
  destruct (cnt_split prev q (holds_sorted s k q Hs) Hat) as [Eb Ef]. fold b prev tail in R. rewrite Eb, Ef in R.
  fold left in R. cbv zeta in R. exists s1, s'. cbv zeta. by destruct R as (? & ? & ? & ? & ? & ? & ? & ? & ? & ?).
Qed.

(** C33. The boundary at a bogus entry.  A write-back that stops at the last entry
    before the end of the buffer leaves the boundary at the bogus entry there.
    The loop, which skips it before it compares, does not stop then: it drops
    every entry, also those behind the boundary, and writes none of them back.
    The objects whose current masters these are still have them as such, in
    space that the log gives to the next entries, and their originals keep the
    old bytes. *)
Theorem ckptlog_reclaim_past_bogus `{!Rely others_ckpt} k q watermark s :
  let b := n_buffer (ckptlog (self s)) in
  let prev := n_prev_head_cnt (ckptlog (self s)) in
  alloc_total -> r_ckptlog (reclaim (self s)) <> 0 -> n_reclaim_lock (ckptlog (self s)) = 0 ->
  holds CKPTLOG s k q -> items_ok b k q (sh s) -> set_ready (length q) (ckpt_free_set (self s)) ->
  prev ∉ q.*1 ->
  exists s1 s', (st_wmb ;;; interfere) s = Ok (tt, s1) /\ ckptlog_reclaim_x watermark s = Ok (true, s') /\
    holds CKPTLOG s' k [] /\ (forall o, obj_data (sh s') !! o = obj_data (sh s1) !! o) /\
    forall x p, x ∈ q -> is_current b k (sh s1) x = true -> vhdr_addr (sh s1) x = Some p ->
      exists v, vhdrs (sh s') !! p = Some v /\ np_cur_act v = ent_obj b k x.
Proof.
  intros b prev Ha Hreq Hl Hs Hi Hset Hprev.
  destruct (ckptlog_reclaim_x_run k q watermark s Ha Hreq Hl Hs Hi Hset) as (s1 & s' & E1 & E & R).
  destruct (cnt_none prev q Hprev) as [Eb Ef]. fold b prev in R. rewrite Eb, Ef in R. cbv zeta in R.
  destruct R as (Hq & _ & _ & _ & Hv & _ & Hd & _). exists s1, s'. do 3 (split; [done |]). split.
  - intros o. apply Hd. by intros x hd Hx%not_elem_of_nil.
  - intros x p Hx Hc Hp. unfold is_current in Hc. rewrite Hp in Hc. rewrite Hv. apply andb_prop in Hc as [Hc _].
    destruct (vhdrs (sh s1) !! p) as [v |]; [| done]. exists v. split; [done | lia].
Qed.
End CkptReclaim.

(** * Example: a freed object before the boundary, a current master after it *)

Definition ex_ckpt_item (org clk tomb : Z) : ts_nvlog_entry :=
  mk_nvlog_entry clk 128 TYPE_ACTUAL (EB_ckpt (mk_ckpt_entry_hdr clk org tomb (mk_obj_hdr 8 0 TYPE_NVLOG_ENTRY STATUS_NONE))).
Definition ex_items : entries := [(0, ex_ckpt_item 310000 600 1); (128, ex_ckpt_item 300000 700 0)].
Definition ex_org (vhdr : Z) : ts_act_hdr_struct :=
  mk_ahs (mk_act_nvhdr vhdr 1 0) (mk_obj_hdr 8 0 TYPE_ACTUAL STATUS_NONE).
Definition ex_two : st :=
  (ex_st <| sh ::= (fun h => h
     <| heap := <[310000 := CAct (ex_org 500)]> {[ 300000 := CAct (ex_org 400) ]} |>
     <| vhdrs := <[400 := mk_act_vhdr NULL NULL 300000 (ckpt_ent_obj 16512) MAX_VERSION]>
          {[ 500 := mk_act_vhdr NULL 1 310000 (ckpt_ent_obj 16384) 600 ]} |>
     <| obj_data := <[ckpt_ent_obj 16512 := [7; 7; 7; 7; 7; 7; 7; 7]]> {[ 300000 := [0; 0; 0; 0; 0; 0; 0; 0; 9] ]} |>
     <| sh_pm := pmem_with (<[16384 := ex_ckpt_item 310000 600 1]> {[ 16512 := ex_ckpt_item 300000 700 0 ]}) ∅ |>
     <| stores := {[ 1024 := mk_nvlog_store 0 256 16384 16384 4096 (lnot64 4095) TYPE_CKPTLOG STATUS_NVLOG_NORMAL NULL ]} |>) |>)
  <| self ::= (fun t => t
     <| ckptlog := mk_nvlog 0 256 128 0 1024 16384 4096 (lnot64 4095) TYPE_CKPTLOG STATUS_NVLOG_NORMAL true 8192 |>
     <| ckpt_free_set := (ptrset_init true).2 |>
     <| clks := mk_clks 1000 900 800 0 0 |> <| reclaim := mk_reclaim 0 RECLAIM_CKPTLOG_WRITEBACK_ALL |>) |>.

#[local] Instance ex_two_rely : @Rely ex_env others_ckpt.
Proof. intros s. exists s. split; [done |]. split; [| done | done]. by destruct s as [[? ? ? ? ? ? ? ? ? ? ? ? ? [] ? [] ? ? ?] ?]. Qed.

Lemma ex_items_hold : holds CKPTLOG ex_two 12 ex_items.
Proof.
  eexists. split; [by vm_compute |]. exists ex_items. split; [| done].
  split; cbn; [split; cbn; try done; try lia; by exists 256 | done | by exists 0 | done | done | | done].
  constructor; cbn; [done | lia | by exists 2 | by vm_compute |].
  constructor; cbn; [done | lia | by exists 2 | by vm_compute |]. apply seg_nil.
Qed.

Lemma ex_items_ok : items_ok 16384 12 ex_items (sh ex_two).
Proof.
  split.
  - intros x [-> | [-> | []%not_elem_of_nil]%elem_of_cons]%elem_of_cons; do 3 eexists; split; try (by vm_compute); done.
  - intros x [-> | [-> | []%not_elem_of_nil]%elem_of_cons]%elem_of_cons Ht; [done |]. eexists. by vm_compute.
  - intros x y hd [-> | [-> | []%not_elem_of_nil]%elem_of_cons]%elem_of_cons
      [-> | [-> | []%not_elem_of_nil]%elem_of_cons]%elem_of_cons [= <-]; by vm_compute.
Qed.

Lemma ckptlog_reclaim_exact_witness :
  exists s' v, @ckptlog_reclaim_x ex_env 0 ex_two = Ok (true, s') /\
    ptrset_elems (ckpt_free_set (self s')) = [500] /\
    vhdrs (sh s') !! 400 = Some v /\ np_cur_act v = 300000 /\
    (exists rest, obj_data (sh s') !! 300000 = Some ([7; 7; 7; 7; 7; 7; 7; 7] ++ rest)).
Proof.
  destruct (@ckptlog_reclaim_exact ex_env ex_two_rely 12 ex_items 0 ex_two) as (s1 & s' & [= <-] & E & _ & _ & _ & Hf & Hv & Hd & _).
  - intros n. exists (65536 + 4096 * Z.of_nat n). split; [done | unfold NULL; lia].
  - done.
  - done.
  - exact ex_items_hold.
  - exact ex_items_ok.
  - split; [apply ptrset_init_wf | by cbn].
  - left. right. by left.
  - exists s', (mk_act_vhdr NULL NULL 300000 300000 MAX_VERSION). split; [exact E |]. split; [exact Hf |].
    split; [by rewrite Hv |]. split; [done |].
    destruct (Hd (128, ex_ckpt_item 300000 700 0) (mk_ckpt_entry_hdr 700 300000 0 (mk_obj_hdr 8 0 TYPE_NVLOG_ENTRY STATUS_NONE)))
      as (bytes & rest & Hb & Ho); [by vm_compute; left | by vm_compute | done |].
    vm_compute in Hb. injection Hb as <-. by exists rest.
Defined.

(** the same log at the end of its buffer: the boundary is at the bogus entry *)
Definition ex_wrapped : entries := [(3840, ex_ckpt_item 310000 600 1); (4096, ex_ckpt_item 300000 700 0)].
Definition ex_past : st :=
  (ex_two <| sh ::= (fun h => h
     <| vhdrs ::= (fun m => <[400 := mk_act_vhdr NULL NULL 300000 (ckpt_ent_obj 16384) MAX_VERSION]> m) |>
     <| obj_data := <[ckpt_ent_obj 16384 := [7; 7; 7; 7; 7; 7; 7; 7]]> {[ 300000 := [0; 0; 0; 0; 0; 0; 0; 0; 9] ]} |>
     <| sh_pm := pmem_with (<[20224 := ex_ckpt_item 310000 600 1]> (<[20352 := Nvlog.bogus_entry 128]>
          {[ 16384 := ex_ckpt_item 300000 700 0 ]})) ∅ |>) |>)
  <| self ::= (fun t => t
     <| ckptlog := mk_nvlog 3840 4224 3968 0 1024 16384 4096 (lnot64 4095) TYPE_CKPTLOG STATUS_NVLOG_NORMAL true 8192 |>) |>.

Lemma ex_wrapped_hold : holds CKPTLOG ex_past 12 ex_wrapped.
Proof.
  eexists. split; [by vm_compute |]. exists [(3840, ex_ckpt_item 310000 600 1); (3968, Nvlog.bogus_entry 128); (4096, ex_ckpt_item 300000 700 0)].
  split; [| done]. split; cbn; [split; cbn; try done; try lia; by exists 256 | done | by exists 60 | done | done | | done].
  constructor; cbn; [done | lia | by exists 2 | by vm_compute |].
  constructor; cbn; [done | lia | by exists 2 | by vm_compute |].
  constructor; cbn; [done | lia | by exists 2 | by vm_compute |]. apply seg_nil.
Qed.

Lemma ex_wrapped_ok : items_ok 16384 12 ex_wrapped (sh ex_past).
Proof.
  split.
  - intros x [-> | [-> | []%not_elem_of_nil]%elem_of_cons]%elem_of_cons; do 3 eexists; split; try (by vm_compute); done.
  - intros x [-> | [-> | []%not_elem_of_nil]%elem_of_cons]%elem_of_cons Ht; [done |]. eexists. by vm_compute.
  - intros x y hd [-> | [-> | []%not_elem_of_nil]%elem_of_cons]%elem_of_cons
      [-> | [-> | []%not_elem_of_nil]%elem_of_cons]%elem_of_cons [= <-]; by vm_compute.
Qed.

Lemma ckptlog_reclaim_past_bogus_witness :
  exists s' v, @ckptlog_reclaim_x ex_env 0 ex_past = Ok (true, s') /\ holds CKPTLOG s' 12 [] /\
    vhdrs (sh s') !! 400 = Some v /\ np_cur_act v = ckpt_ent_obj 16384 /\
    obj_data (sh s') !! 300000 = Some [0; 0; 0; 0; 0; 0; 0; 0; 9].
Proof.
  destruct (@ckptlog_reclaim_past_bogus ex_env ex_two_rely 12 ex_wrapped 0 ex_past) as (s1 & s' & [= <-] & E & Hh & Hd & Hv).
  - intros n. exists (65536 + 4096 * Z.of_nat n). split; [done | unfold NULL; lia].
  - done.
  - done.
  - exact ex_wrapped_hold.
  - exact ex_wrapped_ok.
  - split; [apply ptrset_init_wf | by cbn].
  - by intros [? | [? | []%not_elem_of_nil]%elem_of_cons]%elem_of_cons.
  - destruct (Hv (4096, ex_ckpt_item 300000 700 0) 400 ltac:(right; by left) ltac:(by vm_compute) ltac:(by vm_compute))
      as (v & Ev & Ec).
    exists s', v. split; [exact E |]. split; [exact Hh |]. split; [exact Ev |]. split; [exact Ec | by rewrite Hd].
Defined.
