(* ===== verification/Append.v ===== *)
(** Appending to a write set ([tvlog_append_begin], [tvlog_append_end] of
    [lib/tvlog.c], [lib/tvlog.h]): the layout of the log while a transaction
    writes, which the walks of commit and abort rely on. *)
From S2P Require Export WriteSet.

Section Append.
Context `{Env}.

(** * The layout of a write set under construction *)

(** the entry of a copy, and of its padding up to [es] bytes *)
Definition copy_entry (ws p_act_vhdr size es : Z) : ts_cpy_hdr_struct :=
  mk_chs (mk_cpy_hdr ws MAX_VERSION 0 0 NULL p_act_vhdr) (mk_obj_hdr size (es - size) TYPE_COPY STATUS_NONE).

(** an entry lies inside the log, aligned, and is an uncommitted copy of [ws] or
    bogus *)
Record entry_ok (ws c : Z) (h : ts_cpy_hdr_struct) : Prop := {
  ent_aligned : (64 | c);
  ent_inside : c mod TS_TVLOG_SIZE + get_entry_size h <= TS_TVLOG_SIZE;
  ent_type : (o_type (c_hdr h) = TYPE_COPY /\ p_ws (cpy_hdr h) = ws /\ c_copy (cpy_hdr h) = NULL /\
              get_raw_wrt_clk h = MAX_VERSION) \/ o_type (c_hdr h) = TYPE_BOGUS }.

(** the calling thread writes in [ws], which has the entries [l] up to the tail *)
Record writing (s : st) (ws : Z) (w : ts_wrt_set) (l : list Z) : Prop := {
  wr_cur : cur_wrt_set (tvlog (self s)) = ws;
  wr_buffer : 0 <= t_buffer (tvlog (self s));
  wr_layout : ws_layout s ws w l (t_tail_cnt (tvlog (self s)));
  wr_tail : tail_ok (t_tail_cnt (tvlog (self s)));
  wr_start : 0 <= start_tail_cnt w < t_tail_cnt (tvlog (self s)) /\ ws = tvlog_obj (tvlog (self s)) (start_tail_cnt w);
  wr_first : tail_ok (start_tail_cnt w);
  wr_turn : t_tail_cnt (tvlog (self s)) - start_tail_cnt w <= TS_TVLOG_SIZE;
  wr_entries : forall c h, c ∈ l -> entry_at s c = Some h -> start_tail_cnt w < c /\ entry_ok ws c h }.

(** what others and the caller's own steps keep of the write set between the
    two halves of an append: the log, and its entries from [start] to [c] *)
Record own_log_kept (ws start c : Z) (s s' : st) : Prop := {
  olk_tvlog : tvlog (self s') = tvlog (self s);
  olk_ws : wrt_sets (sh s') !! ws = wrt_sets (sh s) !! ws;
  olk_cells : forall x, start <= x <= c ->
    heap (sh s') !! tvlog_obj (tvlog (self s)) x = heap (sh s) !! tvlog_obj (tvlog (self s)) x }.

(** * Facts: paths *)

Lemma path_bounds s c l e : path s c l e -> c <= e /\ forall x, x ∈ l -> c <= x < e.
Proof.
  induction 1 as [c | c h l e He Hc Hpos Hlt _ [IH1 IH2]]; [split; [lia |]; by intros x ?%not_elem_of_nil |].
  split; [lia |]. intros x [-> | Hx]%elem_of_cons; [lia |]. specialize (IH2 x Hx). lia.
Qed.

Lemma path_snoc s c l e h :
  path s c l e -> 0 <= e -> entry_at s e = Some h -> 0 < get_entry_size h -> e + get_entry_size h < 2 ^ 63 ->
  path s c (l ++ [e]) (e + get_entry_size h).
Proof.
  induction 1 as [c | c h' l e He Hc Hpos Hlt _ IH]; intros; cbn.
  - eapply path_cons; try done. constructor.
  - eapply path_cons; [exact He | done | done | done |]. by apply IH.
Qed.

Lemma path_entry s c l e x : path s c l e -> x ∈ l -> is_Some (entry_at s x).
Proof.
  induction 1 as [c | c h l e He _ _ _ _ IH]; [by intros ?%not_elem_of_nil |].
  intros [-> | Hx]%elem_of_cons; [by eexists | auto].
Qed.

Lemma path_NoDup s c l e : path s c l e -> NoDup l.
Proof.
  induction 1 as [c | c h l e He _ Hpos _ Hp IH]; constructor; [| done].
  intros Hin. destruct (path_bounds _ _ _ _ Hp) as [_ Hb]. specialize (Hb c Hin). lia.
Qed.

Lemma writing_path s ws w l : writing s ws w l ->
  exists c, start_tail_cnt w < c /\ path s c l (t_tail_cnt (tvlog (self s))).
Proof.
  intros Hw. destruct (wr_layout _ _ _ _ Hw) as [_ _ _ (h & Hh & _ & Hp)]. pose proof (wr_start _ _ _ _ Hw) as [Hs _].
  destruct l as [| x l].
  - exists (t_tail_cnt (tvlog (self s))). split; [lia | constructor].
  - inversion Hp as [| ? hx ? ? He Hc Hpos Hlt Hp']; subst.
    eexists. split; [| exact Hp]. by apply (wr_entries _ _ _ _ Hw _ hx ltac:(by left)).
Qed.

Lemma get_entry_size_nonneg h : 0 <= get_entry_size h.
Proof. unfold get_entry_size, u32. by apply Z.mod_pos_bound. Qed.

(** a cell of the log, after a write to another of the same turn *)
Lemma entry_at_set_cell s c x h :
  0 <= c < 2 ^ 63 -> 0 <= x < 2 ^ 63 -> Z.abs (x - c) < TS_TVLOG_SIZE ->
  entry_at (set_cell (tvlog_obj (tvlog (self s)) c) h s) x = if decide (x = c) then Some h else entry_at s x.
Proof.
  intros Hc Hx Hd. unfold entry_at, set_cell. cbn. case_decide as E; [by rewrite E, lookup_insert_eq |].
  rewrite lookup_insert_ne; [done |]. intros He. apply E. symmetry. apply (tvlog_obj_inj (tvlog (self s))); [done | done | lia | done].
Qed.

Lemma path_length s c l e : path s c l e -> Z.of_nat (length l) <= e - c.
Proof. induction 1; cbn [length]; lia. Qed.

(** * Facts: the two halves of an append *)

(** the size of the new entry when the tail is at [cnt] *)
Definition append_size (cnt size : Z) : Z :=
  copy_size size + (if wraps_at cnt (copy_size size) then 0 else alloc_pad cnt size).

Lemma append_size_bounds cnt size : small_object size -> tail_ok cnt ->
  let es := append_size cnt size in let c := alloc_at cnt size in
  (64 | es) /\ size + 56 <= es < size + 312 /\ c mod TS_TVLOG_SIZE + es <= TS_TVLOG_SIZE /\ tail_room (c + es).
Proof.
  intros Hs Ht. destruct (copy_size_bounds size Hs) as (Ha & Hb & Hp).
  destruct (alloc_at_ok cnt size Hs Ht) as (A1 & A2 & A3 & A4). unfold append_size. assert (HL : TS_TVLOG_SIZE = 2 ^ 20) by done.
  destruct (wraps_at cnt (copy_size size)) eqn:Ew; cbn zeta.
  - destruct (A4 eq_refl) as [A5 _]. rewrite Z.add_0_r. split; [done |]. split; [lia |]. split; [lia |].
    unfold tail_room, small_object in *. rewrite ws_reserve_eq, Z.add_mod, A5 by lia. rewrite Z.add_0_l, Z.mod_mod by lia.
    rewrite Z.mod_small; lia.
  - assert (Eat : alloc_at cnt size = cnt) by (unfold alloc_at; by rewrite Ew). rewrite Eat in *.
    destruct (alloc_pad_bounds cnt size Hs Ht A3) as (P1 & P2 & P3). rewrite ws_reserve_eq in P1.
    split; [done |]. split; [lia |]. split; [| done]. unfold alloc_pad in *. destruct (wraps_at cnt (copy_size size + ws_reserve)); lia.
Qed.

(** the state after [tvlog_append_begin] *)
Definition append_state (p_act_vhdr size : Z) (s : st) : st :=
  let cnt := t_tail_cnt (tvlog (self s)) in
  let ws := cur_wrt_set (tvlog (self s)) in
  let h := copy_entry ws p_act_vhdr size (append_size cnt size) in
  let s1 := set_cell (tvlog_obj (tvlog (self s)) (alloc_at cnt size)) h (alloc_state size false s) in
  s1 <| self ::= (fun t => t <| stat ::= (fun c => stat_acc c n_tvlog_cpobj_written_bytes (get_entry_size h)) |>) |>.

Lemma alloc_state_cell size s : small_object size -> tail_ok (t_tail_cnt (tvlog (self s))) ->
  let cnt := t_tail_cnt (tvlog (self s)) in
  heap (sh (alloc_state size false s)) !! tvlog_obj (tvlog (self s)) (alloc_at cnt size) =
    Some (CCpy (raw_entry size (append_size cnt size))).
Proof.
  intros Hs Ht cnt. unfold alloc_state, append_size. fold cnt.
  destruct (wraps_at cnt (copy_size size)); cbn; rewrite lookup_insert_eq; [by rewrite Z.add_0_r | done].
Qed.

Lemma tvlog_append_begin_run s p size :
  cur_wrt_set (tvlog (self s)) <> NULL -> small_object size -> tail_ok (t_tail_cnt (tvlog (self s))) ->
  let cnt := t_tail_cnt (tvlog (self s)) in
  tvlog_append_begin p size s =
    Ok ((tvlog_obj (tvlog (self s)) (alloc_at cnt size), wraps_at cnt (copy_size size)), append_state p size s).
Proof.
  intros Hne Hs Ht cnt. unfold tvlog_append_begin. msteps. rewrite (proj2 (Z.eqb_neq _ _)) by done. msteps.
  mrun (tvlog_alloc_run size false s Hs Ht). msteps. fold cnt. rewrite orb_false_l.
  pose proof (alloc_state_cell size s Hs Ht) as Hcell. cbn zeta in Hcell. fold cnt in Hcell.
  assert (Hcur : cur_wrt_set (tvlog (self (alloc_state size false s))) = cur_wrt_set (tvlog (self s))).
  { unfold alloc_state. by destruct (wraps_at _ _). }
  rewrite Hcur. mrun (put_chs_run _ _ _ (fun c => c <| cpy_hdr ::= (fun h => h <| p_ws := cur_wrt_set (tvlog (self s)) |> <| c_act_vhdr := p |>) |>
     <| c_hdr ::= (fun h => h <| o_type := TYPE_COPY |>) |>) Hcell).
  set (s2 := upd sh _ (alloc_state size false s)).
  assert (Hc2 : heap (sh s2) !! tvlog_obj (tvlog (self s)) (alloc_at cnt size) =
    Some (CCpy (copy_entry (cur_wrt_set (tvlog (self s))) p size (append_size cnt size)))).
  { cbn. by rewrite lookup_insert_eq. }
  mrun (get_chs_run s2 _ _ Hc2). unfold stat_thread_acc, mod_self. by msteps.
Qed.

Lemma append_state_fields p size s :
  tvlog (self (append_state p size s)) =
    (tvlog (self s)) <| t_tail_cnt := alloc_at (t_tail_cnt (tvlog (self s))) size |> /\
  wrt_sets (sh (append_state p size s)) = wrt_sets (sh s) /\ vhdrs (sh (append_state p size s)) = vhdrs (sh s) /\
  oplog (self (append_state p size s)) = oplog (self s).
Proof.
  unfold append_state, alloc_state, alloc_at. destruct (wraps_at _ _); [done |]. split; [| done]. cbn.
  by destruct (tvlog (self s)).
Qed.

Lemma entry_at_cells s s' x : t_buffer (tvlog (self s')) = t_buffer (tvlog (self s)) ->
  heap (sh s') !! tvlog_obj (tvlog (self s)) x = heap (sh s) !! tvlog_obj (tvlog (self s)) x -> entry_at s' x = entry_at s x.
Proof. intros Hb Hh. unfold entry_at, tvlog_obj, tvlog_at in *. by rewrite Hb, Hh. Qed.

(** the entries of the log after [tvlog_append_begin] *)
Lemma append_state_entry p size s x :
  let cnt := t_tail_cnt (tvlog (self s)) in let c := alloc_at cnt size in
  small_object size -> tail_ok cnt -> 0 <= x -> c - TS_TVLOG_SIZE < x <= c ->
  entry_at (append_state p size s) x =
    if decide (x = c) then Some (copy_entry (cur_wrt_set (tvlog (self s))) p size (append_size cnt size))
    else if decide (x = cnt) then Some (bogus_entry cnt) else entry_at s x.
Proof.
  intros cnt c Hs Ht Hx0 Hx. destruct (alloc_at_ok cnt size Hs Ht) as (_ & A2 & _). fold c in A2.
  destruct (copy_size_bounds size Hs) as (_ & Hb & _). unfold small_object in Hs. pose proof Ht as (_ & Hc & _).
  assert (HL : TS_TVLOG_SIZE = 2 ^ 20) by done.
  assert (Hinj : forall y, 0 <= y -> cnt <= y <= c -> tvlog_obj (tvlog (self s)) x = tvlog_obj (tvlog (self s)) y -> x = y).
  { intros y Hy0 Hy. apply tvlog_obj_inj; lia. }
  unfold entry_at. rewrite (proj1 (append_state_fields p size s)).
  change (tvlog_obj (upd t_tail_cnt _ _) x) with (tvlog_obj (tvlog (self s)) x).
  unfold append_state, alloc_state. fold cnt. fold c.
  case_decide as Ec; [subst x |].
  { destruct (wraps_at cnt (copy_size size)); cbn; by rewrite lookup_insert_eq. }
  assert (Hne : tvlog_obj (tvlog (self s)) c <> tvlog_obj (tvlog (self s)) x) by (intros E; apply Ec, Hinj; [lia | lia | done]).
  case_decide as Et.
  - subst x. assert (Ew : wraps_at cnt (copy_size size) = true).
    { destruct (wraps_at cnt (copy_size size)) eqn:E; [done |]. exfalso. apply Ec. unfold c, alloc_at. by rewrite E. }
    rewrite Ew. cbn. rewrite !lookup_insert_ne by done. by rewrite lookup_insert_eq.
  - assert (Hnt : tvlog_obj (tvlog (self s)) cnt <> tvlog_obj (tvlog (self s)) x) by (intros E; apply Et, Hinj; [lia | lia | done]).
    destruct (wraps_at cnt (copy_size size)); cbn; by rewrite !lookup_insert_ne by done.
Qed.

Lemma tvlog_append_end_run s o h ws w skip :
  heap (sh s) !! o = Some (CCpy h) -> cur_wrt_set (tvlog (self s)) = ws -> wrt_sets (sh s) !! ws = Some w ->
  0 <= num_objs w < 2 ^ 31 -> 0 <= t_tail_cnt (tvlog (self s)) + get_entry_size h < 2 ^ 64 ->
  exists s', tvlog_append_end o skip s = Ok (tt, s') /\
    tvlog (self s') = (tvlog (self s)) <| t_tail_cnt := t_tail_cnt (tvlog (self s)) + get_entry_size h |> /\
    heap (sh s') = heap (sh s) /\ vhdrs (sh s') = vhdrs (sh s) /\ obj_data (sh s') = obj_data (sh s) /\
    wrt_sets (sh s') !! ws = Some (w <| num_objs := num_objs w + (if skip then 2 else 1) |>).
Proof.
  intros Ho Hcur Hw Hn Ht. unfold tvlog_append_end. mrun (get_chs_run s o h Ho). unfold mod_tvlog, mod_self. msteps.
  cbn [upd self tvlog cur_wrt_set]. rewrite u64_small, Hcur by done. unfold put_ws. msteps.
  match goal with |- context [bind (get_ws ws) _ ?x] => mrun (get_ws_run x ws w Hw) end. unfold mod_sh. msteps.
  rewrite u32_small by lia. destruct skip; cbn [when]; msteps.
  - match goal with |- context [bind (get_ws ws) _ ?x] =>
      mrun (get_ws_run x ws (w <| num_objs := num_objs w + 1 |>) ltac:(cbn; by rewrite lookup_insert_eq)) end.
    msteps. cbn [upd num_objs]. rewrite u32_small by lia. unfold stat_thread_asgn, mod_self, modify.
    eexists. split; [reflexivity |]. do 4 (split; [done |]). cbn. rewrite lookup_insert_eq. do 2 f_equal. lia.
  - unfold stat_thread_asgn, mod_self, modify.
    eexists. split; [reflexivity |]. do 4 (split; [done |]). cbn. by rewrite lookup_insert_eq.
Qed.

Lemma copy_entry_size ws p size es : 0 <= es < 2 ^ 32 -> get_entry_size (copy_entry ws p size es) = es.
Proof. intros. unfold get_entry_size. cbn. rewrite u32_small; lia. Qed.

Lemma bogus_entry_size cnt : 0 <= cnt -> get_entry_size (bogus_entry cnt) = TS_TVLOG_SIZE - cnt mod TS_TVLOG_SIZE.
Proof.
  intros. assert (HL : TS_TVLOG_SIZE = 2 ^ 20) by done. pose proof (Z.mod_pos_bound cnt TS_TVLOG_SIZE ltac:(lia)).
  unfold get_entry_size. cbn. rewrite u32_small; lia.
Qed.

(** the path to the old tail goes on to the new entry, over a bogus entry if
    the entry did not fit before the end of the log *)
Lemma path_append s s' c l cnt size h :
  small_object size -> tail_ok cnt -> path s c l cnt -> (forall x, x ∈ l -> entry_at s' x = entry_at s x) ->
  let at_ := alloc_at cnt size in
  entry_at s' at_ = Some h -> get_entry_size h = append_size cnt size ->
  (wraps_at cnt (copy_size size) = true -> entry_at s' cnt = Some (bogus_entry cnt)) ->
  path s' c (l ++ (if wraps_at cnt (copy_size size) then [cnt; at_] else [at_])) (at_ + append_size cnt size).
Proof.
  intros Hs Ht Hp Hsame at_ He Hsz Hb. destruct (append_size_bounds cnt size Hs Ht) as (_ & B & _ & _).
  destruct (alloc_at_ok cnt size Hs Ht) as (_ & A2 & _ & A4). destruct (copy_size_bounds size Hs) as (_ & Hcb & _).
  pose proof Ht as (_ & Hc & _). unfold small_object in Hs. apply (path_same s s') in Hp; [| done].
  rewrite <- Hsz in *. unfold at_, alloc_at in *. destruct (wraps_at cnt (copy_size size)) eqn:Ew.
  - replace [cnt; cnt + (TS_TVLOG_SIZE - cnt mod TS_TVLOG_SIZE)] with
      ([cnt] ++ [cnt + (TS_TVLOG_SIZE - cnt mod TS_TVLOG_SIZE)]) by done.
    rewrite app_assoc. destruct (A4 eq_refl) as [_ A5]. specialize (Hb eq_refl).
    rewrite <- (bogus_entry_size cnt) in * by lia.
    apply path_snoc; [| lia | done | lia | lia]. apply path_snoc; (done || lia).
  - apply path_snoc; (done || lia).
Qed.

(** room in this turn of the log for an entry of [size] bytes, ... *)
Definition entry_room (s : st) (start size : Z) : Prop :=
  t_tail_cnt (tvlog (self s)) - start + 2 * copy_size size + ws_reserve <= TS_TVLOG_SIZE /\
  t_tail_cnt (tvlog (self s)) + 2 ^ 17 < 2 ^ 62.
(** ... and for the header of a write set before it *)
Definition append_room (s : st) (start size : Z) : Prop :=
  t_tail_cnt (tvlog (self s)) - start + 2 * copy_size size + 3 * ws_reserve <= TS_TVLOG_SIZE /\
  t_tail_cnt (tvlog (self s)) + 2 ^ 18 < 2 ^ 62.

(** a tactic for the list of counts that an append adds *)
Ltac new_counts Hx :=
  match type of Hx with context [if ?b then _ else _] => destruct b end;
  [apply elem_of_cons in Hx as [-> | ->%list_elem_of_singleton] | apply list_elem_of_singleton in Hx as ->].

Lemma append_turn cnt size : small_object size -> tail_ok cnt ->
  cnt < alloc_at cnt size + append_size cnt size <= cnt + 2 * copy_size size + ws_reserve.
Proof.
  intros Hs Ht. destruct (alloc_at_ok cnt size Hs Ht) as (_ & A2 & A3 & A4).
  destruct (copy_size_bounds size Hs) as (_ & Hcb & Hp). unfold append_size, alloc_at in *.
  destruct (wraps_at cnt (copy_size size)) eqn:Ew; [rewrite ws_reserve_eq; lia |].
  destruct (alloc_pad_bounds cnt size Hs Ht A3) as (P1 & _). lia.
Qed.

(** what the log holds once [tvlog_append_begin] has run, and others after it *)
Lemma append_begin_entries s ws w l p size s2 :
  writing s ws w l -> small_object size -> entry_room s (start_tail_cnt w) size ->
  let cnt := t_tail_cnt (tvlog (self s)) in let c := alloc_at cnt size in
  own_log_kept ws (start_tail_cnt w) c (append_state p size s) s2 ->
  tvlog (self s2) = (tvlog (self s)) <| t_tail_cnt := c |> /\ wrt_sets (sh s2) !! ws = Some w /\
  forall x, start_tail_cnt w <= x <= c -> entry_at s2 x =
    if decide (x = c) then Some (copy_entry ws p size (append_size cnt size))
    else if decide (x = cnt) then Some (bogus_entry cnt) else entry_at s x.
Proof.
  intros Hw Hs [Hr _] cnt c [K1 K2 K3]. pose proof Hw as [Hcur _ Hlay Ht [Hst _] _ _ _]. fold cnt in Ht, Hst, Hr.
  destruct (append_state_fields p size s) as (F1 & F2 & _ & _). fold cnt in F1. fold c in F1.
  split; [congruence |]. split; [rewrite K2, F2; by apply (lay_ws _ _ _ _ _ Hlay) |]. intros x Hx.
  pose proof (append_turn cnt size Hs Ht). pose proof (append_size_bounds cnt size Hs Ht) as (_ & B2 & _). fold c in H0. rewrite ws_reserve_eq in *.
  unfold small_object in Hs.
  pose proof (append_state_entry p size s x Hs Ht ltac:(lia) ltac:(fold cnt; fold c; lia)) as E.
  fold cnt in E. fold c in E. rewrite Hcur in E. rewrite <- E. apply entry_at_cells; [by rewrite K1 |]. by apply K3.
Qed.

(** the new entries are where they should be *)
Lemma append_entry_ok ws p cnt size x h : small_object size -> tail_ok cnt ->
  let c := alloc_at cnt size in
  x ∈ (if wraps_at cnt (copy_size size) then [cnt; c] else [c]) ->
  Some h = (if decide (x = c) then Some (copy_entry ws p size (append_size cnt size)) else Some (bogus_entry cnt)) ->
  cnt <= x /\ entry_ok ws x h.
Proof.
  intros Hs Ht c Hx. destruct (alloc_at_ok cnt size Hs Ht) as (A1 & A2 & _ & _).
  destruct (append_size_bounds cnt size Hs Ht) as (_ & B2 & B3 & _). pose proof Ht as (T1 & T2 & _). unfold small_object in Hs.
  fold c in A1, A2, B3. case_decide as Ec; intros [= ->].
  - subst x. split; [lia |]. split; [done | rewrite copy_entry_size; lia | by left].
  - assert (x = cnt) as -> by (new_counts Hx; done). split; [lia |].
    split; [done | rewrite bogus_entry_size; lia | by right].
Qed.

Lemma writing_end s ws w l p size s2 :
  writing s ws w l -> small_object size -> entry_room s (start_tail_cnt w) size ->
  let cnt := t_tail_cnt (tvlog (self s)) in let c := alloc_at cnt size in let skip := wraps_at cnt (copy_size size) in
  own_log_kept ws (start_tail_cnt w) c (append_state p size s) s2 ->
  exists s3, tvlog_append_end (tvlog_obj (tvlog (self s)) c) skip s2 = Ok (tt, s3) /\
    writing s3 ws (w <| num_objs := num_objs w + (if skip then 2 else 1) |>) (l ++ (if skip then [cnt; c] else [c])) /\
    entry_at s3 c = Some (copy_entry ws p size (append_size cnt size)) /\
    (skip = true -> entry_at s3 cnt = Some (bogus_entry cnt)) /\
    (forall x, x ∈ l -> entry_at s3 x = entry_at s x) /\ vhdrs (sh s3) = vhdrs (sh s2) /\
    heap (sh s3) = heap (sh s2) /\ obj_data (sh s3) = obj_data (sh s2) /\ t_buffer (tvlog (self s3)) = t_buffer (tvlog (self s)).
Proof.
  intros Hw Hs Hroom cnt c skip Hk. destruct (append_begin_entries s ws w l p size s2 Hw Hs Hroom Hk) as (F1 & F2 & Eat).
  fold cnt in F1, Eat. fold c in F1, Eat. pose proof Hw as [Hcur Hbuf Hlay Ht [Hst Ews] Hfirst Hturn Hent]. destruct Hroom as [Hr Hr2].
  fold cnt in Hlay, Ht, Hst, Hturn, Hr, Hr2. pose proof (append_turn cnt size Hs Ht) as Hes. fold c in Hes.
  destruct (append_size_bounds cnt size Hs Ht) as (B1 & B2 & _ & B4). fold c in B4.
  destruct (alloc_at_ok cnt size Hs Ht) as (A1 & A2 & _ & A4). fold c in A1, A2. pose proof Ht as (T1 & T2 & _).
  pose proof (copy_size_bounds size Hs) as (_ & Hcb & _). pose proof Hs as Hs'. unfold small_object in Hs'. set (es := append_size cnt size) in *.
  assert (Hes2 : get_entry_size (copy_entry ws p size es) = es) by (apply copy_entry_size; lia).
  assert (HL : TS_TVLOG_SIZE = 2 ^ 20) by done. rewrite ws_reserve_eq in *.
  destruct Hlay as [Lw Ln Ls (hw & Hhw & Hsw & Hp)].
  destruct (writing_path s ws w l Hw) as (c0 & Hc0 & Hp0). pose proof (path_bounds _ _ _ _ Hp0) as [_ Hpb0].
  assert (Hc2 : heap (sh s2) !! tvlog_obj (tvlog (self s)) c = Some (CCpy (copy_entry ws p size es))).
  { pose proof (Eat c ltac:(lia)) as E. rewrite decide_True in E by done. apply entry_at_heap in E. by rewrite F1 in E. }
  destruct (tvlog_append_end_run s2 _ (copy_entry ws p size es) ws w skip Hc2) as (s3 & E3 & G1 & G2 & G3 & G5 & G4);
    [by rewrite F1 | done | rewrite Ln; lia | rewrite Hes2, F1; cbn; lia |].
  rewrite Hes2, F1 in G1. cbn in G1.
  assert (Eat3 : forall x, entry_at s3 x = entry_at s2 x).
  { intros x. apply entry_at_cells; [by rewrite G1, F1 | by rewrite G2]. }
  assert (Eold : forall x, x ∈ l -> entry_at s3 x = entry_at s x).
  { intros x Hx. specialize (Hpb0 x Hx). rewrite Eat3, Eat, !decide_False by lia. done. }
  assert (Ec3 : entry_at s3 c = Some (copy_entry ws p size es)) by (rewrite Eat3, Eat by lia; by rewrite decide_True).
  assert (Eb3 : skip = true -> entry_at s3 cnt = Some (bogus_entry cnt)).
  { intros Ew. destruct (A4 Ew). assert (cnt < c) by (unfold c, alloc_at; fold skip; rewrite Ew; lia).
    rewrite Eat3, Eat, decide_False, decide_True by lia. done. }
  pose proof (path_append s s3 _ l cnt size _ Hs Ht Hp Eold Ec3 Hes2 Eb3) as Hp3. cbn zeta in Hp3. fold skip c es in Hp3.
  exists s3. split; [exact E3 |]. split; [| by rewrite G1].
  split; cbn [start_tail_cnt num_objs upd]; rewrite ?G1; cbn [upd cur_wrt_set t_buffer t_tail_cnt]; try done; try lia.
  - split; [done | | | exists hw; split; [| split; [done | exact Hp3]]].
    + cbn. rewrite Ln, length_app. destruct skip; cbn [length]; lia.
    + pose proof (path_length _ _ _ _ Hp3). pose proof (get_entry_size_nonneg hw). lia.
    + pose proof (Eat (start_tail_cnt w) ltac:(lia)) as E. rewrite !decide_False in E by lia. rewrite <- Eat3 in E.
      assert (Eh : entry_at s (start_tail_cnt w) = Some hw) by (unfold entry_at; by rewrite <- Ews, Hhw).
      rewrite Eh in E. apply entry_at_heap in E. rewrite G1 in E. by rewrite Ews.
  - split; [by apply Z.divide_add_r |]. split; [lia | done].
  - split; [lia | done].
  - intros x h [Hx | Hx]%elem_of_app Hh; [rewrite Eold in Hh by done; by apply (Hent x h) |].
    enough (cnt <= x /\ entry_ok ws x h) by (split; [lia | tauto]).
    apply (append_entry_ok ws p cnt size x h Hs Ht Hx). fold c es. rewrite <- Hh. clear Hp3. fold skip c in Hx.
    case_decide as Ec; [by rewrite Ec | new_counts Hx; [by apply Eb3 | done..]].
Qed.

(** * Facts: the first append of a transaction *)

(** no write set is open *)
Definition idle (s : st) : Prop :=
  cur_wrt_set (tvlog (self s)) = NULL /\ 0 <= t_buffer (tvlog (self s)) /\ tail_ok (t_tail_cnt (tvlog (self s))).
(** the write set that the next append opens *)
Definition next_wrt_set (s : st) (ws : Z) (w : ts_wrt_set) : Prop :=
  ws = tvlog_obj (tvlog (self s)) (t_tail_cnt (tvlog (self s))) /\
  w = mk_wrt_set MAX_VERSION MAX_VERSION 0 (t_tail_cnt (tvlog (self s))) (self_ptr (self s)).

Lemma append_wrt_set_run s ws w :
  idle s -> next_wrt_set s ws w -> t_tail_cnt (tvlog (self s)) + 2 ^ 18 < 2 ^ 62 ->
  exists s', append_wrt_set s = Ok (false, s') /\ writing s' ws w [] /\
    t_tail_cnt (tvlog (self s')) <= t_tail_cnt (tvlog (self s)) + 2 * ws_reserve /\
    t_buffer (tvlog (self s')) = t_buffer (tvlog (self s)) /\ vhdrs (sh s') = vhdrs (sh s) /\
    obj_data (sh s') = obj_data (sh s) /\ (forall o, o <> ws -> heap (sh s') !! o = heap (sh s) !! o).
Proof.
  intros (Hcur & Hbuf & Ht) [-> ->] Hsm. set (cnt := t_tail_cnt (tvlog (self s))) in *. pose proof Ht as (T1 & T2 & T3).
  assert (Hso : small_object sizeof_wrt_set) by (by unfold small_object).
  assert (Hcs : copy_size sizeof_wrt_set = 128) by (by vm_compute). assert (HL : TS_TVLOG_SIZE = 2 ^ 20) by done.
  assert (Ew : wraps_at cnt (copy_size sizeof_wrt_set) = false).
  { rewrite Hcs. unfold wraps_at, tail_room in *. rewrite ws_reserve_eq in T3. apply Z.leb_gt. lia. }
  assert (Eat : alloc_at cnt sizeof_wrt_set = cnt) by (unfold alloc_at; by rewrite Ew).
  destruct (append_size_bounds cnt _ Hso Ht) as (B1 & B2 & B3 & B4). cbn zeta in *. rewrite Eat in *.
  pose proof (append_turn cnt _ Hso Ht) as B5. rewrite Eat, Hcs, ws_reserve_eq in B5.
  assert (Ees : append_size cnt sizeof_wrt_set <= 320).
  { unfold append_size. rewrite Ew, Hcs. destruct (alloc_pad_bounds cnt _ Hso Ht) as (P & _); [by unfold wraps_at in Ew; apply Z.leb_gt in Ew |].
    rewrite ws_reserve_eq in P. lia. }
  set (es := append_size cnt sizeof_wrt_set) in *. unfold append_wrt_set.
  mrun (tvlog_alloc_run sizeof_wrt_set false s Hso Ht). msteps. fold cnt. rewrite Ew, Eat, orb_false_l.
  pose proof (alloc_state_cell sizeof_wrt_set s Hso Ht) as Hcell. cbn zeta in Hcell. fold cnt in Hcell. rewrite Eat in Hcell. fold es in Hcell.
  mrun (put_chs_run _ _ _ (fun c => c <| cpy_hdr ::= (fun h => h <| p_ws := tvlog_obj (tvlog (self s)) cnt |>) |>
    <| c_hdr ::= (fun h => h <| o_type := TYPE_WRT_SET |>) |>) Hcell).
  unfold mod_sh, mod_tvlog, mod_self. msteps. unfold alloc_state. fold cnt. rewrite Ew, Eat.
  match goal with |- context [bind (get_chs ?o) _ ?x] => mrun (get_chs_run x o (mk_chs
    (mk_cpy_hdr (tvlog_obj (tvlog (self s)) cnt) MAX_VERSION 0 0 NULL NULL)
    (mk_obj_hdr sizeof_wrt_set (es - sizeof_wrt_set) TYPE_WRT_SET STATUS_NONE)) ltac:(cbn; by rewrite lookup_insert_eq)) end.
  msteps. cbn [upd self tvlog t_tail_cnt set_cell]. fold cnt.
  set (h := mk_chs _ _). assert (Hes : get_entry_size h = es) by (unfold get_entry_size; cbn; rewrite u32_small; lia).
  rewrite Hes, u64_small by lia. eexists. split; [reflexivity |]. cbn [upd self sh tvlog t_tail_cnt t_buffer vhdrs].
  rewrite ws_reserve_eq. split; [| split; [lia |]].
  2: { do 3 (split; [done |]). intros o Ho. cbn. by rewrite !lookup_insert_ne by done. }
  split; cbn; try done; try lia.
  - split; [by cbn; rewrite lookup_insert_eq | done | done |]. exists h. cbn. rewrite lookup_insert_eq, Hes.
    split; [done |]. split; [lia | constructor].
  - split; [by apply Z.divide_add_r |]. split; [lia | done].
  - split; [lia | done].
  - by intros x hx ?%not_elem_of_nil.
Qed.

Lemma append_begin_idle s s1 p size :
  cur_wrt_set (tvlog (self s)) = NULL -> append_wrt_set s = Ok (false, s1) -> cur_wrt_set (tvlog (self s1)) <> NULL ->
  tvlog_append_begin p size s = tvlog_append_begin p size s1.
Proof.
  intros H0 E H1. unfold tvlog_append_begin. msteps. rewrite H0, Z.eqb_refl, (proj2 (Z.eqb_neq _ _)) by done. by mrun E.
Qed.

Lemma writing_append s ws w l p size :
  writing s ws w l -> small_object size -> entry_room s (start_tail_cnt w) size ->
  exists c skipped skip s1, tvlog_append_begin p size s = Ok ((tvlog_obj (tvlog (self s)) c, skip), s1) /\
    vhdrs (sh s1) = vhdrs (sh s) /\
    forall s2, own_log_kept ws (start_tail_cnt w) c s1 s2 ->
    exists s3 w' es, tvlog_append_end (tvlog_obj (tvlog (self s)) c) skip s2 = Ok (tt, s3) /\
      writing s3 ws w' (l ++ skipped ++ [c]) /\ start_tail_cnt w' = start_tail_cnt w /\
      entry_at s3 c = Some (copy_entry ws p size es) /\
      (forall x h, x ∈ skipped -> entry_at s3 x = Some h -> o_type (c_hdr h) = TYPE_BOGUS) /\
      (length skipped <= 1)%nat /\
      (forall x, x ∈ l -> entry_at s3 x = entry_at s x) /\ vhdrs (sh s3) = vhdrs (sh s2).
Proof.
  intros Hw Hs Hr. pose proof (wr_tail _ _ _ _ Hw) as Ht. set (cnt := t_tail_cnt (tvlog (self s))) in *.
  assert (Hne : cur_wrt_set (tvlog (self s)) <> NULL).
  { rewrite (wr_cur _ _ _ _ Hw). destruct (wr_start _ _ _ _ Hw) as [_ ->]. apply tvlog_obj_pos. by apply Hw. }
  exists (alloc_at cnt size), (if wraps_at cnt (copy_size size) then [cnt] else []), (wraps_at cnt (copy_size size)),
    (append_state p size s).
  split; [by apply tvlog_append_begin_run |]. split; [by apply append_state_fields |]. intros s2 Hk.
  destruct (writing_end s ws w l p size s2 Hw Hs Hr Hk) as (s3 & E3 & W3 & C3 & B3 & O3 & V3 & _). fold cnt in E3, W3, C3, B3.
  do 3 eexists. split; [exact E3 |].
  assert (El : l ++ (if wraps_at cnt (copy_size size) then [cnt] else []) ++ [alloc_at cnt size] =
    l ++ (if wraps_at cnt (copy_size size) then [cnt; alloc_at cnt size] else [alloc_at cnt size])) by (by destruct (wraps_at _ _)).
  rewrite El. split; [exact W3 |]. split; [done |]. split; [exact C3 |]. split; [| split; [by destruct (wraps_at _ _); cbn; lia | done]].
  intros x h Hx Hh. destruct (wraps_at cnt (copy_size size)); [| by apply not_elem_of_nil in Hx].
  apply list_elem_of_singleton in Hx as ->. rewrite B3 in Hh by done. by injection Hh as <-.
Qed.

(** C23. Appending keeps the log laid out for the walks of commit and abort.
    [tvlog_append_begin] and [tvlog_append_end], whatever happens in between to
    anything but the write set, add one entry, a copy of the object with header
    [p], behind at most one bogus entry, which fills the log up to its end.  All
    entries lie inside the log, aligned, one after the other, and the older
    ones are as they were; the first append of a transaction opens its write
    set. *)
Theorem tvlog_append_keeps_layout s ws w l p size :
  writing s ws w l \/ (idle s /\ next_wrt_set s ws w /\ l = []) ->
  small_object size -> append_room s (start_tail_cnt w) size ->
  exists c skipped skip s1, tvlog_append_begin p size s = Ok ((tvlog_obj (tvlog (self s)) c, skip), s1) /\
    vhdrs (sh s1) = vhdrs (sh s) /\
    forall s2, own_log_kept ws (start_tail_cnt w) c s1 s2 ->
    exists s3 w' es, tvlog_append_end (tvlog_obj (tvlog (self s)) c) skip s2 = Ok (tt, s3) /\
      writing s3 ws w' (l ++ skipped ++ [c]) /\ start_tail_cnt w' = start_tail_cnt w /\
      entry_at s3 c = Some (copy_entry ws p size es) /\
      (forall x h, x ∈ skipped -> entry_at s3 x = Some h -> o_type (c_hdr h) = TYPE_BOGUS) /\
      (length skipped <= 1)%nat /\
      (forall x, x ∈ l -> entry_at s3 x = entry_at s x) /\ vhdrs (sh s3) = vhdrs (sh s2).
Proof.
  intros [Hw | (Hi & Hn & ->)] Hs [Hr Hr2]; [apply writing_append; try done; rewrite ws_reserve_eq in *; by split; rewrite ?ws_reserve_eq; lia |].
  destruct (append_wrt_set_run s ws w Hi Hn Hr2) as (s1 & E1 & W1 & T1 & B1 & V1 & _).
  assert (Hst : start_tail_cnt w = t_tail_cnt (tvlog (self s))) by (by destruct Hn as [_ ->]).
  destruct (writing_append s1 ws w [] p size W1 Hs) as (c & skipped & skip & s2 & E & V & Hend).
  { split; rewrite ws_reserve_eq in *; lia. }
  assert (Eo : forall x, tvlog_obj (tvlog (self s1)) x = tvlog_obj (tvlog (self s)) x).
  { intros x. unfold tvlog_obj, tvlog_at. by rewrite B1. }
  rewrite Eo in *. exists c, skipped, skip, s2. split; [| split; [by rewrite V |]].
  - rewrite (append_begin_idle s s1); [done | by apply Hi | done |].
    rewrite (wr_cur _ _ _ _ W1). destruct (wr_start _ _ _ _ W1) as [_ ->]. apply tvlog_obj_pos. by apply W1.
  - intros s3 Hk. destruct (Hend s3 Hk) as (s4 & w' & es & E4 & W4 & C4 & D4 & F4 & L4 & _ & V4).
    exists s4, w', es. repeat (split; [done |]). split; [by intros x ?%not_elem_of_nil | done].
Qed.
End Append.
