(* ===== verification/Commit.v ===== *)
(** Commit and abort of a write set ([lib/tvlog.c]): the locks it releases and
    the versions it publishes, while other threads run. *)
From S2P Require Export Append.

(** * Facts: releasing the locks of a write set *)

Section ReleaseFacts.
Context `{Env}.

(** [o] is a copy of the write set with the entries [l] *)
Definition own_copy (s : st) (l : list Z) (o : Z) : Prop :=
  exists c, c ∈ l /\ o = tvlog_obj (tvlog (self s)) c.

(** [s'] has the caller's operation log as [s] has it; the rest of the NVM may
    have changed *)
Definition oplog_left (s s' : st) : Prop :=
  forall k q r, log_of OPLOG s = Some r -> log_holds r k q ->
    exists r', log_of OPLOG s' = Some r' /\ log_holds r' k q /\ nv r' = nv r /\ sto r' = sto r.

#[export] Instance oplog_left_preorder : PreOrder oplog_left.
Proof.
  split; [by intros s k q r Hr Hh; exists r |].
  intros s1 s2 s3 H1 H2 k q r Hr Hh. destruct (H1 k q r Hr Hh) as (r2 & Hr2 & Hh2 & E2 & F2).
  destruct (H2 k q r2 Hr2 Hh2) as (r3 & Hr3 & Hh3 & E3 & F3). exists r3.
  do 2 (split; [done |]). split; congruence.
Qed.

Lemma oplog_left_same s s' : oplog (self s') = oplog (self s) -> stores (sh s') = stores (sh s) ->
  sh_pm (sh s') = sh_pm (sh s) -> oplog_left s s'.
Proof. intros E1 E2 E3 k q r Hr Hh. exists r. unfold log_of in *. cbn in *. by rewrite E1, E2, E3. Qed.

(** what other threads keep of a write set that is being committed or aborted:
    the thread and its operation log, the write set and its entries, and the
    locks it holds, and of
    the headers it has locked the original object and the newest version, which
    a reclamation may detach; nobody else uses its copies as a lock, no volatile
    header and no version of a log disappears, and no committed version gets
    another clock *)
Record others_kept (ws : Z) (l : list Z) (s s' : st) : Prop := {
  oth_self : self s' = self s;
  oth_ws : wrt_sets (sh s') !! ws = wrt_sets (sh s) !! ws;
  oth_hdr : heap (sh s') !! ws = heap (sh s) !! ws;
  oth_oplog : oplog_left s s';
  oth_entries : forall o, own_copy s l o -> heap (sh s') !! o = heap (sh s) !! o;
  oth_locked : forall p v, vhdrs (sh s) !! p = Some v -> own_copy s l (v_lock v) ->
    exists v', vhdrs (sh s') !! p = Some v' /\ v_lock v' = v_lock v /\ np_org_act v' = np_org_act v /\
      (v_copy v' = v_copy v \/ (v_copy v' = NULL /\ ~ own_copy s l (v_copy v)));
  oth_lock : forall p v', vhdrs (sh s') !! p = Some v' -> own_copy s l (v_lock v') ->
    exists v, vhdrs (sh s) !! p = Some v /\ v_lock v = v_lock v';
  oth_vhdrs : forall p, is_Some (vhdrs (sh s) !! p) -> is_Some (vhdrs (sh s') !! p);
  oth_copies : forall o c, heap (sh s) !! o = Some (CCpy c) -> exists c', heap (sh s') !! o = Some (CCpy c') /\
    (get_raw_wrt_clk c <> MAX_VERSION -> get_raw_wrt_clk c' = get_raw_wrt_clk c) }.

Lemma entry_at_others ws l s s' c : others_kept ws l s s' -> c ∈ l -> entry_at s' c = entry_at s c.
Proof.
  intros [Hs _ _ _ He _ _ _ _] Hc. unfold entry_at. rewrite Hs, He; [done |]. by exists c.
Qed.

Lemma others_sizes ws l s s' : others_kept ws l s s' -> sizes_kept ws l s s'.
Proof.
  intros Ho. split; [| by apply Ho | by rewrite (oth_self _ _ _ _ Ho)].
  intros c Hc. by rewrite (entry_at_others ws l s s').
Qed.

(** the locks that the entries [rest] of [l] still hold are all that [l] holds;
    the entries' headers are in memory *)
Definition locks_left (l rest : list Z) (s : st) : Prop :=
  (forall p v, vhdrs (sh s) !! p = Some v -> own_copy s l (v_lock v) ->
     exists c h, c ∈ rest /\ v_lock v = tvlog_obj (tvlog (self s)) c /\ entry_at s c = Some h /\
       c_act_vhdr (cpy_hdr h) = p /\ (o_type (c_hdr h) = TYPE_COPY \/ o_type (c_hdr h) = TYPE_FREE)) /\
  (forall c h, c ∈ rest -> entry_at s c = Some h -> o_type (c_hdr h) = TYPE_COPY \/ o_type (c_hdr h) = TYPE_FREE ->
     is_Some (vhdrs (sh s) !! c_act_vhdr (cpy_hdr h))).

Lemma own_copy_self s s' l o : self s' = self s -> own_copy s' l o <-> own_copy s l o.
Proof. unfold own_copy. by intros ->. Qed.

Lemma locks_left_others ws l rest s s' :
  others_kept ws l s s' -> (forall c, c ∈ rest -> c ∈ l) -> locks_left l rest s -> locks_left l rest s'.
Proof.
  intros Ho Hsub [H1 H2]. pose proof (oth_self _ _ _ _ Ho) as Es. split.
  - intros p v Hv Hown. apply (own_copy_self s) in Hown; [| done].
    destruct (oth_lock _ _ _ _ Ho p v Hv Hown) as (v0 & Hv0 & E0). rewrite <- E0 in *.
    destruct (H1 p v0 Hv0 Hown) as (c & h & Hc & El & He & ?). exists c, h.
    by rewrite (entry_at_others ws l s s'), Es by auto.
  - intros c h Hc He Ht. rewrite (entry_at_others ws l s s') in He by auto.
    apply (oth_vhdrs _ _ _ _ Ho). by eapply H2.
Qed.

(** [smp_cas(&p_act_vhdr->p_lock, obj, NULL)] under others *)
Lemma release_obj_lock_run G ws l `{!RelyWhen G (others_kept ws l)} s p obj :
  G s -> is_Some (vhdrs (sh s) !! p) ->
  exists s1 v, others_kept ws l s s1 /\ vhdrs (sh s1) !! p = Some v /\
    release_obj_lock p obj s = Ok (v_lock v =? obj,
      if v_lock v =? obj then s1 <| sh ::= (fun h => h <| vhdrs ::= (fun m => <[p := v <| v_lock := NULL |>]> m) |>) |>
      else s1).
Proof.
  intros HG Hp. unfold release_obj_lock, smp_cas. destruct (interfere_when s HG) as (s1 & Ei & Ho).
  destruct (oth_vhdrs _ _ _ _ Ho p Hp) as [v Hv]. exists s1, v. split; [done |]. split; [done |].
  mrun Ei. rewrite bind_assoc. mrun (get_vhdr_run s1 p v Hv). msteps.
  destruct (v_lock v =? obj); [| done]. by mrun (put_vhdr_run s1 p v (fun v => v <| v_lock := NULL |>) Hv).
Qed.

(** after an entry's turn its lock is gone, and no other changed *)
Lemma locks_left_next l c rest h s1 s2 :
  locks_left l (c :: rest) s1 -> entry_at s1 c = Some h ->
  self s2 = self s1 -> heap (sh s2) = heap (sh s1) ->
  (forall p v, vhdrs (sh s2) !! p = Some v -> own_copy s1 l (v_lock v) ->
     vhdrs (sh s1) !! p = Some v /\ (p = c_act_vhdr (cpy_hdr h) -> v_lock v = tvlog_obj (tvlog (self s1)) c ->
        o_type (c_hdr h) <> TYPE_COPY /\ o_type (c_hdr h) <> TYPE_FREE)) ->
  (forall p, is_Some (vhdrs (sh s1) !! p) -> is_Some (vhdrs (sh s2) !! p)) -> locks_left l rest s2.
Proof.
  intros [L1 L2] He Es Eh Hv Hdom.
  assert (Hent : forall x, entry_at s2 x = entry_at s1 x) by (intros; unfold entry_at; by rewrite Es, Eh).
  split.
  - intros p v Hp Hown. unfold own_copy in Hown. rewrite Es in *. destruct (Hv p v Hp Hown) as [Hp1 Hne].
    destruct (L1 p v Hp1 Hown) as (c' & h' & [-> | Hin]%elem_of_cons & El & He' & Ep & Ht).
    + assert (h' = h) as -> by congruence. destruct (Hne (eq_sym Ep) El) as [? ?]. by destruct Ht.
    + exists c', h'. by rewrite Hent.
  - intros x hx Hx Hex Htx. rewrite Hent in Hex. apply Hdom. apply (L2 x hx); [by right | done | done].
Qed.

(** releasing the lock of the entry whose turn it is *)
Lemma release_step ws l `{!Rely (others_kept ws l)} c rest s h :
  0 <= t_buffer (tvlog (self s)) -> (forall x, x ∈ c :: rest -> x ∈ l) ->
  entry_at s c = Some h -> locks_left l (c :: rest) s ->
  o_type (c_hdr h) = TYPE_COPY \/ o_type (c_hdr h) = TYPE_FREE ->
  exists b s', release_obj_lock (c_act_vhdr (cpy_hdr h)) (tvlog_obj (tvlog (self s)) c) s = Ok (b, s') /\
    sizes_kept ws l s s' /\ self s' = self s /\ locks_left l rest s' /\
    forall o, own_copy s l o -> heap (sh s') !! o = heap (sh s) !! o.
Proof.
  intros Hb Hsub He Hl Ht. pose proof Hl as [_ H2].
  destruct (release_obj_lock_run (fun _ => True) ws l s (c_act_vhdr (cpy_hdr h)) (tvlog_obj (tvlog (self s)) c))
    as (s1 & v & Ho & Hv & E); [done | by apply (H2 c h); [left | done | done] |].
  do 2 eexists. split; [exact E |]. pose proof (others_sizes _ _ _ _ Ho) as [K1 K2 K3].
  pose proof (oth_self _ _ _ _ Ho) as Es. pose proof (locks_left_others ws l _ s s1 Ho Hsub Hl) as Hl1.
  assert (He1 : entry_at s1 c = Some h) by (rewrite (entry_at_others ws l s s1); [done | done | apply Hsub; by left]).
  destruct (Z.eqb_spec (v_lock v) (tvlog_obj (tvlog (self s)) c)) as [El | El].
  - split; [by split |]. split; [done |]. split; [| by apply Ho].
    apply (locks_left_next l c rest h s1); try done; cbn.
    + intros p v' Hp Hown. destruct (decide (p = c_act_vhdr (cpy_hdr h))) as [-> | Hne].
      * rewrite lookup_insert_eq in Hp. injection Hp as <-. cbn in Hown. destruct Hown as (x & _ & Hx).
        symmetry in Hx. rewrite Es in Hx. by apply tvlog_obj_pos in Hx.
      * rewrite lookup_insert_ne in Hp by done. by split.
    + intros p [x Hx]. destruct (decide (p = c_act_vhdr (cpy_hdr h))) as [-> | Hne];
        [rewrite lookup_insert_eq | rewrite lookup_insert_ne by done]; by eexists.
  - split; [done |]. split; [done |]. split; [| by apply Ho]. apply (locks_left_next l c rest h s1); try done.
    intros p v' Hp Hown. split; [done |]. intros -> El'. rewrite Es in El'. congruence.
Qed.

Lemma unlock_abort_body_run ws l `{!Rely (others_kept ws l)} c rest s h :
  0 <= t_buffer (tvlog (self s)) -> (forall x, x ∈ c :: rest -> x ∈ l) ->
  entry_at s c = Some h -> locks_left l (c :: rest) s ->
  exists s', unlock_abort_body (tvlog_obj (tvlog (self s)) c) s = Ok (tt, s') /\ sizes_kept ws l s s' /\
    self s' = self s /\ locks_left l rest s' /\
    forall o, own_copy s l o -> heap (sh s') !! o = heap (sh s) !! o.
Proof.
  intros Hb Hsub He Hl. unfold unlock_abort_body. mrun (get_chs_run s _ h (entry_at_heap s c h He)).
  destruct (o_type (c_hdr h)) eqn:Et;
    try (destruct (release_step ws l c rest s h) as (b & s' & E & Hs'); [done.. | by auto |]; mrun E; by exists s');
    (exists s; split; [done |]; split; [done |]; split; [done |]; split; [| done];
     apply (locks_left_next l c rest h s); try done; intros; by rewrite Et).
Qed.

(** [ws_unlock_abort] releases every lock of the write set, whatever other
    threads do to other objects meanwhile: afterwards no volatile header is
    locked by one of its copies.  The copies themselves do not change. *)
Lemma ws_unlock_abort_run ws w l e `{!Rely (others_kept ws l)} s :
  cur_wrt_set (tvlog (self s)) = ws -> 0 <= t_buffer (tvlog (self s)) ->
  ws_layout s ws w l e -> locks_left l l s ->
  exists s', ws_unlock_abort s = Ok (tt, s') /\ self s' = self s /\ wrt_sets (sh s') !! ws = Some w /\
    (forall p v, vhdrs (sh s') !! p = Some v -> ~ own_copy s' l (v_lock v)) /\
    forall o, own_copy s l o -> heap (sh s') !! o = heap (sh s) !! o.
Proof.
  intros Hcur Hb Hlay Hl. unfold ws_unlock_abort, ws_iter. msteps. rewrite Hcur.
  set (I := fun (rest : list Z) (_ : unit) s' => (forall x, x ∈ rest -> x ∈ l) /\ locks_left l rest s' /\ self s' = self s /\
    forall o, own_copy s l o -> heap (sh s') !! o = heap (sh s) !! o).
  destruct (ws_for_each_rule (B := Empty_set) ws (fun obj _ => unlock_abort_body obj ;;; ret (inl tt)) I (fun _ _ => False)
    w l e tt s Hlay) as (r & s' & E & Hk & Hr).
  - by split.
  - intros c rest [] s1 Hc (Hsub & Hl1 & Hs1 & Hh1) Hp. inversion Hp as [| ? h ? ? He]; subst.
    destruct (unlock_abort_body_run (cur_wrt_set (tvlog (self s))) l c rest s1 h) as (s2 & E2 & Hk & Hs2 & Hl2 & Hh2);
      [by rewrite Hs1 | done.. |].
    exists (inl tt), s2. split; [by mrun E2 |]. split; [done |]. split; [intros; apply Hsub; by right |].
    split; [done |]. split; [congruence |]. intros o Ho. rewrite Hh2, Hh1; [done | done |].
    unfold own_copy in *. by rewrite Hs1.
  - mrun E. exists s'. destruct r as [[cnt []] | []]. destruct Hr as (_ & _ & [H1 _] & Hs' & Hh).
    split; [done |]. split; [done |]. split; [by rewrite (kept_ws _ _ _ _ Hk); apply Hlay |]. split; [| done]. intros p v Hv Hown.
    destruct (H1 p v Hv Hown) as (c & h & Hc & _). by apply not_elem_of_nil in Hc.
Qed.
End ReleaseFacts.

(** * Facts: publishing a write set *)

Section PublishFacts.
Context `{Env} (clk : Z) (ws : Z) (l : list Z) (s0 : st).

(** a copy's header before and after steps of the publication *)
Definition hdr_rel (h h' : ts_cpy_hdr_struct) : Prop :=
  c_hdr h' = c_hdr h /\ c_act_vhdr (cpy_hdr h') = c_act_vhdr (cpy_hdr h) /\
  p_ws (cpy_hdr h') = p_ws (cpy_hdr h) /\
  (c_copy (cpy_hdr h') = c_copy (cpy_hdr h) \/ o_type (c_hdr h) = TYPE_FREE) /\
  (__wrt_clk (cpy_hdr h') = __wrt_clk (cpy_hdr h) \/ __wrt_clk (cpy_hdr h') = clk).

#[local] Instance hdr_rel_preorder : PreOrder hdr_rel.
Proof.
  split; [split; auto |]. intros h1 h2 h3 (A1 & B1 & W1 & C1 & D1) (A2 & B2 & W2 & C2 & D2).
  do 3 (split; [congruence |]). rewrite A1 in C2. split.
  - destruct C1 as [C1 |]; [| by right]. destruct C2 as [C2 |]; [left; congruence | by right].
  - destruct D2 as [D2 |]; [| by right]. destruct D1 as [D1 |]; [left; congruence | right; congruence].
Qed.

Definition is_entry (h : ts_cpy_hdr_struct) : Prop :=
  o_type (c_hdr h) = TYPE_COPY \/ o_type (c_hdr h) = TYPE_FREE.

(** [s] is reached from [s0] by publishing all entries of [l] but [rest] *)
Record publishing (rest : list Z) (s : st) : Prop := {
  pub_self : self s = self s0;
  pub_ws : wrt_sets (sh s) !! ws = wrt_sets (sh s0) !! ws;
  pub_hdr : forall c h, c ∈ l -> entry_at s0 c = Some h -> exists h', entry_at s c = Some h' /\ hdr_rel h h';
  pub_clk : forall c h, c ∈ l -> c ∉ rest -> entry_at s c = Some h -> is_entry h -> __wrt_clk (cpy_hdr h) = clk;
  pub_locks : forall p v, vhdrs (sh s) !! p = Some v -> own_copy s0 l (v_lock v) ->
    exists c h, c ∈ l /\ entry_at s0 c = Some h /\ v_lock v = tvlog_obj (tvlog (self s0)) c /\
      c_act_vhdr (cpy_hdr h) = p /\
      ((c ∈ rest /\ o_type (c_hdr h) = TYPE_COPY) \/ o_type (c_hdr h) = TYPE_FREE);
  pub_vhdrs : forall c h, c ∈ l -> entry_at s0 c = Some h -> is_entry h -> is_Some (vhdrs (sh s) !! c_act_vhdr (cpy_hdr h));
  pub_old : forall c h, c ∈ l -> entry_at s0 c = Some h -> o_type (c_hdr h) = TYPE_COPY ->
    c_copy (cpy_hdr h) <> NULL -> exists old, heap (sh s) !! c_copy (cpy_hdr h) = Some (CCpy old) }.

Lemma publishing_put rest s o h f :
  publishing rest s -> heap (sh s) !! o = Some (CCpy h) -> hdr_rel h (f h) ->
  publishing rest (s <| sh ::= (fun m => m <| heap ::= (fun m => <[o := CCpy (f h)]> m) |>) |>).
Proof.
  intros [P1 P2 P3 P4 P5 P6 P7] Ho Hf. set (s' := upd sh _ s).
  assert (Hent : forall c, entry_at s' c = if decide (o = tvlog_obj (tvlog (self s)) c) then Some (f h) else entry_at s c).
  { intros c. unfold entry_at. cbn. case_decide as E; [by rewrite <- E, lookup_insert_eq | by rewrite lookup_insert_ne]. }
  assert (Hent0 : forall c, o = tvlog_obj (tvlog (self s)) c -> entry_at s c = Some h).
  { intros c E. unfold entry_at. by rewrite <- E, Ho. }
  split; try done.
  - intros c h0 Hc Hh0. destruct (P3 c h0 Hc Hh0) as (h1 & E1 & Hr). rewrite Hent. case_decide as E; [| by exists h1].
    exists (f h). split; [done |]. rewrite (Hent0 c E) in E1. injection E1 as <-. by etransitivity.
  - intros c h1 Hc Hrest. rewrite Hent. case_decide as E; [| by apply P4]. intros [= <-] Hi.
    destruct Hf as (A & B & _ & C & [D | D]); [| done]. rewrite D. apply (P4 c); [done | done | by apply Hent0 |].
    unfold is_entry in *. by rewrite <- A.
  - intros c h0 Hc Hh0 Ht Hn. destruct (P7 c h0 Hc Hh0 Ht Hn) as [old Hold]. cbn.
    destruct (decide (o = c_copy (cpy_hdr h0))) as [-> |]; [rewrite lookup_insert_eq | rewrite lookup_insert_ne by done];
      by eexists.
Qed.

Lemma publishing_others rest s s' : publishing rest s -> others_kept ws l s s' -> publishing rest s'.
Proof.
  intros [P1 P2 P3 P4 P5 P6 P7] Ho. pose proof (fun c => entry_at_others ws l s s' c Ho) as He. destruct Ho as [O1 O2 _ _ O3 _ O4 O5 O6].
  assert (Hown : forall o, own_copy s0 l o -> own_copy s l o) by (intros o; by apply own_copy_self).
  split; try congruence.
  - intros c h Hc Hh. rewrite He by done. by apply P3.
  - intros c h Hc Hr. rewrite He by done. by apply P4.
  - intros p v Hv Hl. destruct (O4 p v Hv (Hown _ Hl)) as (v0 & Hv0 & E0).
    rewrite <- E0 in *. by apply (P5 p v0).
  - intros c h Hc Hh Hi. by eapply O5, P6.
  - intros c h Hc Hh Ht Hn. destruct (P7 c h Hc Hh Ht Hn) as [old Hold]. destruct (O6 _ _ Hold) as (old' & ? & _). by exists old'.
Qed.

Lemma publishing_unlock rest s p v :
  0 <= t_buffer (tvlog (self s0)) -> publishing rest s -> vhdrs (sh s) !! p = Some v ->
  publishing rest (s <| sh ::= (fun h => h <| vhdrs ::= (fun m => <[p := v <| v_lock := NULL |>]> m) |>) |>).
Proof.
  intros Hb [P1 P2 P3 P4 P5 P6 P7] Hv. split; try done; cbn.
  - intros q w Hq Hown. destruct (decide (q = p)) as [-> | Hne].
    + rewrite lookup_insert_eq in Hq. injection Hq as <-. cbn in Hown. destruct Hown as (x & _ & Hx).
      symmetry in Hx. by apply tvlog_obj_pos in Hx.
    + rewrite lookup_insert_ne in Hq by done. by apply P5.
  - intros c h Hc Hh Hi. destruct (decide (p = c_act_vhdr (cpy_hdr h))) as [<- | Hne];
      [rewrite lookup_insert_eq | rewrite lookup_insert_ne by done; by eapply P6]. by eexists.
Qed.

(** the entry at [c] is done: its clock is set and, if it is a copy, it is no lock *)
Lemma publishing_next c rest s h :
  publishing (c :: rest) s -> c ∈ l -> entry_at s0 c = Some h ->
  (is_entry h -> forall h', entry_at s c = Some h' -> __wrt_clk (cpy_hdr h') = clk) ->
  (o_type (c_hdr h) = TYPE_COPY -> forall v, vhdrs (sh s) !! c_act_vhdr (cpy_hdr h) = Some v ->
     v_lock v <> tvlog_obj (tvlog (self s0)) c) ->
  publishing rest s.
Proof.
  intros [P1 P2 P3 P4 P5 P6 P7] Hc Hh Hclk Hlock. split; try done.
  - intros x hx Hx Hr Hex Hi. destruct (decide (x = c)) as [-> | Hne]; [| by apply (P4 x hx); elems].
    destruct (P3 c h Hc Hh) as (h' & E' & A & _). assert (h' = hx) as -> by congruence.
    apply Hclk; [| done]. unfold is_entry in *. by rewrite <- A.
  - intros p v Hv Hown. destruct (P5 p v Hv Hown) as (x & hx & Hx & Ex & El & Ep & Hd). exists x, hx.
    do 4 (split; [done |]). destruct Hd as [[[-> | Hin]%elem_of_cons Ht] | Ht]; [| by left | by right].
    exfalso. assert (hx = h) as -> by congruence. subst p. by apply (Hlock Ht v).
Qed.

(** the sizes of the entries do not change while they are published *)
Lemma publishing_sizes rest s rest' s' :
  (forall c, c ∈ l -> is_Some (entry_at s0 c)) -> publishing rest s -> publishing rest' s' -> sizes_kept ws l s s'.
Proof.
  intros Hall P P'. split.
  - intros c Hc. destruct (Hall c Hc) as [h Hh].
    destruct (pub_hdr _ _ P c h Hc Hh) as (h1 & -> & A1 & _). destruct (pub_hdr _ _ P' c h Hc Hh) as (h2 & -> & A2 & _).
    cbn. unfold get_entry_size. by rewrite A1, A2.
  - by rewrite (pub_ws _ _ P), (pub_ws _ _ P').
  - by rewrite (pub_self _ _ P), (pub_self _ _ P').
Qed.

Lemma publish_set rest s c h f :
  publishing rest s -> entry_at s c = Some h -> hdr_rel h (f h) ->
  exists s', put_chs (tvlog_obj (tvlog (self s)) c) f s = Ok (tt, s') /\ publishing rest s' /\
    entry_at s' c = Some (f h) /\ self s' = self s /\ vhdrs (sh s') = vhdrs (sh s).
Proof.
  intros P He Hf. pose proof (entry_at_heap s c h He) as Hh.
  eexists. split; [exact (put_chs_run s _ h f Hh) |]. split; [by apply publishing_put |].
  split; [unfold entry_at; cbn; by rewrite lookup_insert_eq | done].
Qed.

(** every state of the publication is one in which others may run *)
Context (G : st -> Prop) `{!RelyWhen G (others_kept ws l)} (HG : forall rest s, publishing rest s -> G s).

(** the lock of a copy is released *)
Lemma publish_release rest s c h0 h :
  0 <= t_buffer (tvlog (self s0)) -> publishing rest s -> c ∈ l ->
  entry_at s0 c = Some h0 -> entry_at s c = Some h -> is_entry h ->
  exists b s', release_obj_lock (c_act_vhdr (cpy_hdr h)) (tvlog_obj (tvlog (self s)) c) s = Ok (b, s') /\
    publishing rest s' /\ entry_at s' c = Some h /\ self s' = self s /\
    forall v, vhdrs (sh s') !! c_act_vhdr (cpy_hdr h) = Some v -> v_lock v <> tvlog_obj (tvlog (self s)) c.
Proof.
  intros Hb P Hc E0 He Hi. pose proof (pub_self _ _ P) as Es.
  assert (Hv0 : is_Some (vhdrs (sh s) !! c_act_vhdr (cpy_hdr h))).
  { destruct (pub_hdr _ _ P c h0 Hc E0) as (h' & E' & A & B & _). assert (h' = h) as -> by congruence.
    rewrite B. apply (pub_vhdrs _ _ P c h0 Hc E0). unfold is_entry in *. by rewrite <- A. }
  destruct (release_obj_lock_run G ws l s (c_act_vhdr (cpy_hdr h)) (tvlog_obj (tvlog (self s)) c) (HG _ _ P) Hv0)
    as (s1 & v & Ho & Hv & E).
  do 2 eexists. split; [exact E |]. pose proof (publishing_others rest s s1 P Ho) as P1.
  assert (He1 : entry_at s1 c = Some h) by (by rewrite (entry_at_others ws l s s1)).
  destruct (Z.eqb_spec (v_lock v) (tvlog_obj (tvlog (self s)) c)) as [El | El].
  - split; [by apply publishing_unlock |]. split; [done |]. split; [by rewrite <- (oth_self _ _ _ _ Ho) |]. cbn.
    intros w. rewrite lookup_insert_eq. intros [= <-]. cbn. intros Hn. symmetry in Hn. revert Hn.
    apply tvlog_obj_pos. by rewrite Es.
  - split; [done |]. split; [done |]. split; [by apply Ho |]. intros w Hw. congruence.
Qed.

Lemma unlock_commit_body_run c rest s h0 :
  0 <= t_buffer (tvlog (self s0)) -> publishing (c :: rest) s -> c ∈ l -> entry_at s0 c = Some h0 ->
  exists s', unlock_commit_body clk (tvlog_obj (tvlog (self s)) c) s = Ok (tt, s') /\ publishing rest s'.
Proof.
  intros Hb P Hc E0. pose proof (pub_self _ _ P) as Es.
  destruct (pub_hdr _ _ P c h0 Hc E0) as (h & He & Hr). pose proof Hr as (A & B & _ & C & D).
  unfold unlock_commit_body. mrun (get_chs_run s _ h (entry_at_heap s c h He)). rewrite A.
  set (set_clk := fun c => c <| cpy_hdr ::= (fun h => h <| __wrt_clk := clk |>) |>).
  assert (Hset : hdr_rel h (set_clk h)) by (do 3 (split; [done |]); split; [by left | by right]).
  destruct (o_type (c_hdr h0)) eqn:Et.
  1, 2, 5, 6: exists s; split; [done |]; apply (publishing_next c rest s h0); try done;
    [intros [Hi | Hi]; congruence | congruence].
  - destruct (publish_set _ s c h set_clk P He Hset) as (s1 & E1 & P1 & He1 & Es1 & Ev1). mrun E1.
    destruct (publish_release _ s1 c h0 (set_clk h) Hb P1 Hc E0 He1) as (b & s2 & E2 & P2 & He2 & Es2 & Hfree).
    { left. cbn. by rewrite A. }
    rewrite Es1 in E2, Hfree. cbn [set_clk upd cpy_hdr c_act_vhdr] in E2, Hfree. mrun E2.
    assert (Es2' : self s2 = self s) by congruence. rewrite <- Es2'.
    mrun (get_chs_run s2 _ _ (entry_at_heap s2 c _ He2)). cbn [set_clk upd cpy_hdr c_copy].
    assert (P2' : publishing rest s2).
    { apply (publishing_next c rest s2 h0 P2 Hc E0).
      - intros _ h' E'. rewrite He2 in E'. by injection E' as <-.
      - intros _ v. rewrite <- B, <- Es. apply Hfree. }
    destruct (Z.eqb_spec (c_copy (cpy_hdr h)) NULL) as [En | En]; cbn [negb when]; [by exists s2 |].
    destruct C as [C | C]; [| congruence]. rewrite C in En |- *.
    destruct (pub_old _ _ P2' c h0 Hc E0 Et En) as [old Hold].
    eexists. split; [exact (put_chs_run s2 _ old _ Hold) |].
    refine (publishing_put rest s2 _ old (fun c => c <| cpy_hdr ::= (fun h => h <| wrt_clk_prev := clk |>) |>) P2' Hold _).
    do 3 (split; [done |]). split; by left.
  - destruct (publish_set _ s c h set_clk P He Hset) as (s1 & E1 & P1 & He1 & Es1 & Ev1). mrun E1. rewrite <- Es1.
    destruct (publish_set _ s1 c _ (fun c => c <| cpy_hdr ::= (fun h => h <| c_copy := NULL |>) |>) P1 He1)
      as (s2 & E2 & P2 & He2 & Es2 & _).
    { do 3 (split; [done |]). split; [right; cbn; congruence | by left]. }
    exists s2. split; [exact E2 |]. apply (publishing_next c rest s2 h0 P2 Hc E0); [| congruence].
    intros _ h' E'. rewrite He2 in E'. by injection E' as <-.
Qed.
End PublishFacts.

Section CommitFacts.
Context `{Env}.

Lemma publishing_start clk ws l s :
  locks_left l l s ->
  (forall c h, c ∈ l -> entry_at s c = Some h -> o_type (c_hdr h) = TYPE_COPY -> c_copy (cpy_hdr h) <> NULL ->
     exists old, heap (sh s) !! c_copy (cpy_hdr h) = Some (CCpy old)) ->
  publishing clk ws l s l s.
Proof.
  intros [L1 L2] Hold. split; try done.
  - intros c h _ He. exists h. split; [done |]. by split; auto.
  - intros p v Hv Hown. destruct (L1 p v Hv Hown) as (c & h & Hc & El & He & Ep & [Ht | Ht]);
      exists c, h; (do 4 (split; [done |])); [left | right]; done.
Qed.

(** [ws_unlock_commit] publishes a write set, whatever other threads do to
    other objects meanwhile: every copy gets the write set's clock, its object
    is unlocked, and the only locks that the write set keeps are those of the
    objects that the transaction freed. *)
Lemma ws_unlock_commit_run G ws w l e `{!RelyWhen G (others_kept ws l)} s :
  (forall rest s', publishing (ws_wrt_clk w) ws l s rest s' -> G s') ->
  cur_wrt_set (tvlog (self s)) = ws -> 0 <= t_buffer (tvlog (self s)) ->
  ws_layout s ws w l e -> locks_left l l s ->
  (forall c h, c ∈ l -> entry_at s c = Some h -> o_type (c_hdr h) = TYPE_COPY -> c_copy (cpy_hdr h) <> NULL ->
     exists old, heap (sh s) !! c_copy (cpy_hdr h) = Some (CCpy old)) ->
  exists s', ws_unlock_commit s = Ok (tt, s') /\ self s' = self s /\
    (forall c h, c ∈ l -> entry_at s c = Some h -> is_entry h ->
       exists h', entry_at s' c = Some h' /\ __wrt_clk (cpy_hdr h') = ws_wrt_clk w /\
         c_hdr h' = c_hdr h /\ c_act_vhdr (cpy_hdr h') = c_act_vhdr (cpy_hdr h)) /\
    (forall p v, vhdrs (sh s') !! p = Some v -> own_copy s l (v_lock v) ->
       exists c h, c ∈ l /\ entry_at s c = Some h /\ c_act_vhdr (cpy_hdr h) = p /\ o_type (c_hdr h) = TYPE_FREE) /\
    publishing (ws_wrt_clk w) ws l s [] s'.
Proof.
  intros HG Hcur Hb Hlay HL Hold. unfold ws_unlock_commit, ws_iter. msteps. rewrite Hcur.
  pose proof (lay_ws _ _ _ _ _ Hlay) as Hw. mrun (get_ws_run s ws w Hw).
  set (I := fun (rest : list Z) (_ : unit) s' => publishing (ws_wrt_clk w) ws l s rest s').
  assert (HI : I l tt s) by (by apply publishing_start).
  assert (Hall : forall c, c ∈ l -> is_Some (entry_at s c)).
  { destruct Hlay as [_ _ _ (h & _ & _ & Hp)]. clear -Hp. induction Hp as [| c x l e He _ _ _ _ IH]; intros y Hy.
    - by apply not_elem_of_nil in Hy.
    - apply elem_of_cons in Hy as [-> | Hy]; [by eexists | auto]. }
  destruct (ws_for_each_rule (B := Empty_set) ws (fun obj _ => unlock_commit_body (ws_wrt_clk w) obj ;;; ret (inl tt)) I
    (fun _ _ => False) w l e tt s Hlay HI) as (r & s' & E & _ & Hr).
  - intros c rest [] s1 Hc HI1 _. destruct (Hall c Hc) as [h0 E0].
    destruct (unlock_commit_body_run (ws_wrt_clk w) ws l s G HG c rest s1 h0 Hb HI1 Hc E0) as (s2 & E2 & HI2).
    exists (inl tt), s2. split; [by mrun E2 |]. split; [by eapply publishing_sizes | done].
  - mrun E. exists s'. destruct r as [[cnt []] | []]. destruct Hr as (_ & P). split; [done |].
    split; [by apply (pub_self _ _ _ _ _ _ P) |]. split; [| split; [| exact P]].
    + intros c h Hc He Hi. destruct (pub_hdr _ _ _ _ _ _ P c h Hc He) as (h' & E' & A & B & _).
      exists h'. split; [done |]. split; [| done]. apply (pub_clk _ _ _ _ _ _ P c); try done; [by intros ?%not_elem_of_nil |].
      unfold is_entry in *. by rewrite A.
    + intros p v Hv Hown. destruct (pub_locks _ _ _ _ _ _ P p v Hv Hown) as (c & h & Hc & He & _ & Ep & [[[]%not_elem_of_nil _] | Ht]).
      by exists c, h.
Qed.
End CommitFacts.

(** * Facts: moving the locked copies to the version chains *)

Section MoveFacts.
Context `{Env} (ws : Z) (l : list Z) (free_set : list Z) (s0 : st).

Abbreviation obj_of := (tvlog_obj (tvlog (self s0))).

(** the clock of the version at [o] *)
Definition clk_of (s : st) (o : Z) : option Z :=
  match heap (sh s) !! o with Some (CCpy c) => Some (get_raw_wrt_clk c) | _ => None end.

(** the copy at count [c], with header [h0], of the object with volatile header [v0] *)
Definition copy_of (s : st) (c : Z) (h0 : ts_cpy_hdr_struct) (v0 : ts_act_vhdr) : Prop :=
  entry_at s c = Some h0 /\ o_type (c_hdr h0) = TYPE_COPY /\ vhdrs (sh s) !! c_act_vhdr (cpy_hdr h0) = Some v0.

(** the transaction has freed the object *)
Definition is_freed (c : Z) : bool :=
  match entry_at s0 c with
  | Some h => bool_decide (o_type (c_hdr h) = TYPE_COPY) &&
      match vhdrs (sh s0) !! c_act_vhdr (cpy_hdr h) with
      | Some v => bool_decide (np_org_act v ∈ free_set)
      | None => false
      end
  | None => false
  end.
Definition n_freed (cs : list Z) : Z := Z.of_nat (length (List.filter is_freed cs)).

(** the parts of a copy's header that the move leaves *)
Definition same_copy (h0 h : ts_cpy_hdr_struct) : Prop :=
  c_act_vhdr (cpy_hdr h) = c_act_vhdr (cpy_hdr h0) /\ p_ws (cpy_hdr h) = p_ws (cpy_hdr h0) /\
  get_raw_wrt_clk h = get_raw_wrt_clk h0 /\ obj_size (c_hdr h) = obj_size (c_hdr h0) /\
  (obj_size (c_hdr h0) = 0 -> c_copy (cpy_hdr h) = c_copy (cpy_hdr h0)).

(** [h] heads the chain: its next older version is [v0]'s newest one, or that
    one was detached meanwhile *)
Definition chained (v0 : ts_act_vhdr) (h : ts_cpy_hdr_struct) : Prop :=
  wrt_clk_prev (cpy_hdr h) = MAX_VERSION /\
  ((c_copy (cpy_hdr h) = NULL /\ wrt_clk_next (cpy_hdr h) = MIN_VERSION) \/
   (c_copy (cpy_hdr h) = v_copy v0 /\ v_copy v0 <> NULL /\ clk_of s0 (v_copy v0) = Some (wrt_clk_next (cpy_hdr h)))).

(** what the move makes of the copy at [c] and of its object's volatile header *)
Definition outcome (c : Z) (h0 : ts_cpy_hdr_struct) (v0 : ts_act_vhdr) (h : ts_cpy_hdr_struct) (v : ts_act_vhdr) : Prop :=
  if is_freed c then c_hdr h = (c_hdr h0) <| o_type := TYPE_FREE |> /\ (v_copy v = v_copy v0 \/ v_copy v = NULL)
  else if obj_size (c_hdr h0) =? 0 then c_hdr h = c_hdr h0 /\ (v_copy v = v_copy v0 \/ v_copy v = NULL)
  else c_hdr h = c_hdr h0 /\ chained v0 h /\ v_copy v = obj_of c.

(** every copy is the lock of its object, and the versions behind it are
    committed and not the transaction's own *)
Record holding : Prop := {
  hold_lock : forall c h0, c ∈ l -> entry_at s0 c = Some h0 -> o_type (c_hdr h0) = TYPE_COPY ->
    exists v0, copy_of s0 c h0 v0 /\ v_lock v0 = obj_of c;
  hold_only : forall p v, vhdrs (sh s0) !! p = Some v -> own_copy s0 l (v_lock v) ->
    exists c h0, c ∈ l /\ copy_of s0 c h0 v /\ c_act_vhdr (cpy_hdr h0) = p;
  hold_old : forall c h0 v0, c ∈ l -> copy_of s0 c h0 v0 -> v_copy v0 <> NULL ->
    ~ own_copy s0 l (v_copy v0) /\ exists k, clk_of s0 (v_copy v0) = Some k /\ k <> MAX_VERSION;
  hold_types : forall c h0, c ∈ l -> entry_at s0 c = Some h0 ->
    o_type (c_hdr h0) = TYPE_COPY \/ o_type (c_hdr h0) = TYPE_BOGUS;
  hold_inj : forall c c', c ∈ l -> c' ∈ l -> obj_of c = obj_of c' -> c = c';
  hold_ws : forall c, c ∈ l -> obj_of c <> ws }.

(** [s] is reached from [s0] by moving all copies of [l] but [rest] *)
Record moving (rest : list Z) (num_free : Z) (s : st) : Prop := {
  mv_self : self s = self s0;
  mv_ws : wrt_sets (sh s) !! ws = wrt_sets (sh s0) !! ws;
  mv_hdr : heap (sh s) !! ws = heap (sh s0) !! ws;
  mv_oplog : oplog_left s0 s;
  mv_num : num_free = n_freed rest;
  mv_copies : forall c h0 v0, c ∈ l -> copy_of s0 c h0 v0 ->
    exists h v, entry_at s c = Some h /\ vhdrs (sh s) !! c_act_vhdr (cpy_hdr h0) = Some v /\ same_copy h0 h /\
      v_lock v = obj_of c /\ np_org_act v = np_org_act v0 /\
      (c ∈ rest -> c_hdr h = c_hdr h0 /\ (v_copy v = v_copy v0 \/ v_copy v = NULL)) /\
      (c ∉ rest -> outcome c h0 v0 h v);
  mv_bogus : forall c h0, c ∈ l -> entry_at s0 c = Some h0 -> o_type (c_hdr h0) = TYPE_BOGUS -> entry_at s c = Some h0;
  mv_only : forall p v, vhdrs (sh s) !! p = Some v -> own_copy s0 l (v_lock v) ->
    exists c h0 v0, c ∈ l /\ copy_of s0 c h0 v0 /\ c_act_vhdr (cpy_hdr h0) = p;
  mv_old : forall c h0 v0, c ∈ l -> copy_of s0 c h0 v0 -> v_copy v0 <> NULL ->
    clk_of s (v_copy v0) = clk_of s0 (v_copy v0) }.

Lemma moving_start : holding -> moving l (n_freed l) s0.
Proof.
  intros [H1 H2 H3 H4 H5 H6]. split; try done.
  - intros c h0 v0 Hc Hcv. pose proof Hcv as (He & Ht & Hv). destruct (H1 c h0 Hc He Ht) as (v1 & (_ & _ & Hv1) & Hl).
    assert (v1 = v0) as -> by congruence. exists h0, v0. split; [done |]. split; [done |]. split; [done |].
    do 2 (split; [done |]). split; [by auto | done].
  - intros p v Hv Hown. destruct (H2 p v Hv Hown) as (c & h0 & Hc & Hcv & Hp). by exists c, h0, v.
Qed.

(** others run *)
Lemma moving_others rest n s s' : holding -> moving rest n s -> others_kept ws l s s' -> moving rest n s'.
Proof.
  intros Hh [M1 M2 MH ML M3 M4 M5 M6 M7] Ho. pose proof (fun c => entry_at_others ws l s s' c Ho) as He.
  assert (Hown : forall o, own_copy s0 l o <-> own_copy s l o) by (intros o; by apply own_copy_self).
  destruct Ho as [O1 O2 OH OL O3 O4 O5 O6 O7]. split; try congruence.
  - by transitivity s.
  - intros c h0 v0 Hc Hcv. destruct (M4 c h0 v0 Hc Hcv) as (h & v & A1 & A2 & A3 & A4 & A5 & A6 & A7).
    assert (Hl : own_copy s l (v_lock v)) by (rewrite A4; apply Hown; by exists c).
    destruct (O4 _ v A2 Hl) as (v' & B1 & B2 & B3 & B4). exists h, v'. rewrite He by done.
    split; [done |]. split; [done |]. split; [done |]. split; [congruence |]. split; [congruence |]. split.
    + intros Hr. destruct (A6 Hr) as [C1 C2]. split; [done |]. destruct B4 as [-> | [-> _]]; auto.
    + intros Hr. specialize (A7 Hr). unfold outcome in *. destruct (is_freed c), (obj_size (c_hdr h0) =? 0);
        try (destruct A7 as [C1 C2]; split; [done |]; destruct B4 as [-> | [-> _]]; auto; fail).
      destruct A7 as (C1 & C2 & C3). split; [done |]. split; [done |]. destruct B4 as [-> | [_ B4]]; [done |].
      destruct B4. rewrite C3. apply Hown. by exists c.
  - intros c h0 Hc Hc0 Ht. rewrite He by done. by apply (M5 c h0).
  - intros p v Hv Hl. destruct (O5 p v Hv) as (v1 & Hv1 & E1); [by apply Hown |].
    apply (M6 p v1 Hv1). by rewrite E1.
  - intros c h0 v0 Hc Hcv Hn. rewrite <- (M7 c h0 v0 Hc Hcv Hn).
    destruct (hold_old Hh c h0 v0 Hc Hcv Hn) as (_ & k & Hk & Hkm). rewrite <- (M7 c h0 v0 Hc Hcv Hn) in Hk.
    unfold clk_of in *. destruct (heap (sh s) !! v_copy v0) as [[|x]|] eqn:Ex; try done.
    destruct (O7 _ _ Ex) as (x' & -> & Hx). injection Hk as Hk. by rewrite Hx by congruence.
Qed.
Lemma own_not_old c c1 h0 v0 : holding -> c ∈ l -> c1 ∈ l -> copy_of s0 c h0 v0 -> v_copy v0 <> NULL ->
  obj_of c1 <> v_copy v0.
Proof.
  intros Hh Hc Hc1 Hcv Hn E. destruct (hold_old Hh c h0 v0 Hc Hcv Hn) as [Hno _]. apply Hno. rewrite <- E. by exists c1.
Qed.

Lemma entry_at_set s c x h : (forall y, obj_of c = obj_of y -> y = x -> c = x) -> self s = self s0 ->
  entry_at (set_cell (obj_of c) h s) x = if decide (x = c) then Some h else entry_at s x.
Proof.
  intros Hinj Hs. unfold entry_at, set_cell. cbn. rewrite Hs. case_decide as E; [by rewrite E, lookup_insert_eq |].
  rewrite lookup_insert_ne; [done |]. intros He. apply E. symmetry. by apply (Hinj x).
Qed.

Lemma copy_of_fun s c h v h' v' : copy_of s c h v -> copy_of s c h' v' -> h = h' /\ v = v'.
Proof. intros (E1 & _ & E2) (E3 & _ & E4). assert (h = h') as -> by congruence. split; [done | congruence]. Qed.

Lemma same_copy_trans h1 h2 h3 : same_copy h1 h2 -> same_copy h2 h3 -> same_copy h1 h3.
Proof.
  intros (A1 & A2 & A3 & A4 & A5) (B1 & B2 & B3 & B4 & B5). do 4 (split; [congruence |]).
  intros Hz. rewrite B5, A5; congruence.
Qed.

(** a write to the header of the copy whose turn it is, its last one or not *)
Lemma moving_put c rest rest' n n' s h0 v0 h f :
  holding -> moving (c :: rest) n s -> c ∈ l -> copy_of s0 c h0 v0 -> entry_at s c = Some h ->
  same_copy h (f h) ->
  (rest' = c :: rest /\ n' = n /\ c_hdr (f h) = c_hdr h) \/
  (rest' = rest /\ n' = n_freed rest /\ forall v, vhdrs (sh s) !! c_act_vhdr (cpy_hdr h0) = Some v ->
     c_hdr h = c_hdr h0 /\ (v_copy v = v_copy v0 \/ v_copy v = NULL) ->
     (c ∈ rest -> c_hdr (f h) = c_hdr h0) /\ (c ∉ rest -> outcome c h0 v0 (f h) v)) ->
  exists s', put_chs (obj_of c) f s = Ok (tt, s') /\ moving rest' n' s' /\ entry_at s' c = Some (f h) /\
    vhdrs (sh s') = vhdrs (sh s) /\ self s' = self s.
Proof.
  intros Hh Hm Hc Hcv He Hf Hr. pose proof Hm as [M1 M2 MH ML M3 M4 M5 M6 M7]. pose proof Hcv as (Hcv1 & Ht0 & _).
  assert (Ho : heap (sh s) !! obj_of c = Some (CCpy h)) by (rewrite <- M1; by apply entry_at_heap).
  eexists. split; [exact (put_chs_run s _ h f Ho) |]. fold (set_cell (obj_of c) (f h) s).
  assert (Hat : forall x, x ∈ l -> entry_at (set_cell (obj_of c) (f h) s) x = if decide (x = c) then Some (f h) else entry_at s x).
  { intros x Hx. apply entry_at_set; [| done]. intros y E ->. by apply (hold_inj Hh). }
  split; [| split; [by rewrite Hat, decide_True |]; done]. split; try done.
  - cbn. rewrite lookup_insert_ne; [done |]. by apply (hold_ws Hh).
  - destruct Hr as [(-> & -> & _) | (-> & -> & _)]; done.
  - intros x hx vx Hx Hcx. destruct (M4 x hx vx Hx Hcx) as (h1 & v & A1 & A2 & A3 & A4 & A5 & A6 & A7).
    rewrite Hat by done. case_decide as E.
    + subst x. assert (h1 = h) as -> by congruence. destruct (copy_of_fun _ _ _ _ _ _ Hcx Hcv) as [-> ->].
      exists (f h), v. split; [done |]. split; [done |]. split; [by eapply same_copy_trans |]. do 2 (split; [done |]).
      specialize (A6 ltac:(by left)). destruct Hr as [(-> & -> & Hr) | (-> & -> & Hr)].
      * split; [intros _; by rewrite Hr | intros Hn; destruct Hn; by left].
      * destruct (Hr v A2 A6) as [B1 B2]. split; [| done]. intros Hin. split; [by apply B1 | by apply A6].
    + exists h1, v. do 5 (split; [done |]). destruct Hr as [(-> & -> & Hr) | (-> & -> & Hr)]; [done |].
      split; [intros Hin; apply A6; by right | intros Hn; apply A7; elems].
  - intros x hx Hx Hhx Ht. rewrite Hat by done. case_decide as E; [| by apply (M5 x hx)]. subst x. congruence.
  - intros x hx vx Hx Hcx Hn. rewrite <- (M7 x hx vx Hx Hcx Hn). unfold clk_of, set_cell. cbn.
    by rewrite lookup_insert_ne by (by eapply (own_not_old x c)).
Qed.

(** the copy whose turn it is stays as it is, or is bogus *)
Lemma moving_next c rest s :
  moving (c :: rest) (n_freed (c :: rest)) s ->
  (forall h0 v0 h v, c ∈ l -> copy_of s0 c h0 v0 -> entry_at s c = Some h ->
     vhdrs (sh s) !! c_act_vhdr (cpy_hdr h0) = Some v -> c ∉ rest ->
     c_hdr h = c_hdr h0 /\ (v_copy v = v_copy v0 \/ v_copy v = NULL) -> outcome c h0 v0 h v) ->
  moving rest (n_freed rest) s.
Proof.
  intros [M1 M2 MH ML M3 M4 M5 M6 M7] Hout. split; try done.
  intros x hx vx Hx Hcx. destruct (M4 x hx vx Hx Hcx) as (h1 & v1 & A1 & A2 & A3 & A4 & A5 & A6 & A7).
  exists h1, v1. do 5 (split; [done |]). split; [intros Hr; apply A6; by right |]. intros Hr.
  destruct (decide (x = c)) as [-> | Hne]; [| apply A7; elems]. apply Hout; try done. apply A6. by left.
Qed.

Lemma n_freed_cons c rest : n_freed (c :: rest) = (if is_freed c then 1 else 0) + n_freed rest.
Proof. unfold n_freed. cbn [List.filter]. destruct (is_freed c); cbn [length]; lia. Qed.

(** the copy becomes the newest version *)
Lemma moving_insert c rest n s h0 v0 h v :
  holding -> moving (c :: rest) n s -> c ∈ l -> c ∉ rest -> copy_of s0 c h0 v0 -> entry_at s c = Some h ->
  vhdrs (sh s) !! c_act_vhdr (cpy_hdr h0) = Some v -> chained v0 h ->
  is_freed c = false -> obj_size (c_hdr h0) <> 0 ->
  moving rest n (s <| sh ::= (fun m => m <| vhdrs ::= (fun m => <[c_act_vhdr (cpy_hdr h0) := v <| v_copy := obj_of c |>]> m) |>) |>).
Proof.
  intros Hh [M1 M2 MH ML M3 M4 M5 M6 M7] Hc Hnr Hcv He Hv Hch Hf Hz. split; try done.
  - by rewrite M3, n_freed_cons, Hf.
  - intros x hx vx Hx Hcx. destruct (M4 x hx vx Hx Hcx) as (h1 & v1 & A1 & A2 & A3 & A4 & A5 & A6 & A7). cbn.
    destruct (decide (c_act_vhdr (cpy_hdr hx) = c_act_vhdr (cpy_hdr h0))) as [Ep | Ep].
    + rewrite Ep in *. assert (v1 = v) as -> by congruence.
      destruct (M4 c h0 v0 Hc Hcv) as (h2 & v2 & B1 & B2 & B3 & B4 & _ & B6 & _).
      assert (v2 = v) as -> by congruence. assert (h2 = h) as -> by congruence.
      assert (x = c) as -> by (apply (hold_inj Hh); [done | done | congruence]).
      destruct (copy_of_fun _ _ _ _ _ _ Hcx Hcv) as [-> ->].
      assert (h1 = h) as -> by congruence.
      rewrite lookup_insert_eq. exists h, (v <| v_copy := obj_of c |>). do 5 (split; [done |]). split; [done |].
      intros _. unfold outcome. rewrite Hf, (proj2 (Z.eqb_neq _ _)) by done. split; [| done]. apply B6. elems.
    + rewrite lookup_insert_ne by done. exists h1, v1. do 5 (split; [done |]). split; [intros Hr; apply A6; elems |].
      intros Hr. apply A7. intros [-> |]%elem_of_cons; [| done]. apply Ep.
      destruct Hcx as (E1 & _), Hcv as (E3 & _). congruence.
  - intros p w Hp Hown. cbn in Hp. destruct (decide (p = c_act_vhdr (cpy_hdr h0))) as [-> | Hne].
    + rewrite lookup_insert_eq in Hp. injection Hp as <-. apply (M6 _ v Hv Hown).
    + rewrite lookup_insert_ne in Hp by done. by apply (M6 p w).
Qed.

(** the round links the copy to the version behind it *)
Lemma insert_link c rest n s h0 v0 h o :
  holding -> moving (c :: rest) n s -> c ∈ l -> copy_of s0 c h0 v0 -> entry_at s c = Some h ->
  c_copy (cpy_hdr h) = o -> wrt_clk_prev (cpy_hdr h) = MAX_VERSION -> o = v_copy v0 \/ o = NULL ->
  exists s', (if o =? NULL
     then put_chs (obj_of c) (fun c => c <| cpy_hdr ::= (fun h => h <| wrt_clk_next := MIN_VERSION |>) |>)
     else let* old := get_chs o in
          put_chs (obj_of c) (fun c => c <| cpy_hdr ::= (fun h => h <| wrt_clk_next := get_raw_wrt_clk old |>) |>)) s = Ok (tt, s') /\
    moving (c :: rest) n s' /\ vhdrs (sh s') = vhdrs (sh s) /\
    exists h', entry_at s' c = Some h' /\ c_copy (cpy_hdr h') = o /\ chained v0 h'.
Proof.
  intros Hh Hm Hc Hcv He <- Hp Ho. assert (Hin : c ∈ c :: rest) by (by left).
  destruct (Z.eqb_spec (c_copy (cpy_hdr h)) NULL) as [En | En].
  - destruct (moving_put c rest (c :: rest) n n s h0 v0 h (fun c => c <| cpy_hdr ::= (fun h => h <| wrt_clk_next := MIN_VERSION |>) |>)
      Hh Hm Hc Hcv He) as (s2 & E2 & Hm2 & He2 & Hv2 & _); [done | by left |].
    eexists. split; [exact E2 |]. split; [done |]. split; [done |]. eexists. split; [exact He2 |].
    split; [done |]. split; [done |]. by left.
  - destruct Ho as [Ho | ?]; [| done]. rewrite Ho in En.
    destruct (hold_old Hh c h0 v0 Hc Hcv En) as (_ & k & Hk & _). pose proof (mv_old _ _ _ Hm c h0 v0 Hc Hcv En) as Hk1.
    rewrite Hk in Hk1. unfold clk_of in Hk1. rewrite <- Ho in Hk1. destruct (heap (sh s) !! c_copy (cpy_hdr h)) as [[|old]|] eqn:Eo; try done.
    injection Hk1 as Hk1. mrun (get_chs_run s _ old Eo). rewrite Hk1.
    destruct (moving_put c rest (c :: rest) n n s h0 v0 h (fun c => c <| cpy_hdr ::= (fun h => h <| wrt_clk_next := k |>) |>)
      Hh Hm Hc Hcv He) as (s2 & E2 & Hm2 & He2 & Hv2 & _); [done | by left |].
    eexists. split; [exact E2 |]. split; [done |]. split; [done |]. eexists. split; [exact He2 |].
    split; [done |]. split; [done |]. right. split; [exact Ho |]. by split.
Qed.

(** every state of the move is one in which others may run *)
Context (G : st -> Prop) `{!RelyWhen G (others_kept ws l)} (HG : forall rest n s, moving rest n s -> G s).

(** one round of the insertion: the copy is inserted, or the compare-and-swap
    finds that a reclamation has detached the version behind it *)
Lemma insert_round c rest n s h0 v0 h v :
  holding -> moving (c :: rest) n s -> c ∈ l -> c ∉ rest -> copy_of s0 c h0 v0 -> entry_at s c = Some h ->
  wrt_clk_prev (cpy_hdr h) = MAX_VERSION -> vhdrs (sh s) !! c_act_vhdr (cpy_hdr h0) = Some v ->
  is_freed c = false -> obj_size (c_hdr h0) <> 0 ->
  exists r s', insert_version_round (c_act_vhdr (cpy_hdr h0)) (obj_of c) (v_copy v) s = Ok (r, s') /\
    match r with
    | inr tt => moving rest n s'
    | inl o => moving (c :: rest) n s' /\ o = NULL /\ v_copy v <> NULL /\
        exists h' v', entry_at s' c = Some h' /\ wrt_clk_prev (cpy_hdr h') = MAX_VERSION /\
          vhdrs (sh s') !! c_act_vhdr (cpy_hdr h0) = Some v' /\ v_copy v' = NULL
    end.
Proof.
  intros Hh Hm Hc Hnr Hcv He Hprev Hv Hf Hz. unfold insert_version_round.
  assert (Hin : c ∈ c :: rest) by (by left).
  destruct (mv_copies _ _ _ Hm c h0 v0 Hc Hcv) as (h1 & v1 & Ee1 & Hv1 & _ & Hl1 & _ & A6 & _).
  assert (v1 = v) as -> by congruence. assert (h1 = h) as -> by congruence. destruct (A6 Hin) as [Hhdr Hvc].
  destruct (moving_put c rest (c :: rest) n n s h0 v0 h (fun c => c <| cpy_hdr ::= (fun h => h <| c_copy := v_copy v |>) |>) Hh Hm Hc Hcv He)
    as (s1 & E1 & Hm1 & He1 & Ev1 & _); [| by left |].
  { do 4 (split; [done |]). intros Hz0. destruct Hz. by rewrite <- Hhdr. }
  mrun E1.
  destruct (insert_link c rest n s1 h0 v0 _ (v_copy v) Hh Hm1 Hc Hcv He1 eq_refl Hprev Hvc)
    as (s2 & E2 & Hm2 & Ev2 & h2 & He2 & Hc2 & Hch). mrun E2.
  unfold smp_cas. rewrite bind_assoc. destruct (interfere_when s2 (HG _ _ _ Hm2)) as (s3 & E3 & Ho3). mrun E3.
  pose proof (moving_others _ n s2 s3 Hh Hm2 Ho3) as Hm3.
  assert (He3 : entry_at s3 c = Some h2) by (by rewrite (entry_at_others ws l s2 s3)).
  assert (Hl2 : own_copy s2 l (v_lock v)).
  { rewrite Hl1. apply (own_copy_self s0); [by apply Hm2 | by exists c]. }
  rewrite <- Ev1, <- Ev2 in Hv. destruct (oth_locked _ _ _ _ Ho3 _ v Hv Hl2) as (v3 & Hv3 & _ & _ & Hvc3).
  msteps. mrun (get_vhdr_run s3 _ v3 Hv3). msteps.
  destruct (Z.eqb_spec (v_copy v3) (v_copy v)) as [Ec | Ec].
  - msteps. mrun (put_vhdr_run s3 _ v3 (fun v => v <| v_copy := obj_of c |>) Hv3). msteps.
    do 2 eexists. split; [reflexivity |]. by apply (moving_insert c rest n s3 h0 v0 h2 v3).
  - destruct Hvc3 as [? | [Hn3 _]]; [done |]. msteps. mrun (get_vhdr_run s3 _ v3 Hv3). msteps.
    do 2 eexists. split; [reflexivity |]. split; [done |]. split; [done |]. split; [congruence |].
    exists h2, v3. split; [done |]. split; [by apply Hch | done].
Qed.

(** the retry loop of the insertion ends after two rounds *)
Lemma insert_version_run c rest n s h0 v0 h :
  holding -> moving (c :: rest) n s -> c ∈ l -> c ∉ rest -> copy_of s0 c h0 v0 -> entry_at s c = Some h ->
  wrt_clk_prev (cpy_hdr h) = MAX_VERSION -> is_freed c = false -> obj_size (c_hdr h0) <> 0 -> (2 <= spin_bound)%nat ->
  exists s', insert_version (c_act_vhdr (cpy_hdr h0)) (obj_of c) s = Ok (tt, s') /\ moving rest n s'.
Proof.
  intros Hh Hm Hc Hnr Hcv He Hp Hf Hz Hsp. unfold insert_version.
  destruct (mv_copies _ _ _ Hm c h0 v0 Hc Hcv) as (_ & v & _ & Hv & _). mrun (get_vhdr_run s _ v Hv).
  destruct spin_bound as [| [| k]]; [lia | lia |]. cbn [loop].
  destruct (insert_round c rest n s h0 v0 h v) as (r & s1 & E1 & Hr); try done. mrun E1.
  destruct r as [o | []]; [| by exists s1]. destruct Hr as (Hm1 & -> & _ & h1 & v1 & He1 & Hp1 & Hv1 & Hn1).
  destruct (insert_round c rest n s1 h0 v0 h1 v1) as (r & s2 & E2 & Hr); try done. rewrite Hn1 in E2. mrun E2.
  destruct r as [o | []]; [| by exists s2]. by destruct Hr as (_ & _ & ? & _).
Qed.

Lemma is_freed_copy c h0 v0 : copy_of s0 c h0 v0 -> is_freed c = bool_decide (np_org_act v0 ∈ free_set).
Proof. intros (E1 & E2 & E3). unfold is_freed. by rewrite E1, E2, E3. Qed.

Lemma n_freed_nonneg cs : 0 <= n_freed cs.
Proof. unfold n_freed. lia. Qed.

(** one turn of [ws_move_lock_to_copy]'s loop *)
Lemma move_body_run fs c rest n s :
  holding -> (forall p, ptrset_is_member fs p = bool_decide (p ∈ free_set)) -> n_freed l < 2 ^ 32 ->
  moving (c :: rest) n s -> c ∈ l -> c ∉ rest -> is_Some (entry_at s0 c) -> (2 <= spin_bound)%nat ->
  n_freed (c :: rest) <= n_freed l ->
  exists n' s', move_lock_to_copy_body fs (obj_of c) n s = Ok (inl n', s') /\ moving rest n' s'.
Proof.
  intros Hh Hfs Hlt Hm Hc Hnr [h0 He0] Hsp Hle. unfold move_lock_to_copy_body. pose proof (mv_self _ _ _ Hm) as Es.
  pose proof (mv_num _ _ _ Hm) as ->. pose proof (n_freed_nonneg rest) as Hnn.
  destruct (hold_types Hh c h0 Hc He0) as [Ht | Ht].
  2: { pose proof (entry_at_heap _ _ _ (mv_bogus _ _ _ Hm c h0 Hc He0 Ht)) as Hb. rewrite Es in Hb.
       mrun (get_chs_run s _ h0 Hb). rewrite Ht. cbn. do 2 eexists. split; [reflexivity |].
       rewrite n_freed_cons. unfold is_freed. rewrite He0, Ht. cbn.
       apply (moving_next c). { exact Hm. } intros h1 v1 ? ? _ (E1 & E2 & _). congruence. }
  destruct (hold_lock Hh c h0 Hc He0 Ht) as (v0 & Hcv & _).
  destruct (mv_copies _ _ _ Hm c h0 v0 Hc Hcv) as (h & v & He & Hv & Hsame & _ & Hn & H6 & _).
  destruct (H6 ltac:(by left)) as [Hhdr Hvc]. pose proof (entry_at_heap _ _ _ He) as Hho. rewrite Es in Hho.
  mrun (get_chs_run s _ h Hho). rewrite Hhdr, Ht. cbn [bool_decide decide]. rewrite bool_decide_false by done.
  rewrite (proj1 Hsame). mrun (get_vhdr_run s _ v Hv). rewrite Hfs, Hn, <- (is_freed_copy c h0 v0) by done.
  pose proof (n_freed_cons c rest) as Ecount.
  assert (Hcond : (0 <? n_freed (c :: rest)) && is_freed c = is_freed c).
  { destruct (is_freed c); [| by rewrite andb_false_r]. rewrite andb_true_r. apply Z.ltb_lt. lia. }
  rewrite Hcond. destruct (is_freed c) eqn:Ef; [| destruct (Z.eqb_spec (obj_size (c_hdr h0)) 0) as [Ez | Ez]].
  - destruct (moving_put c rest rest _ (n_freed rest) s h0 v0 h (fun c => c <| c_hdr ::= (fun h => h <| o_type := TYPE_FREE |>) |>)
      Hh Hm Hc Hcv He) as (s1 & E1 & Hm1 & _); [done | right |].
    { do 2 (split; [done |]). intros w Hw _. assert (w = v) as -> by congruence. split; [done |]. intros _.
      unfold outcome. rewrite Ef. cbn. by rewrite Hhdr. }
    mrun E1. do 2 eexists. split; [reflexivity |]. rewrite Ecount, u32_small by lia. by replace (1 + _ - 1) with (n_freed rest) by lia.
  - do 2 eexists. split; [reflexivity |]. rewrite Ecount. apply (moving_next c); [exact Hm |].
    intros h1 v1 h2 v2 _ Hcv1 He2 Hv2 _ Hold. destruct (copy_of_fun _ _ _ _ _ _ Hcv1 Hcv) as [-> ->].
    unfold outcome. rewrite Ef, (proj2 (Z.eqb_eq _ _) Ez). exact Hold.
  - destruct (moving_put c rest (c :: rest) _ (n_freed (c :: rest)) s h0 v0 h (fun c => c <| cpy_hdr ::= (fun h => h <| wrt_clk_prev := MAX_VERSION |>) |>)
      Hh Hm Hc Hcv He) as (s1 & E1 & Hm1 & He1 & _); [done | by left |]. mrun E1.
    destruct (insert_version_run c rest _ s1 h0 v0 _ Hh Hm1 Hc Hnr Hcv He1 eq_refl Ef Ez Hsp) as (s2 & E2 & Hm2).
    mrun E2. by do 2 eexists.
Qed.

(** the sizes of the entries do not change *)
Lemma moving_sizes rest n s rest' n' s' :
  holding -> (forall c, c ∈ l -> is_Some (entry_at s0 c)) -> moving rest n s -> moving rest' n' s' -> sizes_kept ws l s s'.
Proof.
  intros Hh Hall P P'.
  assert (Hsz : forall rest n s, moving rest n s -> forall c, c ∈ l ->
    get_entry_size <$> entry_at s c = get_entry_size <$> entry_at s0 c).
  { clear -Hh Hall. intros rest n s P c Hc. destruct (Hall c Hc) as [h0 He0].
    destruct (hold_types Hh c h0 Hc He0) as [Ht | Ht]; [| by rewrite He0, (mv_bogus _ _ _ P c h0 Hc He0 Ht)].
    destruct (hold_lock Hh c h0 Hc He0 Ht) as (v0 & Hcv & _).
    destruct (mv_copies _ _ _ P c h0 v0 Hc Hcv) as (h & v & He & _ & _ & _ & _ & H6 & H7). rewrite He, He0. cbn. f_equal.
    unfold get_entry_size. destruct (decide (c ∈ rest)) as [Hr | Hr]; [by rewrite (proj1 (H6 Hr)) |].
    specialize (H7 Hr). unfold outcome in H7. destruct (is_freed c); [by rewrite (proj1 H7) |].
    destruct (obj_size (c_hdr h0) =? 0); by rewrite (proj1 H7). }
  split; [| by rewrite (mv_ws _ _ _ P), (mv_ws _ _ _ P') | by rewrite (mv_self _ _ _ P), (mv_self _ _ _ P')].
  intros c Hc. by rewrite (Hsz _ _ _ P), (Hsz _ _ _ P').
Qed.

Lemma n_freed_le rest : forall before, n_freed rest <= n_freed (before ++ rest).
Proof.
  unfold n_freed. intros before. rewrite List.filter_app, length_app. lia.
Qed.

(** [ws_move_lock_to_copy] gives every copy its outcome *)
Lemma ws_move_run w e :
  cur_wrt_set (tvlog (self s0)) = ws -> ws_layout s0 ws w l e -> NoDup l -> holding ->
  (forall p, ptrset_is_member (tx_free_set (self s0)) p = bool_decide (p ∈ free_set)) ->
  num_ptrs (tx_free_set (self s0)) = n_freed l -> (2 <= spin_bound)%nat ->
  exists s', ws_move_lock_to_copy s0 = Ok (tt, s') /\ moving [] 0 s' /\ ws_layout s' ws w l e.
Proof.
  intros Hcur Hlay Hnd Hh Hfs Hnum Hsp. unfold ws_move_lock_to_copy. msteps. rewrite Hcur, Hnum.
  assert (Hlt : n_freed l < 2 ^ 32).
  { pose proof (lay_small _ _ _ _ _ Hlay). unfold n_freed. pose proof (List.filter_length_le is_freed l). lia. }
  pose proof (lay_path _ _ _ _ _ Hlay) as (hw & Hhw & Hsw & Hp).
  assert (Hall : forall c, c ∈ l -> is_Some (entry_at s0 c)) by (intros; by eapply path_entry).
  destruct (ws_for_each_rule ws (move_lock_to_copy_body (tx_free_set (self s0)))
    (fun rest n s => (exists before, l = before ++ rest) /\ moving rest n s) (fun _ _ => False) w l e (n_freed l) s0 Hlay)
    as (r & s' & E & Hk & Hr).
  - split; [by exists [] | by apply moving_start].
  - intros c rest n s Hc [[before Hl] Hm] _. rewrite (mv_self _ _ _ Hm).
    destruct (move_body_run (tx_free_set (self s0)) c rest n s) as (n' & s1 & E1 & Hm1); try done.
    + rewrite Hl in Hnd. apply NoDup_app in Hnd as (_ & _ & Hnd). by apply NoDup_cons in Hnd as [? _].
    + by apply Hall.
    + rewrite Hl. apply n_freed_le.
    + exists (inl n'), s1. split; [exact E1 |]. split; [by eapply moving_sizes |]. split; [| done].
      exists (before ++ [c]). by rewrite <- app_assoc.
  - mrun E. destruct r as [[cnt n] | []]. destruct Hr as (_ & _ & Hm). exists s'. split; [done |].
    pose proof (mv_num _ _ _ Hm) as ->. split; [exact Hm |]. destruct Hlay as [L1 L2 L3 _].
    split; [by rewrite (kept_ws _ _ _ _ Hk) | done | done |]. exists hw. rewrite (mv_hdr _ _ _ Hm). split; [done |].
    split; [done |]. by eapply path_kept.
Qed.

End MoveFacts.
