(* ===== verification/CommitTx.v ===== *)
(** The commit and the abort of a transaction as a whole ([tvlog_commit] and
    [tvlog_abort] of [lib/tvlog.c]), from a write set that the appends built. *)
From S2P Require Export Commit.

Section CommitTx.
Context `{Env}.

(** the copies in [l] are the locks of their objects, and the versions behind
    them are committed and not the transaction's own *)
Record locked (ws : Z) (l : list Z) (s : st) : Prop := {
  lck_lock : forall c h0, c ∈ l -> entry_at s c = Some h0 -> o_type (c_hdr h0) = TYPE_COPY ->
    exists v0, copy_of s c h0 v0 /\ v_lock v0 = tvlog_obj (tvlog (self s)) c;
  lck_only : forall p v, vhdrs (sh s) !! p = Some v -> own_copy s l (v_lock v) ->
    exists c h0, c ∈ l /\ copy_of s c h0 v /\ c_act_vhdr (cpy_hdr h0) = p;
  lck_old : forall c h0 v0, c ∈ l -> copy_of s c h0 v0 -> v_copy v0 <> NULL ->
    ~ own_copy s l (v_copy v0) /\ exists k, clk_of s (v_copy v0) = Some k /\ k <> MAX_VERSION }.

(** the pointers of the free set are the originals of as many copies in [l] *)
Definition frees (s : st) (l free_set : list Z) : Prop :=
  (forall p, ptrset_is_member (tx_free_set (self s)) p = bool_decide (p ∈ free_set)) /\
  num_ptrs (tx_free_set (self s)) = n_freed free_set s l.

(** the operation log [r] of the caller holds [q], is persisted up to its tail
    and has room for the entry of [op] *)
Record op_ready (s : st) (k : Z) (q : entries) (r : nvst) (op : ts_op_info) : Prop := {
  opr_log : log_of OPLOG s = Some r;
  opr_holds : log_holds r k q;
  opr_store : store_ok r;
  opr_persisted : s_tail_cnt (sto r) = n_tail_cnt (nv r);
  opr_size : 0 <= oi_curr op < 2 ^ 30;
  opr_room : has_room (oplog (self s)) k (sizeof_op_entry_hdr + oi_curr op);
  opr_less : op_count (oplog (self s)) k op + entry_size_of (sizeof_op_entry_hdr + oi_curr op)
             < n_tail_cnt (nv r) + 2 ^ k }.

(** whenever it is read, the counter advances past [local] within the bound of
    the waiting loop *)
Record clock_ready (local : Z) : Prop := {
  clr_range : forall i, is_clk (tsc i);
  clr_local : 0 <= local < MAX_VERSION;
  clr_advance : forall k, exists n, (n < spin_bound)%nat /\ local + 2 * ordo_boundary < tsc (k + n)%nat }.

(** * Facts *)

Lemma writing_NoDup s ws w l : writing s ws w l -> NoDup l.
Proof. intros Hw. destruct (writing_path s ws w l Hw) as (c & _ & Hp). by eapply path_NoDup. Qed.

Lemma writing_holding s ws w l : writing s ws w l -> locked ws l s -> holding ws l s.
Proof.
  intros Hw [L1 L2 L3]. destruct (writing_path s ws w l Hw) as (c0 & Hc0 & Hp).
  pose proof (path_bounds _ _ _ _ Hp) as [_ Hb]. destruct (wr_start _ _ _ _ Hw) as [Hst Ews].
  pose proof (wr_turn _ _ _ _ Hw) as Ht. pose proof (wr_tail _ _ _ _ Hw) as (_ & Ht2 & _).
  split; try done.
  - intros c h0 Hc He. destruct (wr_entries _ _ _ _ Hw c h0 Hc He) as [_ [_ _ [(? & _) | ?]]]; auto.
  - intros c c' Hc Hc' E. specialize (Hb c Hc) as B. specialize (Hb c' Hc') as B'.
    apply (tvlog_obj_inj (tvlog (self s))); [lia | lia | lia | done].
  - intros c Hc E. specialize (Hb c Hc) as B. rewrite Ews in E.
    apply tvlog_obj_inj in E; lia.
Qed.

Lemma st_new_clock_run s local : clock_ready local ->
  exists clk n, st_new_clock local s = Ok (clk, s <| sh ::= (fun h => h <| ticks := n |>) |>) /\
    is_clk clk /\ lt_clock local clk = true.
Proof.
  intros [Hr Hl Had]. destruct (Had (ticks (sh s))) as (n & Hn & Ha). destruct (new_clock_first tsc local spin_bound (ticks (sh s)) n Hr Hl Hn Ha)
    as (m & _ & E & Hgt & _).
  eexists _, _. split; [unfold st_new_clock, on_ticks, zoom; by rewrite E |]. split; [apply Hr |].
  unfold MAX_VERSION, ULONG_MAX, ordo_boundary, g_ordo_boundary, __ORDO_BOUNDARY in *.
  apply lt_clock_iff; [unfold is_clk; lia | apply Hr |]. unfold ordo_boundary, g_ordo_boundary, __ORDO_BOUNDARY. lia.
Qed.

Lemma put_ws_run s a w f : wrt_sets (sh s) !! a = Some w ->
  put_ws a f s = Ok (tt, s <| sh ::= (fun h => h <| wrt_sets ::= (fun m => <[a := f w]> m) |>) |>).
Proof. intros E. unfold put_ws. by mrun (get_ws_run s a w E). Qed.

(** the move keeps what the operation log needs *)
Lemma op_ready_left s s' k q r op : op_ready s k q r op -> oplog_left s s' -> oplog (self s') = oplog (self s) ->
  exists r', op_ready s' k q r' op.
Proof.
  intros [H1 H2 H3 H4 H5 H6 H7] Hl Ho. destruct (Hl k q r H1 H2) as (r' & A & B & C & D).
  exists r'. destruct H3 as (S1 & S2 & S3). split; rewrite ?Ho, ?C, ?D; try done.
  unfold store_ok. by rewrite C, D.
Qed.

(** [s1] is reached from [s] when the copies in [l] have been moved and the
    operation is logged with the clock [clk], which nobody sees yet *)
Record logged (ws : Z) (w : ts_wrt_set) (l free_set : list Z) (clk : Z) (s s1 : st) : Prop := {
  lg_tvlog : tvlog (self s1) = tvlog (self s);
  lg_free : tx_free_set (self s1) = tx_free_set (self s);
  lg_layout : ws_layout s1 ws (w <| pending_wrt_clk := clk |>) l (t_tail_cnt (tvlog (self s)));
  lg_copies : forall c h0 v0, c ∈ l -> copy_of s c h0 v0 ->
    exists h v, entry_at s1 c = Some h /\ vhdrs (sh s1) !! c_act_vhdr (cpy_hdr h0) = Some v /\ same_copy h0 h /\
      v_lock v = tvlog_obj (tvlog (self s)) c /\ outcome free_set s c h0 v0 h v;
  lg_bogus : forall c h0, c ∈ l -> entry_at s c = Some h0 -> o_type (c_hdr h0) = TYPE_BOGUS -> entry_at s1 c = Some h0;
  lg_only : forall p v, vhdrs (sh s1) !! p = Some v -> own_copy s l (v_lock v) ->
    exists c h0 v0, c ∈ l /\ copy_of s c h0 v0 /\ c_act_vhdr (cpy_hdr h0) = p;
  lg_old : forall c h0 v0, c ∈ l -> copy_of s c h0 v0 -> v_copy v0 <> NULL -> clk_of s1 (v_copy v0) = clk_of s (v_copy v0) }.

Lemma moving_logged ws w l free_set clk s s1 s2 e :
  moving ws l free_set s [] 0 s1 -> ws_layout s1 ws w l e -> e = t_tail_cnt (tvlog (self s)) ->
  tvlog (self s2) = tvlog (self s1) -> tx_free_set (self s2) = tx_free_set (self s1) ->
  heap (sh s2) = heap (sh s1) -> vhdrs (sh s2) = vhdrs (sh s1) ->
  wrt_sets (sh s2) !! ws = Some (w <| pending_wrt_clk := clk |>) -> logged ws w l free_set clk s s2.
Proof.
  intros [M1 M2 MH ML M3 M4 M5 M6 M7] [L1 L2 L3 (hw & L4 & L5 & L6)] -> Et Ef Eh Ev Ew.
  assert (Hent : forall x, entry_at s2 x = entry_at s1 x) by (intros; unfold entry_at; by rewrite Et, Eh).
  split; try congruence.
  - split; [done | done | done |]. exists hw. rewrite Eh. split; [done |]. split; [done |].
    apply (path_same s1 s2); [intros; apply Hent | exact L6].
  - intros c h0 v0 Hc Hcv. destruct (M4 c h0 v0 Hc Hcv) as (h & v & A1 & A2 & A3 & A4 & _ & _ & A7).
    exists h, v. rewrite Hent, Ev. do 4 (split; [done |]). apply A7. by intros ?%not_elem_of_nil.
  - intros c h0 Hc He Ht. rewrite Hent. by apply (M5 c h0).
  - intros p v Hp Hown. rewrite Ev in Hp. by apply (M6 p v).
  - intros c h0 v0 Hc Hcv Hn. rewrite <- (M7 c h0 v0 Hc Hcv Hn). unfold clk_of. by rewrite Eh.
Qed.

Lemma commit_log_run G ws w l free_set k q r local op `{!RelyWhen G (others_kept ws l)} s :
  (forall rest n s', moving ws l free_set s rest n s' -> G s') -> writing s ws w l -> locked ws l s -> frees s l free_set -> op_ready s k q r op -> clock_ready local ->
  (2 <= spin_bound)%nat ->
  exists clk s1, commit_log local op s = Ok (clk, s1) /\ is_clk clk /\ lt_clock local clk = true /\
    holds OPLOG s1 k (q ++ [(op_count (oplog (self s)) k op, op_entry local clk op)]) /\
    (tail_stored s1 /\ lines_persisted k (n_tail_cnt (oplog (self s))) s1) /\
    n_head_cnt (oplog (self s1)) = n_head_cnt (oplog (self s)) /\
    n_tail_cnt (oplog (self s1)) =
      op_count (oplog (self s)) k op + entry_size_of (sizeof_op_entry_hdr + oi_curr op) /\
    logged ws w l free_set clk s s1.
Proof.
  intros HG Hw Hl [Hf1 Hf2] Hop Hclk Hsp. unfold commit_log, commit_clock.
  destruct (ws_move_run ws l free_set s G HG w (t_tail_cnt (tvlog (self s)))) as (s1 & E1 & Hm1 & Hlay1); try done;
    [by apply Hw | by apply Hw | by eapply writing_NoDup | by eapply writing_holding |]. rewrite bind_assoc. mrun E1.
  pose proof (mv_self _ _ _ _ _ _ _ Hm1) as Es1.
  destruct (st_new_clock_run s1 local Hclk) as (clk & n & E2 & Hc & Hlt). mrun E2.
  set (s2 := upd sh _ s1). unfold commit_log_at. msteps. change (self s2) with (self s1). rewrite Es1, (wr_cur _ _ _ _ Hw).
  assert (Hw2 : wrt_sets (sh s2) !! ws = Some w) by (exact (lay_ws _ _ _ _ _ Hlay1)).
  mrun (put_ws_run s2 ws w (fun w => w <| pending_wrt_clk := clk |>) Hw2).
  set (s3 := upd sh _ s2). assert (Hw3 : wrt_sets (sh s3) !! ws = Some (w <| pending_wrt_clk := clk |>)) by (cbn; by rewrite lookup_insert_eq).
  mrun (get_ws_run s3 ws _ Hw3). cbn [upd pending_wrt_clk].
  assert (Hl3 : oplog_left s s3) by (transitivity s1; [by apply Hm1 | by apply oplog_left_same]).
  assert (Eo3 : oplog (self s3) = oplog (self s)) by (cbn; by rewrite Es1).
  destruct (op_ready_left s s3 k q r op Hop Hl3 Eo3) as (r3 & [P1 P2 P3 P4 P5 P6 P7]). rewrite Eo3 in P6, P7.
  destruct (oplog_enq_run s3 k q r3 local clk op) as (a & s4 & r4 & E4 & _ & Hr4 & Hh4 & Ho4 & [Q1 Q2 Q3 Q4 Q5 Q6]);
    [by exists r3 | done | done | by rewrite Eo3 |]. rewrite Eo3 in Hh4, Q6. mrun E4.
  pose proof (has_room_after _ _ _ P6) as Hgrow. cbn [op_entry e_size] in Q6.
  destruct (oplog_enq_persist_run s4 k _ r4 Hr4 Hh4) as (s5 & E5 & Hh5 & Ht5 & Ho5 & En5 & Hp5).
  { destruct P3 as (S1 & S2 & S3). unfold store_ok, store_apart in *. by rewrite Q1, Q2, Q3, Q4. }
  { rewrite Q1, P4, Q6. rewrite <- (log_of_oplog _ _ P1), Eo3 in *. fold (op_count (oplog (self s)) k op) in Hgrow. lia. }
  mrun E5. exists clk, s5. split; [done |]. do 3 (split; [done |]). split.
  { split; [done |]. rewrite Q1, P4, Q6, <- (log_of_oplog _ _ P1), Eo3 in Hp5. apply Hp5. unfold op_count. lia. }
  destruct (only_oplog_trans _ _ _ Ho4 Ho5) as [Hse Hsh]. rewrite En5, (log_of_oplog _ _ Hr4), Q5, Q6.
  split; [by rewrite <- (log_of_oplog _ _ P1), Eo3 |]. split; [done |].
  apply (moving_logged ws w l free_set clk s s1 s5 _ Hm1 Hlay1 eq_refl);
    [by rewrite Hse | by rewrite Hse | by rewrite Hsh | by rewrite Hsh | rewrite Hsh; exact Hw3].
Qed.

(** what the copy at [c] is once the operation is logged *)
Lemma logged_entry ws w l free_set clk s s1 c h :
  writing s ws w l -> locked ws l s -> logged ws w l free_set clk s s1 -> c ∈ l -> entry_at s1 c = Some h ->
  (o_type (c_hdr h) = TYPE_BOGUS /\ entry_at s c = Some h) \/
  exists h0 v0 v, copy_of s c h0 v0 /\ vhdrs (sh s1) !! c_act_vhdr (cpy_hdr h0) = Some v /\
    c_act_vhdr (cpy_hdr h) = c_act_vhdr (cpy_hdr h0) /\ v_lock v = tvlog_obj (tvlog (self s)) c /\
    o_type (c_hdr h) = (if is_freed free_set s c then TYPE_FREE else TYPE_COPY) /\
    (o_type (c_hdr h) = TYPE_COPY -> c_copy (cpy_hdr h) <> NULL ->
       c_copy (cpy_hdr h) = v_copy v0 /\ is_Some (clk_of s1 (v_copy v0))).
Proof.
  intros Hw Hl Hg Hc He. pose proof (writing_holding s ws w l Hw Hl) as Hh.
  destruct (writing_path s ws w l Hw) as (c0 & _ & Hp). destruct (path_entry _ _ _ _ c Hp Hc) as [h0 He0].
  destruct (wr_entries _ _ _ _ Hw c h0 Hc He0) as [_ [_ _ [(Ht & _ & Hcn & _) | Ht]]].
  2: { left. pose proof (lg_bogus _ _ _ _ _ _ _ Hg c h0 Hc He0 Ht) as E. assert (h = h0) as -> by congruence. done. }
  right. destruct (hold_lock _ _ _ Hh c h0 Hc He0 Ht) as (v0 & Hcv & _).
  destruct (lg_copies _ _ _ _ _ _ _ Hg c h0 v0 Hc Hcv) as (h1 & v & A1 & A2 & (B1 & _ & _ & _ & B5) & A4 & A5).
  assert (h1 = h) as -> by congruence. exists h0, v0, v. do 4 (split; [done |]). unfold outcome in A5.
  destruct (is_freed free_set s c); [destruct A5 as [-> _]; split; [done |]; by cbn |].
  destruct (Z.eqb_spec (obj_size (c_hdr h0)) 0) as [Ez | Ez].
  - destruct A5 as [-> _]. split; [done |]. intros _ Hn. rewrite B5, Hcn in Hn by done. done.
  - destruct A5 as (-> & (_ & [[Hn _] | (Hn & Hne & _)]) & _); split; try done. intros _ _. split; [done |].
    rewrite (lg_old _ _ _ _ _ _ _ Hg c h0 v0 Hc Hcv Hne). destruct (hold_old _ _ _ Hh c h0 v0 Hc Hcv Hne) as (_ & k & -> & _). done.
Qed.

(** the locks are those of the copies, and the versions behind them exist *)
Lemma logged_locks ws w l free_set clk s s1 :
  writing s ws w l -> locked ws l s -> logged ws w l free_set clk s s1 ->
  locks_left l l s1 /\
  forall c h, c ∈ l -> entry_at s1 c = Some h -> o_type (c_hdr h) = TYPE_COPY -> c_copy (cpy_hdr h) <> NULL ->
    exists old, heap (sh s1) !! c_copy (cpy_hdr h) = Some (CCpy old).
Proof.
  intros Hw Hl Hg. pose proof (fun c h => logged_entry ws w l free_set clk s s1 c h Hw Hl Hg) as Hent. split; [split |].
  - intros p v Hp Hown. unfold own_copy in Hown. rewrite (lg_tvlog _ _ _ _ _ _ _ Hg) in *.
    destruct (lg_only _ _ _ _ _ _ _ Hg p v Hp Hown) as (c & h0 & v0 & Hc & Hcv & Ep).
    destruct (lg_copies _ _ _ _ _ _ _ Hg c h0 v0 Hc Hcv) as (h & v1 & A1 & A2 & _ & A4 & _).
    rewrite Ep in A2. assert (v1 = v) as -> by congruence. exists c, h. do 3 (split; [done |]).
    destruct (Hent c h Hc A1) as [[_ E] | (h1 & v1 & v2 & Hcv1 & _ & B & _ & Ht & _)].
    + destruct Hcv as (E0 & Ht & _). assert (h = h0) as -> by congruence. by split; [| left].
    + destruct (copy_of_fun _ _ _ _ _ _ Hcv Hcv1) as [-> _]. split; [congruence |]. rewrite Ht. destruct (is_freed _ _ _); auto.
  - intros c h Hc He Ht. destruct (Hent c h Hc He) as [[E _] | (h1 & v1 & v2 & _ & Hv & -> & _)]; [| by eexists].
    rewrite E in Ht. by destruct Ht.
  - intros c h Hc He Ht Hn. destruct (Hent c h Hc He) as [[E _] | (h1 & v1 & v2 & _ & _ & _ & _ & _ & Hold)]; [congruence |].
    destruct (Hold Ht Hn) as [-> [k Hk]]. unfold clk_of in Hk. destruct (heap (sh s1) !! v_copy v1) as [[|old]|]; try done. by exists old.
Qed.

(** the objects, their headers and the write sets are the same *)
Definition same_memory (s s' : st) : Prop :=
  heap (sh s') = heap (sh s) /\ vhdrs (sh s') = vhdrs (sh s) /\ wrt_sets (sh s') = wrt_sets (sh s).

(** a request returns, whatever others do, and changes nothing of the caller's *)
Lemma request_total R `{!ReqSel R} G (Q : st -> st -> Prop) `{!RelyWhen G Q} req s : G s ->
  exists b s1 s', _request_reclaim R req s = Ok (b, s') /\ (s1 = s \/ Q s s1) /\ self s' = self s1 /\
    same_memory s1 s'.
Proof.
  intros HG. unfold _request_reclaim, read_req. msteps. destruct (_ <? req).
  - unfold smp_cas. destruct (interfere_when s HG) as (s1 & Ei & HQ). mrun Ei. msteps.
    destruct (_ =? _); [unfold mod_qp_reclaim, mod_sh; msteps |]; do 2 eexists; eexists;
      (split; [reflexivity |]); (split; [by right |]); done.
  - do 2 eexists. eexists. split; [reflexivity |]. split; [by left | done].
Qed.

(** the point of publication: the write set has its clock *)
Definition public (ws : Z) (w : ts_wrt_set) (clk : Z) (s : st) : st :=
  s <| sh ::= (fun h => h <| sh_pm ::= wmb |>) |>
    <| sh ::= (fun h => h <| wrt_sets ::= (fun m => <[ws := w <| pending_wrt_clk := clk |> <| ws_wrt_clk := clk |>]> m) |>) |>.

Lemma commit_publish_public ws w clk s :
  cur_wrt_set (tvlog (self s)) = ws -> wrt_sets (sh s) !! ws = Some (w <| pending_wrt_clk := clk |>) ->
  commit_publish clk s = ws_unlock_commit (public ws w clk s).
Proof.
  intros Hcur Hw. unfold commit_publish, st_wmb, mod_sh. msteps. set (s2 := upd sh _ s).
  change (tvlog (self s2)) with (tvlog (self s)). rewrite Hcur.
  by mrun (put_ws_run s2 ws _ (fun w => w <| ws_wrt_clk := clk |>) Hw).
Qed.

(** after the point of publication: the copies get the clock and the locks go *)
Lemma commit_publish_run G ws w l free_set clk `{!RelyWhen G (others_kept ws l)} s s1 :
  (forall rest s', publishing clk ws l (public ws w clk s1) rest s' -> G s') -> writing s ws w l -> locked ws l s -> logged ws w l free_set clk s s1 ->
  exists s', commit_publish clk s1 = Ok (tt, s') /\ self s' = self s1 /\
    (forall c h0 v0, c ∈ l -> copy_of s c h0 v0 ->
       exists h, entry_at s' c = Some h /\ get_raw_wrt_clk h = clk) /\
    (forall p v, vhdrs (sh s') !! p = Some v -> own_copy s l (v_lock v) ->
       exists c h0 v0, c ∈ l /\ copy_of s c h0 v0 /\ c_act_vhdr (cpy_hdr h0) = p /\ is_freed free_set s c = true) /\
    publishing clk ws l (public ws w clk s1) [] s'.
Proof.
  intros HG Hw Hl Hg. pose proof (lg_tvlog _ _ _ _ _ _ _ Hg) as Et.
  destruct (logged_locks ws w l free_set clk s s1 Hw Hl Hg) as [Hlk Hold].
  pose proof (lg_layout _ _ _ _ _ _ _ Hg) as [Lw Ln Ls (hw & Lh & Lr & Lp)].
  rewrite (commit_publish_public ws w clk s1) by (try exact Lw; by rewrite Et, (wr_cur _ _ _ _ Hw)).
  set (s3 := public ws w clk s1).
  assert (Hlay : ws_layout s3 ws (w <| pending_wrt_clk := clk |> <| ws_wrt_clk := clk |>) l (t_tail_cnt (tvlog (self s)))).
  { split; [by cbn; rewrite lookup_insert_eq | done | done |]. exists hw. split; [exact Lh |]. split; [exact Lr |].
    by apply (path_same s1 s3). }
  destruct (ws_unlock_commit_run G ws (w <| pending_wrt_clk := clk |> <| ws_wrt_clk := clk |>) l (t_tail_cnt (tvlog (self s))) s3)
    as (s4 & E4 & Es4 & Hc4 & Hl4 & P4); [exact HG | cbn; by rewrite Et, (wr_cur _ _ _ _ Hw) | cbn; rewrite Et; by apply Hw | done.. |].
  exists s4. split; [done |]. split; [by rewrite Es4 |].
  pose proof (fun c h => logged_entry ws w l free_set clk s s1 c h Hw Hl Hg) as Hent. split; [| split; [| exact P4]].
  - intros c h0 v0 Hc Hcv. destruct (lg_copies _ _ _ _ _ _ _ Hg c h0 v0 Hc Hcv) as (h & v & A1 & _).
    destruct (Hent c h Hc A1) as [[Ht E] | (h1 & v1 & v2 & _ & _ & _ & _ & Ht & _)].
    { destruct Hcv as (E0 & Ht0 & _). congruence. }
    destruct (Hc4 c h Hc A1) as (h' & E' & Hk & _); [unfold is_entry; rewrite Ht; destruct (is_freed _ _ _); auto |].
    by exists h'.
  - intros p v Hp Hown. assert (Hown3 : own_copy s3 l (v_lock v)) by (destruct Hown as (x & Hx & Ex); exists x; cbn; by rewrite Et).
    destruct (Hl4 p v Hp Hown3) as (c & h & Hc & A1 & Ep & Ht).
    destruct (Hent c h Hc A1) as [[Ht' _] | (h1 & v1 & v2 & Hcv & _ & Ea & _ & Hty & _)]; [congruence |].
    exists c, h1, v1. do 2 (split; [done |]). split; [congruence |]. destruct (is_freed free_set s c); [done | congruence].
Qed.

(** the requests at the end of a commit, when the operation log is below its mark *)
Lemma commit_requests_run G ws l `{!RelyWhen G (others_kept ws l)} s :
  G s -> nvlog_used (oplog (self s)) < TS_OPLOG_HIGH_MARK ->
  exists s1 s', commit_request s = Ok (tt, s') /\
    (s1 = s \/ others_kept ws l s s1) /\ self s' = self s1 /\ same_memory s1 s'.
Proof.
  intros HG Hu. unfold commit_request, oplog_try_request_ckpt_if_needed, oplog_used. msteps. rewrite (proj2 (Z.leb_gt _ _)) by done. msteps.
  cbn [negb when]. unfold tvlog_try_request_reclaim_if_needed. msteps.
  destruct (_ <? _); [| do 2 eexists; split; [reflexivity |]; split; [by left | done]].
  unfold request_tvlog_reclaim. destruct (_ <? _); msteps.
  - destruct (request_total REQ_TVLOG G (others_kept ws l) RECLAIM_TVLOG_CKPT s HG) as (b & s1 & s' & E & Hs). mrun E. by exists s1, s'.
  - destruct (request_total REQ_TVLOG G (others_kept ws l) RECLAIM_TVLOG_BEST_EFFORT s HG) as (b & s1 & s' & E & Hs). mrun E. by exists s1, s'.
Qed.

(** a commit as a whole; [G] holds whenever others may run *)
Lemma tvlog_commit_run G ws w l free_set k q r local op `{!RelyWhen G (others_kept ws l)} s :
  (forall rest n s', moving ws l free_set s rest n s' -> G s') ->
  (forall clk s1 rest s', is_clk clk -> logged ws w l free_set clk s s1 ->
     publishing clk ws l (public ws w clk s1) rest s' -> G s') ->
  writing s ws w l -> locked ws l s -> frees s l free_set -> op_ready s k q r op -> clock_ready local ->
  (2 <= spin_bound)%nat ->
  op_count (oplog (self s)) k op + entry_size_of (sizeof_op_entry_hdr + oi_curr op) - n_head_cnt (oplog (self s))
    < TS_OPLOG_HIGH_MARK ->
  exists clk s1 s2 s', commit_log local op s = Ok (clk, s1) /\ lt_clock local clk = true /\
    holds OPLOG s1 k (q ++ [(op_count (oplog (self s)) k op, op_entry local clk op)]) /\
    (tail_stored s1 /\ lines_persisted k (n_tail_cnt (oplog (self s))) s1) /\
    logged ws w l free_set clk s s1 /\
    tvlog_commit local op s = Ok (tt, s') /\ cur_wrt_set (tvlog (self s')) = NULL /\
    num_ptrs (tx_free_set (self s')) = 0 /\
    (forall c h0 v0, c ∈ l -> copy_of s c h0 v0 -> exists h, entry_at s' c = Some h /\ get_raw_wrt_clk h = clk) /\
    (forall p v, vhdrs (sh s') !! p = Some v -> own_copy s l (v_lock v) ->
       exists c h0 v0, c ∈ l /\ copy_of s c h0 v0 /\ c_act_vhdr (cpy_hdr h0) = p /\ is_freed free_set s c = true) /\
    (is_clk clk /\ publishing clk ws l (public ws w clk s1) [] s2 /\
     wrt_sets (sh s') !! ws = wrt_sets (sh s2) !! ws /\ (forall c, c ∈ l -> entry_at s' c = entry_at s2 c) /\
     forall c, tvlog_obj (tvlog (self s')) c = tvlog_obj (tvlog (self s)) c).
Proof.
  intros HM HP Hw Hl Hf Hop Hclk Hsp Hmark.
  destruct (commit_log_run G ws w l free_set k q r local op s HM Hw Hl Hf Hop Hclk Hsp)
    as (clk & s1 & E1 & Hic & Hlt & Hq & Ht & Ehd & Etl & Hg).
  destruct (commit_publish_run G ws w l free_set clk s s1 (fun rest s' => HP clk s1 rest s' Hic Hg) Hw Hl Hg)
    as (s2 & E2 & Es2 & Hc2 & Hl2 & P2).
  destruct (commit_requests_run G ws l s2) as (s3 & s4 & E4 & Ho & Es4 & Eh4 & Ev4 & Ew4); [by apply (HP clk s1 []) | |].
  { unfold nvlog_used. rewrite Es2, Ehd, Etl. pose proof (has_room_after _ _ _ (opr_room _ _ _ _ _ Hop)) as Hgrow.
    fold (op_count (oplog (self s)) k op) in Hgrow. pose proof (log_holds_counts _ _ _ (opr_holds _ _ _ _ _ Hop)) as Hcnt.
    rewrite <- (log_of_oplog _ _ (opr_log _ _ _ _ _ Hop)) in Hcnt.
    assert (TS_OPLOG_HIGH_MARK < 2 ^ 64) by done. rewrite u64_small; lia. }
  exists clk, s1, s2. unfold tvlog_commit. eexists. do 5 (split; [done |]).
  split. { mrun E1. mrun E2. mrun E4. unfold mod_tvlog, set_reset, mod_self. msteps. reflexivity. }
  split; [done |]. split; [done |].
  assert (Et : tvlog (self s4) = tvlog (self s)).
  { rewrite Es4. destruct Ho as [-> | Ho]; [by rewrite Es2, (lg_tvlog _ _ _ _ _ _ _ Hg) |].
    by rewrite (oth_self _ _ _ _ Ho), Es2, (lg_tvlog _ _ _ _ _ _ _ Hg). }
  assert (Et2 : tvlog (self s2) = tvlog (self s)) by (by rewrite Es2, (lg_tvlog _ _ _ _ _ _ _ Hg)).
  match goal with |- (forall c h0 v0, _ -> _ -> exists h, entry_at ?t c = _ /\ _) /\ _ => assert (Hent : forall c, c ∈ l -> entry_at t c = entry_at s2 c) end.
  { intros c Hc. transitivity (entry_at s3 c); [unfold entry_at; cbn; rewrite Et, Eh4; by rewrite <- Es4, Et |].
    destruct Ho as [-> | Ho]; [done |]. by apply (entry_at_others ws l s2 s3). }
  split; [| split; [| do 2 (split; [done |]); split; [| split; [done |]]]].
  - intros c h0 v0 Hc Hcv. rewrite Hent by done. by apply (Hc2 c h0 v0).
  - intros p v Hp Hown. cbn in Hp. rewrite Ev4 in Hp. destruct Ho as [-> | Ho]; [by apply (Hl2 p v) |].
    assert (Hown2 : own_copy s2 l (v_lock v)) by (destruct Hown as (x & Hx & Ex); exists x; by rewrite Et2).
    destruct (oth_lock _ _ _ _ Ho p v Hp Hown2) as (v2 & Hv2 & E). apply (Hl2 p v2 Hv2). by rewrite E.
  - cbn. rewrite Ew4. destruct Ho as [-> | Ho]; [done | by apply Ho].
  - intros c. unfold tvlog_obj, tvlog_at. cbn. by rewrite Et.
Qed.


(** at the point of publication the operation is durable: its lines, and the
    tail behind it *)
Lemma publication_durable ws w l free_set clk k t0 s s1 :
  writing s ws w l -> logged ws w l free_set clk s s1 -> lines_persisted k t0 s1 ->
  let s2 := public ws w clk s1 in
  commit_publish clk s1 = ws_unlock_commit s2 /\
  (forall c, (64 | c) -> t0 <= c < n_tail_cnt (oplog (self s2)) ->
     durable (sh_pm (sh s2)) (line_of (slot (n_buffer (oplog (self s2))) k c))) /\
  durable (sh_pm (sh s2)) (line_of (store_tail_addr (oplog (self s2)))) /\
  words (sh_pm (sh s2)) !! store_tail_addr (oplog (self s2)) = Some (n_tail_cnt (oplog (self s2))).
Proof.
  intros Hw Hg [Hd [Hwd Ht]] s2. split; [| split; [| split; [by apply wmb_durable | exact Hwd]]].
  - apply commit_publish_public; [by rewrite (lg_tvlog _ _ _ _ _ _ _ Hg), (wr_cur _ _ _ _ Hw) |].
    exact (lay_ws _ _ _ _ _ (lg_layout _ _ _ _ _ _ _ Hg)).
  - intros c H1 H2. apply wmb_durable. by destruct (Hd c H1 H2).
Qed.

(** C6. A commit, whatever other threads do to other objects meanwhile.  It
    first moves the copies to their version chains and logs the operation: in
    the state [s1] the entry with the new write clock is in the operation log,
    every line of it is durable and the tail behind it is stored, every copy
    heads the chain of its object (the freed ones are marked instead), every
    object is still locked, and no clock is public yet.  Then it publishes the
    clock, in a state [s2] in which the tail, too, is durable, so that a crash
    from there on finds the operation.  At the end every copy has the clock,
    which is after the transaction's, the only locks left are those of the
    freed objects, and the write set is closed. *)
Theorem tvlog_commit_publishes ws w l free_set k q r local op `{!Rely (others_kept ws l)} s :
  writing s ws w l -> locked ws l s -> frees s l free_set -> op_ready s k q r op -> clock_ready local ->
  (2 <= spin_bound)%nat ->
  op_count (oplog (self s)) k op + entry_size_of (sizeof_op_entry_hdr + oi_curr op) - n_head_cnt (oplog (self s))
    < TS_OPLOG_HIGH_MARK ->
  exists clk s1 s', commit_log local op s = Ok (clk, s1) /\ lt_clock local clk = true /\
    holds OPLOG s1 k (q ++ [(op_count (oplog (self s)) k op, op_entry local clk op)]) /\ tail_stored s1 /\
    lines_persisted k (n_tail_cnt (oplog (self s))) s1 /\
    logged ws w l free_set clk s s1 /\
    (let s2 := public ws w clk s1 in
     commit_publish clk s1 = ws_unlock_commit s2 /\
     (forall c, (64 | c) -> n_tail_cnt (oplog (self s)) <= c < n_tail_cnt (oplog (self s2)) ->
        durable (sh_pm (sh s2)) (line_of (slot (n_buffer (oplog (self s2))) k c))) /\
     durable (sh_pm (sh s2)) (line_of (store_tail_addr (oplog (self s2)))) /\
     words (sh_pm (sh s2)) !! store_tail_addr (oplog (self s2)) = Some (n_tail_cnt (oplog (self s2)))) /\
    tvlog_commit local op s = Ok (tt, s') /\ cur_wrt_set (tvlog (self s')) = NULL /\
    num_ptrs (tx_free_set (self s')) = 0 /\
    (forall c h0 v0, c ∈ l -> copy_of s c h0 v0 -> exists h, entry_at s' c = Some h /\ get_raw_wrt_clk h = clk) /\
    (forall p v, vhdrs (sh s') !! p = Some v -> own_copy s l (v_lock v) ->
       exists c h0 v0, c ∈ l /\ copy_of s c h0 v0 /\ c_act_vhdr (cpy_hdr h0) = p /\ is_freed free_set s c = true).
Proof.
  intros Hw Hl Hf Hop Hclk Hsp Hmark.
  destruct (tvlog_commit_run (fun _ => True) ws w l free_set k q r local op s ltac:(done) ltac:(done) Hw Hl Hf Hop Hclk Hsp Hmark)
    as (clk & s1 & _ & s' & H1 & H2 & H3 & [H4 H4'] & H5 & H6 & H7 & H8 & H9 & H10 & _).
  exists clk, s1, s'. do 6 (split; [done |]). split; [by eapply publication_durable |]. by do 4 (split; [done |]).
Qed.

Lemma writing_locks_left ws w l s : writing s ws w l -> locked ws l s -> locks_left l l s.
Proof.
  intros Hw [L1 L2 _]. split.
  - intros p v Hp Hown. destruct (L2 p v Hp Hown) as (c & h0 & Hc & (He & Ht & Hv) & Ep).
    destruct (L1 c h0 Hc He Ht) as (v0 & (_ & _ & Hv0) & El). assert (v0 = v) as -> by congruence.
    exists c, h0. do 4 (split; [done |]). by left.
  - intros c h Hc He Ht. destruct (wr_entries _ _ _ _ Hw c h Hc He) as [_ [_ _ [(Ht' & _) | Ht']]].
    + destruct (L1 c h Hc He Ht') as (v0 & (_ & _ & Hv0) & _). by eexists.
    + rewrite Ht' in Ht. by destruct Ht.
Qed.

(** C8. An abort undoes the appends, whatever other threads do to other objects
    meanwhile: the log is as it was before the transaction's first append, with
    the same tail and no open write set, no object is locked by the
    transaction, the free set is empty, and the copies, which nobody can reach,
    are left as they were. *)
Theorem tvlog_abort_rolls_back ws w l `{!Rely (others_kept ws l)} s :
  writing s ws w l -> locked ws l s ->
  exists s', tvlog_abort s = Ok (tt, s') /\ idle s' /\ t_tail_cnt (tvlog (self s')) = start_tail_cnt w /\
    num_ptrs (tx_free_set (self s')) = 0 /\
    (forall p v, vhdrs (sh s') !! p = Some v -> ~ own_copy s l (v_lock v)) /\
    (forall c, c ∈ l -> entry_at s' c = entry_at s c).
Proof.
  intros Hw Hl. destruct (ws_unlock_abort_run ws w l (t_tail_cnt (tvlog (self s))) s) as (s1 & E1 & Es & Ew & Hlk & Hh);
    [by apply Hw | by apply Hw | by apply Hw | by eapply writing_locks_left |].
  unfold tvlog_abort. mrun E1. msteps. rewrite Es, (wr_cur _ _ _ _ Hw). mrun (get_ws_run s1 ws w Ew).
  unfold mod_tvlog, set_reset, mod_self. msteps. eexists. split; [reflexivity |]. cbn [upd self sh tvlog t_tail_cnt].
  split; [split; [done |]; split; cbn; [rewrite Es; by apply Hw | by apply Hw] |]. split; [done |]. split; [done |]. split.
  - intros p v Hp Hown. apply (Hlk p v Hp). by apply (own_copy_self s).
  - intros c Hc. apply entry_at_cells; [cbn; by rewrite Es |]. apply Hh. by exists c.
Qed.
End CommitTx.

(** * Examples: a write set with one copy, of the object with header 400 *)

(** the machine of [State.v] with a counter that stops far in the future *)
Definition ex_env_sat : Env := {|
  interfere := ret tt; qp_interfere := ret tt; spin_bound := 5;
  tsc := fun n => 1000 + Z.min (10 * Z.of_nat n) (2 ^ 60); alloc_result := ex_alloc; nvm_root_addr := 64;
  TS_ENABLE_SERIALIZABILITY_LINEARIZABILITY := false; TS_NESTED_LOCKING := false |}.

Definition ex_ws_hdr : ts_cpy_hdr_struct :=
  mk_chs (mk_cpy_hdr 1048632 MAX_VERSION 0 0 NULL NULL) (mk_obj_hdr 40 88 TYPE_WRT_SET STATUS_NONE).
Definition ex_new_copy : ts_cpy_hdr_struct := copy_entry 1048632 400 8 64.
Definition ex_old_copy : ts_cpy_hdr_struct :=
  mk_chs (mk_cpy_hdr 2097208 700 0 MAX_VERSION NULL 400) (mk_obj_hdr 8 56 TYPE_COPY STATUS_NONE).
Definition ex_ws : ts_wrt_set := mk_wrt_set MAX_VERSION MAX_VERSION 1 0 8192.
Definition ex_writing : st :=
  (ex_st <| sh ::= (fun h => h
     <| heap := <[1048632 := CCpy ex_ws_hdr]> (<[1048760 := CCpy ex_new_copy]> {[ 2097336 := CCpy ex_old_copy ]}) |>
     <| wrt_sets := {[ 1048632 := ex_ws ]} |>
     <| vhdrs := {[ 400 := mk_act_vhdr 2097336 1048760 300000 300000 MAX_VERSION ]} |>
     <| stores := {[ 1024 := ex_store 64 192 ]} |> <| sh_pm := pm (ex_log 192) |>) |>)
  <| self ::= (fun t => t <| tvlog := mk_tvlog 0 0 192 0 0 1048632 1048576 |> <| oplog := ex_nv 64 192 |>) |>.

#[local] Instance ex_rely ws l : @Rely ex_env_sat (others_kept ws l).
Proof. intros s. exists s. split; [done |]. split; try done; eauto 10. Qed.

Lemma ex_layout : ws_layout ex_writing 1048632 ex_ws [128] 192.
Proof.
  split; [by vm_compute | done | done |]. exists ex_ws_hdr. split; [by vm_compute |]. split; [by vm_compute |].
  eapply path_cons; [by vm_compute | done | by vm_compute | by vm_compute | apply path_nil].
Qed.

Lemma ex_entry c h : c ∈ [128] -> entry_at ex_writing c = Some h -> h = ex_new_copy /\ c = 128.
Proof. intros ->%list_elem_of_singleton. vm_compute. by intros [= <-]. Qed.

Lemma ex_tail_ok c : c = 0 \/ c = 192 -> tail_ok c.
Proof. intros [-> | ->]; (split; [first [by exists 0 | by exists 3] |]); split; by vm_compute. Qed.

Lemma ex_is_writing : writing ex_writing 1048632 ex_ws [128].
Proof.
  split; [done | by vm_compute | exact ex_layout | apply ex_tail_ok; by right | by split; vm_compute | apply ex_tail_ok; by left | by vm_compute |].
  intros c h Hc He. destruct (ex_entry c h Hc He) as [-> ->]. split; [done |].
  split; [by exists 2 | by vm_compute | left; by vm_compute].
Qed.

Lemma ex_locked : locked 1048632 [128] ex_writing.
Proof.
  split.
  - intros c h Hc He _. destruct (ex_entry c h Hc He) as [-> ->].
    exists (mk_act_vhdr 2097336 1048760 300000 300000 MAX_VERSION). split; [split; [exact He | by vm_compute] | by vm_compute].
  - intros p v. cbn. intros [<- <-]%lookup_singleton_Some _. exists 128, ex_new_copy.
    split; [by left |]. split; [by vm_compute | done].
  - intros c h v Hc (He & _ & Hv) _. destruct (ex_entry c h Hc He) as [-> ->]. vm_compute in Hv. injection Hv as <-. split.
    + intros (x & Hx & E). apply list_elem_of_singleton in Hx as ->. by vm_compute in E.
    + exists 700. by vm_compute.
Qed.

Lemma ex_op_ready : op_ready ex_writing 8 [(64, new_entry 128)] (ex_log 192) (mk_op_info 0 5 []).
Proof.
  split; [by vm_compute | by exists [(64, new_entry 128)]; split; [exact (ex_log_inv 192) |] | | done | by vm_compute | | by vm_compute].
  - split; [apply ex_store_apart |]. split; [by exists 16 | by exists 3].
  - split; by vm_compute.
Qed.

Lemma ex_clock_ready : @clock_ready ex_env_sat 1000.
Proof.
  split; [intros i; unfold is_clk; cbn; lia | by vm_compute |]. intros k. exists 1%nat. split; [cbn; lia |].
  unfold ordo_boundary, g_ordo_boundary, __ORDO_BOUNDARY. cbn -[Z.mul]. lia.
Qed.

Lemma tvlog_commit_publishes_witness :
  exists clk s' h, @tvlog_commit ex_env_sat 1000 (mk_op_info 0 5 []) ex_writing = Ok (tt, s') /\
    entry_at s' 128 = Some h /\ get_raw_wrt_clk h = clk /\ lt_clock 1000 clk = true.
Proof.
  destruct (@tvlog_commit_publishes ex_env_sat 1048632 ex_ws [128] [] 8 _ _ 1000 (mk_op_info 0 5 []) (ex_rely _ _) ex_writing
    ex_is_writing ex_locked ltac:(split; [intros p; by vm_compute | by vm_compute]) ex_op_ready ex_clock_ready
    ltac:(cbn; lia) ltac:(by vm_compute)) as (clk & s1 & s' & _ & Hlt & _ & _ & _ & _ & _ & E & _ & _ & Hc & _).
  destruct (Hc 128 ex_new_copy _ ltac:(by left) ltac:(split; [by vm_compute | split; [done | by vm_compute]])) as (h & He & Hk).
  exists clk, s', h. split; [exact E | split; [exact He | split; [exact Hk | exact Hlt]]].
Defined.

Lemma tvlog_abort_rolls_back_witness :
  exists s', @tvlog_abort ex_env_sat ex_writing = Ok (tt, s') /\ t_tail_cnt (tvlog (self s')) = 0.
Proof.
  destruct (@tvlog_abort_rolls_back ex_env_sat 1048632 ex_ws [128] (ex_rely _ _) ex_writing ex_is_writing ex_locked)
    as (s' & E & _ & Ht & _).
  exists s'. split; [exact E | exact Ht].
Defined.

Lemma ex_append_room : append_room ex_writing 0 8.
Proof. split; by vm_compute. Qed.

Lemma tvlog_append_keeps_layout_witness :
  exists o skip s1 s3 w' l', tvlog_append_begin 500 8 ex_writing = Ok ((o, skip), s1) /\
    tvlog_append_end o skip s1 = Ok (tt, s3) /\ writing s3 1048632 w' l'.
Proof.
  destruct (tvlog_append_keeps_layout ex_writing 1048632 ex_ws [128] 500 8 (or_introl ex_is_writing)
    ltac:(by vm_compute) ex_append_room) as (c & skipped & skip & s1 & E1 & _ & H).
  destruct (H s1 ltac:(by split)) as (s3 & w' & es & E3 & W & _).
  exists (tvlog_obj (tvlog (self ex_writing)) c), skip, s1, s3, w'. eexists. split; [exact E1 | split; [exact E3 | exact W]].
Defined.
