(* ===== verification/Atomic.v ===== *)
(** Atomic visibility of a commit ([tvlog_commit] of [lib/tvlog.c] against
    [get_wrt_clk] of [lib/clock.h]): other threads see all of a transaction's
    copies or none, at every point of the commit at which they can run. *)
From S2P Require Export CommitTx.

Section Atomic.
Context `{Env}.

(** a transaction with clock [local] that reads the copy with header [h] has to
    wait for the commit *)
Definition waits (s : st) (local : Z) (h : ts_cpy_hdr_struct) : Prop :=
  get_raw_wrt_clk h = MAX_VERSION /\ exists w, wrt_sets (sh s) !! p_ws (cpy_hdr h) = Some w /\
    pending_wrt_clk w <> MAX_VERSION /\ pending_wrt_clk w <= local /\ ws_wrt_clk w = MAX_VERSION.

(** whatever its clock, a transaction waits for all copies that the writer
    made in [l], or sees all of them, or none *)
Definition all_or_nothing (l : list Z) (s0 s : st) : Prop :=
  forall local, is_clk local ->
    (forall c h0 v0, c ∈ l -> copy_of s0 c h0 v0 -> exists h, entry_at s c = Some h /\ waits s local h) \/
    exists seen, forall c h0 v0, c ∈ l -> copy_of s0 c h0 v0 ->
      exists h clk, entry_at s c = Some h /\ settled s local h clk /\ lt_clock clk local = seen.

(** the copies have no clock yet, or the one of the write set *)
Record one_clock (ws : Z) (l : list Z) (s0 s : st) (w : ts_wrt_set) : Prop := {
  oc_ws : wrt_sets (sh s) !! ws = Some w;
  oc_clk : is_clk (pending_wrt_clk w);
  oc_public : ws_wrt_clk w = MAX_VERSION \/ ws_wrt_clk w = pending_wrt_clk w;
  oc_copies : forall c h0 v0, c ∈ l -> copy_of s0 c h0 v0 -> exists h, entry_at s c = Some h /\
    p_ws (cpy_hdr h) = ws /\ (get_raw_wrt_clk h = MAX_VERSION \/ get_raw_wrt_clk h = ws_wrt_clk w) }.

(** what a reader makes of one copy: it depends on the write set alone *)
Lemma one_clock_copy ws l s0 s w local c h0 v0 :
  one_clock ws l s0 s w -> is_clk local -> c ∈ l -> copy_of s0 c h0 v0 ->
  exists h, entry_at s c = Some h /\
    if (pending_wrt_clk w =? MAX_VERSION) || (local <? pending_wrt_clk w)
    then exists clk, settled s local h clk /\ lt_clock clk local = false
    else if ws_wrt_clk w =? MAX_VERSION then waits s local h else settled s local h (pending_wrt_clk w).
Proof.
  intros [W1 W2 W3 W4] Hl Hc Hcv. destruct (W4 c h0 v0 Hc Hcv) as (h & He & Hp & Hr). exists h. split; [done |].
  unfold settled, waits. fold (get_raw_wrt_clk h). rewrite Hp.
  destruct (Z.eqb_spec (pending_wrt_clk w) MAX_VERSION) as [Ep | Ep]; cbn [orb].
  { assert (Er : get_raw_wrt_clk h = MAX_VERSION) by (destruct Hr, W3; congruence).
    exists MAX_VERSION. split; [right; split; [done |]; exists w; split; [done |]; left; auto | by apply max_unseen]. }
  destruct (Z.ltb_spec local (pending_wrt_clk w)) as [Hlt | Hge].
  - destruct (decide (get_raw_wrt_clk h = MAX_VERSION)) as [Er | Er].
    + exists MAX_VERSION. split; [right; split; [done |]; exists w; split; [done |]; left; auto | by apply max_unseen].
    + destruct Hr as [? | Hr]; [done |]. destruct W3 as [W3 | W3]; [congruence |].
      exists (pending_wrt_clk w). split; [left; rewrite Hr, W3 in *; by split | by apply later_unseen].
  - destruct (Z.eqb_spec (ws_wrt_clk w) MAX_VERSION) as [Ew | Ew].
    + split; [destruct Hr; congruence |]. by exists w.
    + destruct W3 as [W3 | W3]; [done |]. destruct (decide (get_raw_wrt_clk h = MAX_VERSION)) as [Er | Er].
      * right. split; [done |]. exists w. split; [done |]. right. by do 3 (split; [done |]).
      * destruct Hr as [? | Hr]; [done |]. left. split; congruence.
Qed.

Lemma one_clock_atomic ws l s0 s w : one_clock ws l s0 s w -> all_or_nothing l s0 s.
Proof.
  intros Ho local Hl. pose proof (fun c h0 v0 => one_clock_copy ws l s0 s w local c h0 v0 Ho Hl) as Hcp.
  destruct (_ || _); [| destruct (ws_wrt_clk w =? MAX_VERSION)].
  - right. exists false. intros c h0 v0 Hc Hcv. destruct (Hcp c h0 v0 Hc Hcv) as (h & He & clk & Hs). by exists h, clk.
  - left. intros c h0 v0 Hc Hcv. apply (Hcp c h0 v0 Hc Hcv).
  - right. exists (lt_clock (pending_wrt_clk w) local). intros c h0 v0 Hc Hcv.
    destruct (Hcp c h0 v0 Hc Hcv) as (h & He & Hs). by exists h, (pending_wrt_clk w).
Qed.

(** before the point of publication *)
Lemma moving_one_clock ws w l free_set s rest n s' :
  writing s ws w l -> pending_wrt_clk w = MAX_VERSION -> ws_wrt_clk w = MAX_VERSION ->
  moving ws l free_set s rest n s' -> one_clock ws l s s' w.
Proof.
  intros Hw Ep Ew Hm. split.
  - rewrite (mv_ws _ _ _ _ _ _ _ Hm). apply (lay_ws _ _ _ _ _ (wr_layout _ _ _ _ Hw)).
  - rewrite Ep. apply is_clk_MAX.
  - by left.
  - intros c h0 v0 Hc Hcv. destruct (mv_copies _ _ _ _ _ _ _ Hm c h0 v0 Hc Hcv) as (h & v & He & _ & (_ & B & C & _) & _).
    exists h. split; [done |]. destruct Hcv as (He0 & Ht & _).
    destruct (wr_entries _ _ _ _ Hw c h0 Hc He0) as [_ [_ _ [(_ & D & _ & E) | Ht']]]; [| congruence].
    split; [congruence | left; congruence].
Qed.

(** after it *)
Lemma publishing_one_clock ws w l free_set clk s s1 rest s' :
  writing s ws w l -> is_clk clk -> logged ws w l free_set clk s s1 ->
  publishing clk ws l (public ws w clk s1) rest s' ->
  one_clock ws l s s' (w <| pending_wrt_clk := clk |> <| ws_wrt_clk := clk |>).
Proof.
  intros Hw Hck Hg P. split.
  - rewrite (pub_ws _ _ _ _ _ _ P). cbn. apply lookup_insert_eq.
  - exact Hck.
  - by right.
  - intros c h0 v0 Hc Hcv. destruct (lg_copies _ _ _ _ _ _ _ Hg c h0 v0 Hc Hcv) as (h & v & He & _ & (_ & B & C & _) & _).
    destruct (pub_hdr _ _ _ _ _ _ P c h Hc He) as (h' & He' & (_ & _ & D & _ & E)). exists h'. split; [done |].
    destruct Hcv as (He0 & Ht & _). destruct (wr_entries _ _ _ _ Hw c h0 Hc He0) as [_ [_ _ [(_ & F & _ & K) | Ht']]]; [| congruence].
    split; [congruence |]. destruct E as [E | E]; [left | by right]. unfold get_raw_wrt_clk in *. congruence.
Qed.

(** C5. Atomic visibility.  Let other threads be able to run only in states in
    which the transaction's copies are visible all or nothing: then the commit
    still runs to its end, so these are the only states in which it lets others
    run.  In each, a transaction with any clock waits for every copy, or sees
    every copy, or sees none; and so it is when the commit is over, where a
    transaction sees the copies exactly if their write clock is before its own. *)
Theorem tvlog_commit_atomic ws w l free_set k q r local op s
    `{!RelyWhen (all_or_nothing l s) (others_kept ws l)} :
  writing s ws w l -> locked ws l s -> frees s l free_set -> op_ready s k q r op -> clock_ready local ->
  pending_wrt_clk w = MAX_VERSION -> ws_wrt_clk w = MAX_VERSION -> (2 <= spin_bound)%nat ->
  op_count (oplog (self s)) k op + entry_size_of (sizeof_op_entry_hdr + oi_curr op) - n_head_cnt (oplog (self s))
    < TS_OPLOG_HIGH_MARK ->
  exists clk s', tvlog_commit local op s = Ok (tt, s') /\ lt_clock local clk = true /\
    all_or_nothing l s s' /\
    (clk <> MAX_VERSION -> forall c h0 v0 reader, c ∈ l -> copy_of s c h0 v0 -> exists h,
       entry_at s' c = Some h /\ settled s' reader h clk).
Proof.
  intros Hw Hl Hf Hop Hclk Ep Ew Hsp Hmark.
  destruct (tvlog_commit_run (all_or_nothing l s) ws w l free_set k q r local op s) as
    (clk & s1 & s2 & s' & _ & Hlt & _ & _ & Hg & E & _ & _ & Hc & _ & Hck & P & Hws & Hent & _); try done.
  - intros rest n s' Hm. by eapply one_clock_atomic, moving_one_clock.
  - intros clk s1 rest s' Hck Hg P. by eapply one_clock_atomic, publishing_one_clock.
  - exists clk, s'. split; [done |]. split; [done |].
    pose proof (publishing_one_clock _ _ _ _ _ _ _ _ _ Hw Hck Hg P) as [O1 O2 O3 O4]. split.
    + eapply one_clock_atomic. split; [by rewrite Hws | exact O2 | exact O3 |].
      intros c h0 v0 Hcl Hcv. rewrite Hent by done. by apply (O4 c h0 v0).
    + intros Hne c h0 v0 reader Hcl Hcv. destruct (Hc c h0 v0 Hcl Hcv) as (h & He & Hk). exists h. split; [done |].
      left. unfold get_raw_wrt_clk in Hk. split; congruence.
Qed.
End Atomic.

(** * Example: two copies, and others who check that they see both or none *)

Definition ex_ws2 : ts_wrt_set := mk_wrt_set MAX_VERSION MAX_VERSION 2 0 8192.
Definition ex_copy2 : ts_cpy_hdr_struct := copy_entry 1048632 408 8 64.
Definition ex_writing2 : st :=
  (ex_writing <| sh ::= (fun h => h
     <| heap ::= (fun m => <[1048824 := CCpy ex_copy2]> m) |> <| wrt_sets := {[ 1048632 := ex_ws2 ]} |>
     <| vhdrs ::= (fun m => <[408 := mk_act_vhdr NULL 1048824 310000 310000 MAX_VERSION]> m) |>) |>)
  <| self ::= (fun t => t <| tvlog := mk_tvlog 0 0 256 0 0 1048632 1048576 |>) |>.

(** whether a transaction with clock [local] sees the copy at [c]; [None] if it
    would wait *)
Definition sees (local c : Z) (s : st) : option bool :=
  match entry_at s c with
  | Some h => match @get_wrt_clk ex_env_sat h local s with Ok (clk, _) => Some (lt_clock clk local) | Fault _ => None end
  | None => None
  end.

Definition ex_env_check : Env := {|
  interfere := fun s => if bool_decide (sees 5000 128 s = sees 5000 192 s) then Ok (tt, s) else Fault UB;
  qp_interfere := ret tt; spin_bound := 5; tsc := @tsc ex_env_sat; alloc_result := ex_alloc; nvm_root_addr := 64;
  TS_ENABLE_SERIALIZABILITY_LINEARIZABILITY := false; TS_NESTED_LOCKING := false |}.

Lemma ex_entry2 c h : c ∈ [128; 192] -> entry_at ex_writing2 c = Some h ->
  (c = 128 /\ h = ex_new_copy) \/ (c = 192 /\ h = ex_copy2).
Proof. intros [-> | ->%list_elem_of_singleton]%elem_of_cons; vm_compute; intros [= <-]; auto. Qed.

Lemma ex_copies2 : copy_of ex_writing2 128 ex_new_copy (mk_act_vhdr 2097336 1048760 300000 300000 MAX_VERSION) /\
  copy_of ex_writing2 192 ex_copy2 (mk_act_vhdr NULL 1048824 310000 310000 MAX_VERSION).
Proof. by vm_compute. Qed.

Lemma wait_spins s ws w : wrt_sets (sh s) !! ws = Some w -> ws_wrt_clk w = MAX_VERSION ->
  @wait_ws_commit ex_env_sat ws s = Fault SPIN.
Proof.
  intros Hw Hm. unfold wait_ws_commit. induction (@spin_bound ex_env_sat) as [| n IH]; [done |]. cbn [loop]. rewrite bind_assoc.
  mrun (get_ws_run s ws w Hw). rewrite Hm, Z.eqb_refl. exact IH.
Qed.

Lemma waits_sees local c h s : entry_at s c = Some h -> waits s local h -> sees local c s = None.
Proof.
  intros He (Hr & w & Hw & Hp & Hle & Hm). unfold sees, get_wrt_clk. rewrite He. unfold get_raw_wrt_clk in Hr.
  rewrite Hr, Z.eqb_refl. cbn [negb]. rewrite (bind_run _ _ _ _ _ (get_ws_run s _ w Hw)).
  rewrite (proj2 (Z.eqb_neq _ _)), (proj2 (Z.ltb_ge _ _)) by done.
  by rewrite (wait_spins s _ w).
Qed.

#[local] Instance ex_check_rely : @RelyWhen ex_env_check (all_or_nothing [128; 192] ex_writing2) (others_kept 1048632 [128; 192]).
Proof.
  intros s Hs. exists s. split; [| split; try done; eauto 10]. cbn. rewrite bool_decide_eq_true_2; [done |].
  destruct (ex_copies2) as [C1 C2]. destruct (Hs 5000 ltac:(by split)) as [Hw | (b & Hb)].
  - destruct (Hw 128 _ _ ltac:(by left) C1) as (h1 & E1 & W1). destruct (Hw 192 _ _ ltac:(by right; left) C2) as (h2 & E2 & W2).
    by rewrite (waits_sees 5000 128 h1), (waits_sees 5000 192 h2).
  - destruct (Hb 128 _ _ ltac:(by left) C1) as (h1 & k1 & E1 & S1 & B1).
    destruct (Hb 192 _ _ ltac:(by right; left) C2) as (h2 & k2 & E2 & S2 & B2).
    unfold sees. rewrite E1, E2.
    rewrite (get_wrt_clk_settled (H := ex_env_sat) s 5000 h1 k1 S1), (get_wrt_clk_settled (H := ex_env_sat) s 5000 h2 k2 S2) by (cbn; lia).
    congruence.
Qed.

Lemma ex_layout2 : ws_layout ex_writing2 1048632 ex_ws2 [128; 192] 256.
Proof.
  split; [by vm_compute | done | done |]. exists ex_ws_hdr. split; [by vm_compute |]. split; [by vm_compute |].
  eapply path_cons; [by vm_compute | done | by vm_compute | by vm_compute |].
  eapply path_cons; [by vm_compute | done | by vm_compute | by vm_compute | apply path_nil].
Qed.

Lemma ex_is_writing2 : writing ex_writing2 1048632 ex_ws2 [128; 192].
Proof.
  assert (Ht : forall c, c = 0 \/ c = 256 -> tail_ok c)
    by (intros c [-> | ->]; (split; [first [by exists 0 | by exists 4] |]); split; by vm_compute).
  split; [done | by vm_compute | exact ex_layout2 | apply Ht; by right | by split; vm_compute | apply Ht; by left | by vm_compute |].
  intros c h Hc He. destruct (ex_entry2 c h Hc He) as [[-> ->] | [-> ->]]; (split; [done |]);
    (split; [first [by exists 2 | by exists 3] | by vm_compute | left; by vm_compute]).
Qed.

Lemma ex_locked2 : locked 1048632 [128; 192] ex_writing2.
Proof.
  destruct ex_copies2 as [C1 C2]. split.
  - intros c h Hc He _. destruct (ex_entry2 c h Hc He) as [[-> ->] | [-> ->]]; eexists; (split; [eassumption | by vm_compute]).
  - intros p v. cbn. intros [[<- <-] | [_ [<- <-]%lookup_singleton_Some]]%lookup_insert_Some _.
    + exists 192, ex_copy2. split; [by right; left |]. by split.
    + exists 128, ex_new_copy. split; [by left |]. by split.
  - intros c h v Hc Hcv Hn. destruct (ex_entry2 c h Hc (proj1 Hcv)) as [[-> ->] | [-> ->]].
    + destruct (copy_of_fun _ _ _ _ _ _ Hcv C1) as [_ ->]. split; [| exists 700; by vm_compute].
      intros (x & Hx & E). apply elem_of_cons in Hx as [-> | ->%list_elem_of_singleton]; by vm_compute in E.
    + by destruct (copy_of_fun _ _ _ _ _ _ Hcv C2) as [_ ->].
Qed.

Lemma ex_op_ready2 : op_ready ex_writing2 8 [(64, new_entry 128)] (ex_log 192) (mk_op_info 0 5 []).
Proof. destruct ex_op_ready as [R1 R2 R3 R4 R5 R6 R7]. by split. Qed.

Lemma tvlog_commit_atomic_witness :
  exists clk s', @tvlog_commit ex_env_check 1000 (mk_op_info 0 5 []) ex_writing2 = Ok (tt, s') /\
    lt_clock 1000 clk = true /\ all_or_nothing [128; 192] ex_writing2 s'.
Proof.
  destruct (@tvlog_commit_atomic ex_env_check 1048632 ex_ws2 [128; 192] [] 8 _ _ 1000 (mk_op_info 0 5 []) ex_writing2 ex_check_rely
    ex_is_writing2 ex_locked2 ltac:(split; [intros p; by vm_compute | by vm_compute]) ex_op_ready2 (let (R1, R2, R3) := ex_clock_ready in @Build_clock_ready ex_env_check 1000 R1 R2 R3)
    eq_refl eq_refl ltac:(cbn; lia) ltac:(by vm_compute)) as (clk & s' & E & Hlt & Ha & _).
  exists clk, s'. split; [exact E | split; [exact Hlt | exact Ha]].
Defined.
