(* ===== verification/Reclaim.v ===== *)
(** Reclamation and checkpointing of the version log ([lib/tvlog.c]). *)
From S2P Require Export WriteSet.

(** * Facts: which version a checkpoint takes *)

(** [hs] are the committed versions of an object, newest first, each with the
    clock of the next newer one ([prev] for the first) *)
Fixpoint versions (prev : Z) (hs : list ts_cpy_hdr_struct) : Prop :=
  match hs with
  | [] => True
  | h :: hs' =>
      wrt_clk_prev (cpy_hdr h) = prev /\ is_clk (get_raw_wrt_clk h) /\ get_raw_wrt_clk h < prev /\
      versions (get_raw_wrt_clk h) hs'
  end.

(** the newest version before [ckpt_s] *)
Definition newest_before (ckpt_s : Z) (hs : list ts_cpy_hdr_struct) : option ts_cpy_hdr_struct :=
  List.find (fun h => lt_clock (get_raw_wrt_clk h) ckpt_s) hs.

Lemma borderline_none ckpt_s last prev hs :
  is_clk ckpt_s -> is_clk prev -> prev < MAX_VERSION -> lt_clock prev ckpt_s = true -> versions prev hs ->
  List.filter (fun h => is_at_borderline h ckpt_s last) hs = [].
Proof.
  intros Hc. revert prev. induction hs as [| h hs IH]; intros prev Hp Hm Hlt; [done |]. cbn.
  intros (Ep & Hk & Hl & Hv). unfold is_at_borderline at 1. rewrite Ep, (proj2 (Z.eqb_neq _ _)) by lia.
  rewrite gte_clock_negb, Hlt. cbn. apply (IH (get_raw_wrt_clk h)); try done.
  - lia.
  - apply (lt_clock_mono_l _ prev); try done. lia.
Qed.

Lemma borderline_older ckpt_s last prev hs :
  is_clk ckpt_s -> is_clk prev -> prev < MAX_VERSION -> lt_clock prev ckpt_s = false -> versions prev hs ->
  List.filter (fun h => is_at_borderline h ckpt_s last) hs =
  match newest_before ckpt_s hs with
  | Some h => if gte_clock (get_raw_wrt_clk h) last then [h] else []
  | None => []
  end.
Proof.
  intros Hc. revert prev. induction hs as [| h hs IH]; intros prev Hp Hm Hlt; [done |].
  intros (Ep & Hk & Hl & Hv). cbn [List.filter]. unfold newest_before. cbn [List.find].
  unfold is_at_borderline at 1. rewrite Ep, (proj2 (Z.eqb_neq _ _)) by lia. rewrite gte_clock_negb, Hlt. cbn [negb andb].
  destruct (lt_clock (get_raw_wrt_clk h) ckpt_s) eqn:E; cbn [andb].
  - rewrite (borderline_none ckpt_s last (get_raw_wrt_clk h)) by (done || lia). done.
  - apply (IH (get_raw_wrt_clk h)); try done. lia.
Qed.


(** * Examples *)

Definition ex_committed (clk prev : Z) : ts_cpy_hdr_struct :=
  mk_chs (mk_cpy_hdr 1048632 clk 0 prev NULL 400) (mk_obj_hdr 8 56 TYPE_COPY STATUS_NONE).

