(* ===== verification/ReclaimLog.v ===== *)
(** Reclaiming the version log ([tvlog_reclaim] of [lib/tvlog.c]) in
    best-effort mode: it frees what no transaction can still read. *)
From S2P Require Export LogSets Reclaim.

Section ReclaimLog.
Context `{Env}.

(** what other threads keep while the caller reclaims: its structure but for the
    clocks and the request byte that the qp thread sets, its write sets and
    freed copies, and the readiness of its checkpoint log *)
Record others_reclaim (s s' : st) : Prop := {
  or_self : self s' = (self s) <| clks := clks (self s') |> <| reclaim := reclaim (self s') |>;
  or_ready : forall k M m objs, tomb_ready k M m objs s -> tomb_ready k M m objs s';
  or_sets : forall c L e, log_sets s c L e -> log_sets s' c L e;
  or_free : forall o c, heap (sh s) !! o = Some (CCpy c) -> is_free c = true -> heap (sh s') !! o = Some (CCpy c) }.

(** the caller's version log holds the write sets [L], and there is room for the
    tombstones of all their copies and of [m] more *)
Record reclaim_ready (k M : Z) (m : nat) (objs : list Z) (L : list wset) (s : st) : Prop := {
  rdy_sets : log_sets s (t_head_cnt (tvlog (self s))) L (t_tail_cnt (tvlog (self s)));
  rdy_tomb : tomb_ready k M (n_entries L + m) objs s;
  rdy_objs : forall o, o ∈ set_objs s L -> o ∈ objs;
  rdy_tail : t_tail_cnt (tvlog (self s)) < 2 ^ 64 }.

(** * Facts *)

#[export] Instance others_reclaim_preorder : PreOrder others_reclaim.
Proof.
  split.
  - intros s. split; [by destruct (self s) | done | done | done].
  - intros s1 s2 s3 [A1 A2 A3 A4] [B1 B2 B3 B4]. split; [by rewrite B1, A1 | auto | auto | auto].
Qed.

Lemma or_tvlog s s' : others_reclaim s s' -> tvlog (self s') = tvlog (self s).
Proof. intros [E _ _ _]. by rewrite E. Qed.

(** steps that touch neither memory nor the buffer's place keep the write sets *)
Lemma log_sets_same s s' c L e :
  t_buffer (tvlog (self s')) = t_buffer (tvlog (self s)) -> heap (sh s') = heap (sh s) ->
  wrt_sets (sh s') = wrt_sets (sh s) -> log_sets s c L e -> log_sets s' c L e.
Proof.
  intros Eb Eh Ew. assert (Eo : forall x, tvlog_obj (tvlog (self s')) x = tvlog_obj (tvlog (self s)) x).
  { intros x. unfold tvlog_obj, tvlog_at. by rewrite Eb. }
  induction 1 as [c | d L e Hc Hd [Hw Hn Hs (h & Hh & Hr & Hp)] Hss IH]; constructor; try done.
  rewrite Eo. split; [by rewrite Ew | done | done |]. exists h. rewrite Eh. split; [done |]. split; [done |].
  eapply path_same; [| exact Hp]. intros x _. unfold entry_at. by rewrite Eo, Eh.
Qed.

(** what others keep does not depend on the requests to the qp thread *)
Class ReqQuiet (R : st -> st -> Prop) : Prop :=
  req_quiet s s' f : R s s' -> R s (s' <| sh ::= (fun h => h <| g_qp_thread ::= (fun q => q <| q_reclaim ::= f |>) |>) |>).

#[export] Instance others_reclaim_request : ReqQuiet others_reclaim.
Proof.
  intros s s1 f [R1 R2 R3 R4]. split; [exact R1 | | | exact R4].
  - intros k M m objs Ht. exact (R2 k M m objs Ht).
  - intros c L e Hl. apply (log_sets_same s1); [done | done | done |]. by apply R3.
Qed.

Section Requests.
Context (R : st -> st -> Prop) `{!Rely R, !ReqQuiet R, !Reflexive R}.

Lemma request_quiet Rq req s : exists b s', _request_reclaim Rq req s = Ok (b, s') /\ R s s'.
Proof using Type*.
  unfold _request_reclaim, read_req. msteps. destruct (_ <? req); [| by exists false, s].
  unfold smp_cas. destruct (interfere_rely s) as (s1 & Ei & Hr). mrun Ei. msteps. destruct (_ =? _); [| by exists false, s1].
  unfold mod_qp_reclaim, mod_sh. msteps. eexists true, _. split; [reflexivity |]. by apply req_quiet.
Qed.

Lemma ckptlog_request_quiet s : exists s', ckptlog_try_request_reclaim_if_needed s = Ok (tt, s') /\ R s s'.
Proof using Type*.
  unfold ckptlog_try_request_reclaim_if_needed, ckptlog_used. msteps. destruct (_ <? _); [| by exists s].
  destruct (_ <? _); [destruct (request_quiet REQ_CKPTLOG RECLAIM_CKPTLOG_WRITEBACK s) as (b & s2 & E2 & Hr2)
    | destruct (request_quiet REQ_CKPTLOG RECLAIM_CKPTLOG_BEST_EFFORT s) as (b & s2 & E2 & Hr2)];
    (exists s2; unfold request_ckptlog_reclaim; mrun E2; by msteps).
Qed.
End Requests.

(** taking the free lock of the version log *)
Lemma try_lock_tvlog_free `{!Rely others_reclaim} s :
  t_reclaim_lock (tvlog (self s)) = 0 ->
  exists s1, interfere s = Ok (tt, s1) /\ others_reclaim s s1 /\
    try_lock_tvlog s = Ok (true, s1 <| self ::= (fun t => t <| tvlog ::= (fun l => l <| t_reclaim_lock := 1 |>) |>) |>).
Proof.
  intros Hl. unfold try_lock_tvlog. msteps. rewrite Hl, Z.eqb_refl. unfold smp_cas.
  destruct (interfere_rely s) as (s1 & Ei & Hr). exists s1. split; [done |]. split; [done |]. mrun Ei. msteps.
  rewrite (or_tvlog _ _ Hr), Hl, Z.eqb_refl. unfold mod_tvlog, mod_self. by msteps.
Qed.

(** the checkpoint log holds [q] and has room for [m] more entries *)
Definition ckpt_ready (k M : Z) (m : nat) (q : entries) (s : st) : Prop :=
  holds CKPTLOG s k q /\ room_for (ckptlog (self s)) k M m /\ stored k M m s.

(** the entries of the checkpoint log become durable *)
Lemma ckpt_persist_run k M m q s :
  ckpt_ready k M m q s ->
  exists s', with_log CKPTLOG nvlog_enq_persist s = Ok (tt, s') /\ ckpt_ready k M m q s' /\ only_ckptlog s s' /\
    ckptlog (self s') = ckptlog (self s) /\ cells (sh_pm (sh s')) = cells (sh_pm (sh s)).
Proof.
  intros (Hs & Hroom & (r & Hr & Hok & Hle & Hlt)).
  assert (Hh : log_holds r k q).
  { destruct Hs as (r1 & Hr1 & Hh1). by assert (r1 = r) as -> by congruence. }
  assert (HM : 0 <= M) by (destruct Hroom as ((? & _) & _ & _); lia).
  destruct (holds_enq_persist CKPTLOG s k q r Hr Hh Hok ltac:(lia)) as (r' & E & Hl' & Hh' & Hn & Htl & Hce & Hok' & _).
  assert (En : nv r = ckptlog (self s) /\ cells (pm r) = cells (sh_pm (sh s))).
  { unfold log_of in Hr. destruct (stores (sh s) !! _); [| done]. cbn in Hr. by injection Hr as <-. }
  destruct En as [En Ece]. assert (En1 : ckptlog (self (log_step CKPTLOG s r')) = ckptlog (self s)) by (cbn; congruence).
  exists (log_step CKPTLOG s r'). split; [done |]. split; [| split; [apply ckptlog_step_only |]; split; [done | cbn; congruence]].
  split; [by exists r' |]. rewrite En1. split; [done |]. exists r'. split; [done |]. split; [done |]. rewrite Htl, Hn. lia.
Qed.

Lemma only_ckptlog_marking s s' :
  only_ckptlog s s' -> n_buffer (ckptlog (self s')) = n_buffer (ckptlog (self s)) -> marking s s'.
Proof. intros [Hse Hsh] Eb. split; [done | done | by left; rewrite Hsh | by rewrite Hsh | rewrite Hsh; by destruct (sh s)]. Qed.

(** the end of a reclamation that wrote tombstones: they become durable *)
Lemma ckptlog_enq_persist_quiet `{!Rely others_reclaim} k M m objs s :
  tomb_ready k M m objs s ->
  exists s1 s', ckptlog_enq_persist s = Ok (tt, s') /\ others_reclaim s1 s' /\ tomb_ready k M m objs s1 /\
    marking s s1 /\ heap (sh s1) = heap (sh s).
Proof.
  intros (q & Hs & Hroom & Hsto & Hall).
  destruct (ckpt_persist_run k M m q s ltac:(done)) as (s1 & E & (Hs1 & Hroom1 & Hsto1) & Ho & En & Ece).
  unfold ckptlog_enq_persist. mrun E. destruct (ckptlog_request_quiet others_reclaim s1) as (s2 & E2 & Hr2).
  exists s1, s2. rewrite E2. split; [done |]. split; [done |]. pose proof Ho as [_ Hsh].
  split; [| split; [by apply only_ckptlog_marking; [| rewrite En] | by rewrite Hsh]].
  exists q. split; [done |]. split; [done |]. split; [done |]. rewrite En. intros o c Hin Hc Hf.
  apply (free_ok_step _ _ _ q (sh s)); [| | by apply (Hall o); [done | rewrite Hsh in Hc |]].
  - intros ent Hlv. split; [done |]. unfold is_ckpt, tombstoned, ckpt_entry_of. by rewrite Ece.
  - intros p v Hv. exists v. rewrite Hsh. split; [exact Hv | by right].
Qed.

Lemma ckpt_done_marking qp0 last s s' d : marking s s' -> ckpt_done qp0 last s' d = ckpt_done qp0 last s d.
Proof.
  intros Hm. unfold ckpt_done. f_equal. apply all_entries_marking; [| done]. intros h Hf. unfold needs_ckpt.
  unfold is_free in Hf. apply bool_decide_eq_true in Hf. cbn. by rewrite Hf.
Qed.

(** the reclamation in best-effort mode once the lock is taken, up to where the
    new head and the new [prev_head_cnt] are known *)
Lemma best_effort_walks k mx m objs L s qp0 last :
  let t := tvlog (self s) in
  let f := reclaimable RECLAIM_TVLOG_BEST_EFFORT qp0 (t_prev_head_cnt t) s in
  let head := span_sets f (t_head_cnt t) L in
  reclaim_ready k mx m objs L s ->
  exists dirty s', (forall A (K : Z -> Z -> bool -> Z -> M st A),
      (let* ' (new_head, dirty) :=
         reclaim_walk RECLAIM_TVLOG_BEST_EFFORT qp0 (t_prev_head_cnt t) (t_head_cnt t) (t_tail_cnt t) in
       let* ' (prev_head, (dirty, bytes)) :=
         ckpt_walk RECLAIM_TVLOG_BEST_EFFORT qp0 last new_head (t_tail_cnt t) dirty in
       K new_head prev_head dirty bytes) s =
      K head (span_sets (ckpt_done qp0 last s) head (left_over f L)) dirty 0 s') /\
    marking s s' /\ tomb_ready k mx m objs s' /\
    forall d c, d ∈ taken f L -> c ∈ s_entries d -> marked s s' c.
Proof.
  intros t f head [Hs Ht Ho Htl]. unfold reclaim_walk.
  destruct (reclaim_walk_run k mx m objs RECLAIM_TVLOG_BEST_EFFORT qp0 (t_prev_head_cnt t) (t_tail_cnt t) L s (t_head_cnt t)
    false (tvlog_fuel (t_head_cnt t) (t_tail_cnt t)) Hs Ht Ho ltac:(by eapply fuel_enough)) as (dirty & s' & E & Hm & Ht' & Hmk).
  fold f in E, Hmk. fold head in E.
  assert (Hs' : log_sets s' head (left_over f L) (t_tail_cnt t)) by (eapply marking_sets; [exact Hm |]; by apply log_sets_span).
  exists dirty, s'. split; [| done]. intros A K. mrun E. cbv zeta. unfold ckpt_walk.
  mrun (ckpt_walk_best_effort qp0 last (t_tail_cnt t) (dirty, 0) s' (left_over f L) head
    (tvlog_fuel head (t_tail_cnt t)) Hs' (fuel_enough _ _ _ _ Hs')). cbv zeta.
  rewrite (span_ext (ckpt_done qp0 last s') (ckpt_done qp0 last s)); [done |]. intros d _. by apply ckpt_done_marking.
Qed.

(** a reclamation, from where its lock is taken: the walks leave [head] and
    [prev], and the finish the state [s4] *)
Lemma tvlog_reclaim_locked mode s s2 s3 s4 head prev dirty bytes :
  let t := tvlog (self s2) in
  let qp0 := __qp0 (clks (self s2)) in
  mode = RECLAIM_TVLOG_BEST_EFFORT \/ mode = RECLAIM_TVLOG_CKPT ->
  r_tvlog (reclaim (self s)) = mode -> try_lock_tvlog s = Ok (true, s2) ->
  (forall A (K : Z -> Z -> bool -> Z -> M st A),
    (let* ' (new_head, dirty) := reclaim_walk mode qp0 (t_prev_head_cnt t) (t_head_cnt t) (t_tail_cnt t) in
     let* ' (prev_head, (dirty, bytes)) := ckpt_walk mode qp0 (__last_ckpt (clks (self s2))) new_head (t_tail_cnt t) dirty in
     K new_head prev_head dirty bytes) s2 = K head prev dirty bytes s3) ->
  reclaim_finish mode (t_head_cnt t) head prev dirty bytes s3 = Ok (true, s4) ->
  exists f, tvlog_reclaim s = Ok (tt, s4 <| self ::= (fun u => u <| stat ::= f |>) |>).
Proof.
  intros t qp0 Hmode Hneed El E E4. assert (Ex : tvlog_reclaim_x mode s = Ok (true, s4)).
  { unfold tvlog_reclaim_x, tvlog_need_reclaim. msteps. rewrite Hneed. replace (mode =? 0) with false by (by destruct Hmode; subst).
    cbv iota. mrun El. cbn [negb]. msteps. by rewrite <- E4, <- (E _ (reclaim_finish mode (t_head_cnt t))). }
  unfold tvlog_reclaim, tvlog_need_reclaim. msteps. rewrite Hneed. clear Hneed.
  destruct Hmode as [-> | ->]; [rewrite Z.eqb_refl | change (RECLAIM_TVLOG_CKPT =? RECLAIM_TVLOG_BEST_EFFORT) with false; rewrite Z.eqb_refl];
    cbv iota; mrun Ex; by eexists.
Qed.

(** what holds of the state once the walks are done: [L] is left, from [head] *)
Record settled (k mx : Z) (m : nat) (objs : list Z) (head : Z) (L : list wset) (tail : Z) (s0 s : st) : Prop := {
  std_sets : log_sets s head L tail;
  std_tomb : tomb_ready k mx m objs s;
  std_tvlog : tvlog (self s) = tvlog (self s0);
  std_free : forall o c, heap (sh s0) !! o = Some (CCpy c) -> is_free c = true -> heap (sh s) !! o = Some (CCpy c) }.

Lemma settled_others k mx m objs head L tail s0 s s' :
  settled k mx m objs head L tail s0 s -> others_reclaim s s' -> settled k mx m objs head L tail s0 s'.
Proof.
  intros [A1 A2 A3 A4] Hr. split; [by apply Hr | by apply Hr | by rewrite (or_tvlog _ _ Hr) |].
  intros o c Ho Hf. apply (or_free _ _ Hr); auto.
Qed.

Lemma reclaim_finish_run `{!Rely others_reclaim} k mx m objs mode old head prev L tail dirty bytes s :
  log_sets s head L tail -> tomb_ready k mx m objs s ->
  exists s', reclaim_finish mode old head prev dirty bytes s = Ok (true, s') /\
    tvlog (self s') = (tvlog (self s)) <| t_prev_head_cnt := prev |> <| t_head_cnt := head |> <| t_reclaim_lock := 0 |> /\
    r_tvlog (reclaim (self s')) = 0 /\ log_sets s' head L tail /\ tomb_ready k mx m objs s' /\
    forall o c, heap (sh s) !! o = Some (CCpy c) -> is_free c = true -> heap (sh s') !! o = Some (CCpy c).
Proof.
  intros Hs Ht. unfold reclaim_finish, mod_tvlog, mod_self. msteps. set (s1 := _ <| self ::= _ |>).
  assert (H1 : settled k mx m objs head L tail s1 s1).
  { split; [by apply (log_sets_same s) | exact Ht | done | done]. }
  assert (H2 : exists s2, when dirty ckptlog_enq_persist s1 = Ok (tt, s2) /\ settled k mx m objs head L tail s1 s2).
  { destruct dirty; cbn [when]; [| by exists s1].
    destruct (ckptlog_enq_persist_quiet k mx m objs s1 Ht) as (s2 & s3 & E & Hr & Ht2 & Hm & Hh). exists s3. split; [done |].
    apply (settled_others _ _ _ _ _ _ _ _ s2); [| done]. split; [by eapply marking_sets, H1 | done | by apply marking_tvlog |].
    intros o c Ho _. by rewrite Hh. }
  destruct H2 as (s2 & E2 & H2). mrun E2. msteps.
  assert (H3 : exists s3, (if (head =? old) && (TS_TVLOG_LOW_MARK <? tvlog_used (tvlog (self s2))) &&
      (mode =? RECLAIM_TVLOG_BEST_EFFORT) then request_tvlog_reclaim RECLAIM_TVLOG_CKPT ;;; ret tt else ret tt) s2 = Ok (tt, s3) /\
      settled k mx m objs head L tail s1 s3).
  { destruct (_ && _); [| by exists s2]. destruct (request_quiet others_reclaim REQ_TVLOG RECLAIM_TVLOG_CKPT s2) as (b & s3 & E & Hr).
    exists s3. unfold request_tvlog_reclaim. mrun E. split; [by msteps |]. by eapply settled_others. }
  destruct H3 as (s3 & E3 & [A1 A2 A3 A4]). mrun E3. unfold stat_thread_acc, mod_self.
  destruct (negb (head =? old)); cbn [when]; msteps; (eexists; split; [reflexivity |];
    split; [by cbn; rewrite A3 |]; split; [done |]; split; [by apply (log_sets_same s3) |]; split; [exact A2 |]; exact A4).
Qed.

Lemma reclaim_ready_others k mx m objs L s s' :
  others_reclaim s s' -> reclaim_ready k mx m objs L s -> reclaim_ready k mx m objs L s'.
Proof.
  intros Hr [A1 A2 A3 A4]. pose proof (or_tvlog _ _ Hr) as Et.
  split; rewrite ?Et; [by apply Hr | by apply Hr | | done]. unfold set_objs. by rewrite Et.
Qed.

(** C16. Best-effort reclamation of a version log that no one else reclaims,
    whatever the other threads do meanwhile: it drops from the front of the log
    exactly the longest run of write sets that starts before the boundary of the
    last checkpoint and in which every set is committed and every copy was
    superseded before the grace period [qp0], so that no running transaction can
    still read it; the boundary moves over the further write sets that need no
    checkpoint; the objects freed in the dropped write sets have their tombstone
    at their current master; the write sets left are as they were, and the lock
    and the request are released. *)
Theorem tvlog_reclaim_best_effort `{!Rely others_reclaim} k mx m objs L s :
  r_tvlog (reclaim (self s)) = RECLAIM_TVLOG_BEST_EFFORT -> t_reclaim_lock (tvlog (self s)) = 0 ->
  reclaim_ready k mx m objs L s ->
  exists s1 s', tvlog_reclaim s = Ok (tt, s') /\ interfere s = Ok (tt, s1) /\ others_reclaim s s1 /\
    let t := tvlog (self s) in
    let qp0 := __qp0 (clks (self s1)) in
    let f := reclaimable RECLAIM_TVLOG_BEST_EFFORT qp0 (t_prev_head_cnt t) s1 in
    let head := span_sets f (t_head_cnt t) L in
    let prev_head := span_sets (ckpt_done qp0 (__last_ckpt (clks (self s1))) s1) head (left_over f L) in
    tvlog (self s') = t <| t_prev_head_cnt := prev_head |> <| t_head_cnt := head |> <| t_reclaim_lock := 0 |> /\
    t_head_cnt t <= head <= prev_head /\ prev_head <= t_tail_cnt t /\
    r_tvlog (reclaim (self s')) = 0 /\ log_sets s' head (left_over f L) (t_tail_cnt t) /\ tomb_ready k mx m objs s' /\
    forall d c h, d ∈ taken f L -> c ∈ s_entries d -> entry_at s1 c = Some h ->
      (o_type (c_hdr h) = TYPE_COPY -> lt_clock (wrt_clk_prev (cpy_hdr h)) qp0 = true) /\
      (is_free h = true -> exists v, vhdrs (sh s') !! c_act_vhdr (cpy_hdr h) = Some v /\ tombstoned (sh s') (cur_ent v)).
Proof.
  intros Hneed Hlock Hr. destruct (try_lock_tvlog_free s Hlock) as (s1 & Ei & Hor & El).
  pose proof (reclaim_ready_others _ _ _ _ _ _ _ Hor Hr) as [Hs1 Ht1 Ho1 Htl1]. pose proof (or_tvlog _ _ Hor) as Et.
  set (s2 := s1 <| self ::= _ |>) in El.
  assert (Hr2 : reclaim_ready k mx m objs L s2) by (split; [by apply (log_sets_same s1) | exact Ht1 | exact Ho1 | exact Htl1]).
  set (qp0 := __qp0 (clks (self s1))). set (last := __last_ckpt (clks (self s1))).
  destruct (best_effort_walks k mx m objs L s2 qp0 last Hr2) as (dirty & s3 & E & Hm & Ht3 & Hmk).
  change (reclaimable RECLAIM_TVLOG_BEST_EFFORT qp0 (t_prev_head_cnt (tvlog (self s2))) s2) with
    (reclaimable RECLAIM_TVLOG_BEST_EFFORT qp0 (t_prev_head_cnt (tvlog (self s1))) s1) in *.
  change (ckpt_done qp0 last s2) with (ckpt_done qp0 last s1) in *.
  change (t_tail_cnt (tvlog (self s2))) with (t_tail_cnt (tvlog (self s1))) in *.
  change (t_prev_head_cnt (tvlog (self s2))) with (t_prev_head_cnt (tvlog (self s1))) in *.
  change (t_head_cnt (tvlog (self s2))) with (t_head_cnt (tvlog (self s1))) in *.
  rewrite Et in *. set (t := tvlog (self s)) in *. set (f := reclaimable _ _ _ _) in *. set (head := span_sets f _ L) in *.
  set (prev := span_sets _ head _) in *.
  assert (Hs3 : log_sets s3 head (left_over f L) (t_tail_cnt t)).
  { eapply marking_sets; [exact Hm |]. apply (log_sets_same s1); [done | done | done |]. by apply log_sets_span. }
  destruct (reclaim_finish_run k mx m objs RECLAIM_TVLOG_BEST_EFFORT (t_head_cnt t) head prev _ _ dirty 0 s3 Hs3 Ht3)
    as (s4 & E4 & F1 & F2 & F3 & F4 & F5).
  destruct (tvlog_reclaim_locked RECLAIM_TVLOG_BEST_EFFORT s s2 s3 s4 head prev dirty 0 ltac:(by left) Hneed El) as [g Eg];
    [intros A K | |]; try (change (tvlog (self s2)) with ((tvlog (self s1)) <| t_reclaim_lock := 1 |>); rewrite Et); [exact (E A K) | exact E4 |].
  exists s1. eexists. split; [exact Eg |]. split; [done |]. split; [done |]. cbv zeta. fold t qp0 f head prev.
  pose proof (marking_tvlog _ _ Hm) as Et3.
  split. { cbn. rewrite F1, Et3. change (tvlog (self s2)) with ((tvlog (self s1)) <| t_reclaim_lock := 1 |>). by rewrite Et. }
  pose proof (log_sets_span f _ _ _ _ Hs1) as Hsp.
  split. { split; [by apply (span_bounds f s1 _ _ (t_tail_cnt t)) |]. by apply (span_bounds _ s1 _ _ (t_tail_cnt t)). }
  split; [by apply (span_bounds _ s1 _ _ (t_tail_cnt t)) |]. split; [exact F2 |].
  split; [by apply (log_sets_same s4) |]. split; [exact F4 |]. intros d c h Hd Hc He.
  destruct (taken_true _ _ _ Hd) as [Hfd HdL]. split.
  - intros Hty. unfold f, reclaimable in Hfd. apply andb_prop in Hfd as [_ Hall]. unfold all_entries in Hall.
    rewrite forallb_forall in Hall. specialize (Hall c (proj1 (list_elem_of_In _ _) Hc)). unfold passes in Hall.
    rewrite He in Hall. unfold may_reclaim in Hall. rewrite bool_decide_eq_true_2, gte_clock_negb in Hall by done.
    by destruct (lt_clock _ qp0).
  - intros Hf. destruct F4 as (q & _ & _ & _ & Hall). pose proof (Hmk d c Hd Hc h He Hf) as Hmark.
    apply entry_at_heap in Hmark. rewrite Et3 in Hmark. change (tvlog_obj (tvlog (self s2)) c) with (tvlog_obj (tvlog (self s1)) c) in Hmark.
    rewrite Et in Hmark. assert (Hin : tvlog_obj t c ∈ objs).
    { apply Ho1. pose proof (set_objs_elem s1 L d c HdL Hc) as Hx. by rewrite Et in Hx. }
    destruct (Hall _ _ Hin (F5 _ _ Hmark Hf) Hf) as (_ & _ & v & Ev & _ & Htomb). exists v. split; [exact Ev |].
    by apply Htomb.
Qed.
End ReclaimLog.

(** * Examples: two committed write sets; the first has a superseded copy and a
    freed object, the second the newest version of another object *)

Definition ex_hdr : ts_cpy_hdr_struct :=
  mk_chs (mk_cpy_hdr NULL MAX_VERSION 0 0 NULL NULL) (mk_obj_hdr 40 88 TYPE_WRT_SET STATUS_NONE).
Definition ex_version (ws wrt_clk prev vhdr : Z) (ty : obj_type) : ts_cpy_hdr_struct :=
  mk_chs (mk_cpy_hdr ws wrt_clk 0 prev NULL vhdr) (mk_obj_hdr 8 56 ty STATUS_NONE).
Definition ex_ckptlog : ts_nvlog :=
  mk_nvlog 0 0 0 0 1024 16384 4096 (lnot64 4095) TYPE_CKPTLOG STATUS_NVLOG_NORMAL true 8192.
Definition ex_sets : list wset :=
  [mk_wset 0 256 (mk_wrt_set 600 600 2 0 8192) [128; 192]; mk_wset 256 448 (mk_wrt_set 700 700 1 256 8192) [384]].

Definition ex_reclaim : st :=
  (ex_st <| sh ::= (fun h => h
     <| heap := <[1048632 := CCpy ex_hdr]> (<[1048888 := CCpy ex_hdr]>
          (<[1048760 := CCpy (ex_version 1048632 600 700 400 TYPE_COPY)]>
          (<[1048824 := CCpy (ex_version 1048632 600 MAX_VERSION 500 TYPE_FREE)]>
          {[ 1049016 := CCpy (ex_version 1048888 700 MAX_VERSION 400 TYPE_COPY) ]}))) |>
     <| wrt_sets := <[1048632 := mk_wrt_set 600 600 2 0 8192]> {[ 1048888 := mk_wrt_set 700 700 1 256 8192 ]} |>
     <| vhdrs := <[400 := mk_act_vhdr 1049016 NULL 300000 300000 MAX_VERSION]>
          {[ 500 := mk_act_vhdr NULL 1048824 310000 310000 MAX_VERSION ]} |>
     <| stores := {[ 1024 := mk_nvlog_store 0 0 16384 16384 4096 (lnot64 4095) TYPE_CKPTLOG STATUS_NVLOG_NORMAL NULL ]} |>) |>)
  <| self ::= (fun t => t <| tvlog := mk_tvlog 0 0 448 256 0 NULL 1048576 |> <| ckptlog := ex_ckptlog |>
     <| clks := mk_clks 1000 900 800 0 0 |> <| reclaim := mk_reclaim RECLAIM_TVLOG_BEST_EFFORT 0 |>) |>.

#[local] Instance ex_reclaim_rely : @Rely ex_env others_reclaim.
Proof. intros s. exists s. split; [done | reflexivity]. Qed.

Lemma ex_path2 s c h1 h2 : entry_at s c = Some h1 -> get_entry_size h1 = 64 -> entry_at s (c + 64) = Some h2 ->
  get_entry_size h2 = 64 -> 0 <= c < 2 ^ 62 -> path s c [c; c + 64] (c + 128).
Proof.
  intros H1 E1 H2 E2 Hc. eapply path_cons; [exact H1 | lia | lia | lia |]. rewrite E1.
  eapply path_cons; [exact H2 | lia | lia | lia |]. rewrite E2. replace (c + 64 + 64) with (c + 128) by lia. constructor.
Qed.

Lemma ex_log_sets : log_sets ex_reclaim 0 ex_sets 448.
Proof.
  apply (sets_cons _ (mk_wset 0 256 _ _)); [by vm_compute | by vm_compute | |
    apply (sets_cons _ (mk_wset 256 448 _ _)); [by vm_compute | by vm_compute | | apply sets_nil]];
    (split; [by vm_compute | done | done | exists ex_hdr; split; [by vm_compute |]; split; [by vm_compute |]]).
  - by apply (ex_path2 _ 128 (ex_version 1048632 600 700 400 TYPE_COPY) (ex_version 1048632 600 MAX_VERSION 500 TYPE_FREE)).
  - apply (path_cons _ 384 (ex_version 1048888 700 MAX_VERSION 400 TYPE_COPY)); [by vm_compute | done | by vm_compute | by vm_compute | apply path_nil].
Qed.

Definition ex_ckpt_nvst : nvst := mk_nvst ex_ckptlog
  (mk_nvlog_store 0 0 16384 16384 4096 (lnot64 4095) TYPE_CKPTLOG STATUS_NVLOG_NORMAL NULL) (pmem_with ∅ ∅).

Lemma ex_tomb_ready m : (m <= 20)%nat -> tomb_ready 12 64 m (set_objs ex_reclaim ex_sets) ex_reclaim.
Proof.
  intros Hm. exists []. split; [| split; [| split]].
  - exists ex_ckpt_nvst. split; [by vm_compute |]. exists []. split; [| done].
    split; try done; [split; try done; by exists 256 | by exists 0 | constructor].
  - split; [done |]. cbn. lia.
  - exists ex_ckpt_nvst. split; [by vm_compute |]. split; [| cbn; lia].
    split; [split; [done | left; by vm_compute] | split; [by exists 16 | by exists 0]].
  - intros o c Ho Hc Hf. change (set_objs ex_reclaim ex_sets) with [1048760; 1048824; 1049016] in Ho.
    repeat (apply elem_of_cons in Ho as [-> | Ho]; [vm_compute in Hc; injection Hc as <- |]);
      [done | | done | by apply not_elem_of_nil in Ho].
    split; [by vm_compute |]. split; [by vm_compute |]. eexists. split; [by vm_compute |]. split; [by left | done].
Qed.

Lemma tvlog_reclaim_best_effort_witness :
  exists s' v, @tvlog_reclaim ex_env ex_reclaim = Ok (tt, s') /\ t_head_cnt (tvlog (self s')) = 256 /\
    t_prev_head_cnt (tvlog (self s')) = 256 /\ vhdrs (sh s') !! 500 = Some v /\ tombstoned (sh s') (cur_ent v).
Proof.
  destruct (@tvlog_reclaim_best_effort ex_env ex_reclaim_rely 12 64 0 (set_objs ex_reclaim ex_sets) ex_sets ex_reclaim
    ltac:(by vm_compute) ltac:(by vm_compute)
    ltac:(split; [exact ex_log_sets | exact (ex_tomb_ready 3 ltac:(lia)) | done | by vm_compute]))
    as (s1 & s' & E & [= <-] & _ & Ht & _ & _ & _ & _ & _ & Hall).
  destruct (Hall (mk_wset 0 256 (mk_wrt_set 600 600 2 0 8192) [128; 192]) 192 (ex_version 1048632 600 MAX_VERSION 500 TYPE_FREE)
    ltac:(vm_compute; by left) ltac:(by right; left) ltac:(by vm_compute)) as [_ (v & Hv & Htomb)]; [by vm_compute |].
  exists s', v. split; [exact E |]. rewrite Ht. split; [by vm_compute |]. split; [by vm_compute |]. by split.
Defined.
