(* ===== verification/CkptWalk.v ===== *)
(** Reclaiming the version log ([tvlog_reclaim] of [lib/tvlog.c]) in
    checkpointing mode: the second walk writes the versions that the next
    reclamation may drop to the checkpoint log, and detaches them. *)
From S2P Require Export ReclaimLog CkptReclaim.

Section CkptWalk.
Context `{Env} (k : Z) (objs : list Z).

(** [objs] are the entries of the caller's version log; its checkpoint log has
    [2 ^ k] bytes at [buffer_of s] *)
Definition buffer_of (s : st) : Z := n_buffer (ckptlog (self s)).

(** * What others do to the copies and checkpoints of the caller *)

(** the newest version of an object is superseded *)
Definition by_others (c c' : ts_cpy_hdr_struct) : Prop :=
  c' = c \/ (wrt_clk_prev (cpy_hdr c) = MAX_VERSION /\
             exists p, c' = c <| cpy_hdr ::= (fun h => h <| wrt_clk_prev := p |>) |>).

(** an entry of the checkpoint log but for its tombstone, which others may set *)
Definition untombed (e : ts_nvlog_entry) : ts_nvlog_entry :=
  match e_body e with
  | EB_ckpt c => e <| e_body := EB_ckpt (c <| tombstone := 0 |>) |>
  | _ => e
  end.
Definition entries_kept (q q' : entries) : Prop :=
  forall x, x ∈ q -> exists e', (x.1, e') ∈ q' /\ untombed e' = untombed x.2.

(** what a step from the queue [q] to [q'] keeps of the checkpoints, of the
    object [o] and its header [p]: its current master too when [cur] *)
Record calm (cur : Prop) (p o : Z) (q : entries) (s : st) (q' : entries) (s' : st) : Prop := {
  ca_queue : entries_kept q q';
  ca_ents : forall x, x ∈ q ->
    obj_data (sh s') !! ent_obj (buffer_of s) k x = obj_data (sh s) !! ent_obj (buffer_of s) k x;
  ca_obj : obj_data (sh s') !! o = obj_data (sh s) !! o;
  ca_buf : buffer_of s' = buffer_of s;
  ca_hdr : forall v, vhdrs (sh s) !! p = Some v -> exists v', vhdrs (sh s') !! p = Some v' /\
    np_org_act v' = np_org_act v /\ (v_copy v' = o -> v_copy v = o) /\
    (cur -> forall x, x ∈ q -> np_cur_act v = ent_obj (buffer_of s) k x -> np_cur_act v' = np_cur_act v) }.

(** [o] is a copy with the header [p] *)
Definition copy_of (s : st) (o p : Z) : Prop :=
  exists c, heap (sh s) !! o = Some (CCpy c) /\ o_type (c_hdr c) = TYPE_COPY /\ c_act_vhdr (cpy_hdr c) = p.

(** what other threads keep while the caller reclaims: in addition to
    [others_reclaim], its copies but for being superseded, their bytes, its
    checkpoints and the store of their log; they do not bring back a copy as
    the newest version, and checkpoint no object of the caller's copies *)
Record others_ckpt (s s' : st) : Prop := {
  oc_base : others_reclaim s s';
  oc_store : stores (sh s') !! n_store (ckptlog (self s)) = stores (sh s) !! n_store (ckptlog (self s));
  oc_cell : forall o c, o ∈ objs -> heap (sh s) !! o = Some (CCpy c) ->
    exists c', heap (sh s') !! o = Some (CCpy c') /\ by_others c c';
  oc_queue : forall q, holds CKPTLOG s k q -> exists q', holds CKPTLOG s' k q' /\
    forall o p, o ∈ objs -> copy_of s o p -> calm True p o q s q' s' }.

(** * A step of the caller or of others, seen from the other copies *)

(** [P] are the copies it leaves to the others *)
Record quiet (P : Z -> Prop) (s s' : st) : Prop := {
  qt_self : self s' = (self s) <| ckptlog := ckptlog (self s') |> <| clks := clks (self s') |> <| reclaim := reclaim (self s') |>;
  qt_cell : forall o c, o ∈ objs -> heap (sh s) !! o = Some (CCpy c) ->
    exists c', heap (sh s') !! o = Some (CCpy c') /\ (P o -> by_others c c') /\
      get_entry_size c' = get_entry_size c /\ o_type (c_hdr c') = o_type (c_hdr c) /\
      c_act_vhdr (cpy_hdr c') = c_act_vhdr (cpy_hdr c);
  qt_sets : forall c L e, log_sets s c L e -> log_sets s' c L e }.

(** * Facts: steps *)

#[export] Instance by_others_preorder : PreOrder by_others.
Proof.
  split; [by left |]. intros c1 c2 c3 [-> | (H1 & p & ->)]; [done |]. intros [-> | (H2 & p' & ->)]; right.
  - split; [done |]. by exists p.
  - split; [done |]. by exists p'.
Qed.

Lemma by_others_core c c' : by_others c c' ->
  get_entry_size c' = get_entry_size c /\ o_type (c_hdr c') = o_type (c_hdr c) /\
  c_act_vhdr (cpy_hdr c') = c_act_vhdr (cpy_hdr c) /\ obj_size (c_hdr c') = obj_size (c_hdr c) /\
  o_status (c_hdr c') = o_status (c_hdr c).
Proof. by intros [-> | (_ & p & ->)]. Qed.

Lemma needs_mono qp0 last c c' : by_others c c' -> needs_ckpt qp0 last c' = true -> needs_ckpt qp0 last c = true.
Proof.
  intros [-> | (Hp & p & ->)]; [done |]. unfold needs_ckpt, is_at_borderline, get_raw_wrt_clk. cbn. rewrite Hp, Z.eqb_refl.
  destruct (bool_decide _ && _); cbn; [| done]. destruct (p =? MAX_VERSION); [done |].
  by intros [[_ ?]%andb_prop _]%andb_prop.
Qed.

#[export] Instance entries_kept_preorder : PreOrder entries_kept.
Proof.
  split; [by intros q [c e] Hx; exists e |]. intros q1 q2 q3 H1 H2 x Hx. destruct (H1 x Hx) as (e & He & E).
  destruct (H2 _ He) as (e' & He' & E'). exists e'. split; [done |]. by rewrite E'.
Qed.

Lemma calm_trans (cur : Prop) p o q1 s1 q2 s2 q3 s3 :
  calm cur p o q1 s1 q2 s2 -> calm cur p o q2 s2 q3 s3 -> calm cur p o q1 s1 q3 s3.
Proof.
  intros [A1 A2 A3 A4 A5] [B1 B2 B3 B4 B5]. assert (Hx : forall x, x ∈ q1 -> exists y, y ∈ q2 /\ y.1 = x.1).
  { intros x Hx. destruct (A1 x Hx) as (e & He & _). by exists (x.1, e). }
  split; [by transitivity q2 | | by rewrite B3 | by rewrite B4 |].
  - intros x Hq. destruct (Hx x Hq) as (y & Hy & E). rewrite <- (A2 x Hq). specialize (B2 y Hy).
    unfold ent_obj in *. by rewrite A4, E in B2.
  - intros v Hv. destruct (A5 v Hv) as (v2 & Hv2 & Eo & Hc & Hk). destruct (B5 v2 Hv2) as (v3 & Hv3 & Eo' & Hc' & Hk').
    exists v3. split; [done |]. split; [congruence |]. split; [auto |]. intros Hcur x Hq Ex. destruct (Hx x Hq) as (y & Hy & E).
    rewrite (Hk' Hcur y Hy); [by eapply Hk |]. rewrite (Hk Hcur x Hq Ex), Ex. unfold ent_obj. by rewrite A4, E.
Qed.

Lemma calm_weak (cur cur' : Prop) p o q s q' s' : (cur' -> cur) -> calm cur p o q s q' s' -> calm cur' p o q s q' s'.
Proof.
  intros Hc [A1 A2 A3 A4 A5]. split; [exact A1 | exact A2 | exact A3 | exact A4 |]. intros v Hv.
  destruct (A5 v Hv) as (v' & Hv' & Eo & Hcp & Hk). exists v'. split; [exact Hv' |]. split; [exact Eo |].
  split; [exact Hcp |]. intros Hcur. by apply Hk, Hc.
Qed.

(** steps that leave the headers, the bytes and the log *)
Lemma calm_same cur p o q s s' :
  vhdrs (sh s') = vhdrs (sh s) -> obj_data (sh s') = obj_data (sh s) -> buffer_of s' = buffer_of s -> calm cur p o q s q s'.
Proof. intros Ev Ed Eb. split; rewrite ?Ev, ?Ed; try done. intros v Hv. by exists v. Qed.

Lemma quiet_trans (P : Z -> Prop) s1 s2 s3 : quiet P s1 s2 -> quiet P s2 s3 -> quiet P s1 s3.
Proof.
  intros [A1 A2 A3] [B1 B2 B3]. split; [by rewrite B1, A1 | | auto]. intros o c Ho Hc.
  destruct (A2 o c Ho Hc) as (c2 & H2 & P2 & S2 & T2 & V2). destruct (B2 o c2 Ho H2) as (c3 & H3 & P3 & S3 & T3 & V3).
  exists c3. split; [done |]. split; [| by repeat split; congruence]. intros HP. transitivity c2; auto.
Qed.

Lemma quiet_copy P s s' o p : quiet P s s' -> o ∈ objs -> copy_of s o p -> copy_of s' o p.
Proof.
  intros Hq Ho (c & Hc & Ht & Hp). destruct (qt_cell _ _ _ Hq o c Ho Hc) as (c' & Hc' & _ & _ & Et & Ev).
  exists c'. split; [done |]. by rewrite Et, Ev.
Qed.

Lemma quiet_tvlog P s s' : quiet P s s' -> tvlog (self s') = tvlog (self s).
Proof. intros [E _ _]. by rewrite E. Qed.

Lemma others_quiet P s s' : others_ckpt s s' -> quiet P s s'.
Proof.
  intros [[Hse _ Hset _] _ Hcell _]. split; [by rewrite Hse | | done]. intros o c Ho Hc. destruct (Hcell o c Ho Hc) as (c' & Hc' & Hb).
  exists c'. split; [done |]. split; [done |]. by destruct (by_others_core _ _ Hb) as (? & ? & ? & _).
Qed.

Lemma others_ready M m q s s' : others_ckpt s s' -> ckpt_ready k M m q s ->
  exists q', ckpt_ready k M m q' s' /\ forall o p, o ∈ objs -> copy_of s o p -> calm True p o q s q' s'.
Proof.
  intros [[Hse _ _ _] Hst _ Hq] (Hh & Hr & Hs). destruct (Hq q Hh) as (q' & Hh' & Hc). exists q'. split; [| done].
  assert (En : ckptlog (self s') = ckptlog (self s)) by (by rewrite Hse).
  split; [done |]. rewrite En. split; [done |]. by eapply stored_same.
Qed.

Lemma log_sets_cells s s' c L e :
  (forall o h, heap (sh s) !! o = Some (CCpy h) -> exists h', heap (sh s') !! o = Some (CCpy h') /\ get_entry_size h' = get_entry_size h) ->
  tvlog (self s') = tvlog (self s) -> wrt_sets (sh s') = wrt_sets (sh s) -> log_sets s c L e -> log_sets s' c L e.
Proof.
  intros Hcell Et Ew. assert (Hp : forall c l e, path s c l e -> path s' c l e).
  { induction 1 as [c0 | c0 h l e0 He Hc0 Hpos Hlt Hp IH]; [constructor |].
    destruct (Hcell _ _ (entry_at_heap _ _ _ He)) as (h' & Hh' & Es). rewrite <- Es in *.
    econstructor; [| done | done | done | done]. unfold entry_at. by rewrite Et, Hh'. }
  induction 1 as [c | d L e Hc Hd [Hw Hn Hs (h & Hh & Hr & Hpath)] Hss IH]; constructor; try done.
  rewrite Et. destruct (Hcell _ _ Hh) as (h' & Hh' & Es). split; [by rewrite Ew | done | done |]. exists h'. rewrite Es. auto.
Qed.

Lemma quiet_same P s s' :
  self s' = (self s) <| ckptlog := ckptlog (self s') |> <| clks := clks (self s') |> <| reclaim := reclaim (self s') |> ->
  heap (sh s') = heap (sh s) -> wrt_sets (sh s') = wrt_sets (sh s) -> quiet P s s'.
Proof.
  intros Hse Eh Ew. split; [done | | intros c L e; apply log_sets_same; [by rewrite Hse | done | done]].
  intros o c Ho Hc. exists c. by rewrite Eh.
Qed.

(** * Facts: one copy is checkpointed and detached *)

Context (Hnull : NULL ∉ objs).

(** the copies are not in the checkpoint log *)
Definition outside (s : st) : Prop :=
  forall o, o ∈ objs -> o < buffer_of s + sizeof_ckpt_entry \/ buffer_of s + 2 ^ k + sizeof_ckpt_entry <= o.

Lemma outside_ent s q o x : holds CKPTLOG s k q -> outside s -> o ∈ objs -> o <> ent_obj (buffer_of s) k x.
Proof.
  intros Hs Ho Hin E. destruct (holds_geom _ _ _ Hs) as [Hk _ _ _ _]. pose proof (slot_range (buffer_of s) k x.1 ltac:(lia)).
  destruct (Ho o Hin); unfold ent_obj, ckpt_ent_obj in E; lia.
Qed.

Lemma ckpt_copy_enq M m q wrt_clk ckpt_s s o c v bytes :
  let b := buffer_of s in
  ckpt_ready k M (S m) q s -> outside s -> heap (sh s) !! o = Some (CCpy c) -> is_free c = false ->
  vhdrs (sh s) !! c_act_vhdr (cpy_hdr c) = Some v -> obj_data (sh s) !! o = Some bytes ->
  0 <= obj_size (c_hdr c) < 2 ^ 30 -> entry_size_of (ckpt_size c) <= M ->
  exists x a s', ckptlog_enq wrt_clk ckpt_s o s = Ok (a, s') /\ x.2 = ckpt_entry wrt_clk ckpt_s c v /\
    ckpt_ready k M m (q ++ [x]) s' /\ (forall P, quiet P s s') /\ heap (sh s') = heap (sh s) /\
    vhdrs (sh s') = <[c_act_vhdr (cpy_hdr c) := v <| np_cur_act := ent_obj b k x |>]> (vhdrs (sh s)) /\
    (exists rest, obj_data (sh s') !! ent_obj b k x = Some (take (Z.to_nat (obj_size (c_hdr c))) bytes ++ rest)) /\
    forall o' p, o' ∈ objs -> calm (p <> c_act_vhdr (cpy_hdr c)) p o' q s (q ++ [x]) s'.
Proof.
  intros b (Hs & Hroom & Hsto) Hout Hc Hf Hv Hbytes Hsz HM.
  destruct (enq_copy_run s k q M m wrt_clk ckpt_s o c v bytes Hs Hroom Hsto Hc Hf Hv Hbytes Hsz HM) as
    (cnt & rest & s' & E & Hs' & Hroom' & Hsto' & Eb & Hse & Hsh & _). set (x := (cnt, ckpt_entry wrt_clk ckpt_s c v)) in *.
  change (ckpt_ent_obj (slot (n_buffer (ckptlog (self s))) k cnt)) with (ent_obj b k x) in *.
  exists x, (slot b k cnt), s'. split; [exact E |]. split; [done |]. split; [done |].
  assert (Eh : heap (sh s') = heap (sh s)) by (by rewrite Hsh). assert (Ew : wrt_sets (sh s') = wrt_sets (sh s)) by (by rewrite Hsh).
  assert (Ev : vhdrs (sh s') = <[c_act_vhdr (cpy_hdr c) := v <| np_cur_act := ent_obj b k x |>]> (vhdrs (sh s))) by (by rewrite Hsh).
  assert (Ed : obj_data (sh s') = <[ent_obj b k x := take (Z.to_nat (obj_size (c_hdr c))) bytes ++ rest]> (obj_data (sh s))) by (by rewrite Hsh).
  split. { intros P. apply quiet_same; [rewrite Hse; by destruct (self s) | done | done]. }
  split; [done |]. split; [done |]. split; [exists rest; by rewrite Ed, lookup_insert_eq |].
  intros o' p Ho'. destruct (holds_apart s' k (q ++ [x]) Hs') as [Hnd Hap]. split.
  - intros y Hy. exists y.2. split; [destruct y; elems | done].
  - intros y Hy. rewrite Ed, lookup_insert_ne; [done |]. intros Exy. apply NoDup_app in Hnd as (_ & Hnd & _).
    apply (Hnd y Hy). apply list_elem_of_singleton. symmetry. apply Hap; [elems | elems |].
    change (buffer_of s) with b in Exy. unfold ent_obj, ckpt_ent_obj in Exy. rewrite Eb. change (n_buffer (ckptlog (self s))) with b. lia.
  - rewrite Ed, lookup_insert_ne; [done |]. intros Exo. exact (outside_ent s q o' x Hs Hout Ho' (eq_sym Exo)).
  - exact Eb.
  - intros w Hw. rewrite Ev. destruct (decide (p = c_act_vhdr (cpy_hdr c))) as [-> | Hp].
    + assert (w = v) as -> by congruence. eexists. rewrite lookup_insert_eq. split; [reflexivity |]. done.
    + exists w. rewrite lookup_insert_ne by done. done.
Qed.

Definition detach (c : ts_cpy_hdr_struct) : ts_cpy_hdr_struct :=
  c <| c_hdr ::= (fun h => h <| o_status := STATUS_DETACHED |>) |>.

Lemma try_detach_run `{!Rely others_ckpt} M m q s o c v :
  ckpt_ready k M m q s -> o ∈ objs -> heap (sh s) !! o = Some (CCpy c) -> o_type (c_hdr c) = TYPE_COPY ->
  vhdrs (sh s) !! c_act_vhdr (cpy_hdr c) = Some v ->
  exists q' s' c', try_detach_obj o s = Ok (tt, s') /\ ckpt_ready k M m q' s' /\ quiet (fun o' => o' <> o) s s' /\
    heap (sh s') !! o = Some (CCpy c') /\ by_others (detach c) c' /\
    (forall v', vhdrs (sh s') !! c_act_vhdr (cpy_hdr c) = Some v' -> v_copy v' <> o) /\
    forall o' p, o' ∈ objs -> copy_of s o' p -> calm True p o' q s q' s'.
Proof.
  intros (Hs & Hroom & Hsto) Ho Hc Hty Hv. assert (Hon : o <> NULL) by (by intros ->). unfold try_detach_obj.
  mrun (put_chs_run s o c (fun c => c <| c_hdr ::= (fun h => h <| o_status := STATUS_DETACHED |>) |>) Hc). fold (detach c).
  set (s1 := _ <| sh ::= _ |>). assert (Hc1 : heap (sh s1) !! o = Some (CCpy (detach c))) by apply lookup_insert_eq.
  assert (Hcell : forall o' h, heap (sh s) !! o' = Some (CCpy h) -> exists h', heap (sh s1) !! o' = Some (CCpy h') /\
    (o' <> o -> by_others h h') /\ get_entry_size h' = get_entry_size h /\ o_type (c_hdr h') = o_type (c_hdr h) /\
    c_act_vhdr (cpy_hdr h') = c_act_vhdr (cpy_hdr h)).
  { intros o' h Hh. cbn. destruct (decide (o' = o)) as [-> | Hne].
    - exists (detach h). rewrite lookup_insert_eq. assert (h = c) as -> by congruence. done.
    - exists h. by rewrite lookup_insert_ne by done. }
  assert (Hq1 : quiet (fun o' => o' <> o) s s1).
  { split; [by destruct s as [[] ?] | auto |]. intros c0 L e. apply log_sets_cells; [| done | done].
    intros o' h Hh. destruct (Hcell o' h Hh) as (h' & ? & _ & ? & _). by exists h'. }
  assert (Hr1 : ckpt_ready k M m q s1) by (split; [by eapply holds_ext | by split]).
  mrun (get_chs_run s1 o _ Hc1). mrun (get_vhdr_run s1 (c_act_vhdr (cpy_hdr c)) v Hv).
  destruct (Z.eqb_spec (v_copy v) o) as [Ecp | Ecp]; cbn [negb].
  2: { exists q, s1, (detach c). split; [done |]. split; [done |]. split; [done |]. split; [done |]. split; [done |].
    split; [| intros; by apply calm_same]. intros v' Hv'. change (vhdrs (sh s) !! c_act_vhdr (cpy_hdr c) = Some v') in Hv'. congruence. }
  unfold smp_cas. destruct (interfere_rely s1) as (s2 & Ei & Hot). rewrite !bind_assoc. mrun Ei.
  destruct (others_ready M m q s1 s2 Hot Hr1) as (q2 & Hr2 & Hcalm2).
  assert (Hcp : copy_of s1 o (c_act_vhdr (cpy_hdr c))) by (by exists (detach c)).
  destruct (ca_hdr _ _ _ _ _ _ _ (Hcalm2 _ _ Ho Hcp) v Hv) as (v2 & Hv2 & _ & Hkeep & _).
  destruct (oc_cell _ _ Hot o _ Ho Hc1) as (c2 & Hc2 & Hb2).
  assert (Hq2 : quiet (fun o' => o' <> o) s s2) by (eapply quiet_trans; [exact Hq1 | by apply others_quiet]).
  assert (Hcalm : forall o' p, o' ∈ objs -> copy_of s o' p -> calm True p o' q s q2 s2).
  { intros o' p Ho' Hcp'. eapply calm_trans; [by apply (calm_same True p o' q s s1) |]. apply Hcalm2; [done |]. by eapply quiet_copy. }
  rewrite !bind_assoc. mrun (get_vhdr_run s2 _ v2 Hv2). msteps. destruct (Z.eqb_spec (v_copy v2) o) as [E2 | E2].
  2: { msteps. exists q2, s2, c2. repeat (split; [done |]). split; [| done]. intros v' Hv'. congruence. }
  rewrite !bind_assoc. mrun (put_vhdr_run s2 _ v2 (fun v => v <| v_copy := NULL |>) Hv2). msteps. set (s3 := _ <| sh ::= _ |>).
  exists q2, s3, c2. split; [done |]. split; [by destruct Hr2 as (? & ? & ?); split; [by eapply holds_ext | by split] |].
  split; [eapply quiet_trans; [exact Hq2 | apply quiet_same; [by destruct s2 as [[] ?] | done | done]] |].
  split; [done |]. split; [done |]. split.
  { cbn. intros v'. rewrite lookup_insert_eq. intros [= <-]. cbn. congruence. }
  intros o' p Ho' Hcp'. eapply calm_trans; [by apply Hcalm |]. split; try done. intros w Hw. cbn.
  destruct (decide (p = c_act_vhdr (cpy_hdr c))) as [-> | Hp].
  - rewrite lookup_insert_eq. assert (w = v2) as -> by congruence. eexists. split; [done |]. split; [done |]. split; [| done].
    cbn. intros <-. by destruct Hnull.
  - rewrite lookup_insert_ne by done. by exists w.
Qed.

(** * The walk *)

Context (qp0 last : Z).

(** the version [c] of the object [o] is in the checkpoint log with its bytes
    and is the object's current master; no version chain starts with [o] *)
Definition checkpointed (wrt_clk : Z) (c : ts_cpy_hdr_struct) (o : Z) (q : entries) (s : st) : Prop :=
  exists x v bytes rest, x ∈ q /\ vhdrs (sh s) !! c_act_vhdr (cpy_hdr c) = Some v /\
    untombed x.2 = ckpt_entry wrt_clk qp0 c v /\ np_cur_act v = ent_obj (buffer_of s) k x /\ v_copy v <> o /\
    obj_data (sh s) !! o = Some bytes /\
    obj_data (sh s) !! ent_obj (buffer_of s) k x = Some (take (Z.to_nat (obj_size (c_hdr c))) bytes ++ rest).

(** what the walk from [s0] has made of the copy [w.2] of a write set of clock
    [w.1]: it needs no checkpoint, since it was checkpointed and detached, or
    without (it did not need one, or was superseded) *)
Definition processed (q : entries) (s0 s : st) (w : Z * Z) : Prop :=
  forall c, heap (sh s0) !! w.2 = Some (CCpy c) -> o_type (c_hdr c) = TYPE_COPY ->
    exists c', heap (sh s) !! w.2 = Some (CCpy c') /\ needs_ckpt qp0 last c' = false /\
      (by_others c c' \/ (needs_ckpt qp0 last c = true /\ by_others (detach c) c' /\ checkpointed w.1 c w.2 q s)).

(** the copies can be checkpointed by entries of at most [M] bytes *)
Definition copies_ok (M : Z) (s : st) : Prop :=
  forall o c, o ∈ objs -> heap (sh s) !! o = Some (CCpy c) -> o_type (c_hdr c) = TYPE_COPY ->
    0 <= obj_size (c_hdr c) < 2 ^ 30 /\ entry_size_of (ckpt_size c) <= M /\
    is_Some (vhdrs (sh s) !! c_act_vhdr (cpy_hdr c)) /\ is_Some (obj_data (sh s) !! o).

(** a checkpoint takes one version of an object *)
Definition one_each (s : st) : Prop :=
  forall o1 o2 c1 c2, o1 ∈ objs -> o2 ∈ objs -> heap (sh s) !! o1 = Some (CCpy c1) -> heap (sh s) !! o2 = Some (CCpy c2) ->
    needs_ckpt qp0 last c1 = true -> needs_ckpt qp0 last c2 = true ->
    c_act_vhdr (cpy_hdr c1) = c_act_vhdr (cpy_hdr c2) -> o1 = o2.

(** the walk from [s0] with the queue [q0] has been over [dn] *)
Record walked (M : Z) (m : nat) (dn : list (Z * Z)) (q0 q : entries) (s0 s : st) : Prop := {
  wk_ready : ckpt_ready k M m q s;
  wk_buf : buffer_of s = buffer_of s0;
  wk_quiet : quiet (fun o => o ∉ dn.*2) s0 s;
  wk_calm : forall o p, o ∈ objs -> copy_of s0 o p -> calm False p o q0 s0 q s;
  wk_done : forall w, w ∈ dn -> processed q s0 s w }.

Lemma checkpointed_calm wrt_clk c o q s q' s' :
  calm True (c_act_vhdr (cpy_hdr c)) o q s q' s' -> checkpointed wrt_clk c o q s -> checkpointed wrt_clk c o q' s'.
Proof.
  intros [A1 A2 A3 A4 A5] (x & v & bytes & rest & Hx & Hv & Ex & Ec & Hcp & Hb & Hd).
  destruct (A1 x Hx) as (e & He & Eu). destruct (A5 v Hv) as (v' & Hv' & Eo & Hcp' & Hk).
  exists (x.1, e), v', bytes, rest. split; [done |]. split; [done |]. split. { cbn. rewrite Eu, Ex. unfold ckpt_entry. by rewrite Eo. }
  unfold ent_obj in *. rewrite A4. split; [by rewrite (Hk I x Hx) |]. split; [auto |]. split; [by rewrite A3 |].
  cbn. by rewrite A2.
Qed.

Lemma processed_step P q q' s0 s s' w :
  w.2 ∈ objs -> quiet P s s' -> P w.2 ->
  (forall c, heap (sh s0) !! w.2 = Some (CCpy c) -> needs_ckpt qp0 last c = true ->
     calm True (c_act_vhdr (cpy_hdr c)) w.2 q s q' s') ->
  processed q s0 s w -> processed q' s0 s' w.
Proof.
  intros Hw Hq HP Hcalm Hp c Hc Hty. destruct (Hp c Hc Hty) as (c' & Hc' & Hn & Hcase).
  destruct (qt_cell _ _ _ Hq _ _ Hw Hc') as (c2 & Hc2 & Hb & _). specialize (Hb HP). exists c2. split; [done |]. split.
  - destruct (needs_ckpt qp0 last c2) eqn:E; [| done]. by rewrite (needs_mono _ _ _ _ Hb E) in Hn.
  - destruct Hcase as [Hcase | (Hnc & Hdt & Hck)]; [left; by transitivity c' |]. right. split; [done |].
    split; [by transitivity c' |]. eapply checkpointed_calm; [| exact Hck]. by apply Hcalm.
Qed.

Lemma quiet_weak (P Q : Z -> Prop) s s' : (forall o, Q o -> P o) -> quiet P s s' -> quiet Q s s'.
Proof.
  intros HPQ [A1 A2 A3]. split; [done | | done]. intros o c Ho Hc. destruct (A2 o c Ho Hc) as (c' & ? & ? & ? & ? & ?).
  exists c'. repeat split; auto.
Qed.

Lemma ckpt_ready_less M m q s : ckpt_ready k M (S m) q s -> ckpt_ready k M m q s.
Proof.
  intros (H1 & H2 & H3). split; [done |]. split; [by apply room_for_less |]. destruct H2 as ((HM & _) & _). apply stored_less; [lia | done].
Qed.

Lemma ckpt_body_skip mode wrt_clk o acc s c :
  heap (sh s) !! o = Some (CCpy c) -> needs_ckpt qp0 last c = false ->
  ckpt_body mode qp0 last wrt_clk o acc s = Ok (inl acc, s).
Proof.
  intros Hc. unfold ckpt_body, needs_ckpt. mrun (get_chs_run s o c Hc).
  destruct (bool_decide (o_type (c_hdr c) = TYPE_COPY)); cbn [negb andb]; [| done].
  destruct (bool_decide (o_status (c_hdr c) = STATUS_DETACHED)); cbn [negb andb]; [done |]. by intros ->.
Qed.

Lemma ckpt_body_take wrt_clk o acc s c :
  heap (sh s) !! o = Some (CCpy c) -> needs_ckpt qp0 last c = true ->
  ckpt_body RECLAIM_TVLOG_CKPT qp0 last wrt_clk o acc s =
    (ckptlog_enq wrt_clk qp0 o ;;; try_detach_obj o ;;; ret (inl (true, u64 (acc.2 + sizeof_chs c)))) s.
Proof.
  intros Hc. unfold ckpt_body, needs_ckpt. mrun (get_chs_run s o c Hc).
  destruct (bool_decide (o_type (c_hdr c) = TYPE_COPY)); cbn [negb andb]; [| done].
  destruct (bool_decide (o_status (c_hdr c) = STATUS_DETACHED)); cbn [negb andb]; [done |]. by intros ->.
Qed.

Section Walk.
Context `{!Rely others_ckpt} (M : Z) (q0 : entries) (s0 : st).
Context (Hcopies : copies_ok M s0) (Hone : one_each s0) (Hout : outside s0).

(** a copy that needs a checkpoint gets it *)
Lemma ckpt_copy_run m dn q s o c0 c wrt_clk acc :
  walked M (S m) dn q0 q s0 s -> o ∈ objs -> heap (sh s0) !! o = Some (CCpy c0) -> heap (sh s) !! o = Some (CCpy c) ->
  by_others c0 c -> needs_ckpt qp0 last c = true ->
  exists acc' q' s' c', ckpt_body RECLAIM_TVLOG_CKPT qp0 last wrt_clk o acc s = Ok (inl acc', s') /\
    ckpt_ready k M m q' s' /\ buffer_of s' = buffer_of s /\ quiet (fun o' => o' <> o) s s' /\
    heap (sh s') !! o = Some (CCpy c') /\ by_others (detach c0) c' /\ checkpointed wrt_clk c0 o q' s' /\
    forall o' p, o' ∈ objs -> copy_of s o' p -> calm (p <> c_act_vhdr (cpy_hdr c)) p o' q s q' s'.
Proof.
  intros [Hr Hb Hq Hcalm _] Ho Hc0 Hc Hby Hn. rewrite (ckpt_body_take _ _ _ _ _ Hc Hn).
  destruct (by_others_core _ _ Hby) as (_ & Ety & Ehd & Esz & _).
  assert (Hty : o_type (c_hdr c) = TYPE_COPY).
  { unfold needs_ckpt in Hn. by destruct (bool_decide_reflect (o_type (c_hdr c) = TYPE_COPY)). }
  destruct (Hcopies o c0 Ho Hc0 ltac:(congruence)) as (Hsz & HM & (v0 & Hv0) & (bytes & Hby0)).
  pose proof (Hcalm o (c_act_vhdr (cpy_hdr c0)) Ho ltac:(exists c0; repeat split; congruence)) as [_ _ Hd _ Hh].
  destruct (Hh v0 Hv0) as (v & Hv & _). rewrite <- Ehd in Hv. rewrite Hby0 in Hd.
  assert (HM' : entry_size_of (ckpt_size c) <= M) by (unfold ckpt_size in *; by rewrite Esz).
  assert (Hout' : outside s) by (unfold outside; by rewrite Hb).
  destruct (ckpt_copy_enq M m q wrt_clk qp0 s o c v bytes Hr Hout' Hc (not_free_copy _ Hty) Hv Hd ltac:(by rewrite Esz) HM') as
    (x & a & s1 & E1 & Ex & Hr1 & Hq1 & Eh1 & Ev1 & (rest & Hrest) & Hcalm1).
  rewrite <- Eh1 in Hc. mrun E1.
  destruct (try_detach_run M m (q ++ [x]) s1 o c _ Hr1 Ho Hc Hty ltac:(rewrite Ev1; apply lookup_insert_eq)) as
    (q2 & s2 & c2 & E2 & Hr2 & Hq2 & Hc2 & Hb2 & Hcp2 & Hcalm2).
  mrun E2. exists (true, u64 (acc.2 + sizeof_chs c)), q2, s2, c2. split; [done |]. split; [done |].
  assert (Hcpo : copy_of s1 o (c_act_vhdr (cpy_hdr c))) by (by exists c).
  pose proof (Hcalm1 o (c_act_vhdr (cpy_hdr c)) Ho) as Hca1. pose proof (Hcalm2 o _ Ho Hcpo) as [B1 B2 B3 B4 B5].
  pose proof (ca_buf _ _ _ _ _ _ _ Hca1) as A4. pose proof (ca_obj _ _ _ _ _ _ _ Hca1) as A3.
  split; [by rewrite B4, A4 |]. split; [by eapply quiet_trans |]. split; [done |].
  split. { transitivity (detach c); [| done]. destruct Hby as [-> | (Hp & p & ->)]; [done |]. right. split; [done |]. by exists p. }
  split.
  - destruct (B1 x ltac:(elems)) as (e & He & Eu). destruct (B5 _ ltac:(rewrite Ev1; apply lookup_insert_eq)) as (v2 & Hv2 & Eo & _ & Hk).
    exists (x.1, e), v2, bytes, rest. rewrite <- Ehd, <- Esz. split; [done |]. split; [done |]. split.
    { cbn. rewrite Eu, Ex. unfold untombed, ckpt_entry. cbn. rewrite Eo, <- Esz, <- Ety, Hty. done. }
    assert (Eent : ent_obj (buffer_of s2) k (x.1, e) = ent_obj (buffer_of s) k x) by (unfold ent_obj; by rewrite B4, A4).
    rewrite Eent. split. { rewrite (Hk I x ltac:(elems)); [done |]. unfold ent_obj. by rewrite A4. }
    split; [by apply Hcp2 |]. split; [by rewrite B3, A3 |].
    specialize (B2 x ltac:(elems)). rewrite A4 in B2. by rewrite B2.
  - intros o' p Ho' Hcp'. eapply calm_trans; [by apply Hcalm1 |]. eapply (calm_weak True); [done |]. apply Hcalm2; [done |].
    by eapply (quiet_copy (fun _ => True)).
Qed.

(** one entry of the walk *)
Lemma walked_step m dn q s w acc :
  walked M (S m) dn q0 q s0 s -> w.2 ∈ objs -> w.2 ∉ dn.*2 -> (forall w', w' ∈ dn -> w'.2 ∈ objs) ->
  (exists c, heap (sh s0) !! w.2 = Some (CCpy c)) ->
  exists acc' q' s', ckpt_body RECLAIM_TVLOG_CKPT qp0 last w.1 w.2 acc s = Ok (inl acc', s') /\
    walked M m (dn ++ [w]) q0 q' s0 s' /\ quiet (fun _ => False) s s'.
Proof.
  intros Hw Ho Hnew Hdn [c0 Hcell].
  destruct (qt_cell _ _ _ (wk_quiet _ _ _ _ _ _ _ Hw) w.2 c0 Ho Hcell) as (c & Hc & Hby & _). specialize (Hby Hnew).
  assert (Hsub : forall o, o ∉ (dn ++ [w]).*2 -> (o ∉ dn.*2) /\ o <> w.2).
  { intros o Hno. rewrite fmap_app in Hno. split; [elems |]. intros ->. apply Hno, elem_of_app. right. by left. }
  destruct (needs_ckpt qp0 last c) eqn:Hn.
  - destruct (ckpt_copy_run m dn q s w.2 c0 c w.1 acc Hw Ho Hcell Hc Hby Hn) as
      (acc' & q' & s' & c' & E & Hr & Eb & Hq & Hc' & Hb & Hck & Hcalm). exists acc', q', s'. split; [done |].
    split; [| by eapply quiet_weak; [| exact Hq]]. destruct Hw as [_ W2 W3 W4 W5]. split; [done | by rewrite Eb | | |].
    + eapply quiet_trans; (eapply quiet_weak; [| done || exact W3]); intros o Hno; by apply Hsub.
    + intros o p Hin Hcp. eapply calm_trans; [by apply W4 |]. eapply (calm_weak (p <> _)); [| apply Hcalm; [done |]]; [done |].
      by eapply quiet_copy.
    + intros w' [Hin | ->%list_elem_of_singleton]%elem_of_app.
      * assert (Hne : w'.2 <> w.2) by (intros E'; apply Hnew; rewrite <- E'; by apply list_elem_of_fmap_2).
        eapply (processed_step (fun o => o <> w.2)); [by apply Hdn | exact Hq | done | | by apply W5].
        intros c1 Hc1 Hn1. eapply (calm_weak (c_act_vhdr (cpy_hdr c1) <> c_act_vhdr (cpy_hdr c))).
        -- intros _ Ep. apply Hne. eapply Hone; [by apply Hdn | exact Ho | exact Hc1 | exact Hcell | done | by eapply needs_mono |].
           rewrite Ep. by apply by_others_core in Hby as (_ & _ & -> & _).
        -- apply Hcalm; [by apply Hdn |]. eapply quiet_copy; [exact W3 | by apply Hdn |]. exists c1.
           unfold needs_ckpt in Hn1. by destruct (bool_decide_reflect (o_type (c_hdr c1) = TYPE_COPY)).
      * intros c1 Hc1 Hty. assert (c1 = c0) as -> by congruence. exists c'. split; [done |].
        assert (Hn' : needs_ckpt qp0 last c' = false).
        { apply by_others_core in Hb as (_ & _ & _ & _ & Est). unfold needs_ckpt. rewrite Est. cbn. by destruct (bool_decide _). }
        split; [done |]. right. split; [by eapply needs_mono | done].
  - exists acc, q, s. split; [by eapply ckpt_body_skip |]. split; [| by apply quiet_same; [destruct s as [[] ?] | |]].
    destruct Hw as [W1 W2 W3 W4 W5]. split; [by apply ckpt_ready_less | done | | done |].
    + eapply quiet_weak; [| exact W3]. intros o Hno. by apply Hsub.
    + intros w' [Hin | ->%list_elem_of_singleton]%elem_of_app; [by apply W5 |]. intros c1 Hc1 Hty.
      assert (c1 = c0) as -> by congruence. exists c. split; [done |]. split; [done |]. by left.
Qed.

(** the copies of the write set [d], with its clock *)
Definition set_work (t : ts_tvlog) (d : wset) : list (Z * Z) :=
  (fun c => (ws_wrt_clk (s_ws d), tvlog_obj t c)) <$> s_entries d.
Definition work (t : ts_tvlog) (L : list wset) : list (Z * Z) := d ← L; set_work t d.

Lemma work_objs t L : (work t L).*2 = (d ← L; tvlog_obj t <$> s_entries d).
Proof.
  induction L as [| d L IH]; [done |]. change (work t (d :: L)) with (set_work t d ++ work t L). rewrite fmap_app, IH.
  unfold set_work. by rewrite <- list_fmap_compose.
Qed.

Lemma walked_less m m' dn q s : (m' <= m)%nat -> walked M m dn q0 q s0 s -> walked M m' dn q0 q s0 s.
Proof.
  intros Hm [W1 W2 W3 W4 W5]. split; try done. clear -W1 Hm. induction Hm as [| m Hm IH]; [done |]. by apply IH, ckpt_ready_less.
Qed.

Lemma quiet_sizes ws l s s' w e :
  quiet (fun _ => False) s s' -> (forall c, c ∈ l -> tvlog_obj (tvlog (self s)) c ∈ objs /\ is_Some (entry_at s c)) ->
  ws_layout s ws w l e -> ws_layout s' ws w l e -> sizes_kept ws l s s'.
Proof.
  intros Hq Hin Hl Hl'. pose proof (quiet_tvlog _ _ _ Hq) as Et. split; [| | done].
  - intros c Hc. destruct (Hin c Hc) as [Ho [h He]]. destruct (qt_cell _ _ _ Hq _ _ Ho (entry_at_heap _ _ _ He)) as (h' & Hh' & _ & Es & _).
    rewrite He. unfold entry_at. by rewrite Et, Hh'; cbn; rewrite Es.
  - by rewrite (lay_ws _ _ _ _ _ Hl), (lay_ws _ _ _ _ _ Hl').
Qed.

Lemma path_entries s c l e : path s c l e -> forall x, x ∈ l -> is_Some (entry_at s x).
Proof.
  induction 1 as [c | c h l e He _ _ _ _ IH]; intros x Hx; [by apply not_elem_of_nil in Hx |].
  apply elem_of_cons in Hx as [-> | Hx]; [by exists h | auto].
Qed.

(** one write set *)
Lemma ckpt_set_run m dn q s d acc :
  let t := tvlog (self s0) in
  let ws := tvlog_obj t (s_cnt d) in
  walked M (length (s_entries d) + m) dn q0 q s0 s ->
  (forall s', quiet (fun _ => False) s s' -> ws_layout s' ws (s_ws d) (s_entries d) (s_end d)) ->
  (forall w, w ∈ dn ++ set_work t d -> w.2 ∈ objs) -> NoDup (dn ++ set_work t d).*2 ->
  (forall c, c ∈ s_entries d -> is_Some (entry_at s0 c)) ->
  exists acc' q' s', ws_for_each ws (ckpt_body RECLAIM_TVLOG_CKPT qp0 last (ws_wrt_clk (s_ws d))) acc s =
      Ok (inl (s_end d, acc'), s') /\
    walked M m (dn ++ set_work t d) q0 q' s0 s' /\ quiet (fun _ => False) s s'.
Proof.
  intros t ws Hw Hlay Hobjs Hnd Hent. set (clk := ws_wrt_clk (s_ws d)).
  assert (Hrefl : quiet (fun _ => False) s s) by (by apply quiet_same; [destruct s as [[] ?] | |]).
  destruct (ws_for_each_rule ws (ckpt_body RECLAIM_TVLOG_CKPT qp0 last clk)
    (fun rest _ s1 => quiet (fun _ => False) s s1 /\ exists before q1, s_entries d = before ++ rest /\
       walked M (length rest + m) (dn ++ ((fun c => (clk, tvlog_obj t c)) <$> before)) q0 q1 s0 s1)
    (fun _ _ => False) _ _ _ acc s (Hlay s Hrefl)) as (r & s' & E & _ & Hq).
  - split; [done |]. exists [], q. split; [done |]. by rewrite app_nil_r.
  - intros c rest a s1 Hc (Hq1 & before & q1 & Eb & Hw1) Hp.
    assert (Et : tvlog (self s1) = t) by (eapply quiet_tvlog, wk_quiet; exact Hw1). rewrite Et.
    assert (Edn : dn ++ set_work t d = dn ++ ((fun c => (clk, tvlog_obj t c)) <$> before) ++
      (clk, tvlog_obj t c) :: ((fun c => (clk, tvlog_obj t c)) <$> rest)).
    { unfold set_work. by rewrite Eb, fmap_app. }
    destruct (walked_step (length rest + m) _ q1 s1 (clk, tvlog_obj t c) a Hw1) as (a' & q2 & s2 & E2 & Hw2 & Hq2).
    + apply Hobjs. rewrite Edn. elems.
    + rewrite Edn, app_assoc, fmap_app in Hnd. apply NoDup_app in Hnd as (_ & Hnd & _). intros Hin. apply (Hnd _ Hin). by left.
    + intros w' Hw'. apply Hobjs. rewrite Edn, app_assoc. apply elem_of_app. by left.
    + destruct (Hent c Hc) as [h He]. apply entry_at_heap in He. cbn [snd]. by exists h.
    + cbn [fst snd] in E2. exists (inl a'), s2. split; [exact E2 |].
      assert (Hq02 : quiet (fun _ => False) s s2) by (by eapply quiet_trans). split.
      { eapply quiet_sizes; [exact Hq2 | | by apply Hlay | by apply Hlay]. intros x Hx. split.
        - rewrite Et. apply (Hobjs (clk, tvlog_obj t x)). apply elem_of_app. right. by apply (list_elem_of_fmap_2 (fun c => (clk, tvlog_obj t c))).
        - destruct (lay_path _ _ _ _ _ (Hlay s1 Hq1)) as (h & _ & _ & Hpath). by eapply path_entries. }
      split; [done |]. exists (before ++ [c]), q2. split; [by rewrite <- app_assoc |]. by rewrite fmap_app, app_assoc.
  - destruct r as [[cnt a] | b]; [| done]. destruct Hq as (-> & Hq & before & q1 & Eb & Hw1). rewrite app_nil_r in Eb. subst before.
    exists a, q1, s'. done.
Qed.

(** the walk passes the longest run of write sets committed before [qp0] *)
Lemma ckpt_walk_run m tail L : forall start dn q s acc n,
  let t := tvlog (self s0) in
  log_sets s0 start L tail -> walked M (n_entries L + m) dn q0 q s0 s ->
  (forall w, w ∈ dn ++ work t L -> w.2 ∈ objs) -> NoDup (dn ++ work t L).*2 -> (length L < n)%nat ->
  exists acc' q' s', loop n (ckpt_round RECLAIM_TVLOG_CKPT qp0 last tail) (start, acc) s =
      Ok ((span_sets (committed_before qp0) start L, acc'), s') /\
    walked M m (dn ++ work t (taken (committed_before qp0) L)) q0 q' s0 s'.
Proof.
  induction L as [| d L IH]; intros start dn q s acc n t Hs Hw Hobjs Hnd Hn; (destruct n as [| n]; [cbn in Hn; lia |]);
    cbn [loop]; unfold ckpt_round at 1.
  - inversion Hs; subst. rewrite Z.ltb_irrefl. cbn [negb]. msteps. exists acc, q, s. by rewrite app_nil_r.
  - inversion Hs as [| ? ? ? Hd Hd2 Hl Hs']; subst. pose proof (log_sets_le _ _ _ _ Hs') as [Hle _].
    rewrite (proj2 (Z.ltb_lt _ _)) by lia. cbn [negb]. msteps.
    assert (Et : tvlog (self s) = t) by (eapply quiet_tvlog, wk_quiet; exact Hw).
    assert (Hlay : forall s', quiet (fun _ => False) s s' -> ws_layout s' (tvlog_obj t (s_cnt d)) (s_ws d) (s_entries d) (s_end d)).
    { intros s' Hq. assert (Hq' : quiet (fun _ => False) s0 s').
      { eapply quiet_trans; [| exact Hq]. eapply quiet_weak; [| apply (wk_quiet _ _ _ _ _ _ _ Hw)]. done. }
      pose proof (qt_sets _ _ _ Hq' _ _ _ Hs) as Hset. inversion Hset as [| ? ? ? _ _ Hl2 _]; subst.
      by rewrite (quiet_tvlog _ _ _ Hq') in Hl2. }
    assert (Hrefl : quiet (fun _ => False) s s) by (by apply quiet_same; [destruct s as [[] ?] | |]).
    rewrite Et. mrun (get_ws_run s _ _ (lay_ws _ _ _ _ _ (Hlay s Hrefl))).
    cbn [span_sets taken]. unfold committed_before at 1 3.
    destruct (gte_clock (ws_wrt_clk (s_ws d)) qp0 || (ws_wrt_clk (s_ws d) =? MAX_VERSION)) eqn:Ec; cbn [negb].
    + msteps. exists acc, q, s. cbn. rewrite app_nil_r. split; [done |]. by eapply walked_less; [| exact Hw]; lia.
    + cbn [n_entries foldr] in Hw. fold (n_entries L) in Hw. rewrite <- Nat.add_assoc in Hw.
      change (work t (d :: L)) with (set_work t d ++ work t L) in Hobjs, Hnd. rewrite app_assoc in Hobjs, Hnd.
      destruct (ckpt_set_run (n_entries L + m) dn q s d acc Hw Hlay) as (acc1 & q1 & s1 & E1 & Hw1 & _).
      * intros w Hin. apply Hobjs. apply elem_of_app. by left.
      * rewrite fmap_app in Hnd. by apply NoDup_app in Hnd as (? & _ & _).
      * destruct (lay_path _ _ _ _ _ Hl) as (h & _ & _ & Hpath). by eapply path_entries.
      * rewrite bind_assoc. mrun E1. msteps.
        destruct (IH (s_end d) (dn ++ set_work t d) q1 s1 acc1 n Hs' Hw1 Hobjs Hnd ltac:(cbn in Hn; lia)) as (acc2 & q2 & s2 & E2 & Hw2).
        exists acc2, q2, s2. split; [exact E2 |]. change (work t (d :: taken (committed_before qp0) L)) with (set_work t d ++ work t (taken (committed_before qp0) L)).
        by rewrite app_assoc.
Qed.
End Walk.

(** * The end of the reclamation *)

#[export] Instance others_ckpt_refl : Reflexive others_ckpt.
Proof.
  intros s. split; [done | done | by intros o c _ Hc; exists c |]. intros q Hs. exists q. split; [done |]. intros o p _ _. by apply calm_same.
Qed.

#[export] Instance others_ckpt_request : ReqQuiet others_ckpt.
Proof.
  intros s s1 f [R1 R2 R3 R4]. split; [by apply req_quiet | done | done |]. intros q Hq. destruct (R4 q Hq) as (q' & Hq' & Hc).
  exists q'. split; [by eapply holds_ext |]. intros o p Ho Hcp. eapply calm_trans; [by apply Hc |]. by apply calm_same.
Qed.

Lemma processed_copy q s0 s w c :
  processed q s0 s w -> heap (sh s0) !! w.2 = Some (CCpy c) -> o_type (c_hdr c) = TYPE_COPY -> copy_of s w.2 (c_act_vhdr (cpy_hdr c)).
Proof.
  intros Hp Hc Hty. destruct (Hp c Hc Hty) as (c' & Hc' & _ & [Hb | (_ & Hb & _)]); exists c';
    apply by_others_core in Hb as (_ & Et & Ev & _); cbn in Et, Ev; (split; [done |]); split; congruence.
Qed.

(** what is left once [dn] has been walked from [s0] *)
Record finished (M : Z) (m : nat) (dn : list (Z * Z)) (s0 : st) (head : Z) (L : list wset) (tail : Z) (s : st) : Prop := {
  fin_log : exists q, ckpt_ready k M m q s /\ forall w, w ∈ dn -> processed q s0 s w;
  fin_sets : log_sets s head L tail }.

Lemma finished_others M m dn s0 head L tail s s' :
  (forall w, w ∈ dn -> w.2 ∈ objs) -> others_ckpt s s' -> finished M m dn s0 head L tail s -> finished M m dn s0 head L tail s'.
Proof.
  intros Hobjs Hot [(q & Hr & Hp) Hs]. destruct (others_ready M m q s s' Hot Hr) as (q' & Hr' & Hcalm).
  split; [| by apply (oc_base _ _ Hot)]. exists q'. split; [done |]. intros w Hw.
  apply (processed_step (fun _ => True) q q' s0 s s' w); [by apply Hobjs | by apply others_quiet | done | | by apply Hp].
  intros c Hc Hn. apply Hcalm; [by apply Hobjs |]. eapply processed_copy; [by apply Hp | done |].
  unfold needs_ckpt in Hn. by destruct (bool_decide_reflect (o_type (c_hdr c) = TYPE_COPY)).
Qed.

Lemma finished_same M m dn s0 head L tail s s' :
  (forall q, ckpt_ready k M m q s -> ckpt_ready k M m q s') -> buffer_of s' = buffer_of s ->
  t_buffer (tvlog (self s')) = t_buffer (tvlog (self s)) -> heap (sh s') = heap (sh s) ->
  wrt_sets (sh s') = wrt_sets (sh s) -> vhdrs (sh s') = vhdrs (sh s) -> obj_data (sh s') = obj_data (sh s) ->
  finished M m dn s0 head L tail s -> finished M m dn s0 head L tail s'.
Proof.
  intros Hr Eb Et Eh Ew Ev Ed [(q & Hrq & Hp) Hs]. split; [| by apply (log_sets_same s)]. exists q. split; [by apply Hr |].
  intros w Hw c Hc Hty. destruct (Hp w Hw c Hc Hty) as (c' & Hc' & Hn & Hcase). exists c'. rewrite Eh. split; [done |]. split; [done |].
  unfold checkpointed in *. by rewrite Eb, Ev, Ed.
Qed.

Lemma finish_ckpt `{!Rely others_ckpt} M m dn s0 old head prev L tail dirty bytes s :
  (forall w, w ∈ dn -> w.2 ∈ objs) -> finished M m dn s0 head L tail s ->
  exists s', reclaim_finish RECLAIM_TVLOG_CKPT old head prev dirty bytes s = Ok (true, s') /\
    tvlog (self s') = (tvlog (self s)) <| t_prev_head_cnt := prev |> <| t_head_cnt := head |> <| t_reclaim_lock := 0 |> /\
    r_tvlog (reclaim (self s')) = 0 /\ finished M m dn s0 head L tail s'.
Proof.
  intros Hobjs Hf. unfold reclaim_finish, mod_tvlog, mod_self. msteps. set (s1 := _ <| self ::= _ |>).
  assert (Hf1 : finished M m dn s0 head L tail s1) by (by apply (finished_same _ _ _ _ _ _ _ s)).
  assert (H2 : exists s2, when dirty ckptlog_enq_persist s1 = Ok (tt, s2) /\ tvlog (self s2) = tvlog (self s1) /\
    finished M m dn s0 head L tail s2).
  { destruct dirty; cbn [when]; [| by exists s1]. destruct (fin_log _ _ _ _ _ _ _ _ Hf1) as (q & Hr & Hp).
    destruct (ckpt_persist_run k M m q s1 Hr) as (s2 & E & Hr2 & [Hse Hsh] & En & Ece).
    destruct (ckptlog_request_quiet others_ckpt s2) as (s3 & E3 & Hot). unfold ckptlog_enq_persist. mrun E.
    exists s3. split; [done |]. split; [rewrite (or_tvlog _ _ (oc_base _ _ Hot)); by rewrite Hse |].
    apply (finished_others _ _ _ _ _ _ _ s2); [done | done |]. split.
    - exists q. split; [done |]. intros w Hw c Hc Hty. destruct (Hp w Hw c Hc Hty) as (c' & Hc' & Hn & Hcase).
      exists c'. rewrite Hsh. split; [done |]. split; [done |]. unfold checkpointed, buffer_of in *. by rewrite Hsh, En.
    - apply (log_sets_same s1); [by rewrite Hse | by rewrite Hsh | by rewrite Hsh | apply Hf1]. }
  destruct H2 as (s2 & E2 & Et & Hf2). mrun E2. msteps. rewrite andb_false_r. msteps. unfold stat_thread_acc, mod_self.
  destruct (negb (head =? old)); cbn [when]; msteps; (eexists; split; [reflexivity |];
    split; [by cbn; rewrite Et |]; split; [done |]; by apply (finished_same _ _ _ _ _ _ _ s2)).
Qed.
End CkptWalk.

(** * The whole reclamation *)

Section CkptReclamation.
Context `{Env} (k : Z).

(** the copies of the version log can be checkpointed *)
Record ckpt_able (M : Z) (objs : list Z) (s : st) : Prop := {
  able_cell : forall o, o ∈ objs -> exists c, heap (sh s) !! o = Some (CCpy c);
  able_copies : copies_ok objs M s;
  able_one : forall qp0 last, one_each objs qp0 last s;
  able_out : outside k objs s }.

Lemma ckpt_able_others M objs s s' q :
  others_ckpt k objs s s' -> holds CKPTLOG s k q -> ckpt_able M objs s -> ckpt_able M objs s'.
Proof.
  intros Hot Hq [A1 A2 A3 A4]. destruct (oc_queue _ _ _ _ Hot q Hq) as (q' & _ & Hcalm).
  assert (Hcell : forall o c', o ∈ objs -> heap (sh s') !! o = Some (CCpy c') ->
    exists c, heap (sh s) !! o = Some (CCpy c) /\ by_others c c').
  { intros o c' Ho Hc'. destruct (A1 o Ho) as [c Hc]. destruct (oc_cell _ _ _ _ Hot o c Ho Hc) as (c2 & Hc2 & Hb).
    assert (c2 = c') as -> by congruence. by exists c. }
  split.
  - intros o Ho. destruct (A1 o Ho) as [c Hc]. destruct (oc_cell _ _ _ _ Hot o c Ho Hc) as (c2 & Hc2 & _). by exists c2.
  - intros o c' Ho Hc' Hty. destruct (Hcell o c' Ho Hc') as (c & Hc & Hb).
    apply by_others_core in Hb as (_ & Et & Ev & Es & _). rewrite Et in Hty. destruct (A2 o c Ho Hc Hty) as (S1 & S2 & [v Hv] & S4).
    destruct (Hcalm o (c_act_vhdr (cpy_hdr c)) Ho ltac:(by exists c)) as [_ _ Ed _ Hh]. destruct (Hh v Hv) as (v' & Hv' & _).
    unfold ckpt_size in *. rewrite Es, Ev, Ed. split; [done |]. split; [done |]. split; [by exists v' | done].
  - intros qp0 last o1 o2 c1 c2 H1 H2 Hc1 Hc2 Hn1 Hn2 Ep. destruct (Hcell _ _ H1 Hc1) as (d1 & Hd1 & Hb1).
    destruct (Hcell _ _ H2 Hc2) as (d2 & Hd2 & Hb2). pose proof (by_others_core _ _ Hb1) as (_ & _ & E1 & _).
    pose proof (by_others_core _ _ Hb2) as (_ & _ & E2 & _).
    eapply (A3 qp0 last); [exact H1 | exact H2 | exact Hd1 | exact Hd2 | by eapply needs_mono | by eapply needs_mono | congruence].
  - unfold outside, buffer_of in *. by rewrite (or_self _ _ (oc_base _ _ _ _ Hot)).
Qed.

(** the marking of the freed copies leaves the others *)
Lemma marking_copy s s' o c' : marking s s' -> heap (sh s') !! o = Some (CCpy c') -> o_type (c_hdr c') = TYPE_COPY ->
  heap (sh s) !! o = Some (CCpy c').
Proof.
  intros Hm Hc Hty. destruct (mk_heap _ _ Hm o) as [E | (c & E & Hf & E2)]; [congruence |].
  assert (c' = mark c) as -> by congruence. unfold is_free in Hf. apply bool_decide_eq_true in Hf. cbn in Hty. congruence.
Qed.

Lemma needs_copy qp0 last c : needs_ckpt qp0 last c = true -> o_type (c_hdr c) = TYPE_COPY.
Proof. unfold needs_ckpt. by destruct (bool_decide_reflect (o_type (c_hdr c) = TYPE_COPY)). Qed.

Lemma ckpt_able_marking M objs s s' : marking s s' -> ckpt_able M objs s -> ckpt_able M objs s'.
Proof.
  intros Hm [A1 A2 A3 A4]. split.
  - intros o Ho. destruct (A1 o Ho) as [c Hc]. destruct (mk_heap _ _ Hm o) as [E | (d & _ & _ & E)]; [exists c | exists (mark d)]; congruence.
  - intros o c Ho Hc Hty. destruct (A2 o c Ho (marking_copy _ _ _ _ Hm Hc Hty) Hty) as (S1 & S2 & [v Hv] & S4).
    split; [done |]. split; [done |]. split; [| by rewrite (mk_rest _ _ Hm)].
    pose proof (mk_vhdrs _ _ Hm (c_act_vhdr (cpy_hdr c))) as E. rewrite Hv in E. by destruct (vhdrs (sh s') !! _).
  - intros qp0 last o1 o2 c1 c2 H1 H2 Hc1 Hc2 Hn1 Hn2. eapply (A3 qp0 last); try done;
      (eapply marking_copy; [exact Hm | done | by eapply needs_copy]).
  - unfold outside, buffer_of in *. by rewrite (mk_buffer _ _ Hm).
Qed.

Lemma objs_nonnull s L : 0 <= t_buffer (tvlog (self s)) -> NULL ∉ set_objs s L.
Proof.
  intros Hb (d & Hin & _)%list_elem_of_bind. apply list_elem_of_fmap in Hin as (c & E & _). by eapply tvlog_obj_pos.
Qed.

Lemma taken_sub f L d : d ∈ taken f L -> d ∈ L.
Proof. apply taken_true. Qed.

Lemma left_over_sub f L d : d ∈ left_over f L -> d ∈ L.
Proof. intros Hd. rewrite <- (taken_left f L). apply elem_of_app. by right. Qed.

Lemma left_over_entries f L : (n_entries (left_over f L) <= n_entries L)%nat.
Proof.
  induction L as [| d L IH]; [done |]. cbn [left_over]. destruct (f d); [| done].
  change (n_entries (d :: L)) with (length (s_entries d) + n_entries L)%nat. lia.
Qed.

(** the walks once the lock is taken *)
Lemma ckpt_walks mx m L s qp0 last `{!Rely (others_ckpt k (set_objs s L))} :
  let t := tvlog (self s) in
  let f := reclaimable RECLAIM_TVLOG_CKPT qp0 (t_prev_head_cnt t) s in
  let head := span_sets f (t_head_cnt t) L in
  let passed := taken (committed_before qp0) (left_over f L) in
  0 <= t_buffer t -> reclaim_ready k mx (n_entries L + m) (set_objs s L) L s -> NoDup (set_objs s L) ->
  ckpt_able mx (set_objs s L) s ->
  exists dirty bytes s', (forall A (K : Z -> Z -> bool -> Z -> M st A),
      (let* ' (new_head, dirty) :=
         reclaim_walk RECLAIM_TVLOG_CKPT qp0 (t_prev_head_cnt t) (t_head_cnt t) (t_tail_cnt t) in
       let* ' (prev_head, (dirty, bytes)) :=
         ckpt_walk RECLAIM_TVLOG_CKPT qp0 last new_head (t_tail_cnt t) dirty in
       K new_head prev_head dirty bytes) s =
      K head (span_sets (committed_before qp0) head (left_over f L)) dirty bytes s') /\
    tvlog (self s') = t /\ (forall w, w ∈ work t passed -> w.2 ∈ set_objs s L) /\
    finished k qp0 last mx m (work t passed) s head (left_over f L) (t_tail_cnt t) s'.
Proof.
  intros t f head passed Hbuf [Hs Ht Ho Htl] Hnd Hable. set (objs := set_objs s L) in *.
  unfold reclaim_walk.
  destruct (reclaim_walk_run k mx (n_entries L + m) objs RECLAIM_TVLOG_CKPT qp0 (t_prev_head_cnt t) (t_tail_cnt t) L s (t_head_cnt t)
    false (tvlog_fuel (t_head_cnt t) (t_tail_cnt t)) Hs Ht Ho ltac:(by eapply fuel_enough)) as (dirty & s3 & E & Hm & (q & Hq & Hroom & Hsto & _) & _).
  fold f in E. fold head in E. pose proof (ckpt_able_marking mx objs s s3 Hm Hable) as [A1 A2 A3 A4].
  pose proof (log_sets_span f _ _ _ _ Hs) as Hsp. fold head in Hsp.
  assert (Hs3 : log_sets s3 head (left_over f L) (t_tail_cnt t)) by (by eapply marking_sets).
  pose proof (marking_tvlog _ _ Hm) as Et.
  assert (Esplit : set_objs s L = set_objs s (taken f L) ++ set_objs s (left_over f L)).
  { unfold set_objs. by rewrite <- bind_app, taken_left. }
  assert (Ework : (work t (left_over f L)).*2 = set_objs s (left_over f L)) by apply work_objs.
  assert (Hin : forall w, w ∈ work t (left_over f L) -> w.2 ∈ objs).
  { intros w Hw. unfold objs. rewrite Esplit. apply elem_of_app. right. rewrite <- Ework. by apply list_elem_of_fmap_2. }
  pose proof (left_over_entries f L) as Hle.
  assert (Hw0 : walked k objs qp0 last mx (n_entries L + m) [] q q s3 s3).
  { split; [done | done | by apply quiet_same; [destruct s3 as [[] ?] | |] | intros; by apply calm_same | by intros w ?%not_elem_of_nil]. }
  destruct (ckpt_walk_run k objs (objs_nonnull s L Hbuf) qp0 last mx q s3 A2 (A3 qp0 last) A4 m (t_tail_cnt t) (left_over f L)
    head [] q s3 (dirty, 0) (tvlog_fuel head (t_tail_cnt t)) Hs3) as ([dirty' bytes] & q' & s' & E' & Hw).
  - eapply walked_less; [| exact Hw0]. lia.
  - cbn [app]. rewrite Et. exact Hin.
  - cbn [app]. rewrite Et. fold t. rewrite Ework. unfold objs in Hnd. rewrite Esplit in Hnd. by apply NoDup_app in Hnd as (_ & _ & ?).
  - by eapply fuel_enough.
  - cbn [app] in Hw. rewrite Et in Hw. fold t passed in Hw. destruct Hw as [W1 _ W3 _ W5].
    exists dirty', bytes, s'. split. { intros A K. mrun E. cbv zeta. unfold ckpt_walk. by mrun E'. }
    split; [by rewrite (quiet_tvlog _ _ _ _ W3) |]. split.
    { intros w Hw. apply Hin. apply list_elem_of_bind in Hw as (d & Hd & Hw). apply list_elem_of_bind. exists d.
      split; [done |]. by eapply taken_sub. }
    split; [| by apply W3]. exists q'. split; [done |]. intros w Hw c Hc Hty.
    apply (W5 w Hw); [| done]. destruct (mk_heap _ _ Hm w.2) as [-> | (d & Ed & Hf & _)]; [done |].
    assert (d = c) as -> by congruence. unfold is_free in Hf. by rewrite Hty in Hf.
Qed.

(** C18. Reclamation of a version log in checkpointing mode, whatever the other
    threads do meanwhile: the head moves over the write sets up to the boundary
    of the last checkpoint; the boundary moves over the longest run of write
    sets that were committed before the grace period [qp0], which are the ones
    that the next reclamation drops; and no copy in them needs a checkpoint any
    more.  A copy that needed one has either been superseded meanwhile, or it is
    detached and an entry of the checkpoint log with its write clock and its
    bytes is its object's current master, and no reader finds the copy as the
    newest version.  The lock and the request are released. *)
Theorem tvlog_reclaim_ckpt mx m L s `{!Rely (others_ckpt k (set_objs s L))} :
  r_tvlog (reclaim (self s)) = RECLAIM_TVLOG_CKPT -> t_reclaim_lock (tvlog (self s)) = 0 ->
  0 <= t_buffer (tvlog (self s)) -> reclaim_ready k mx (n_entries L + m) (set_objs s L) L s ->
  NoDup (set_objs s L) -> ckpt_able mx (set_objs s L) s ->
  exists s1 s', tvlog_reclaim s = Ok (tt, s') /\ interfere s = Ok (tt, s1) /\ others_ckpt k (set_objs s L) s s1 /\
    let t := tvlog (self s) in
    let qp0 := __qp0 (clks (self s1)) in
    let last := __last_ckpt (clks (self s1)) in
    let f := reclaimable RECLAIM_TVLOG_CKPT qp0 (t_prev_head_cnt t) s1 in
    let head := span_sets f (t_head_cnt t) L in
    let prev_head := span_sets (committed_before qp0) head (left_over f L) in
    let passed := taken (committed_before qp0) (left_over f L) in
    tvlog (self s') = t <| t_prev_head_cnt := prev_head |> <| t_head_cnt := head |> <| t_reclaim_lock := 0 |> /\
    t_head_cnt t <= head <= prev_head /\ prev_head <= t_tail_cnt t /\
    r_tvlog (reclaim (self s')) = 0 /\ log_sets s' head (left_over f L) (t_tail_cnt t) /\
    exists q, holds CKPTLOG s' k q /\
      forall w, w ∈ work t passed -> processed k qp0 last q s1 s' w.
Proof.
  intros Hneed Hlock Hbuf Hr Hnd Hable. set (objs := set_objs s L) in *.
  assert (Hrely : Rely others_reclaim).
  { intros x. destruct (interfere_rely (R := others_ckpt k objs) x) as (x' & Ex & Hx). exists x'. split; [done | apply Hx]. }
  destruct (interfere_rely (R := others_ckpt k objs) s) as (s1 & Ei & Hot).
  destruct (try_lock_tvlog_free s Hlock) as (s1' & Ei' & _ & El). assert (s1' = s1) as -> by congruence.
  pose proof (or_tvlog _ _ (oc_base _ _ _ _ Hot)) as Et. destruct (rdy_tomb _ _ _ _ _ _ Hr) as (q0 & Hq0 & _).
  pose proof (reclaim_ready_others _ _ _ _ _ _ _ (oc_base _ _ _ _ Hot) Hr) as [Hs1 Ht1 Ho1 Htl1].
  pose proof (ckpt_able_others _ _ _ _ _ Hot Hq0 Hable) as [C1 C2 C3 C4].
  set (s2 := s1 <| self ::= _ |>) in El. assert (Eobjs : set_objs s2 L = objs) by (unfold objs, set_objs; cbn; by rewrite Et).
  set (qp0 := __qp0 (clks (self s1))). set (last := __last_ckpt (clks (self s1))).
  assert (Hr2 : reclaim_ready k mx (n_entries L + m) (set_objs s2 L) L s2).
  { rewrite Eobjs. split; [by apply (log_sets_same s1) | exact Ht1 | by rewrite Eobjs | exact Htl1]. }
  assert (Hable2 : ckpt_able mx (set_objs s2 L) s2) by (rewrite Eobjs; by split).
  rewrite <- Eobjs in Rely0.
  destruct (ckpt_walks mx m L s2 qp0 last) as (dirty & bytes & s3 & E & Et3 & Hin & Hfin);
    [by cbn; rewrite Et | exact Hr2 | by rewrite Eobjs | exact Hable2 |].
  change (reclaimable RECLAIM_TVLOG_CKPT qp0 (t_prev_head_cnt (tvlog (self s2))) s2) with
    (reclaimable RECLAIM_TVLOG_CKPT qp0 (t_prev_head_cnt (tvlog (self s1))) s1) in *.
  change (t_head_cnt (tvlog (self s2))) with (t_head_cnt (tvlog (self s1))) in *.
  change (t_tail_cnt (tvlog (self s2))) with (t_tail_cnt (tvlog (self s1))) in *.
  change (t_prev_head_cnt (tvlog (self s2))) with (t_prev_head_cnt (tvlog (self s1))) in *.
  change (work (tvlog (self s2))) with (work (tvlog (self s1))) in *. rewrite Et in *.
  set (t := tvlog (self s)) in *. set (f := reclaimable _ _ _ _) in *. set (head := span_sets f _ L) in *.
  set (prev := span_sets _ head _) in *. set (passed := taken _ (left_over f L)) in *.
  destruct (finish_ckpt k (set_objs s2 L) qp0 last mx m (work t passed) s2 (t_head_cnt t) head prev (left_over f L) (t_tail_cnt t)
    dirty bytes s3 Hin Hfin) as (s4 & E4 & F1 & F2 & [(q & (Hq & _) & Hp) Hs4]).
  destruct (tvlog_reclaim_locked RECLAIM_TVLOG_CKPT s s2 s3 s4 head prev dirty bytes ltac:(by right) Hneed El) as [g Eg];
    [intros A K | |]; try (change (tvlog (self s2)) with ((tvlog (self s1)) <| t_reclaim_lock := 1 |>); rewrite Et); [exact (E A K) | exact E4 |].
  exists s1. eexists. split; [exact Eg |]. split; [done |]. split; [done |]. cbv zeta. fold t qp0 last f head prev passed.
  split. { cbn. rewrite F1, Et3. change (tvlog (self s2)) with ((tvlog (self s1)) <| t_reclaim_lock := 1 |>). by rewrite Et. }
  pose proof (log_sets_span f _ _ _ _ Hs1) as Hsp.
  split. { split; [by apply (span_bounds f s1 _ _ (t_tail_cnt t)) |]. by apply (span_bounds _ s1 _ _ (t_tail_cnt t)). }
  split; [by apply (span_bounds _ s1 _ _ (t_tail_cnt t)) |]. split; [exact F2 |].
  split; [by apply (log_sets_same s4) |]. exists q. split; [by eapply holds_ext |]. exact Hp.
Qed.
End CkptReclamation.

(** * Example: the log of [ex_reclaim], whose second write set holds the newest
    version of an object; it is checkpointed *)

Definition ex_ckpt : st :=
  ex_reclaim <| self ::= (fun t => t <| reclaim := mk_reclaim RECLAIM_TVLOG_CKPT 0 |>) |>
    <| sh ::= (fun h => h <| obj_data := <[1048760 := [1; 1; 1; 1; 1; 1; 1; 1]]> {[ 1049016 := [2; 2; 2; 2; 2; 2; 2; 2] ]} |>) |>.

Lemma ex_ckpt_objs : set_objs ex_ckpt ex_sets = [1048760; 1048824; 1049016].
Proof. reflexivity. Qed.

#[local] Instance ex_ckpt_rely : @Rely ex_env (others_ckpt 12 (set_objs ex_ckpt ex_sets)).
Proof. intros s. exists s. split; [done | reflexivity]. Qed.

Lemma ex_ckpt_cell o c : o ∈ [1048760; 1048824; 1049016] -> heap (sh ex_ckpt) !! o = Some (CCpy c) ->
  (o = 1048760 /\ c = ReclaimLog.ex_version 1048632 600 700 400 TYPE_COPY) \/ o_type (c_hdr c) = TYPE_FREE \/
  (o = 1049016 /\ c = ReclaimLog.ex_version 1048888 700 MAX_VERSION 400 TYPE_COPY).
Proof.
  intros Ho Hc. repeat (apply elem_of_cons in Ho as [-> | Ho]; [vm_compute in Hc; injection Hc as <-; tauto |]).
  by apply not_elem_of_nil in Ho.
Qed.

Lemma ex_ckpt_able : ckpt_able 12 64 [1048760; 1048824; 1049016] ex_ckpt.
Proof.
  split.
  - intros o Ho. repeat (apply elem_of_cons in Ho as [-> | Ho]; [eexists; by vm_compute |]). by apply not_elem_of_nil in Ho.
  - intros o c Ho Hc Hty. destruct (ex_ckpt_cell o c Ho Hc) as [[-> ->] | [Hf | [-> ->]]]; [| congruence |];
      (split; [done |]; split; [by vm_compute |]; split; eexists; by vm_compute).
  - assert (Hnot : forall qp0 last, needs_ckpt qp0 last (ReclaimLog.ex_version 1048632 600 700 400 TYPE_COPY) = true ->
      needs_ckpt qp0 last (ReclaimLog.ex_version 1048888 700 MAX_VERSION 400 TYPE_COPY) = true -> False).
    { intros qp0 last. unfold needs_ckpt, is_at_borderline, get_raw_wrt_clk. cbn. rewrite gte_clock_negb.
      change (700 =? MAX_VERSION) with false. cbn. by destruct (lt_clock 700 qp0). }
    intros qp0 last o1 o2 c1 c2 H1 H2 Hc1 Hc2 Hn1 Hn2 _.
    pose proof (needs_copy _ _ _ Hn1) as T1. pose proof (needs_copy _ _ _ Hn2) as T2.
    destruct (ex_ckpt_cell _ _ H1 Hc1) as [[-> ->] | [? | [-> ->]]], (ex_ckpt_cell _ _ H2 Hc2) as [[-> ->] | [? | [-> ->]]];
      try congruence; by destruct (Hnot qp0 last).
  - intros o Ho. unfold buffer_of. change (n_buffer (ckptlog (self ex_ckpt))) with 16384. right.
    repeat (apply elem_of_cons in Ho as [-> | Ho]; [by vm_compute |]). by apply not_elem_of_nil in Ho.
Qed.

Lemma tvlog_reclaim_ckpt_witness :
  exists s' c, @tvlog_reclaim ex_env ex_ckpt = Ok (tt, s') /\ t_head_cnt (tvlog (self s')) = 256 /\
    t_prev_head_cnt (tvlog (self s')) = 448 /\ heap (sh s') !! 1049016 = Some (CCpy c) /\ needs_ckpt 1000 0 c = false.
Proof.
  destruct (@tvlog_reclaim_ckpt ex_env 12 64 0 ex_sets ex_ckpt ex_ckpt_rely ltac:(by vm_compute) ltac:(by vm_compute)
    ltac:(by vm_compute)) as (s1 & s' & E & [= <-] & _ & Ht & _ & _ & _ & _ & q & _ & Hall).
  - split; [by apply (log_sets_same ex_reclaim); [| | | exact ReclaimLog.ex_log_sets] | | done | by vm_compute].
    destruct (ReclaimLog.ex_tomb_ready 6 ltac:(lia)) as (q & H1 & H2 & H3 & H4). exists q.
    split; [by eapply holds_ext |]. split; [exact H2 |]. split; [exact H3 | exact H4].
  - rewrite ex_ckpt_objs. by vm_compute; repeat constructor; set_solver.
  - rewrite ex_ckpt_objs. exact ex_ckpt_able.
  - destruct (Hall (700, 1049016) ltac:(vm_compute; by left) (ReclaimLog.ex_version 1048888 700 MAX_VERSION 400 TYPE_COPY)) as (c & Hc & Hn & _);
      [by vm_compute | done |].
    exists s', c. split; [exact E |]. rewrite Ht. split; [by vm_compute |]. split; [by vm_compute |]. by split.
Defined.
