(* ===== verification/Threads.v ===== *)
(** The lists of live and zombie threads: the thread-list half of [lib/qp.c].
    The list node of a thread is represented by the thread's address. *)
From S2P Require Export Tvlog.

Section Threads.
Context `{Env}.

(** one of the two lists: how to get it and to change it *)
Record tl_sel := mk_tl_sel {
  tl_get : shared -> ts_thread_list;
  tl_mod : (ts_thread_list -> ts_thread_list) -> shared -> shared }.
Definition LIVE := mk_tl_sel g_live_threads (fun f h => h <| g_live_threads ::= f |>).
Definition ZOMBIE := mk_tl_sel g_zombie_threads (fun f h => h <| g_zombie_threads ::= f |>).

Definition mod_tl (T : tl_sel) (f : ts_thread_list -> ts_thread_list) : M shared unit :=
  modify (tl_mod T f).
Definition on_links {A} (m : M links A) : M shared A :=
  zoom list_links (fun l h => h <| list_links := l |>) m.

Definition thread_list_has_waiter (T : tl_sel) : M shared bool := asks (fun h => thread_wait (tl_get T h)).

(** the list head sits at [head] *)
Definition init_thread_list (T : tl_sel) (head : Z) : M shared unit :=
  mod_tl T (fun _ => mk_thread_list false false 0 0 head) ;;;
  on_links (init_ts_list head).

(** [pthread_spin_lock] *)
Definition port_spin_lock (T : tl_sel) : M shared unit :=
  loop spin_bound (fun _ : unit =>
    let* tl := asks (tl_get T) in
    if tl_lock tl then qp_interfere ;;; ret (inl tt)
    else mod_tl T (fun t => t <| tl_lock := true |>) ;;; ret (inr tt)) tt.
Definition port_spin_trylock (T : tl_sel) : M shared bool :=
  let* tl := asks (tl_get T) in
  if tl_lock tl then ret false
  else mod_tl T (fun t => t <| tl_lock := true |>) ;;; ret true.

Definition thread_list_lock (T : tl_sel) : M shared unit := port_spin_lock T.
Definition thread_list_lock_force (T : tl_sel) : M shared unit :=
  let* ok := port_spin_trylock T in
  if negb ok then mod_tl T (fun t => t <| thread_wait := true |>) ;;; port_spin_lock T
  else ret tt.
Definition thread_list_unlock (T : tl_sel) : M shared unit :=
  mod_tl T (fun t => t <| thread_wait := false |>) ;;;
  mod_tl T (fun t => t <| tl_lock := false |>).

(** [thread_list_add]: the answer is the [tid] that the thread gets *)
Definition thread_list_add (T : tl_sel) (self : Z) : M shared Z :=
  thread_list_lock_force T ;;;
  let* tl := asks (tl_get T) in
  mod_tl T (fun t => t <| cur_tid := u32 (cur_tid t + 1) |> <| tl_num := u32 (tl_num t + 1) |>) ;;;
  on_links (ts_list_add self (tl_head tl)) ;;;
  thread_list_unlock T ;;;
  ret (cur_tid tl).

Definition thread_list_del_unsafe (T : tl_sel) (self : Z) : M shared unit :=
  mod_tl T (fun t => t <| tl_num := u32 (tl_num t - 1) |>) ;;;
  on_links (ts_list_del self) ;;;
  on_links (set_prev self NULL) ;;;
  on_links (set_next self NULL).

Definition thread_list_del (T : tl_sel) (self : Z) : M shared unit :=
  thread_list_lock_force T ;;; thread_list_del_unsafe T self ;;; thread_list_unlock T.

Definition thread_list_rotate_left_unsafe (T : tl_sel) : M shared unit :=
  let* tl := asks (tl_get T) in on_links (ts_list_rotate_left (tl_head tl)).

Definition thread_list_empty (T : tl_sel) : M shared bool :=
  thread_list_lock_force T ;;;
  let* tl := asks (tl_get T) in
  let* r := on_links (ts_list_empty (tl_head tl)) in
  thread_list_unlock T ;;;
  ret r.

(** [thread_list_for_each_safe]: the successor is read before the body runs;
    the body goes on with [inl] or leaves the loop with [inr] *)
Definition thread_list_for_each_safe {A B} (T : tl_sel) (body : Z -> A -> M shared (A + B)) (a : A) :
    M shared (A + B) :=
  let* tl := asks (tl_get T) in
  let head := tl_head tl in
  let* pos := on_links (node_next head) in
  let* n := on_links (node_next pos) in
  let* fuel := asks (fun h => size (list_links h)) in
  loop (S fuel) (fun '(pos, n, a) =>
    if pos =? head then ret (inr (inl a))
    else
      let* r := body pos a in
      match r with
      | inl a' => let* n' := on_links (node_next n) in ret (inl (n, n', a'))
      | inr b => ret (inr (inr b))
      end) (pos, n, a).

(** a walk that is never left early and accumulates nothing *)
Definition thread_list_iter (T : tl_sel) (body : Z -> M shared unit) : M shared unit :=
  let* _ := thread_list_for_each_safe (B := Empty_set) T (fun p _ => body p ;;; ret (inl tt)) tt in
  ret tt.

(** * Threads by address *)

Definition get_thread (p : Z) : M shared ts_thread_struct := fun h => deref (threads h !! p) h.
Definition mod_thread (p : Z) (f : ts_thread_struct -> ts_thread_struct) : M shared unit :=
  let* t := get_thread p in
  modify (fun h => h <| threads ::= (fun m => <[p := f t]> m) |>).

(** run a library call of the thread at [p]; its structure is written back
    unless the call freed it *)
Definition with_thread {A} (p : Z) (m : M st A) : M shared A := fun h =>
  match threads h !! p with
  | None => Fault UB
  | Some t =>
      match m (mk_st t h) with
      | Ok (a, s) => Ok (a, (sh s) <| threads ::= alter (fun _ => self s) p |>)
      | Fault e => Fault e
      end
  end.

Definition register_thread : M st unit :=
  let* p := self! self_ptr in
  let* id := on_sh (thread_list_add LIVE p) in
  mod_self (fun t => t <| tid := id |>).
Definition deregister_thread : M st unit :=
  let* p := self! self_ptr in on_sh (thread_list_del LIVE p).
Definition zombinize_thread : M st unit :=
  let* p := self! self_ptr in
  let* id := on_sh (thread_list_add ZOMBIE p) in
  mod_self (fun t => t <| tid := id |>).

End Threads.

(** * Facts: walking a list *)

Section ThreadFacts.
Context `{Env}.

(** the list of [T] holds the threads [l] and its lock is free *)
Definition list_ok (T : tl_sel) (h : shared) (l : list Z) : Prop :=
  dll (list_links h) (tl_head (tl_get T h)) l.

Lemma on_links_next a b h :
  (l_next <$> list_links h !! a) = Some b -> on_links (node_next a) h = Ok (b, h).
Proof. intros E. unfold on_links, zoom. rewrite (node_next_run _ _ _ E). by destruct h. Qed.

(** the rule for [thread_list_for_each_safe]: an invariant on the threads
    still to visit, kept by a body that leaves the threads on the list and its
    head where they are *)
Section ForEach.
Context {A B : Type} (T : tl_sel) (body : Z -> A -> M shared (A + B)) (l : list Z).

Definition stays (h h' : shared) : Prop := list_ok T h' l /\ tl_head (tl_get T h') = tl_head (tl_get T h).

Section Rule.
Context (I : list Z -> A -> shared -> Prop) (Q : B -> shared -> Prop).
Context (Hbody : forall p rest a h, p ∈ l -> I (p :: rest) a h -> list_ok T h l ->
   exists r h', body p a h = Ok (r, h') /\ stays h h' /\
     match r with inl a' => I rest a' h' | inr b => Q b h' end).

Lemma for_each_loop head rest :
  forall before n a h fuel, l = before ++ rest -> list_ok T h l -> tl_head (tl_get T h) = head ->
    I rest a h -> (length rest < fuel)%nat ->
    (rest <> [] -> n = default head (hd_error (List.tl rest))) ->
    exists r h', loop fuel (fun '(pos, n, a) =>
        if pos =? head then ret (inr (inl a))
        else
          let* r := body pos a in
          match r with
          | inl a' => let* n' := on_links (node_next n) in ret (inl (n, n', a'))
          | inr b => ret (inr (inr b))
          end) (default head (hd_error rest), n, a) h = Ok (r, h') /\ stays h h' /\
      match r with inl a' => I [] a' h' | inr b => Q b h' end.
Proof.
  induction rest as [| p rest IH]; intros before n a h fuel El Hl Hhd HI Hf Hn.
  - destruct fuel; [lia |]. cbn. rewrite Z.eqb_refl. exists (inl a), h. by split.
  - destruct fuel as [| fuel]; [lia |]. cbn [loop hd_error default]. unfold id.
    assert (Hp : p <> head).
    { destruct Hl as [Hnd _]. rewrite Hhd, El in Hnd. inversion Hnd as [| ? ? Hni _].
      intros ->. apply Hni. elems. }
    rewrite (proj2 (Z.eqb_neq _ _)) by done. rewrite bind_assoc.
    destruct (Hbody p rest a h ltac:(rewrite El; elems) HI Hl) as (r & h1 & E & [Hl1 Hh1] & Hr).
    mrun E. destruct r as [a' | b].
    + rewrite (Hn ltac:(done)). cbn [List.tl].
      assert (Hex : exists x, (l_next <$> list_links h1 !! default head (hd_error rest)) = Some x /\
                (rest <> [] -> x = default head (hd_error (List.tl rest)))).
      { pose proof Hl1 as Hl2. unfold list_ok in Hl2. rewrite Hh1, Hhd in Hl2. destruct rest as [| q rest']; cbn.
        - destruct (dll_first _ _ _ Hl2) as [H1 _]. by eexists.
        - rewrite El in Hl2. rewrite cons_middle, app_assoc in Hl2.
          rewrite (dll_next _ _ _ _ _ Hl2). by eexists. }
      destruct Hex as (x & Hx & Hx'). rewrite bind_assoc. rewrite (bind_run _ _ _ _ _ (on_links_next _ _ _ Hx)). msteps.
      destruct (IH (before ++ [p]) x a' h1 fuel) as (r & h' & E' & [? ?] & Hr'); try done.
      { by rewrite <- app_assoc. } { congruence. } { cbn in Hf. lia. }
      exists r, h'. split; [exact E' |]. split; [| done]. split; [done | congruence].
    + msteps. exists (inr b), h1. by split.
Qed.

Lemma for_each_stays_rule a h :
  list_ok T h l -> I l a h ->
  exists r h', thread_list_for_each_safe T body a h = Ok (r, h') /\ stays h h' /\
    match r with inl a' => I [] a' h' | inr b => Q b h' end.
Proof.
  intros Hl HI. unfold thread_list_for_each_safe. msteps.
  destruct (dll_first _ _ _ Hl) as [Hn _].
  rewrite (bind_run _ _ _ _ _ (on_links_next _ _ _ Hn)).
  set (head := tl_head (tl_get T h)) in *.
  assert (Hnn : exists x, (l_next <$> list_links h !! default head (hd_error l)) = Some x /\
            (l <> [] -> x = default head (hd_error (List.tl l)))).
  { destruct l as [| x l']; [by eexists |]. cbn. rewrite (dll_next _ head [] x l' Hl). by eexists. }
  destruct Hnn as (x & Hx & Hx').
  rewrite (bind_run _ _ _ _ _ (on_links_next _ _ _ Hx)). msteps.
  apply (for_each_loop head l []); try done. pose proof (dll_length _ _ _ Hl). lia.
Qed.
End Rule.

(** the same with a body that leaves the list alone *)
Context (I : list Z -> A -> shared -> Prop) (Q : B -> shared -> Prop).
Context (Hbody : forall p rest a h, p ∈ l -> I (p :: rest) a h -> list_ok T h l ->
   exists r h', body p a h = Ok (r, h') /\ list_links h' = list_links h /\ tl_get T h' = tl_get T h /\
     match r with inl a' => I rest a' h' | inr b => Q b h' end).

Lemma for_each_safe_rule a h :
  list_ok T h l -> I l a h ->
  exists r h', thread_list_for_each_safe T body a h = Ok (r, h') /\
    list_links h' = list_links h /\ tl_get T h' = tl_get T h /\
    match r with inl a' => I [] a' h' | inr b => Q b h' end.
Proof.
  intros Hl HI. set (same := fun h' => list_links h' = list_links h /\ tl_get T h' = tl_get T h).
  destruct (for_each_stays_rule (fun rest a h' => same h' /\ I rest a h') (fun b h' => same h' /\ Q b h')) with (a := a) (h := h)
    as (r & h' & E & _ & Hr); try done.
  - intros p rest a1 h1 Hp [[E1 E2] H1] Hl1. destruct (Hbody p rest a1 h1 Hp H1 Hl1) as (r & h2 & E & F1 & F2 & Hr).
    exists r, h2. split; [exact E |]. split; [unfold stays, list_ok; by rewrite F1, F2 |].
    unfold same. rewrite F1, F2. by destruct r.
  - exists r, h'. split; [exact E |]. destruct r; destruct Hr as [[? ?] ?]; by split.
Qed.
End ForEach.

(** the rule for walks that are never left early *)
Lemma list_iter_rule (T : tl_sel) (body : Z -> M shared unit) l (I : list Z -> shared -> Prop) :
  (forall p rest h, p ∈ l -> I (p :: rest) h -> list_ok T h l ->
     exists h', body p h = Ok (tt, h') /\ list_links h' = list_links h /\ tl_get T h' = tl_get T h /\
       I rest h') ->
  forall h, list_ok T h l -> I l h ->
  exists h', thread_list_iter T body h = Ok (tt, h') /\ list_links h' = list_links h /\
    tl_get T h' = tl_get T h /\ I [] h'.
Proof.
  intros Hbody h Hl HI. unfold thread_list_iter.
  destruct (for_each_safe_rule (B := Empty_set) T (fun p _ => body p ;;; ret (inl tt)) l
              (fun rest _ h => I rest h) (fun _ _ => False)) with (a := tt) (h := h)
    as (r & h' & E & Hlk & Htl & Hr); try done.
  - intros p rest [] h0 Hp H0 Hl0. destruct (Hbody p rest h0 Hp H0 Hl0) as (h1 & E1 & ? & ? & ?).
    exists (inl tt), h1. split; [by mrun E1 |]. by split.
  - mrun E. destruct r as [[] | []]. exists h'. by split.
Qed.

(** taking and releasing the free lock of a list *)
Lemma thread_list_lock_free T h :
  (0 < spin_bound)%nat -> tl_lock (tl_get T h) = false ->
  thread_list_lock T h = Ok (tt, tl_mod T (fun t => t <| tl_lock := true |>) h).
Proof.
  intros Hs Hf. unfold thread_list_lock, port_spin_lock.
  destruct spin_bound as [| n]; [lia |]. cbn [loop]. msteps. rewrite Hf. by msteps.
Qed.

(** what the list operations rely on of a list selector: it is a field of the
    shared memory of its own *)
Class ListSel (T : tl_sel) : Prop := {
  sel_get_mod f h : tl_get T (tl_mod T f h) = f (tl_get T h);
  sel_links_mod f h : list_links (tl_mod T f h) = list_links h;
  sel_get_links l h : tl_get T (h <| list_links := l |>) = tl_get T h;
  sel_threads_mod f h : threads (tl_mod T f h) = threads h }.
#[export] Instance live_sel : ListSel LIVE.
Proof. by split. Qed.
#[export] Instance zombie_sel : ListSel ZOMBIE.
Proof. by split. Qed.

(** the abstract thread list: the threads, how many there are and the next id *)
Record alist := mk_alist { al_threads : list Z; al_num : Z; al_next_id : Z }.

(** [h] implements it in the list of [T], with a free lock that nobody waits for *)
Record implements (T : tl_sel) (h : shared) (a : alist) : Prop := {
  impl_list : list_ok T h (al_threads a);
  impl_num : tl_num (tl_get T h) = al_num a;
  impl_id : cur_tid (tl_get T h) = al_next_id a;
  impl_lock : tl_lock (tl_get T h) = false }.

Lemma on_links_run {A} (m : M links A) h a l :
  m (list_links h) = Ok (a, l) -> on_links m h = Ok (a, h <| list_links := l |>).
Proof. intros E. unfold on_links, zoom. by rewrite E. Qed.

Lemma lock_force_free `{ListSel T} h :
  tl_lock (tl_get T h) = false ->
  thread_list_lock_force T h = Ok (tt, tl_mod T (fun t => t <| tl_lock := true |>) h).
Proof. intros Hf. unfold thread_list_lock_force, port_spin_trylock. msteps. rewrite Hf. by msteps. Qed.

(** [thread_list_add] implements the abstract list: the thread is put in
    front, gets the next id, the counters grow (modulo [2^32]) and the lock is
    free again. *)
Theorem thread_list_add_refines (T : tl_sel) `{!ListSel T} h a p :
  implements T h a -> p ∉ tl_head (tl_get T h) :: al_threads a -> is_Some (list_links h !! p) ->
  exists h', thread_list_add T p h = Ok (al_next_id a, h') /\
    implements T h' (mk_alist (p :: al_threads a) (u32 (al_num a + 1)) (u32 (al_next_id a + 1))).
Proof.
  intros [Hl Hn Hi Hf] Hp Hm. unfold thread_list_add. mrun (lock_force_free h Hf). unfold mod_tl. msteps.
  rewrite sel_get_mod. cbn [upd tl_head cur_tid].
  set (h1 := tl_mod T _ (tl_mod T _ h)).
  destruct (ts_list_add_dll (list_links h1) (tl_head (tl_get T h)) (al_threads a) p) as (m' & E & Hd & _).
  { unfold h1. rewrite !sel_links_mod. exact Hl. }
  { done. }
  { unfold h1. by rewrite !sel_links_mod. }
  mrun (on_links_run _ h1 _ _ E). unfold thread_list_unlock, mod_tl. msteps. rewrite Hi.
  eexists. split; [reflexivity |].
  split; unfold list_ok; rewrite ?sel_links_mod, !sel_get_mod, ?sel_get_links; unfold h1; rewrite ?sel_get_mod; cbn.
  - exact Hd.
  - by rewrite Hn.
  - by rewrite Hi.
  - done.
Qed.

Lemma dll_insert_ne m head l e n : dll m head l -> e ∉ head :: l -> dll (<[e := n]> m) head l.
Proof.
  intros [Hnd Hf] He. split; [done |]. rewrite Forall_forall in *. intros ab Hab.
  pose proof (adj_fst_in (head :: l) head ab Hab) as H1.
  pose proof (adj_snd_in (l ++ [head]) head ab Hab) as H2.
  unfold linked. rewrite !lookup_insert_ne; [by apply Hf | |]; intros ->; apply He; [elems | done].
Qed.

Lemma set_links_run m e v w :
  is_Some (m !! e) -> exists n, set_prev e v m = Ok (tt, <[e := n]> m) /\
    exists n', set_next e w (<[e := n]> m) = Ok (tt, <[e := n']> m).
Proof.
  intros [n En]. eexists. split; [by apply set_prev_run |].
  eexists. erewrite set_next_run by apply lookup_insert_eq. by rewrite insert_insert_eq.
Qed.

(** C27. [thread_list_del] removes exactly its thread, wherever it is in the list,
    and releases the lock. *)
Theorem thread_list_del_refines (T : tl_sel) `{!ListSel T} h l1 p l2 n id :
  implements T h (mk_alist (l1 ++ p :: l2) n id) ->
  exists h', thread_list_del T p h = Ok (tt, h') /\
    implements T h' (mk_alist (l1 ++ l2) (u32 (n - 1)) id).
Proof.
  intros [Hl Hn Hi Hf]. cbn in Hl, Hn, Hi. unfold thread_list_del. mrun (lock_force_free h Hf).
  unfold thread_list_del_unsafe, mod_tl. msteps.
  set (h1 := tl_mod T _ (tl_mod T _ h)).
  assert (Hl1 : dll (list_links h1) (tl_head (tl_get T h)) (l1 ++ p :: l2)) by (unfold h1; by rewrite !sel_links_mod).
  destruct (ts_list_del_dll _ _ _ _ _ Hl1) as (m' & E & Hd & Hdom).
  mrun (on_links_run _ h1 _ _ E).
  destruct (set_links_run m' p NULL NULL) as (x & E1 & y & E2).
  { apply Hdom. eapply dll_in_dom; [exact Hl1 | elems]. }
  set (h2 := h1 <| list_links := m' |>).
  set (h3 := h2 <| list_links := <[p := x]> m' |>). set (h4 := h3 <| list_links := <[p := y]> m' |>).
  assert (R1 : on_links (set_prev p NULL) h2 = Ok (tt, h3)) by (by apply on_links_run).
  assert (R2 : on_links (set_next p NULL) h3 = Ok (tt, h4)) by (by apply on_links_run).
  change (upd list_links _ h1) with h2. msteps. mrun R1. msteps. mrun R2.
  unfold thread_list_unlock, mod_tl. msteps. eexists. split; [reflexivity |].
  assert (Hp : p ∉ tl_head (tl_get T h) :: l1 ++ l2).
  { destruct Hl as [(Hh & Hnd)%NoDup_cons _]. apply NoDup_app in Hnd as (_ & Hdis & [Hp2 _]%NoDup_cons).
    intros [-> | [Hp | Hp]%elem_of_app]%elem_of_cons; [elems | apply (Hdis p Hp); elems | done]. }
  split; unfold list_ok; rewrite ?sel_links_mod, !sel_get_mod, ?sel_get_links; unfold h4, h3, h2;
    rewrite ?sel_get_links; unfold h1; rewrite ?sel_get_mod; cbn.
  - by apply dll_insert_ne.
  - by rewrite Hn.
  - done.
  - done.
Qed.
End ThreadFacts.

(** * Examples *)

Lemma ex_list_ok : list_ok LIVE ex_shared [8192].
Proof. split; [repeat constructor; set_solver |]. repeat constructor; by vm_compute. Qed.

Lemma ex_implements : implements LIVE ex_shared (mk_alist [8192] 1 1).
Proof. split; [exact ex_list_ok | done | done | done]. Qed.

Lemma thread_list_add_refines_witness :
  exists h', @thread_list_add ex_env LIVE 576 ex_shared = Ok (1, h') /\
    implements LIVE h' (mk_alist [576; 8192] 2 2).
Proof.
  exact (@thread_list_add_refines ex_env LIVE live_sel ex_shared _ 576 ex_implements
    ltac:(by vm_compute; set_solver) ltac:(by eexists)).
Defined.

Lemma thread_list_del_refines_witness :
  exists h', @thread_list_del ex_env LIVE 8192 ex_shared = Ok (tt, h') /\
    implements LIVE h' (mk_alist [] 0 1).
Proof. exact (@thread_list_del_refines ex_env LIVE live_sel ex_shared [] 8192 [] 1 1 ex_implements). Defined.
