(* ===== verification/Timestone.v ===== *)
(** The transactional interface: [lib/timestone.c] (its start-up, [ts_init],
    is in [Recovery.v]). *)
From S2P Require Export Isolation Threads.

Section Timestone.
Context `{Env}.

(** * Threads *)

Definition ts_thread_alloc : M shared Z :=
  let* a := sh_alloc in
  when (negb (a =? NULL)) (modify (fun h => h <| threads ::= (fun m => <[a := zero_thread a]> m) |>
                                                <| list_links ::= (fun m => <[a := mk_list NULL NULL]> m) |>)) ;;;
  ret a.

(** both logs are completely reclaimed *)
Definition logs_empty : M st bool :=
  let* t := asks self in
  ret ((tvlog_used (tvlog t) =? 0) && (nvlog_used (ckptlog t) =? 0)).

Definition port_free_thread : M st unit :=
  let* p := self! self_ptr in
  mod_sh (fun h => h <| threads ::= delete p |> <| list_links ::= delete p |>) ;;;
  note_free p.

Definition ts_thread_free : M st unit :=
  mod_self (fun t => t <| live_status := THREAD_DEAD_ZOMBIE |>) ;;;
  let* e := logs_empty in
  when e
    (stat_thread_merge ;;;
     tvtlog_destroy ;;;
     ckptlog_destroy ;;;
     oplog_destroy ;;;
     set_deinit TX_ALLOC_SET ;;;
     set_deinit TX_FREE_SET ;;;
     set_deinit CKPT_FREE_SET ;;;
     port_free_thread).

(** the steps of [ts_thread_init_x] that can fail, in order: on a failure the
    rest is skipped *)
Definition try_step (m : M st Z) (rest : M st unit) : M st unit :=
  let* rc := m in if rc =? 0 then rest else ret tt.

Definition ts_thread_init_x (flags : nvlog_status) : M st unit :=
  let* p := self! self_ptr in
  mod_self (fun _ => zero_thread p) ;;;
  mod_sh (fun h => h <| list_links ::= (fun m => <[p := mk_list NULL NULL]> m) |>) ;;;
  mod_self (fun t => t <| clks ::= (fun k => k <| __last_ckpt := MIN_VERSION |>
                                              <| __min_ckpt_reclaimed := MAX_VERSION |>) |>) ;;;
  try_step (set_init TX_ALLOC_SET) (
  try_step (set_init TX_FREE_SET) (
  try_step (set_init CKPT_FREE_SET) (
  try_step isolation_init (
  try_step tvlog_create (
    mod_self (fun t => t <| in_recovery_mode := bool_decide (flags = STATUS_NVLOG_RECOVERY) |>) ;;;
    oplog_create TS_OPLOG_SIZE flags ;;;
    ckptlog_create TS_CKPTLOG_SIZE flags ;;;
    register_thread))))).

Definition ts_thread_init : M st unit := ts_thread_init_x STATUS_NVLOG_NORMAL.

Definition try_reclaim_logs : M st unit :=
  let* r := self! reclaim in
  when (negb (requested r =? 0))
    ((let* r := self! reclaim in when (negb (r_tvlog r =? 0)) tvlog_reclaim) ;;;
     (let* r := self! reclaim in when (negb (r_ckptlog r =? 0)) ckptlog_reclaim)).

Definition ts_thread_finish : M st unit :=
  try_reclaim_logs ;;;
  oplog_reclaim RECLAIM_OPLOG_NORMAL ;;;
  mod_self (fun t => t <| qp_info ::= (fun q => q <| need_wait := false |>) |>) ;;;
  deregister_thread ;;;
  let* e := logs_empty in
  if negb e then
    mod_self (fun t => t <| live_status := THREAD_LIVE_ZOMBIE |>) ;;;
    zombinize_thread
  else
    isolation_deinit ;;;
    tvtlog_destroy ;;;
    ckptlog_destroy ;;;
    oplog_destroy ;;;
    stat_thread_merge.

(** * Objects *)

Definition ts_stat_alloc_act_obj (size : Z) : M st unit :=
  stat_thread_acc n_alloc_act_obj_bytes (u64 (sizeof_act_hdr_struct + size)).

Definition ts_update_index (obj index : Z) : M st unit :=
  let* a := get_act_nvhdr obj in
  put_ahs a (fun h => h <| act_nvhdr ::= (fun n => n <| nvh_index := index |>) |>).

Definition ts_get_index (obj : Z) : M st Z :=
  let* a := get_act_nvhdr obj in
  let* h := get_ahs a in
  ret (nvh_index (act_nvhdr h)).

(** [int] arithmetic of the sizes; the pointer arithmetic is [size_t] *)
Definition array_step (size : Z) : Z := u64 (sizeof_act_hdr_struct + s32 size).

Definition ts_get_base_addr (obj : Z) : M st Z :=
  let* obj := get_act_nvhdr obj in
  let* ahs := get_ahs obj in
  let curr_index := nvh_index (act_nvhdr ahs) in
  if curr_index =? 0 then ret obj
  else
    let size := obj_size (a_hdr ahs) in
    let base_obj := u64 (obj - array_step size * curr_index) in
    let* a := get_act_nvhdr base_obj in
    let* _ := get_ahs a in
    ret base_obj.

Definition ts_get_offset (obj index : Z) : M st Z :=
  let* base_obj := ts_get_base_addr obj in
  let* hd := vobj_to_obj_hdr base_obj in
  let offset := u64 (base_obj + array_step (obj_size hd) * index) in
  get_act_nvhdr offset ;;;
  ret offset.

Definition ts_alloc (size : Z) : M st Z :=
  let* ahs := alloc in
  if ahs =? NULL then ret NULL
  else
    let obj := ahs + sizeof_act_hdr_struct in
    mod_sh (fun h => h
      <| heap ::= (fun m => <[obj := CAct (mk_ahs (mk_act_nvhdr NULL INVALID_GEN_ID 0)
                                            (mk_obj_hdr (u32 size) 0 TYPE_ACTUAL STATUS_NONE))]> m) |>
      <| obj_data ::= (fun d => <[obj := []]> d) |>) ;;;
    ret obj.

Definition ts_free (obj : Z) : M st unit :=
  if obj =? NULL then ret tt
  else
    let* p_act := get_org_act_obj obj in
    set_push TX_FREE_SET p_act ;;;
    ret tt.
(** the case [self == NULL] *)
Definition ts_free_no_thread (obj : Z) : M st unit :=
  if obj =? NULL then ret tt else get_ahs obj ;;; nvm_free_obj obj.

(** * Transactions *)

Definition ts_begin (lv : isolation_level) : M st unit :=
  try_reclaim_logs ;;;
  tvlog_reclaim_below_high_watermark ;;;
  isolation_reset lv ;;;
  mod_self (fun t => t <| run_cnt ::= (fun c => u32 (c + 1)) |>) ;;;
  let* c := st_get_clock_relaxed in
  mod_self (fun t => t <| local_clk := c |>) ;;;
  stat_thread_inc n_starts.

(** [while ((ahs = ptrset_pop(tx_alloc_set))) body] *)
Definition pop_all (P : set_sel) (body : Z -> M st unit) : M st unit :=
  let* ps := asks (fun s => set_get P (self s)) in
  loop (S (Z.to_nat (num_ptrs ps))) (fun _ : unit =>
    let* p := set_pop P in
    if p =? NULL then ret (inr tt) else body p ;;; ret (inl tt)) tt.

Definition flush_new_act : M st unit :=
  pop_all TX_ALLOC_SET (fun ahs =>
    let* a := get_ahs (ahs + sizeof_act_hdr_struct) in
    let size := u64 (sizeof_act_hdr_struct + obj_size (a_hdr a)) in
    mod_sh (fun h => h <| sh_pm ::= flush_to_nvm ahs (u32 size) |>) ;;;
    stat_thread_acc n_flush_new_act_bytes size).

Definition free_new_act : M st unit :=
  pop_all TX_ALLOC_SET (fun ahs => nvm_free_obj (ahs + sizeof_act_hdr_struct)).

Definition ts_abort : M st unit :=
  mod_self (fun t => t <| run_cnt ::= (fun c => u32 (c + 1)) |>) ;;;
  let* t := self! tvlog in
  when (negb (cur_wrt_set t =? NULL))
    (tvlog_abort ;;; mod_self (fun t => t <| is_write_detected := false |>)) ;;;
  free_new_act ;;;
  try_reclaim_logs ;;;
  oplog_reclaim RECLAIM_OPLOG_NORMAL ;;;
  stat_thread_inc n_aborts.

Definition ts_end : M st bool :=
  let* rec := self! in_recovery_mode in
  if rec : bool then ret true
  else
    let* valid := validate_read_set in
    if negb valid then
      ts_abort ;;; stat_thread_inc n_aborts_validation ;;; ret false
    else
      let* w := self! is_write_detected in
      when w
        (let* t := asks self in
         tvlog_commit (local_clk t) (op_info t) ;;;
         mod_self (fun t => t <| is_write_detected := false |>)) ;;;
      mod_self (fun t => t <| run_cnt ::= (fun c => u32 (c + 1)) |>) ;;;
      flush_new_act ;;;
      try_reclaim_logs ;;;
      stat_thread_inc n_finish ;;;
      ret true.

(** the walk of [ts_deref] down the version chain from [p_copy]: the version
    to return, or NULL to fall back to the current master *)
Definition deref_walk (local last_ckpt p_copy : Z) : M st Z :=
  let* n := asks (fun s => size (heap (sh s))) in
  loop (S n) (fun p_copy =>
    let* c := get_chs p_copy in
    let* wrt_clk := get_wrt_clk c local in
    if lt_clock wrt_clk local then ret (inr p_copy)
    else
      let* c := get_chs p_copy in
      if lt_clock (wrt_clk_next (cpy_hdr c)) last_ckpt then ret (inr NULL)
      else if c_copy (cpy_hdr c) =? NULL then ret (inr NULL)
      else ret (inl (c_copy (cpy_hdr c)))) p_copy.

Definition ts_deref (obj : Z) : M st Z :=
  if obj =? NULL then ret NULL
  else
    let* act := is_obj_actual obj in
    if negb act then ret obj
    else
      let* p_act_vhdr := get_act_vhdr obj in
      if p_act_vhdr =? NULL then
        read_set_add p_act_vhdr NULL obj ;;; ret obj
      else
        let* v := get_vhdr p_act_vhdr in
        let p_latest := v_copy v in
        let* t := asks self in
        let* found := (if negb (p_latest =? NULL)
                       then deref_walk (local_clk t) (__last_ckpt (clks t)) p_latest
                       else ret NULL) in
        if negb (found =? NULL) then
          read_set_add p_act_vhdr p_latest found ;;; ret found
        else
          let* v := get_vhdr p_act_vhdr in
          let obj := np_cur_act v in
          read_set_add p_act_vhdr p_latest obj ;;;
          ret obj.

Definition try_lock_obj (p_act_vhdr p_old_copy p_new_copy : Z) : M st bool :=
  let* v := get_vhdr p_act_vhdr in
  if negb (v_lock v =? NULL) || negb (v_copy v =? p_old_copy) then ret false
  else
    let* ok := smp_cas (let* v := get_vhdr p_act_vhdr in ret (v_lock v))
                 (fun x => put_vhdr p_act_vhdr (fun v => v <| v_lock := x |>)) NULL p_new_copy in
    if negb ok then ret false
    else
      let* v := get_vhdr p_act_vhdr in
      if negb (v_copy v =? p_old_copy) then
        put_vhdr p_act_vhdr (fun v => v <| v_lock := NULL |>) ;;; ret false
      else ret true.

(** [smp_cas16b] on the volatile header pointer and the generation of an
    object's header *)
Definition cas_act_nvhdr (obj old_vhdr old_gen new_vhdr new_gen : Z) : M st bool :=
  interfere ;;;
  let* a := get_ahs obj in
  if (nvh_act_vhdr (act_nvhdr a) =? old_vhdr) && (gen_id (act_nvhdr a) =? old_gen) then
    put_ahs obj (fun h => h <| act_nvhdr ::= (fun n => n <| nvh_act_vhdr := new_vhdr |>
                                                         <| gen_id := new_gen |>) |>) ;;;
    ret true
  else ret false.

Definition try_alloc_act_vhdr (obj : Z) : M st bool :=
  let* nv := get_act_nvhdr obj in
  let* a := get_ahs nv in
  let old := act_nvhdr a in
  if negb (nvh_act_vhdr old =? NULL) then ret false
  else
    let* p_act_vhdr := alloc_act_vhdr obj in
    let* g := sh! __g_gen_id in
    if p_act_vhdr =? NULL then ret false
    else
      let* a := get_ahs nv in
      let* lost :=
        (if negb (nvh_act_vhdr (act_nvhdr a) =? NULL) then ret true
         else let* ok := cas_act_nvhdr nv NULL (gen_id old) p_act_vhdr g in ret (negb ok)) in
      if lost then free_act_vhdr p_act_vhdr ;;; ret false else ret true.

(** the volatile header of [obj], allocated if need be; NULL when that fails *)
Definition act_vhdr_for_lock (obj : Z) : M st Z :=
  let* p := get_act_vhdr obj in
  if p =? NULL then
    let* ok := try_alloc_act_vhdr obj in
    if negb ok then ret NULL
    else
      let* nv := get_act_nvhdr obj in
      let* a := get_ahs nv in
      ret (nvh_act_vhdr (act_nvhdr a))
  else ret p.

(** an object that is locked already: the nested lock of [TS_NESTED_LOCKING] *)
Definition lock_again (p_lock : Z) : M st (option Z) :=
  if TS_NESTED_LOCKING then
    let* hd := vobj_to_obj_hdr p_lock in
    if bool_decide (o_type hd = TYPE_FREE) then ret None
    else
      let* ws := vchs_obj_to_ws p_lock in
      let* w := get_ws ws in
      let* me := self! self_ptr in
      if negb (me =? ws_thread w) then ret None else ret (Some p_lock)
  else ret None.

(** no version newer than the snapshot is at the head of the chain *)
Definition version_in_snapshot (p_old_copy : Z) : M st bool :=
  if p_old_copy =? NULL then ret true
  else
    let* c := get_chs p_old_copy in
    let* local := self! local_clk in
    let* w := get_wrt_clk c local in
    ret (negb (gte_clock w local)).

(** append the new copy to the log, lock the object with it and fill it *)
Definition lock_new_copy (p_act_vhdr p_old_copy size : Z) : M st (option Z) :=
  let* ' (p_new_copy, bogus) := tvlog_append_begin p_act_vhdr (u32 size) in
  let* ok := try_lock_obj p_act_vhdr p_old_copy p_new_copy in
  if negb ok then tvlog_append_abort p_new_copy ;;; ret None
  else
    (if p_old_copy =? NULL then
       let* v := get_vhdr p_act_vhdr in memcpy_obj p_new_copy (np_cur_act v) size
     else memcpy_obj p_new_copy p_old_copy size) ;;;
    tvlog_append_end p_new_copy bogus ;;;
    mod_self (fun t => t <| is_write_detected := true |>) ;;;
    write_set_add p_new_copy ;;;
    ret (Some p_new_copy).

(** [_ts_try_lock]: [Some] of the copy to write to, or [None] for failure *)
Definition _ts_try_lock (obj size : Z) : M st (option Z) :=
  let* stale := stale_read_occurred in
  if stale : bool then ret None
  else
    let* p_act_vhdr := act_vhdr_for_lock obj in
    if p_act_vhdr =? NULL then ret None
    else
      let* v := get_vhdr p_act_vhdr in
      if negb (v_lock v =? NULL) then lock_again (v_lock v)
      else
        let p_old_copy := v_copy v in
        let* ok := version_in_snapshot p_old_copy in
        if negb ok then ret None
        else lock_new_copy p_act_vhdr p_old_copy size.

Definition _ts_try_lock_const (obj size : Z) : M st bool :=
  let* r := _ts_try_lock obj 0 in ret (bool_decide (is_Some r)).

Definition ts_cmp_ptrs (obj1 obj2 : Z) : M st bool :=
  let* obj1 := (if negb (obj1 =? NULL) then get_org_act_obj obj1 else ret obj1) in
  let* obj2 := (if negb (obj2 =? NULL) then get_org_act_obj obj2 else ret obj2) in
  ret (obj1 =? obj2).

(** the pointer that [_ts_assign_pointer] stores *)
Definition _ts_assign_pointer (obj : Z) : M st Z :=
  if negb (obj =? NULL) then get_org_act_obj obj else ret obj.

Definition ts_flush_log : M st unit := tvlog_flush ;;; ckptlog_flush.

(** * Operations and operands *)

Definition mod_op (f : ts_op_info -> ts_op_info) : M st unit := mod_self (fun t => t <| op_info ::= f |>).

Definition ts_set_op (type : Z) : M st unit :=
  mod_op (fun o => o <| oi_curr := 0 |> <| oi_op_type := type |>).

(** the offset of the operand in [opd] *)
Definition ts_alloc_operand (size : Z) : M st Z :=
  let* o := self! op_info in
  mod_op (fun o => o <| oi_curr := u32 (oi_curr o + size) |>) ;;;
  ret (oi_curr o).

(** [memcpy(opd + off, bytes)]: past the end of the operand space it would
    overwrite the rest of the thread's structure *)
Definition ts_memcpy_operand (bytes : list Z) : M st unit :=
  let* off := ts_alloc_operand (Z.of_nat (length bytes)) in
  let* o := self! op_info in
  let n := Z.to_nat off in
  if (Z.of_nat (n + length bytes) <=? TS_MAX_OPERAND_SIZE) then
    mod_op (fun o => o <| oi_opd := take n (oi_opd o) ++ bytes ++ drop (n + length bytes) (oi_opd o) |>)
  else raise UB.

Definition ts_isolation_supported (lv : isolation_level) : bool :=
  match lv with
  | TS_SNAPSHOT => true
  | TS_SERIALIZABILITY | TS_LINEARIZABILITY => TS_ENABLE_SERIALIZABILITY_LINEARIZABILITY
  | TS_INVALID => false
  end.

End Timestone.

(** * Facts: snapshots *)

Section DerefFacts.
Context `{Env}.

(** the version chain from [p] as a transaction with clock [local] sees it:
    objects with their write clocks, newest first *)
Inductive vchain (s : st) (local : Z) : Z -> list (Z * Z) -> Prop :=
| vchain_nil : vchain s local NULL []
| vchain_cons o c clk l :
    o <> NULL -> heap (sh s) !! o = Some (CCpy c) -> settled s local c clk ->
    (forall o' clk' l', l = (o', clk') :: l' -> wrt_clk_next (cpy_hdr c) = clk') ->
    vchain s local (c_copy (cpy_hdr c)) l -> vchain s local o ((o, clk) :: l).

(** write clocks strictly decrease along the chain *)
Definition newest_first (l : list (Z * Z)) : Prop := StronglySorted (fun x y => y.2 < x.2) l.

Lemma if_same {A} (b : bool) (x : A) : (if b then x else x) = x.
Proof. by destruct b. Qed.

Lemma vchain_NoDup l : newest_first l -> NoDup l.*2.
Proof.
  induction 1 as [| x l Hs IH Hf]; cbn; constructor; [| done].
  intros (y & Hy & Hin)%list_elem_of_fmap. rewrite Forall_forall in Hf. specialize (Hf y Hin). lia.
Qed.

Lemma vchain_heap s local p l x :
  vchain s local p l -> x ∈ l -> exists c, heap (sh s) !! x.1 = Some (CCpy c) /\ settled s local c x.2.
Proof.
  induction 1 as [| o c clk l Ho Hc Hset Hn Hv IH]; [by intros ?%not_elem_of_nil |].
  intros [-> | Hx]%elem_of_cons; [by exists c | auto].
Qed.

(** what a version's clock is does not depend on how it is read *)
Lemma settled_fun s local c k1 k2 : settled s local c k1 -> settled s local c k2 -> k1 = k2.
Proof.
  unfold settled. intros [[? ->] | (E1 & w1 & W1 & C1)] [[? ->] | (E2 & w2 & W2 & C2)]; try done.
  assert (w2 = w1) as -> by congruence.
  destruct C1 as [[-> D1] | (A1 & B1 & D1 & ->)], C2 as [[-> D2] | (A2 & B2 & D2 & ->)]; try done;
    exfalso; try (destruct D1; [done | lia]); destruct D2; [done | lia].
Qed.

Lemma vchain_objs_NoDup s local p l : vchain s local p l -> newest_first l -> NoDup l.*1.
Proof.
  induction 1 as [| o c clk l Ho Hc Hset Hn Hv IH]; cbn; intros Hs; constructor.
  - intros ([o' k'] & Ho' & Hin)%list_elem_of_fmap. cbn in Ho'. subst o'.
    apply StronglySorted_inv in Hs as [_ Hf]. rewrite Forall_forall in Hf. specialize (Hf _ Hin). cbn in Hf.
    destruct (vchain_heap _ _ _ _ _ Hv Hin) as (c' & Hc' & Hset'). cbn in Hc', Hset'.
    assert (c' = c) as -> by congruence. pose proof (settled_fun _ _ _ _ _ Hset Hset'). lia.
  - apply IH. by apply StronglySorted_inv in Hs as [? _].
Qed.

(** no more objects than the memory holds *)
Lemma objs_length (s : st) (l : list Z) :
  NoDup l -> (forall o, o ∈ l -> is_Some (heap (sh s) !! o)) -> (length l <= size (heap (sh s)))%nat.
Proof.
  intros Hnd Hl. rewrite <- (size_list_to_set (C := gset Z) l) by done. rewrite <- size_dom.
  apply subseteq_size. intros o Ho%elem_of_list_to_set. by apply elem_of_dom, Hl.
Qed.

Lemma vchain_length s local p l :
  vchain s local p l -> newest_first l -> (length l <= size (heap (sh s)))%nat.
Proof.
  intros Hv Hs. rewrite <- (length_fmap fst). apply objs_length; [by eapply vchain_objs_NoDup |].
  intros o (x & -> & Hx)%list_elem_of_fmap. destruct (vchain_heap _ _ _ _ _ Hv Hx) as (c & -> & _). by eexists.
Qed.

(** [r] is what a reader with clock [local] should get from the versions [l]:
    the newest version before [local]; NULL only if every version before it is
    older than the last checkpoint *)
Definition reads (local last_ckpt : Z) (l : list (Z * Z)) (r : Z) : Prop :=
  (exists clk, (r, clk) ∈ l /\ lt_clock clk local = true /\
     forall o' clk', (o', clk') ∈ l -> lt_clock clk' local = true -> clk' <= clk) \/
  (r = NULL /\ forall o' clk', (o', clk') ∈ l -> lt_clock clk' local = true ->
                 lt_clock clk' last_ckpt = true).

Lemma reads_cons local last_ckpt o clk l r :
  newest_first ((o, clk) :: l) -> lt_clock clk local = false ->
  reads local last_ckpt l r -> reads local last_ckpt ((o, clk) :: l) r.
Proof.
  intros Hs Hlt [(k & Hin & Hk & Hmax) | [-> Hall]].
  - left. exists k. split; [by right |]. split; [done |].
    intros o' k' [[= -> ->] | Hin']%elem_of_cons Hk'; [congruence | by eapply Hmax].
  - right. split; [done |]. intros o' k' [[= -> ->] | Hin']%elem_of_cons Hk'; [congruence | by eapply Hall].
Qed.

Lemma deref_walk_reads s local last_ckpt p l :
  vchain s local p l -> newest_first l -> p <> NULL -> (0 < spin_bound)%nat ->
  is_clk local -> is_clk last_ckpt -> (forall x, x ∈ l -> is_clk x.2) ->
  exists r, deref_walk local last_ckpt p s = Ok (r, s) /\ reads local last_ckpt l r.
Proof.
  intros Hv Hs Hp Hsp Hcl Hck Hclk. unfold deref_walk. msteps.
  pose proof (vchain_length _ _ _ _ Hv Hs) as Hlen.
  assert (Hfuel : (length l < S (size (heap (sh s))))%nat) by lia. clear Hlen.
  revert Hp Hs Hclk Hfuel. generalize (S (size (heap (sh s)))) as n.
  induction Hv as [| o c clk l Ho Hc Hset Hn Hv IH]; intros n Hp Hs Hclk Hf; [done |].
  destruct n as [| n]; [lia |]. cbn [loop]. rewrite bind_assoc. mrun (get_chs_run s o c Hc).
  rewrite bind_assoc. mrun (get_wrt_clk_settled s local c clk Hset Hsp).
  destruct (lt_clock clk local) eqn:Elt.
  - exists o. msteps. split; [done |]. left. exists clk. split; [by left |]. split; [done |].
    intros o' k' [[= -> ->] | Hin]%elem_of_cons _; [lia |].
    apply StronglySorted_inv in Hs as [_ Hf']. rewrite Forall_forall in Hf'. specialize (Hf' _ Hin). cbn in Hf'. lia.
  - rewrite bind_assoc. mrun (get_chs_run s o c Hc).
    assert (Hnull : forall a, l = [] \/ (exists x l', l = x :: l' /\ lt_clock x.2 last_ckpt = true) -> a = NULL ->
               reads local last_ckpt ((o, clk) :: l) a).
    { intros a Hl ->. right. split; [done |].
      intros o' k' [[= -> ->] | Hin]%elem_of_cons Hk'; [congruence |].
      destruct Hl as [-> | (x & l' & -> & Hx)]; [by apply not_elem_of_nil in Hin |].
      apply elem_of_cons in Hin as [<- | Hin]; [done |].
      apply StronglySorted_inv in Hs as [Hs _]. apply StronglySorted_inv in Hs as [_ Hf'].
      rewrite Forall_forall in Hf'. specialize (Hf' _ Hin). cbn in Hf'.
      apply (lt_clock_mono_l k' x.2); try done; [| apply Hclk; by right; left | lia].
      apply (Hclk (o', k')). by right; right. }
    assert (Hnext : forall o' k' l', l = (o', k') :: l' -> wrt_clk_next (cpy_hdr c) = k') by exact Hn.
    destruct l as [| [o2 k2] l2].
    + assert (E : c_copy (cpy_hdr c) = NULL) by (inversion Hv; congruence). rewrite E, Z.eqb_refl.
      rewrite (if_same (lt_clock _ _)). msteps. exists NULL. split; [done |].
      apply Hnull; [by left | done].
    + rewrite (Hnext _ _ _ eq_refl). destruct (lt_clock k2 last_ckpt) eqn:Eck.
      * exists NULL. msteps. split; [done |]. apply Hnull; [| done]. right. by eexists _, _.
      * assert (Ho2 : c_copy (cpy_hdr c) = o2 /\ o2 <> NULL) by (by inversion Hv; subst).
        destruct Ho2 as [Ecc Ho2]. rewrite Ecc in IH |- *. rewrite (proj2 (Z.eqb_neq _ _)) by done. msteps.
        destruct (IH n Ho2) as (r & Hr & Hreads); [by apply StronglySorted_inv in Hs as [? _] | | cbn in *; lia |].
        { intros x Hx. apply Hclk. by right. }
        exists r. split; [exact Hr |]. by apply reads_cons.
Qed.

(** reads are not recorded: the level is snapshot isolation or the library is
    built without the stronger levels *)
Definition unrecorded (s : st) : Prop :=
  TS_ENABLE_SERIALIZABILITY_LINEARIZABILITY = false \/ level (isolation (self s)) = TS_SNAPSHOT.

Lemma read_set_add_unrecorded s a b c : unrecorded s -> read_set_add a b c s = Ok (tt, s).
Proof.
  unfold read_set_add. intros [-> | Hl]; [done |]. destruct TS_ENABLE_SERIALIZABILITY_LINEARIZABILITY; [| done].
  msteps. by rewrite Hl.
Qed.

Lemma reads_not_in_NULL local last_ckpt s p l r :
  vchain s local p l -> reads local last_ckpt l r -> r <> NULL -> exists clk, (r, clk) ∈ l.
Proof. intros _ [(k & Hin & _) | [-> _]]; [by exists k | done]. Qed.

(** Snapshot reads.  [ts_deref] of a master object whose version chain, as
    the transaction sees it, is [l] (newest first) leaves the state as it is
    and answers the newest version written before the transaction's clock; it
    falls back to the current master only when every version before that clock
    is older than the last checkpoint. *)
Theorem ts_deref_snapshot s obj v l :
  obj <> NULL -> outside_region s obj -> (0 < spin_bound)%nat -> unrecorded s ->
  get_act_vhdr obj s = Ok (v, s) -> v <> NULL ->
  forall vh, vhdrs (sh s) !! v = Some vh ->
  vchain s (local_clk (self s)) (v_copy vh) l -> newest_first l ->
  is_clk (local_clk (self s)) -> is_clk (__last_ckpt (clks (self s))) ->
  (forall x, x ∈ l -> is_clk x.2) ->
  exists r, ts_deref obj s = Ok (if r =? NULL then np_cur_act vh else r, s) /\
    reads (local_clk (self s)) (__last_ckpt (clks (self s))) l r.
Proof.
  intros Ho Hout Hsp Hun Hv Hvn vh Hvh Hch Hs Hcl Hck Hclk.
  unfold ts_deref. rewrite (proj2 (Z.eqb_neq obj NULL)) by done.
  mrun (is_obj_actual_run s obj). rewrite Hout. cbn [negb].
  mrun Hv. rewrite (proj2 (Z.eqb_neq v NULL)) by done. mrun (get_vhdr_run s v vh Hvh). msteps.
  assert (Hw : exists r, (if negb (v_copy vh =? NULL)
      then deref_walk (local_clk (self s)) (__last_ckpt (clks (self s))) (v_copy vh) else ret NULL) s = Ok (r, s)
      /\ reads (local_clk (self s)) (__last_ckpt (clks (self s))) l r).
  { destruct (Z.eqb_spec (v_copy vh) NULL) as [E | E]; cbn [negb].
    - exists NULL. split; [done |]. right. split; [done |]. rewrite E in Hch. inversion Hch; subst; [| done].
      by intros ? ? ?%not_elem_of_nil.
    - by apply deref_walk_reads. }
  destruct Hw as (r & Hr & Hreads). exists r. split; [| done]. mrun Hr.
  destruct (r =? NULL); cbn [negb].
  - mrun (get_vhdr_run s v vh Hvh). by mrun (read_set_add_unrecorded s v (v_copy vh) (np_cur_act vh) Hun).
  - by mrun (read_set_add_unrecorded s v (v_copy vh) r Hun).
Qed.
End DerefFacts.

(** * Facts: locking an object *)

Section LockFacts.
Context `{Env}.

Definition lock_of (s : st) (p : Z) : option Z := v_lock <$> vhdrs (sh s) !! p.

Lemma smp_cas_lock_run p old new s b s' :
  smp_cas (let* v := get_vhdr p in ret (v_lock v))
    (fun x => put_vhdr p (fun v => v <| v_lock := x |>)) old new s = Ok (b, s') ->
  exists s1 v, interfere s = Ok (tt, s1) /\ vhdrs (sh s1) !! p = Some v /\ b = (v_lock v =? old) /\
    s' = if b then s1 <| sh ::= (fun h => h <| vhdrs ::= (fun m => <[p := v <| v_lock := new |>]> m) |>) |> else s1.
Proof.
  unfold smp_cas. unfold bind at 1. destruct (interfere s) as [[[] s1] |]; [| done]. rewrite bind_assoc.
  destruct (vhdrs (sh s1) !! p) as [v |] eqn:Ev.
  - mrun (get_vhdr_run s1 p v Ev). msteps. destruct (v_lock v =? old) eqn:El.
    + mrun (put_vhdr_run s1 p v (fun v => v <| v_lock := new |>) Ev). intros [= <- <-]. exists s1, v. by rewrite El.
    + intros [= <- <-]. exists s1, v. by rewrite El.
  - unfold bind at 1, get_vhdr. by rewrite Ev.
Qed.

(** C4. Mutual exclusion of [try_lock_obj], whatever other threads do before its
    compare-and-swap ([s1] is what they leave).  It succeeds only on an object
    that nobody holds and whose newest version is still the one the caller saw,
    and then the caller's copy is the lock; when it fails, no lock has changed:
    in particular it never takes or releases the lock of another transaction. *)
Theorem try_lock_obj_exclusive p old new s b s' :
  try_lock_obj p old new s = Ok (b, s') ->
  exists s1, (s1 = s \/ interfere s = Ok (tt, s1)) /\
    if b then
      exists v, vhdrs (sh s1) !! p = Some v /\ v_lock v = NULL /\ v_copy v = old /\
        s' = s1 <| sh ::= (fun h => h <| vhdrs ::= (fun m => <[p := v <| v_lock := new |>]> m) |>) |>
    else forall q, lock_of s' q = lock_of s1 q.
Proof.
  unfold try_lock_obj. intros Hrun. apply bind_Ok in Hrun as (v0 & s0 & (Hv0 & ->)%get_vhdr_Ok & Hrun).
  destruct (_ || _).
  { injection Hrun as <- <-. exists s. split; [by left | done]. }
  apply bind_Ok in Hrun as (ok & s2 & Hcas & Hrun).
  apply smp_cas_lock_run in Hcas as (s1 & v & Hi & Hv & -> & ->). exists s1. split; [by right |].
  destruct (Z.eqb_spec (v_lock v) NULL) as [El | El]; cbn [negb] in Hrun; [| by injection Hrun as <- <-].
  set (s2 := upd sh _ s1) in *.
  assert (Hv2 : vhdrs (sh s2) !! p = Some (v <| v_lock := new |>)) by (cbn; apply lookup_insert_eq).
  revert Hrun. mrun (get_vhdr_run s2 p _ Hv2). destruct (Z.eqb_spec (v_copy v) old) as [Ec | Ec].
  - cbn. rewrite Ec, Z.eqb_refl. intros [= <- <-]. by exists v.
  - cbn [upd v_copy]. rewrite (proj2 (Z.eqb_neq (v_copy v) old)) by done. cbn [negb].
    mrun (put_vhdr_run s2 p _ (fun v => v <| v_lock := NULL |>) Hv2). intros [= <- <-] q.
    unfold lock_of. cbn. rewrite insert_insert_eq. destruct (decide (q = p)) as [-> | Hq].
    + rewrite lookup_insert_eq, Hv. cbn. by rewrite El.
    + by rewrite lookup_insert_ne.
Qed.
End LockFacts.

(** * Facts: operands *)

Section OperandFacts.
Context `{Env}.

(** the operand space holds the bytes [bs] of the operation [type] *)
Definition operands (type : Z) (bs : list Z) (o : ts_op_info) : Prop :=
  oi_op_type o = type /\ oi_curr o = Z.of_nat (length bs) /\ take (length bs) (oi_opd o) = bs /\
  Z.of_nat (length (oi_opd o)) = TS_MAX_OPERAND_SIZE.

Lemma ts_memcpy_operand_run type bs b s :
  operands type bs (op_info (self s)) -> Z.of_nat (length (bs ++ b)) <= TS_MAX_OPERAND_SIZE ->
  exists s', ts_memcpy_operand b s = Ok (tt, s') /\ operands type (bs ++ b) (op_info (self s')) /\ sh s' = sh s.
Proof.
  intros (Ht & Hc & Htk & Hl) Hmax. unfold ts_memcpy_operand, ts_alloc_operand, mod_op, mod_self. msteps. cbn [upd op_info self].
  rewrite Hc, Nat2Z.id. rewrite length_app in Hmax. rewrite (proj2 (Z.leb_le _ _)) by lia.
  eexists. split; [reflexivity |]. split; [| done]. unfold operands. cbn.
  assert (HM : TS_MAX_OPERAND_SIZE < 2 ^ 32) by done.
  split; [done |]. split; [rewrite ?Hc, u32_small, length_app by lia; lia |].
  assert (Hb : length (take (length bs) (oi_opd (op_info (self s)))) = length bs) by (by rewrite Htk).
  split.
  - rewrite length_app, Htk. rewrite app_assoc. apply take_app_length'. by rewrite length_app.
  - rewrite !length_app, Hb, length_drop. lia.
Qed.

Lemma ts_memcpy_operands_run type chunks : forall bs s,
  operands type bs (op_info (self s)) -> Z.of_nat (length (bs ++ concat chunks)) <= TS_MAX_OPERAND_SIZE ->
  exists s', for_each chunks ts_memcpy_operand s = Ok (tt, s') /\
    operands type (bs ++ concat chunks) (op_info (self s')) /\ sh s' = sh s.
Proof.
  induction chunks as [| b chunks IH]; intros bs s Ho Hmax; cbn [for_each concat] in *.
  - exists s. by rewrite app_nil_r.
  - rewrite app_assoc in Hmax |- *.
    destruct (ts_memcpy_operand_run type bs b s Ho) as (s1 & E1 & Ho1 & Hs1); [rewrite length_app in Hmax; lia |].
    destruct (IH (bs ++ b) s1 Ho1 Hmax) as (s2 & E2 & Ho2 & Hs2).
    exists s2. split; [by mrun E1 |]. split; [done | congruence].
Qed.

(** Operand round trip: after [ts_set_op] and any sequence of
    [ts_memcpy_operand]s that fits the operand space, what the commit writes to
    the operation log, the first [curr] bytes of the space, is exactly the
    operands in the order of the calls. *)
Theorem operand_roundtrip type chunks s :
  Z.of_nat (length (oi_opd (op_info (self s)))) = TS_MAX_OPERAND_SIZE ->
  Z.of_nat (length (concat chunks)) <= TS_MAX_OPERAND_SIZE ->
  exists s', (ts_set_op type ;;; for_each chunks ts_memcpy_operand) s = Ok (tt, s') /\
    let o := op_info (self s') in
    oi_op_type o = type /\ take (Z.to_nat (oi_curr o)) (oi_opd o) = concat chunks /\ sh s' = sh s.
Proof.
  intros Hl Hmax. unfold ts_set_op, mod_op, mod_self. msteps.
  destruct (ts_memcpy_operands_run type chunks [] (s <| self ::= (fun t => t <| op_info ::=
      (fun o => o <| oi_curr := 0 |> <| oi_op_type := type |>) |>) |>)) as (s' & E & (Ht & Hc & Htk & _) & Hs).
  { by split. }
  { done. }
  exists s'. split; [exact E |]. cbv zeta. split; [done |]. split; [| done]. by rewrite Hc, Nat2Z.id.
Qed.
End OperandFacts.

(** * Facts: persistent arrays *)

Section ArrayFacts.
Context `{Env}.

(** an array of [n] elements of [size] bytes starts at [base] *)
Record is_array (s : st) (base size n : Z) : Prop := {
  arr_size : 0 <= size < 2 ^ 31;
  arr_room : 0 <= base /\ base + array_step size * n < 2 ^ 64;
  arr_elem : forall i, 0 <= i < n -> outside_region s (base + array_step size * i) /\
    exists a, heap (sh s) !! (base + array_step size * i) = Some (CAct a) /\
      nvh_index (act_nvhdr a) = i /\ obj_size (a_hdr a) = size }.

(** Array addressing: the base address of any element is the array's, and
    the element at an index is at that index from the base, whichever element
    the caller holds. *)
Theorem ts_array_roundtrip s base size n i :
  is_array s base size n -> 0 <= i < n ->
  let elem j := base + array_step size * j in
  ts_get_base_addr (elem i) s = Ok (base, s) /\
  forall j, 0 <= j < n -> ts_get_offset (elem i) j s = Ok (elem j, s).
Proof.
  intros [Hsz Hroom Hel] Hi elem.
  assert (Hstep : 0 < array_step size).
  { unfold array_step, sizeof_act_hdr_struct, sizeof_act_nvhdr, sizeof_obj_hdr. rewrite s32_small, u64_small; lia. }
  assert (Hb : ts_get_base_addr (elem i) s = Ok (base, s)).
  { unfold ts_get_base_addr. destruct (Hel i Hi) as (Hout & a & Ha & Hidx & Hs).
    mrun (get_act_nvhdr_actual s (elem i) Hout). mrun (get_ahs_run s (elem i) a Ha). rewrite Hidx.
    destruct (Z.eqb_spec i 0) as [-> | Hi0]; [unfold elem; by rewrite Z.mul_0_r, Z.add_0_r |]. rewrite Hs.
    replace (elem i - array_step size * i) with base by (unfold elem; lia). rewrite u64_small by nia.
    destruct (Hel 0 ltac:(lia)) as (Hout0 & a0 & Ha0 & _). rewrite Z.mul_0_r, Z.add_0_r in Hout0, Ha0.
    mrun (get_act_nvhdr_actual s base Hout0). by mrun (get_ahs_run s base a0 Ha0). }
  split; [done |]. intros j Hj. unfold ts_get_offset. mrun Hb.
  destruct (Hel 0 ltac:(lia)) as (_ & a0 & Ha0 & _ & Hs0). rewrite Z.mul_0_r, Z.add_0_r in Ha0.
  assert (Hhd : vobj_to_obj_hdr base s = Ok (a_hdr a0, s)).
  { unfold vobj_to_obj_hdr, obj_to_obj_hdr, obj_hdr_of. by rewrite Ha0. }
  mrun Hhd. rewrite Hs0. destruct (Hel j Hj) as (Hout & _).
  fold (elem j). rewrite u64_small by (unfold elem; nia). by mrun (get_act_nvhdr_actual s (elem j) Hout).
Qed.
End ArrayFacts.

(** * Examples: an object with two committed versions, read in between *)

Definition ex_copy (clk next p : Z) : ts_cpy_hdr_struct :=
  mk_chs (mk_cpy_hdr 1048640 clk next MAX_VERSION p 400) (mk_obj_hdr 8 56 TYPE_COPY STATUS_NONE).
Definition ex_object : ts_act_hdr_struct :=
  mk_ahs (mk_act_nvhdr 400 1 0) (mk_obj_hdr 8 0 TYPE_ACTUAL STATUS_NONE).
Definition ex_versions : st :=
  (ex_st <| sh ::= (fun h => h
     <| heap := <[300000 := CAct ex_object]> (<[1048832 := CCpy (ex_copy 900 800 1048704)]>
                  {[ 1048704 := CCpy (ex_copy 800 MIN_VERSION NULL) ]}) |>
     <| vhdrs := {[ 400 := mk_act_vhdr 1048832 NULL 300000 300000 MAX_VERSION ]} |>) |>)
  <| self ::= (fun t => t <| local_clk := 850 |>) |>.

Lemma ex_vchain : vchain ex_versions 850 1048832 [(1048832, 900); (1048704, 800)].
Proof.
  apply (vchain_cons _ _ _ (ex_copy 900 800 1048704)); [done | by vm_compute | by left | by intros ??? [= <- <- <-] |].
  apply (vchain_cons _ _ _ (ex_copy 800 MIN_VERSION NULL)); [done | by vm_compute | by left | done |].
  apply vchain_nil.
Qed.

Lemma ts_deref_snapshot_witness :
  exists r, @ts_deref ex_env 300000 ex_versions = Ok (if r =? NULL then 300000 else r, ex_versions) /\
    reads 850 0 [(1048832, 900); (1048704, 800)] r.
Proof.
  apply (@ts_deref_snapshot ex_env ex_versions 300000 400 _ ltac:(done) eq_refl ltac:(cbn; lia) (or_introl eq_refl)
    ltac:(by vm_compute) ltac:(done) (mk_act_vhdr 1048832 NULL 300000 300000 MAX_VERSION) ltac:(by vm_compute) ex_vchain).
  - repeat constructor; by vm_compute.
  - done.
  - done.
  - intros x [-> | [-> | []%not_elem_of_nil]%elem_of_cons]%elem_of_cons; done.
Defined.

Definition ex_locked : st :=
  match @try_lock_obj ex_env 400 1048832 1048960 ex_versions with Ok (_, s) => s | Fault _ => ex_versions end.

Lemma try_lock_obj_exclusive_witness : lock_of ex_locked 400 = Some 1048960.
Proof.
  destruct (@try_lock_obj_exclusive ex_env 400 1048832 1048960 ex_versions true ex_locked ltac:(by vm_compute))
    as (s1 & _ & v & _ & _ & _ & E).
  rewrite E. unfold lock_of. cbn. by rewrite lookup_insert_eq.
Defined.

Lemma operand_roundtrip_witness :
  exists s', (ts_set_op 3 ;;; for_each [[1; 2]; [3]] ts_memcpy_operand) ex_st = Ok (tt, s') /\
    take (Z.to_nat (oi_curr (op_info (self s')))) (oi_opd (op_info (self s'))) = [1; 2; 3].
Proof.
  destruct (operand_roundtrip 3 [[1; 2]; [3]] ex_st eq_refl ltac:(by vm_compute)) as (s' & E & _ & Ht & _).
  exists s'. split; [exact E | exact Ht].
Defined.

Definition ex_elem (i : Z) : cell := CAct (mk_ahs (mk_act_nvhdr NULL 1 i) (mk_obj_hdr 32 0 TYPE_ACTUAL STATUS_NONE)).
Definition ex_array : st := ex_st <| sh ::= (fun h => h
  <| heap := <[4096 := ex_elem 0]> (<[4096 + array_step 32 := ex_elem 1]> ∅) |>) |>.

Lemma ts_array_roundtrip_witness : ts_get_base_addr (4096 + array_step 32) ex_array = Ok (4096, ex_array).
Proof.
  destruct (ts_array_roundtrip ex_array 4096 32 2 1) as [H _]; [| lia |].
  - split; [lia | by vm_compute |]. intros i Hi. assert (i = 0 \/ i = 1) as [-> | ->] by lia;
      (split; [by vm_compute |]; eexists; split; [by vm_compute | done]).
  - rewrite Z.mul_1_r in H. exact H.
Defined.
