(* ===== verification/RunCnt.v ===== *)
(** The run counter of a thread ([run_cnt] of [ts_thread_struct]): it is odd
    while a transaction runs and even otherwise, which is what the grace periods
    of [lib/qp.c] rely on ([ts_begin], [ts_end], [ts_abort] of
    [lib/timestone.c]). *)
From S2P Require Export Timestone.

Section RunCnt.
Context `{Env}.

(** a thread's run counter, and whether it is a thread of the recovery; and its
    snapshot with them *)
Definition word_of (t : ts_thread_struct) : Z * bool := (run_cnt t, in_recovery_mode t).
Definition tx_of (t : ts_thread_struct) : Z * bool * Z := (word_of t, local_clk t).
Definition tx_word (s : st) : Z * bool := word_of (self s).

(** [m] leaves what [g] reads of them; it leaves the run counter; it advances it *)
Definition kept {X} (g : Z * bool * Z -> X) {A} (m : M st A) : Prop :=
  forall s a s', m s = Ok (a, s') -> g (tx_of (self s')) = g (tx_of (self s)).
Definition steady {A} (m : M st A) : Prop := kept fst m.
Definition advances {A} (m : M st A) : Prop :=
  forall s a s', m s = Ok (a, s') -> tx_word s' = (u32 (run_cnt (self s) + 1), in_recovery_mode (self s)).

(** * Facts: steps that leave the counter *)

Section Kept.
Context {X : Type} (g : Z * bool * Z -> X).
Lemma steady_bind {A B} (m : M st A) (k : A -> M st B) : kept g m -> (forall a, kept g (k a)) -> kept g (bind m k).
Proof. intros Hm Hk s b s' (a & s1 & E1 & E2)%bind_Ok. by rewrite (Hk a s1 b s' E2), (Hm s a s1 E1). Qed.

Lemma steady_loop {A B} n (body : A -> M st (A + B)) a : (forall a, kept g (body a)) -> kept g (loop n body a).
Proof.
  intros Hb. revert a. induction n as [| n IH]; intros a s b s'; cbn [loop]; [done |].
  intros (r & s1 & E1 & E2)%bind_Ok. rewrite <- (Hb a s r s1 E1). destruct r as [a' |]; [exact (IH a' s1 b s' E2) |]. by apply Ok_inj in E2 as [_ <-].
Qed.

Lemma steady_reading {A} (m : M st A) : reading m -> kept g m.
Proof. intros Hm s a s' E. by rewrite (Hm s a s' E). Qed.

Lemma steady_ret {A} (a : A) : kept g (ret a).
Proof. by intros s b s' [_ <-]%Ok_inj. Qed.

Lemma steady_raise {A} e : kept g (raise e : M st A).
Proof. by intros s b s'. Qed.

Lemma steady_asks {A} (f : st -> A) : kept g (asks f).
Proof. by intros s b s' [_ <-]%Ok_inj. Qed.

Lemma steady_lift {A} (r : res A) : kept g (lift r).
Proof. destruct r; [apply steady_ret | apply steady_raise]. Qed.

Lemma steady_deref {A} (o : option A) : kept g (deref o).
Proof. destruct o; [apply steady_ret | apply steady_raise]. Qed.

Lemma steady_sh f : kept g (mod_sh f).
Proof. by intros s b s' [_ <-]%Ok_inj. Qed.

Lemma steady_self f : (forall t, tx_of (f t) = tx_of t) -> kept g (mod_self f).
Proof. intros Hf s b s' [_ <-]%Ok_inj. cbn. by rewrite Hf. Qed.

Lemma steady_on_sh {A} (m : M shared A) : kept g (on_sh m).
Proof. intros s a s'. unfold on_sh, zoom. destruct (m (sh s)) as [[b h] |]; [| done]. by intros [_ <-]%Ok_inj. Qed.

Lemma steady_on_ticks {A} (m : M nat A) : kept g (on_ticks m).
Proof. intros s a s'. unfold on_ticks, zoom. destruct (m _) as [[b h] |]; [| done]. by intros [_ <-]%Ok_inj. Qed.

Lemma steady_oplog {A} (m : M nvst A) : kept g (with_log OPLOG m).
Proof.
  intros s a s'. unfold with_log. destruct (stores (sh s) !! _); [| done]. destruct (m _) as [[b r] |]; [| done].
  by intros [_ <-]%Ok_inj.
Qed.

Lemma steady_ckptlog {A} (m : M nvst A) : kept g (with_log CKPTLOG m).
Proof.
  intros s a s'. unfold with_log. destruct (stores (sh s) !! _); [| done]. destruct (m _) as [[b r] |]; [| done].
  by intros [_ <-]%Ok_inj.
Qed.

Lemma steady_get_vhdr p : kept g (get_vhdr p).
Proof. by intros s v s' [_ ->]%get_vhdr_Ok. Qed.
Lemma steady_get_chs o : kept g (get_chs o).
Proof. by intros s v s' [_ ->]%get_chs_Ok. Qed.
Lemma steady_get_ahs o : kept g (get_ahs o).
Proof. by intros s v s' [_ ->]%get_ahs_Ok. Qed.
Lemma steady_get_ws o : kept g (get_ws o).
Proof. by intros s v s' [_ ->]%deref_Ok. Qed.
Lemma steady_get_log_entry o : kept g (get_log_entry o).
Proof. by intros s v s' [_ ->]%deref_Ok. Qed.
End Kept.
End RunCnt.

Create HintDb steady.
#[export] Hint Resolve steady_ret steady_raise steady_asks steady_lift steady_deref steady_sh steady_on_sh steady_on_ticks steady_oplog
  steady_ckptlog steady_get_vhdr steady_get_chs steady_get_ahs steady_get_ws steady_get_log_entry : steady.

Ltac head_of t := match t with ?f _ => head_of f | _ => t end.
(** unfolds a computation down to steps that are known to be steady *)
Ltac steady := unfold steady; repeat (intros; cbv beta zeta; first
  [ assumption
  | solve [eauto 2 with steady nocore]
  | match goal with |- kept _ (bind _ _) => apply steady_bind | |- kept _ (loop _ _ _) => apply steady_loop end
  | apply steady_self; solve [reflexivity]
  | case_match
  | match goal with |- kept _ ?m => let h := head_of m in unfold h end ]).

Section RunCntFacts.
Context `{Env} {X : Type} (g : Z * bool * Z -> X) (Hothers : kept g interfere).


Lemma steady_smp_cas rd wr old new : kept g rd -> (forall x, kept g (wr x)) -> kept g (smp_cas rd wr old new).
Proof. steady; auto. Qed.

(** an object's header *)
Lemma steady_get_ckpt_entry a : kept g (get_ckpt_entry a).
Proof. by intros s e s' [_ ->]%deref_Ok. Qed.
Lemma steady_obj_to_obj_hdr o : kept g (obj_to_obj_hdr o).
Proof. by intros s e s' [_ ->]%deref_Ok. Qed.
Hint Resolve steady_get_ckpt_entry steady_obj_to_obj_hdr : steady.
Lemma steady_get_act_vhdr o : kept g (get_act_vhdr o).
Proof. steady. Qed.
Hint Resolve steady_get_act_vhdr : steady.

(** requests, and the logs *)
Lemma steady_request R req : kept g (_request_reclaim R req).
Proof. steady. Qed.
Lemma steady_ckptlog_enq a b c : kept g (ckptlog_enq a b c).
Proof. steady. Qed.
Lemma steady_oplog_reclaim f : kept g (oplog_reclaim f).
Proof. steady. Qed.
Lemma steady_ckptlog_reclaim : kept g ckptlog_reclaim.
Proof. steady. Qed.
Hint Resolve steady_request steady_ckptlog_enq steady_oplog_reclaim steady_ckptlog_reclaim : steady.

(** the version log *)
Lemma steady_ws_for_each {A B} ws (body : Z -> A -> M st (A + B)) a :
  (forall o a, kept g (body o a)) -> kept g (ws_for_each ws body a).
Proof. steady. Qed.
Hint Resolve steady_ws_for_each : steady.
Lemma steady_tvlog_reclaim : kept g tvlog_reclaim.
Proof. steady. Qed.
Hint Resolve steady_tvlog_reclaim : steady.
Lemma steady_tvlog_reclaim_below : kept g tvlog_reclaim_below_high_watermark.
Proof. steady. Qed.
Lemma steady_tvlog_commit local op : kept g (tvlog_commit local op).
Proof. steady. Qed.
Lemma steady_tvlog_abort : kept g tvlog_abort.
Proof. steady. Qed.
Hint Resolve steady_tvlog_reclaim_below steady_tvlog_commit steady_tvlog_abort : steady.

(** what a transaction calls *)
Lemma steady_validate n ps i : kept g (validate_loop n ps i).
Proof. revert i. induction n as [| n IH]; intros i; cbn [validate_loop]; steady; apply IH. Qed.
Hint Resolve steady_validate : steady.
Lemma steady_validate_read_set : kept g validate_read_set.
Proof. steady. Qed.
Lemma steady_try_reclaim_logs : kept g try_reclaim_logs.
Proof. steady. Qed.
Lemma steady_isolation_reset lv : kept g (isolation_reset lv).
Proof. steady. Qed.
Lemma steady_free_new_act : kept g free_new_act.
Proof. steady. Qed.
Lemma steady_flush_new_act : kept g flush_new_act.
Proof. steady. Qed.
Hint Resolve steady_validate_read_set steady_try_reclaim_logs steady_isolation_reset steady_free_new_act steady_flush_new_act : steady.
Lemma steady_ts_deref o : kept g (ts_deref o).
Proof. steady. Qed.
Lemma steady_ts_try_lock o size : kept g (_ts_try_lock o size).
Proof. steady. Qed.
Lemma steady_ts_alloc size : kept g (ts_alloc size).
Proof. steady. Qed.
Lemma steady_ts_free o : kept g (ts_free o).
Proof. steady. Qed.
Lemma steady_assign_pointer o : kept g (_ts_assign_pointer o).
Proof. steady. Qed.
Lemma steady_ts_set_op type : kept g (ts_set_op type).
Proof. steady. Qed.
Lemma steady_ts_memcpy_operand bytes : kept g (ts_memcpy_operand bytes).
Proof. steady. Qed.
Lemma steady_ts_flush_log : kept g ts_flush_log.
Proof. steady. Qed.

End RunCntFacts.
#[export] Hint Resolve steady_validate_read_set steady_try_reclaim_logs steady_isolation_reset steady_free_new_act
  steady_flush_new_act steady_tvlog_reclaim_below steady_tvlog_commit steady_tvlog_abort steady_oplog_reclaim
  steady_ts_deref steady_ts_try_lock steady_ts_alloc steady_ts_free steady_assign_pointer steady_ts_set_op
  steady_ts_memcpy_operand steady_ts_flush_log : steady.

Section Advances.
Context `{Env} (Hothers : kept fst interfere).

(** * Facts: the calls that advance the counter *)

Lemma steady_word {A} (m : M st A) s a s' : steady m -> m s = Ok (a, s') -> tx_word s' = tx_word s.
Proof. intros Hm. exact (Hm s a s'). Qed.

Lemma advances_after {A B} (m : M st A) (k : A -> M st B) : steady m -> (forall a, advances (k a)) -> advances (bind m k).
Proof.
  intros Hm Hk s b s' (a & s1 & E1 & E2)%bind_Ok. rewrite (Hk a s1 b s' E2). pose proof (steady_word _ s a s1 Hm E1) as [= -> ->]. done.
Qed.

Lemma advances_before {A B} (m : M st A) (k : A -> M st B) : advances m -> (forall a, steady (k a)) -> advances (bind m k).
Proof. intros Hm Hk s b s' (a & s1 & E1 & E2)%bind_Ok. by rewrite (steady_word _ s1 b s' (Hk a) E2), (Hm s a s1 E1). Qed.

Lemma advances_step : advances (mod_self (fun t => t <| run_cnt ::= (fun c => u32 (c + 1)) |>)).
Proof. by intros s a s' [_ <-]%Ok_inj. Qed.

Lemma steady_self_word f : (forall t, word_of (f t) = word_of t) -> kept fst (mod_self f).
Proof. intros Hf s b s' [_ <-]%Ok_inj. apply Hf. Qed.

Lemma ts_begin_advances lv : advances (ts_begin lv).
Proof.
  unfold ts_begin. apply advances_after; [steady | intros []]. apply advances_after; [steady | intros []].
  apply advances_after; [steady | intros []]. apply advances_before; [apply advances_step | steady].
  by apply steady_self_word.
Qed.

Lemma ts_abort_advances : advances ts_abort.
Proof. unfold ts_abort. apply advances_before; [apply advances_step | steady]. Qed.

(** outside of the recovery, [ts_end] ends the transaction whatever it answers *)
Lemma ts_end_advances s b s' : in_recovery_mode (self s) = false -> ts_end s = Ok (b, s') ->
  tx_word s' = (u32 (run_cnt (self s) + 1), in_recovery_mode (self s)).
Proof.
  intros Hr. unfold ts_end. rewrite bind_asks, Hr. intros E. rewrite <- Hr.
  match type of E with ?m s = _ => assert (Ha : advances m); [| exact (Ha s b s' E)] end.
  apply advances_after; [steady | intros valid]. destruct valid; cbn [negb].
  - apply advances_after; [steady | intros w]. apply advances_after; [steady | intros []].
    apply advances_before; [apply advances_step | steady].
  - apply advances_before; [apply ts_abort_advances | steady].
Qed.
End Advances.
