(* ===== verification/Snapshot.v ===== *)
(** Snapshot isolation as an abstract specification: an object is its history
    of committed versions, and a transaction reads the newest version before its
    clock ([ts_deref] of [lib/timestone.c]). *)
From S2P Require Export Timestone.

(** * The specification *)

(** the committed versions of an object, newest first: write clock and bytes *)
Abbreviation history := (list (Z * list Z)).

(** what a transaction with clock [local] reads *)
Fixpoint snapshot_read (local : Z) (hist : history) : option (list Z) :=
  match hist with
  | [] => None
  | (clk, bytes) :: hist => if lt_clock clk local then Some bytes else snapshot_read local hist
  end.

Definition history_ok (hist : history) : Prop :=
  StronglySorted (fun x y => y.1 < x.1) hist /\ forall x, x ∈ hist -> is_clk x.1.

Lemma snapshot_read_later local new hist :
  (forall x, x ∈ new -> lt_clock x.1 local = false) -> snapshot_read local (new ++ hist) = snapshot_read local hist.
Proof.
  induction new as [| [clk b] new IH]; intros Hn; cbn; [done |].
  pose proof (Hn (clk, b) ltac:(by left)) as E. cbn in E. rewrite E. apply IH. intros x Hx. apply Hn. by right.
Qed.

Lemma snapshot_read_ext c1 c2 hist :
  (forall x, x ∈ hist -> lt_clock x.1 c1 = lt_clock x.1 c2) -> snapshot_read c1 hist = snapshot_read c2 hist.
Proof.
  induction hist as [| [clk b] hist IH]; intros He; cbn; [done |].
  pose proof (He (clk, b) ltac:(by left)) as E. cbn in E. rewrite E.
  destruct (lt_clock clk c2); [done |]. apply IH. intros x Hx. apply He. by right.
Qed.

Lemma snapshot_read_newest local hist clk b :
  StronglySorted (fun x y => y.1 < x.1) hist -> (clk, b) ∈ hist -> lt_clock clk local = true ->
  (forall x, x ∈ hist -> lt_clock x.1 local = true -> x.1 <= clk) -> snapshot_read local hist = Some b.
Proof.
  induction 1 as [| [k b0] hist Hs IH Hf]; intros Hin Hv Hmax; [by apply not_elem_of_nil in Hin |]. cbn.
  rewrite Forall_forall in Hf. destruct (lt_clock k local) eqn:E.
  - apply elem_of_cons in Hin as [[= -> ->] | Hin]; [done |]. specialize (Hf _ Hin). specialize (Hmax (k, b0) ltac:(by left) E).
    cbn in *. lia.
  - apply IH; [| done |]; [apply elem_of_cons in Hin as [[= -> ->] | Hin]; [congruence | done] |].
    intros x Hx. apply Hmax. by right.
Qed.

Section Snapshot.
Context `{Env}.

(** the first [n] bytes, which are the object's, at [o] *)
Definition bytes_at (n : nat) (s : st) (o : Z) : option (list Z) := take n <$> obj_data (sh s) !! o.

(** the version chain from [p] and the current master [cur] implement the
    history [hist] for the running transaction.  A version before the
    transaction's clock that is not in the chain is older than the chain and
    than the clock [ckpt] of a checkpoint; the current master is what was
    checkpointed then. *)
Record chain_stores (n : nat) (s : st) (p cur : Z) (l : list (Z * Z)) (ckpt : Z) (hist : history) : Prop := {
  cst_chain : vchain s (local_clk (self s)) p l;
  cst_sorted : newest_first l;
  cst_clks : forall x, x ∈ l -> is_clk x.2;
  cst_in : forall o clk, (o, clk) ∈ l -> lt_clock clk (local_clk (self s)) = true ->
    exists b, (clk, b) ∈ hist /\ bytes_at n s o = Some b;
  cst_out : forall clk b, (clk, b) ∈ hist -> lt_clock clk (local_clk (self s)) = true ->
    (exists o, (o, clk) ∈ l) \/ (lt_clock clk ckpt = true /\ forall o k, (o, k) ∈ l -> clk < k);
  cst_ckpt : __last_ckpt (clks (self s)) <= ckpt <= local_clk (self s);
  cst_some : is_Some (snapshot_read ckpt hist);
  cst_cur : bytes_at n s cur = snapshot_read ckpt hist }.

(** [s] implements the history [hist] of the object [obj] of [n] bytes for the
    running transaction *)
Inductive stores_history (n : nat) (s : st) (obj : Z) (hist : history) : Prop :=
| history_unwritten clk b :
    get_act_vhdr obj s = Ok (NULL, s) -> bytes_at n s obj = Some b ->
    lt_clock clk (local_clk (self s)) = true -> hist = [(clk, b)] -> stores_history n s obj hist
| history_versions v vh l ckpt :
    get_act_vhdr obj s = Ok (v, s) -> v <> NULL -> vhdrs (sh s) !! v = Some vh ->
    chain_stores n s (v_copy vh) (np_cur_act vh) l ckpt hist -> stores_history n s obj hist.

Lemma vchain_nonnull s local p l clk : vchain s local p l -> (NULL, clk) ∈ l -> False.
Proof.
  induction 1 as [| o c k l Ho Hc Hset Hn Hv IH]; [by intros ?%not_elem_of_nil |].
  intros [[= <- ->] | Hin]%elem_of_cons; auto.
Qed.

(** steps that leave the versions and the write sets *)
Lemma vchain_ext s s' local p l :
  heap (sh s') = heap (sh s) -> wrt_sets (sh s') = wrt_sets (sh s) -> vchain s local p l -> vchain s' local p l.
Proof.
  intros Eh Ew. induction 1 as [| o c clk l Ho Hc Hset Hn Hv IH]; [constructor |].
  econstructor; [done | by rewrite Eh | | done | done]. unfold settled. by rewrite Ew.
Qed.

(** C1. Snapshot isolation of reads.  For an object of which the state stores
    the history [hist] of committed versions, in the version chain and in the
    current master, [ts_deref] leaves the state as it is and answers an object
    with exactly the bytes that the specification reads: those of the newest
    version committed before the transaction's clock.  Versions that commit
    afterwards do not change them: any later state of the transaction that
    stores a history with newer versions in front reads the same bytes, also
    when the version has been moved to the checkpoint log meanwhile. *)
Theorem ts_deref_refines_snapshot n s obj hist :
  obj <> NULL -> outside_region s obj -> (0 < spin_bound)%nat -> unrecorded s ->
  is_clk (local_clk (self s)) -> is_clk (__last_ckpt (clks (self s))) ->
  history_ok hist -> stores_history n s obj hist ->
  exists r b, ts_deref obj s = Ok (r, s) /\ bytes_at n s r = Some b /\
    snapshot_read (local_clk (self s)) hist = Some b /\
    forall new, (forall x, x ∈ new -> lt_clock x.1 (local_clk (self s)) = false) ->
      snapshot_read (local_clk (self s)) (new ++ hist) = Some b.
Proof.
  intros Ho Hout Hsp Hun Hcl Hck [Hsort Hclk] Hst. set (local := local_clk (self s)) in *.
  enough (exists r b, ts_deref obj s = Ok (r, s) /\ bytes_at n s r = Some b /\ snapshot_read local hist = Some b)
    as (r & b & E & Hb & Hr).
  { exists r, b. split; [done |]. split; [done |]. split; [done |]. intros new Hnew. by rewrite snapshot_read_later. }
  destruct Hst as [clk b Hv Hb Hlt -> | v vh l ckpt Hv Hvn Hvh [Hch Hs Hlclk Hin Hout_ Hbnd [b0 Hb0] Hcur]].
  - exists obj, b. split; [| split; [done |]; cbn; unfold local; by rewrite Hlt].
    unfold ts_deref. rewrite (proj2 (Z.eqb_neq obj NULL)) by done. mrun (is_obj_actual_run s obj). rewrite Hout. cbn [negb].
    mrun Hv. rewrite Z.eqb_refl. by mrun (read_set_add_unrecorded s NULL NULL obj Hun).
  - change (local_clk (self s)) with local in Hin, Hout_, Hbnd. destruct (ts_deref_snapshot s obj v l Ho Hout Hsp Hun Hv Hvn vh Hvh Hch Hs Hcl Hck Hlclk) as (r & E & Hreads).
    rewrite E. destruct Hreads as [(clk & Hrl & Hlt & Hmax) | [-> Hall]].
    + destruct (Z.eqb_spec r NULL) as [Er | Hr]; [rewrite Er in Hrl; by destruct (vchain_nonnull _ _ _ _ _ Hch Hrl) |].
      destruct (Hin r clk Hrl Hlt) as (b & Hbh & Hb). exists r, b. split; [done |]. split; [done |].
      apply (snapshot_read_newest local hist clk b Hsort Hbh Hlt). intros [k b'] Hx Hlt'.
      destruct (Hout_ k b' Hx Hlt') as [[o Ho'] | [_ Hold]]; [by apply (Hmax o) |]. specialize (Hold r clk Hrl). cbn. lia.
    + exists (np_cur_act vh), b0. split; [done |]. split; [by rewrite Hcur |]. rewrite <- Hb0. apply snapshot_read_ext.
      assert (Hckpt : is_clk ckpt) by (unfold is_clk in *; lia).
      intros [k b'] Hx. cbn. specialize (Hclk _ Hx). cbn in Hclk. destruct (lt_clock k local) eqn:Elt; symmetry.
      * destruct (Hout_ k b' Hx Elt) as [[o Ho'] | [? _]]; [| done].
        eapply (lt_clock_mono_r k (__last_ckpt (clks (self s))) ckpt); try done; [by apply (Hall o) | lia].
      * destruct (lt_clock k ckpt) eqn:Ek; [| done]. rewrite (lt_clock_mono_r k ckpt local) in Elt; try done. lia.
Qed.
End Snapshot.

(** * Example: the object of [ex_versions], whose older version the reader sees *)

Definition ex_history : st :=
  ex_versions <| sh ::= (fun h => h <| obj_data := <[1048832 := [9; 9]]> (<[1048704 := [8; 8]]> {[ 300000 := [7; 7] ]}) |>) |>.

Lemma ts_deref_refines_snapshot_witness :
  exists r, @ts_deref ex_env 300000 ex_history = Ok (r, ex_history) /\ bytes_at 2 ex_history r = Some [8; 8].
Proof.
  destruct (@ts_deref_refines_snapshot ex_env 2 ex_history 300000 [(900, [9; 9]); (800, [8; 8]); (0, [7; 7])]
    ltac:(done) eq_refl ltac:(cbn; lia) (or_introl eq_refl) ltac:(done) ltac:(done)) as (r & b & E & Hb & [= <-] & _).
  - split; [repeat constructor; by vm_compute |]. intros x Hx.
    repeat (apply elem_of_cons in Hx as [-> | Hx]; [done |]). by apply not_elem_of_nil in Hx.
  - apply (history_versions _ _ _ _ 400 (mk_act_vhdr 1048832 NULL 300000 300000 MAX_VERSION) [(1048832, 900); (1048704, 800)] 500).
    1-3: by vm_compute.
    split.
    + by apply (vchain_ext ex_versions), ex_vchain.
    + repeat constructor; by vm_compute.
    + intros x [-> | [-> | []%not_elem_of_nil]%elem_of_cons]%elem_of_cons; done.
    + intros o clk [[= -> ->] | [[= -> ->] | []%not_elem_of_nil]%elem_of_cons]%elem_of_cons Hlt; [by vm_compute in Hlt |].
      exists [8; 8]. split; [by right; left | by vm_compute].
    + intros clk b [[= -> ->] | [[= -> ->] | [[= -> ->] | []%not_elem_of_nil]%elem_of_cons]%elem_of_cons]%elem_of_cons Hlt;
        [by vm_compute in Hlt | left; exists 1048704; by right; left |].
      right. split; [by vm_compute |].
      intros o k [[= -> ->] | [[= -> ->] | []%not_elem_of_nil]%elem_of_cons]%elem_of_cons; lia.
    + by vm_compute.
    + by eexists.
    + by vm_compute.
  - by exists r.
Defined.
