(* ===== verification/ReadSafety.v ===== *)
(** Reads and reclamation: a transaction looks at no copy that was superseded
    before it began, so that reclaiming those does not disturb it ([ts_deref] of
    [lib/timestone.c], [tvlog_reclaim] of [lib/tvlog.c]). *)
From S2P Require Export Timestone.

Section ReadSafety.
Context `{Env}.

(** the walk of a reader with clock [local] from [p]: the copies it looks at,
    and its answer *)
Inductive visits (s : st) (local last_ckpt : Z) : Z -> list Z -> Z -> Prop :=
| visit_found o c clk :
    heap (sh s) !! o = Some (CCpy c) -> settled s local c clk -> lt_clock clk local = true ->
    visits s local last_ckpt o [o] o
| visit_stop o c clk :
    heap (sh s) !! o = Some (CCpy c) -> settled s local c clk -> lt_clock clk local = false ->
    lt_clock (wrt_clk_next (cpy_hdr c)) last_ckpt = true \/ c_copy (cpy_hdr c) = NULL ->
    visits s local last_ckpt o [o] NULL
| visit_next o c clk l r :
    heap (sh s) !! o = Some (CCpy c) -> settled s local c clk -> lt_clock clk local = false ->
    lt_clock (wrt_clk_next (cpy_hdr c)) last_ckpt = false -> c_copy (cpy_hdr c) <> NULL ->
    visits s local last_ckpt (c_copy (cpy_hdr c)) l r -> visits s local last_ckpt o (o :: l) r.

(** each version knows when it was superseded, by the version [up] before it in
    the chain, or not yet *)
Fixpoint superseded_by (s : st) (up : Z) (l : list (Z * Z)) : Prop :=
  match l with
  | [] => True
  | (o, clk) :: l =>
      (forall c, heap (sh s) !! o = Some (CCpy c) -> wrt_clk_prev (cpy_hdr c) = MAX_VERSION \/ wrt_clk_prev (cpy_hdr c) = up) /\
      superseded_by s clk l
  end.

(** [s'] is [s] without some copies that were superseded before [qp0], and
    without write sets that have no other copy *)
Record reclaimed_before (qp0 : Z) (s s' : st) : Prop := {
  rb_self : local_clk (self s') = local_clk (self s) /\ isolation (self s') = isolation (self s) /\
            __last_ckpt (clks (self s')) = __last_ckpt (clks (self s));
  rb_region : g_lr (sh s') = g_lr (sh s);
  rb_vhdrs : vhdrs (sh s') = vhdrs (sh s);
  rb_heap : forall o c, heap (sh s) !! o = Some (CCpy c) -> lt_clock (wrt_clk_prev (cpy_hdr c)) qp0 = false ->
    heap (sh s') !! o = Some (CCpy c) /\ wrt_sets (sh s') !! p_ws (cpy_hdr c) = wrt_sets (sh s) !! p_ws (cpy_hdr c) }.

Lemma visits_run s local last_ckpt p l r n :
  (0 < spin_bound)%nat -> visits s local last_ckpt p l r -> (length l <= n)%nat ->
  loop n (fun p_copy =>
    let* c := get_chs p_copy in
    let* wrt_clk := get_wrt_clk c local in
    if lt_clock wrt_clk local then ret (inr p_copy)
    else
      let* c := get_chs p_copy in
      if lt_clock (wrt_clk_next (cpy_hdr c)) last_ckpt then ret (inr NULL)
      else if c_copy (cpy_hdr c) =? NULL then ret (inr NULL)
      else ret (inl (c_copy (cpy_hdr c)))) p s = Ok (r, s).
Proof.
  intros Hsp Hv. revert n. induction Hv as [o c clk Hc Hset Hlt | o c clk Hc Hset Hlt Hstop | o c clk l r Hc Hset Hlt Hnext Hnn Hv IH];
    (intros [| n] Hn; [cbn in Hn; lia |]); cbn [loop]; rewrite bind_assoc; mrun (get_chs_run s o c Hc); rewrite bind_assoc;
    mrun (get_wrt_clk_settled s local c clk Hset Hsp); rewrite Hlt; cbv iota; [msteps; reflexivity | |]; rewrite bind_assoc; mrun (get_chs_run s o c Hc).
  - destruct Hstop as [-> | ->]; [msteps; reflexivity |]. rewrite Z.eqb_refl. destruct (lt_clock (wrt_clk_next (cpy_hdr c)) last_ckpt); msteps; reflexivity.
  - rewrite Hnext, (proj2 (Z.eqb_neq _ _)) by done. msteps. apply IH. cbn in Hn. lia.
Qed.

(** a reader that began after [qp0] looks at no copy superseded before [qp0] *)
Lemma chain_visits s local last_ckpt qp0 p l : forall up,
  is_clk local -> is_clk qp0 -> qp0 <= local -> (forall x, x ∈ l -> is_clk x.2) -> is_clk up ->
  lt_clock up local = false -> vchain s local p l -> superseded_by s up l -> p <> NULL ->
  exists vs r, visits s local last_ckpt p vs r /\ vs `prefix_of` l.*1 /\
    forall o, o ∈ vs -> exists c, heap (sh s) !! o = Some (CCpy c) /\ lt_clock (wrt_clk_prev (cpy_hdr c)) qp0 = false.
Proof.
  intros up Hcl Hq Hle Hclk Hup Hnew Hv. revert up Hup Hnew Hclk.
  induction Hv as [| o c clk l Ho Hc Hset Hn Hv IH]; intros up Hup Hnew Hclk Hsup Hp; [done |]. destruct Hsup as [Hprev Hs].
  assert (Hkept : exists d, heap (sh s) !! o = Some (CCpy d) /\ lt_clock (wrt_clk_prev (cpy_hdr d)) qp0 = false).
  { exists c. split; [done |]. destruct (lt_clock (wrt_clk_prev (cpy_hdr c)) qp0) eqn:E; [| done].
    destruct (Hprev c Hc) as [Em | Eu].
    - rewrite Em in E. apply (lt_clock_mono_r _ _ local) in E; [| done | done | done | done]. by rewrite max_unseen in E.
    - rewrite Eu in E. apply (lt_clock_mono_r _ _ local) in E; [congruence | done..]. }
  assert (H1 : forall x, x ∈ [o] -> exists d, heap (sh s) !! x = Some (CCpy d) /\ lt_clock (wrt_clk_prev (cpy_hdr d)) qp0 = false).
  { by intros x ->%list_elem_of_singleton. }
  destruct (lt_clock clk local) eqn:Elt; [exists [o], o; split; [by eapply visit_found |]; split; [by exists l.*1 | done] |].
  destruct (lt_clock (wrt_clk_next (cpy_hdr c)) last_ckpt) eqn:Enext;
    [exists [o], NULL; split; [eapply visit_stop; eauto |]; split; [by exists l.*1 | done] |].
  destruct (decide (c_copy (cpy_hdr c) = NULL)) as [En | En];
    [exists [o], NULL; split; [eapply visit_stop; eauto |]; split; [by exists l.*1 | done] |].
  destruct (IH clk) as (vs & r & Hvs & Hpre & Hk); [by apply (Hclk (o, clk)); left | done | intros; apply Hclk; by right | done | done |].
  exists (o :: vs), r. split; [by eapply visit_next |]. split; [by apply prefix_cons |].
  intros x [-> | Hx]%elem_of_cons; auto.
Qed.

Lemma visits_kept qp0 s s' local last_ckpt p l r :
  reclaimed_before qp0 s s' ->
  (forall o, o ∈ l -> exists c, heap (sh s) !! o = Some (CCpy c) /\ lt_clock (wrt_clk_prev (cpy_hdr c)) qp0 = false) ->
  visits s local last_ckpt p l r -> visits s' local last_ckpt p l r.
Proof.
  intros Hrb Hk Hv.
  assert (Hstep : forall o c clk, o ∈ l -> heap (sh s) !! o = Some (CCpy c) -> settled s local c clk ->
    heap (sh s') !! o = Some (CCpy c) /\ settled s' local c clk).
  { intros o c clk Ho Hc Hset. destruct (Hk o Ho) as (d & Hd & Hp). assert (d = c) as -> by congruence.
    destruct (rb_heap _ _ _ Hrb o c Hc Hp) as [Hc' Hw]. split; [done |]. unfold settled in *. by rewrite Hw. }
  clear Hk. induction Hv as [o c clk Hc Hset Hlt | o c clk Hc Hset Hlt Hstop | o c clk l r Hc Hset Hlt Hnext Hnn Hv IH];
    destruct (Hstep o c clk ltac:(by left) Hc Hset) as [Hc' Hset'].
  - by eapply visit_found.
  - by eapply visit_stop.
  - eapply visit_next; try done. apply IH. intros o' c' k' Ho'. apply Hstep. by right.
Qed.

Lemma visits_length s local last_ckpt p vs r l :
  visits s local last_ckpt p vs r -> vs `prefix_of` l -> NoDup l -> (length vs <= size (heap (sh s)))%nat.
Proof.
  intros Hv [k ->] [Hnd _]%NoDup_app. apply objs_length; [done |]. clear -Hv.
  induction Hv as [o c clk Hc | o c clk Hc | o c clk l r Hc _ _ _ _ Hv IH]; intros x Hx;
    (apply elem_of_cons in Hx as [-> | Hx]; [by eexists |]); [by apply not_elem_of_nil in Hx.. | auto].
Qed.

(** the answer of [ts_deref] from the walk's *)
Lemma ts_deref_visits s obj v vh vs r l :
  obj <> NULL -> outside_region s obj -> (0 < spin_bound)%nat -> unrecorded s ->
  get_act_vhdr obj s = Ok (v, s) -> v <> NULL -> vhdrs (sh s) !! v = Some vh ->
  (if v_copy vh =? NULL then vs = [] /\ r = NULL
   else visits s (local_clk (self s)) (__last_ckpt (clks (self s))) (v_copy vh) vs r) ->
  vs `prefix_of` l -> NoDup l ->
  ts_deref obj s = Ok (if r =? NULL then np_cur_act vh else r, s).
Proof.
  intros Ho Hout Hsp Hun Hv Hvn Hvh Hvs Hpre Hnd.
  unfold ts_deref. rewrite (proj2 (Z.eqb_neq obj NULL)) by done. mrun (is_obj_actual_run s obj). rewrite Hout. cbn [negb].
  mrun Hv. rewrite (proj2 (Z.eqb_neq v NULL)) by done. mrun (get_vhdr_run s v vh Hvh). msteps.
  assert (Hw : (if negb (v_copy vh =? NULL)
      then deref_walk (local_clk (self s)) (__last_ckpt (clks (self s))) (v_copy vh) else ret NULL) s = Ok (r, s)).
  { destruct (v_copy vh =? NULL); cbn [negb]; [by destruct Hvs as [_ ->] |]. unfold deref_walk. msteps.
    apply (visits_run _ _ _ _ vs); [done | done |]. pose proof (visits_length _ _ _ _ _ _ _ Hvs Hpre Hnd). lia. }
  mrun Hw. destruct (r =? NULL); cbn [negb].
  - mrun (get_vhdr_run s v vh Hvh). by mrun (read_set_add_unrecorded s v (v_copy vh) (np_cur_act vh) Hun).
  - by mrun (read_set_add_unrecorded s v (v_copy vh) r Hun).
Qed.

(** C17. Reclamation does not disturb readers.  For a transaction that began
    after the grace period [qp0], [ts_deref] gives the same answer in a state
    from which any copies that were superseded before [qp0] have been removed,
    with their write sets: the copies that best-effort reclamation drops
    ([reclaimable]).  The transaction never looks at them, and the copy it is
    given is still there. *)
Theorem ts_deref_spares_reclaimed s s' obj v vh l qp0 :
  obj <> NULL -> outside_region s obj -> (0 < spin_bound)%nat -> unrecorded s ->
  get_act_vhdr obj s = Ok (v, s) -> get_act_vhdr obj s' = Ok (v, s') -> v <> NULL -> vhdrs (sh s) !! v = Some vh ->
  vchain s (local_clk (self s)) (v_copy vh) l -> newest_first l -> (forall x, x ∈ l -> is_clk x.2) ->
  superseded_by s MAX_VERSION l -> is_clk (local_clk (self s)) -> is_clk qp0 -> qp0 <= local_clk (self s) ->
  reclaimed_before qp0 s s' ->
  exists r, ts_deref obj s = Ok (r, s) /\ ts_deref obj s' = Ok (r, s') /\
    (r = np_cur_act vh \/ exists c, heap (sh s) !! r = Some (CCpy c) /\ heap (sh s') !! r = Some (CCpy c)).
Proof.
  intros Ho Hout Hsp Hun Hv Hv' Hvn Hvh Hch Hs Hclk Hsup Hcl Hq Hle Hrb.
  pose proof (vchain_objs_NoDup _ _ _ _ Hch Hs) as Hnd. destruct (rb_self _ _ _ Hrb) as (El & Ei & Ek).
  assert (Hw : exists vs r, (if v_copy vh =? NULL then vs = [] /\ r = NULL
      else visits s (local_clk (self s)) (__last_ckpt (clks (self s))) (v_copy vh) vs r) /\ vs `prefix_of` l.*1 /\
    (forall o, o ∈ vs -> exists c, heap (sh s) !! o = Some (CCpy c) /\ lt_clock (wrt_clk_prev (cpy_hdr c)) qp0 = false)).
  { destruct (Z.eqb_spec (v_copy vh) NULL) as [E | E].
    - exists [], NULL. split; [done |]. split; [by exists l.*1 |]. by intros o ?%not_elem_of_nil.
    - exact (chain_visits s _ _ qp0 _ l MAX_VERSION Hcl Hq Hle Hclk is_clk_MAX (max_unseen _ Hcl) Hch Hsup E). }
  destruct Hw as (vs & r & Hvs & Hpre & Hk). exists (if r =? NULL then np_cur_act vh else r).
  split; [by eapply ts_deref_visits |]. split.
  - eapply (ts_deref_visits s' obj v vh vs r l.*1); try done.
    + unfold outside_region in *. by rewrite (rb_region _ _ _ Hrb).
    + unfold unrecorded in *. by rewrite Ei.
    + by rewrite (rb_vhdrs _ _ _ Hrb).
    + rewrite El, Ek. destruct (v_copy vh =? NULL); [done |]. by eapply visits_kept.
  - destruct (Z.eqb_spec r NULL) as [Er | Er]; [by left |]. right. destruct (v_copy vh =? NULL); [by destruct Hvs |].
    assert (Hr : r ∈ vs).
    { clear -Hvs Er. induction Hvs; [by left | done | right; auto]. }
    destruct (Hk r Hr) as (c & Hc & Hp). exists c. split; [done |]. by apply (rb_heap _ _ _ Hrb).
Qed.
End ReadSafety.

(** * Example: an object with three versions; the oldest was superseded at 800
    and is removed *)

Definition ex_version3 (clk next prev p : Z) : ts_cpy_hdr_struct :=
  mk_chs (mk_cpy_hdr 1048640 clk next prev p 400) (mk_obj_hdr 8 56 TYPE_COPY STATUS_NONE).
Definition ex_three : st :=
  ex_versions <| sh ::= (fun h => h
     <| heap ::= (fun m => <[1048832 := CCpy (ex_version3 900 800 MAX_VERSION 1048704)]>
          (<[1048704 := CCpy (ex_version3 800 700 900 1048960)]>
          (<[1048960 := CCpy (ex_version3 700 MIN_VERSION 800 NULL)]> m))) |>) |>.
Definition ex_two : st := ex_three <| sh ::= (fun h => h <| heap ::= delete 1048960 |>) |>.

Lemma ex_three_chain : vchain ex_three 850 1048832 [(1048832, 900); (1048704, 800); (1048960, 700)].
Proof.
  apply (vchain_cons _ _ _ (ex_version3 900 800 MAX_VERSION 1048704)); [done | by vm_compute | by left | by intros ??? [= <- <- <-] |].
  apply (vchain_cons _ _ _ (ex_version3 800 700 900 1048960)); [done | by vm_compute | by left | by intros ??? [= <- <- <-] |].
  apply (vchain_cons _ _ _ (ex_version3 700 MIN_VERSION 800 NULL)); [done | by vm_compute | by left | done |].
  apply vchain_nil.
Qed.

Lemma ex_reclaimed_before : reclaimed_before 840 ex_three ex_two.
Proof.
  split; [done | done | done |]. intros o c Hc Hp. split; [| done]. cbn. rewrite lookup_delete_ne; [exact Hc |].
  intros <-. vm_compute in Hc. injection Hc as <-. by vm_compute in Hp.
Qed.

Lemma ts_deref_spares_reclaimed_witness :
  exists r, @ts_deref ex_env 300000 ex_three = Ok (r, ex_three) /\ @ts_deref ex_env 300000 ex_two = Ok (r, ex_two).
Proof.
  destruct (@ts_deref_spares_reclaimed ex_env ex_three ex_two 300000 400 (mk_act_vhdr 1048832 NULL 300000 300000 MAX_VERSION)
    [(1048832, 900); (1048704, 800); (1048960, 700)] 840 ltac:(done) eq_refl ltac:(cbn; lia) (or_introl eq_refl)
    ltac:(by vm_compute) ltac:(by vm_compute) ltac:(done) ltac:(by vm_compute) ex_three_chain) as (r & E & E' & _).
  - repeat constructor; by vm_compute.
  - intros x Hx. repeat (apply elem_of_cons in Hx as [-> | Hx]; [done |]). by apply not_elem_of_nil in Hx.
  - repeat split; (intros c Hc; vm_compute in Hc; injection Hc as <-; by vm_compute; auto).
  - done.
  - done.
  - done.
  - exact ex_reclaimed_before.
  - by exists r.
Defined.
