(* ===== verification/CommitPoint.v ===== *)
(** The commit point: publishing the write clock of a write set adds all its
    versions to the histories of their objects at once ([tvlog_commit] of
    [lib/tvlog.c]). *)
From S2P Require Export Snapshot.

Section CommitPoint.
Context `{Env}.

(** the thread [t] looks at the memory of [s] *)
Definition reader (t : ts_thread_struct) (s : st) : st := s <| self := t |>.

(** the write set [ws] is about to be published with [clk]; its version of
    [obj], with the bytes [b], heads the version chain, below which the history
    [hist] of older versions is stored for the reader [t] *)
Record about_to_commit (n : nat) (s : st) (ws clk : Z) (t : ts_thread_struct) (obj : Z) (b : list Z) (hist : history) : Prop := {
  abc_object : exists v vh o h l ckpt,
    get_act_vhdr obj (reader t s) = Ok (v, reader t s) /\ v <> NULL /\ vhdrs (sh s) !! v = Some vh /\
    v_copy vh = o /\ o <> NULL /\ heap (sh s) !! o = Some (CCpy h) /\ __wrt_clk (cpy_hdr h) = MAX_VERSION /\
    p_ws (cpy_hdr h) = ws /\ bytes_at n s o = Some b /\
    chain_stores n (reader t s) (c_copy (cpy_hdr h)) (np_cur_act vh) l ckpt hist /\ ckpt <= clk /\
    (forall o' k l', l = (o', k) :: l' -> wrt_clk_next (cpy_hdr h) = k) /\
    (forall x, x ∈ l -> x.2 < clk) /\
    (forall x c, x ∈ l -> heap (sh s) !! x.1 = Some (CCpy c) -> __wrt_clk (cpy_hdr c) = MAX_VERSION -> p_ws (cpy_hdr c) <> ws);
  abc_clk : is_clk (local_clk t);
  abc_older : history_ok hist /\ forall x, x ∈ hist -> x.1 < clk }.

(** the state [s] but for the write set [ws], now [w], and what is being
    written back to NVM *)
Record same_but (ws : Z) (w : ts_wrt_set) (s s' : st) : Prop := {
  sb_heap : heap (sh s') = heap (sh s);
  sb_vhdrs : vhdrs (sh s') = vhdrs (sh s);
  sb_data : obj_data (sh s') = obj_data (sh s);
  sb_cells : cells (sh_pm (sh s')) = cells (sh_pm (sh s));
  sb_ws : wrt_sets (sh s') = <[ws := w]> (wrt_sets (sh s)) }.

(** * Facts *)

(** the headers do not depend on the write sets *)
Lemma get_act_vhdr_same s s' o v :
  heap (sh s') = heap (sh s) -> cells (sh_pm (sh s')) = cells (sh_pm (sh s)) ->
  get_act_vhdr o s = Ok (v, s) -> get_act_vhdr o s' = Ok (v, s').
Proof.
  intros Eh Ec. unfold get_act_vhdr, obj_to_obj_hdr, get_ckpt_entry.
  assert (Eo : obj_hdr_of (sh s') o = obj_hdr_of (sh s) o) by (unfold obj_hdr_of, ckpt_entry_of; by rewrite Eh, Ec).
  assert (Ek : ckpt_entry_of (sh s') (obj_to_ckpt_ent o) = ckpt_entry_of (sh s) (obj_to_ckpt_ent o)) by (unfold ckpt_entry_of; by rewrite Ec).
  unfold bind. rewrite Eo. destruct (obj_hdr_of (sh s) o) as [hd |]; [| done]. cbn.
  unfold get_ahs, get_chs. destruct (o_type hd); cbn; rewrite ?Ek, ?Eh.
  - destruct (heap (sh s) !! o) as [[|] |]; [| done..]. cbn. by intros [= ->].
  - by intros [= <-].
  - destruct (heap (sh s) !! o) as [[|] |]; [done | | done]. cbn. by intros [= ->].
  - by intros [= <-].
  - destruct (ckpt_entry_of (sh s) _) as [[e c] |]; [| done]. cbn. rewrite Eh.
    destruct (heap (sh s) !! _) as [[|] |]; [| done..]. cbn. by intros [= ->].
  - by intros [= <-].
Qed.

Lemma below_same ws w t s s' local p l :
  same_but ws w s s' ->
  (forall x c, x ∈ l -> heap (sh s) !! x.1 = Some (CCpy c) -> __wrt_clk (cpy_hdr c) = MAX_VERSION -> p_ws (cpy_hdr c) <> ws) ->
  vchain (reader t s) local p l -> vchain (reader t s') local p l.
Proof.
  intros Hsb Hne. induction 1 as [| o c clk l Ho Hc Hset Hn Hv IH]; [constructor |].
  econstructor; [done | cbn; rewrite (sb_heap _ _ _ _ Hsb); exact Hc | | done |].
  - destruct Hset as [Hset | (Em & Hw)]; [by left |]. right. split; [done |]. cbn in *.
    rewrite (sb_ws _ _ _ _ Hsb), lookup_insert_ne; [done |]. intros E. by apply (Hne (o, clk) c ltac:(by left) Hc Em).
  - apply IH. intros x d Hx. apply Hne. by right.
Qed.

(** a version in front of a chain, with clock [k] for the reader, adds what the
    reader sees of it to the history *)
Lemma chain_stores_cons n t s s' ws w o h k l p cur ckpt hist hist' :
  same_but ws w s s' -> o <> NULL -> heap (sh s) !! o = Some (CCpy h) -> settled (reader t s') (local_clk t) h k ->
  c_copy (cpy_hdr h) = p -> chain_stores n (reader t s) p cur l ckpt hist ->
  (forall o' k' l', l = (o', k') :: l' -> wrt_clk_next (cpy_hdr h) = k') -> (forall x, x ∈ l -> x.2 < k) -> is_clk k ->
  (forall x c, x ∈ l -> heap (sh s) !! x.1 = Some (CCpy c) -> __wrt_clk (cpy_hdr c) = MAX_VERSION -> p_ws (cpy_hdr c) <> ws) ->
  (forall x, x ∈ hist -> x.1 < k) -> (forall x, x ∈ hist -> x ∈ hist') ->
  (lt_clock k (local_clk t) = true -> exists b, (k, b) ∈ hist' /\ bytes_at n s o = Some b) ->
  (forall x, x ∈ hist' -> x ∈ hist \/ x.1 = k) -> snapshot_read ckpt hist' = snapshot_read ckpt hist ->
  chain_stores n (reader t s') o cur ((o, k) :: l) ckpt hist'.
Proof.
  intros Hsb Ho Hh Hset Hp [C1 C2 C3 C4 C5 C6 C7 C8] Hnext Hk Hkc Hne Hhk Hsub Hnew Hold Hread.
  assert (Eb : forall x, bytes_at n (reader t s') x = bytes_at n (reader t s) x) by (intros x; unfold bytes_at; cbn; by rewrite (sb_data _ _ _ _ Hsb)).
  split; [| | | | | exact C6 | by rewrite Hread | by rewrite Eb, Hread].
  - eapply vchain_cons; [done | cbn; rewrite (sb_heap _ _ _ _ Hsb); exact Hh | exact Hset | done |]. rewrite Hp. by eapply below_same.
  - constructor; [done |]. apply Forall_forall. intros x Hx. by apply Hk.
  - intros x [-> | Hx]%elem_of_cons; auto.
  - intros o' k' [[= -> ->] | Hx]%elem_of_cons Hlt.
    + destruct (Hnew Hlt) as (b & ? & Hb). exists b. split; [done |]. by rewrite Eb.
    + destruct (C4 o' k' Hx Hlt) as (b & ? & Hb). exists b. split; [auto |]. by rewrite Eb.
  - intros k' b Hx Hlt. destruct (Hold _ Hx) as [Hx' | E]; [| cbn in E; rewrite E; left; exists o; by left].
    destruct (C5 k' b Hx' Hlt) as [[o' Ho'] | [Hck Hless]]; [left; exists o'; by right |]. right. split; [done |].
    intros o' j [[= -> ->] | Hj]%elem_of_cons; [by apply (Hhk (k', b)) | by eapply Hless].
Qed.

(** a reader whose clock is before the commit does not see the version *)
Lemma before_commit n s s' ws w clk t obj b hist :
  same_but ws w s s' -> pending_wrt_clk w = clk -> local_clk t < clk -> clk < MAX_VERSION ->
  about_to_commit n s ws clk t obj b hist -> stores_history n (reader t s') obj hist.
Proof.
  intros Hsb Ep Hlt Hmax [(v & vh & o & h & l & ckpt & Hv & Hvn & Hvh & Eo & Hon & Hh & Em & Ew & Hb & Hcs & Hck & Hnext & Hk & Hne) Hcl [Hok Hold]].
  apply (history_versions _ _ _ _ v vh ((o, MAX_VERSION) :: l) ckpt); [| done | cbn; by rewrite (sb_vhdrs _ _ _ _ Hsb) |].
  { eapply (get_act_vhdr_same (reader t s)); [apply Hsb | apply Hsb | exact Hv]. }
  rewrite Eo. eapply (chain_stores_cons n t s s' ws w o h); try done.
  - right. split; [done |]. exists w. split; [cbn; rewrite (sb_ws _ _ _ _ Hsb), Ew; apply lookup_insert_eq |]. left.
    split; [done |]. right. by rewrite Ep.
  - intros x Hx. specialize (Hk x Hx). lia.
  - intros x Hx. specialize (Hold x Hx). lia.
  - intros E. by rewrite max_unseen in E.
  - by left.
Qed.

(** a reader whose clock is not before the commit has it in its history *)
Lemma after_commit n s s' ws w clk t obj b hist :
  same_but ws w s s' -> pending_wrt_clk w = clk -> ws_wrt_clk w = clk -> clk <= local_clk t -> is_clk clk -> clk < MAX_VERSION ->
  about_to_commit n s ws clk t obj b hist -> stores_history n (reader t s') obj ((clk, b) :: hist).
Proof.
  intros Hsb Ep Epub Hle Hclk Hmax [(v & vh & o & h & l & ckpt & Hv & Hvn & Hvh & Eo & Hon & Hh & Em & Ew & Hb & Hcs & Hck & Hnext & Hk & Hne) Hcl [Hok Hold]].
  apply (history_versions _ _ _ _ v vh ((o, clk) :: l) ckpt); [| done | cbn; by rewrite (sb_vhdrs _ _ _ _ Hsb) |].
  { eapply (get_act_vhdr_same (reader t s)); [apply Hsb | apply Hsb | exact Hv]. }
  rewrite Eo. eapply (chain_stores_cons n t s s' ws w o h); try done.
  - right. split; [done |]. exists w. split; [cbn; rewrite (sb_ws _ _ _ _ Hsb), Ew; apply lookup_insert_eq |]. right.
    rewrite Ep, Epub. repeat split; [done | lia | lia].
  - intros x Hx. by right.
  - intros _. exists b. split; [by left | done].
  - intros x [-> | Hx]%elem_of_cons; [by right | by left].
  - cbn. destruct (lt_clock clk ckpt) eqn:E; [| done]. exfalso. destruct (cst_ckpt _ _ _ _ _ _ _ Hcs) as [_ ?]. cbn in *.
    destruct Hclk as [? ?], Hcl as [? ?]. assert (Hc0 : is_clk ckpt).
    { destruct (decide (0 <= ckpt)) as [? | Hneg]; [split; lia |]. exfalso. unfold lt_clock, ordo_lt_clock in E.
      apply andb_prop in E as [E _]. apply Z.ltb_lt in E. lia. }
    apply lt_clock_iff in E; [| done | done]. unfold ordo_boundary, g_ordo_boundary, __ORDO_BOUNDARY in E. lia.
Qed.

(** C2. The commit point.  [commit_publish] first publishes the clock in the
    write set and then goes on with the copies.  Whatever objects the
    transaction has written, and whoever reads them: up to the publication a
    reader with an earlier clock has the histories as they were, and it keeps
    them afterwards; from the publication on, a reader whose clock is not
    before the commit has, for every object at once, the history with the
    version written in front.  So the commit takes effect at one point. *)
Theorem publication_is_commit_point n ws w clk s :
  cur_wrt_set (tvlog (self s)) = ws -> wrt_sets (sh s) !! ws = Some w -> pending_wrt_clk w = clk -> 0 <= clk < MAX_VERSION ->
  exists s', commit_publish clk s = ws_unlock_commit s' /\
    forall t obj b hist, about_to_commit n s ws clk t obj b hist ->
      (local_clk t < clk -> stores_history n (reader t s) obj hist /\ stores_history n (reader t s') obj hist) /\
      (clk <= local_clk t -> stores_history n (reader t s') obj ((clk, b) :: hist)).
Proof.
  intros Ecur Hw Ep Hclk. set (w' := w <| ws_wrt_clk := clk |>).
  assert (Hrun : exists s', commit_publish clk s = ws_unlock_commit s' /\ same_but ws w' s s').
  { set (s1 := s <| sh ::= (fun h => h <| sh_pm ::= wmb |>) |>).
    set (s2 := s1 <| sh ::= (fun h => h <| wrt_sets ::= (fun m => <[ws := w']> m) |>) |>).
    assert (E1 : st_wmb s = Ok (tt, s1)) by reflexivity.
    assert (E2 : put_ws ws (fun w => w <| ws_wrt_clk := clk |>) s1 = Ok (tt, s2)) by (unfold put_ws; by mrun (get_ws_run s1 ws w Hw)).
    exists s2. split; [| by split]. unfold commit_publish. mrun E1. msteps. change (cur_wrt_set (tvlog (self s1))) with (cur_wrt_set (tvlog (self s))).
    rewrite Ecur. by mrun E2. }
  destruct Hrun as (s' & E & Hsb). exists s'. split; [exact E |]. intros t obj b hist Ha.
  assert (Hsb0 : same_but ws w s s) by (split; try done; by rewrite insert_id).
  split; [intros Hlt; split |].
  - exact (before_commit n s s ws w clk t obj b hist Hsb0 Ep Hlt (proj2 Hclk) Ha).
  - exact (before_commit n s s' ws w' clk t obj b hist Hsb Ep Hlt (proj2 Hclk) Ha).
  - intros Hle. apply (after_commit n s s' ws w' clk t obj b hist Hsb Ep eq_refl Hle); [| lia | done].
    assert (MAX_VERSION < 2 ^ 64) by done. split; lia.
Qed.
End CommitPoint.

(** * Example: a third version of the object of [ex_history] commits at 1000;
    a transaction of clock 1100 reads it *)

Definition ex_pending : st :=
  ex_history <| sh ::= (fun h => h
     <| heap ::= (fun m => <[1049088 := CCpy (mk_chs (mk_cpy_hdr 1048640 MAX_VERSION 900 MAX_VERSION 1048832 400)
                                                     (mk_obj_hdr 8 56 TYPE_COPY STATUS_NONE))]> m) |>
     <| wrt_sets := {[ 1048640 := mk_wrt_set MAX_VERSION 1000 1 0 8192 ]} |>
     <| obj_data ::= (fun m => <[1049088 := [1; 1]]> m) |>
     <| vhdrs := {[ 400 := mk_act_vhdr 1049088 1049088 300000 300000 MAX_VERSION ]} |>) |>
  <| self ::= (fun t => t <| tvlog ::= (fun l => l <| cur_wrt_set := 1048640 |>) |>) |>.
Definition ex_reader : ts_thread_struct := (self ex_history) <| local_clk := 1100 |>.
Definition ex_versions_stored : history := [(900, [9; 9]); (800, [8; 8]); (0, [7; 7])].

Lemma ex_chain_stores :
  chain_stores 2 (reader ex_reader ex_pending) 1048832 300000 [(1048832, 900); (1048704, 800)] 500 ex_versions_stored.
Proof.
  split.
  - apply (vchain_cons _ _ _ (ex_copy 900 800 1048704)); [done | by vm_compute | by left | by intros ??? [= <- <- <-] |].
    apply (vchain_cons _ _ _ (ex_copy 800 MIN_VERSION NULL)); [done | by vm_compute | by left | done |].
    apply vchain_nil.
  - repeat constructor; by vm_compute.
  - intros x [-> | [-> | []%not_elem_of_nil]%elem_of_cons]%elem_of_cons; done.
  - intros o clk [[= -> ->] | [[= -> ->] | []%not_elem_of_nil]%elem_of_cons]%elem_of_cons _;
      [exists [9; 9]; split; [by left | by vm_compute] | exists [8; 8]; split; [by right; left | by vm_compute]].
  - intros clk b [[= -> ->] | [[= -> ->] | [[= -> ->] | []%not_elem_of_nil]%elem_of_cons]%elem_of_cons]%elem_of_cons _;
      [left; exists 1048832; by left | left; exists 1048704; by right; left |].
    right. split; [by vm_compute |].
    intros o k [[= -> ->] | [[= -> ->] | []%not_elem_of_nil]%elem_of_cons]%elem_of_cons; lia.
  - by vm_compute.
  - by eexists.
  - by vm_compute.
Qed.

Lemma publication_is_commit_point_witness :
  exists s', @commit_publish ex_env 1000 ex_pending = @ws_unlock_commit ex_env s' /\
    stores_history 2 (reader ex_reader s') 300000 ((1000, [1; 1]) :: ex_versions_stored).
Proof.
  destruct (@publication_is_commit_point ex_env 2 1048640 (mk_wrt_set MAX_VERSION 1000 1 0 8192) 1000 ex_pending
    ltac:(by vm_compute) ltac:(by vm_compute) eq_refl ltac:(by vm_compute)) as (s' & E & Hall).
  exists s'. split; [exact E |]. apply (Hall ex_reader 300000 [1; 1] ex_versions_stored); [| by vm_compute].
  split; [| by vm_compute |].
  - exists 400, (mk_act_vhdr 1049088 1049088 300000 300000 MAX_VERSION), 1049088,
      (mk_chs (mk_cpy_hdr 1048640 MAX_VERSION 900 MAX_VERSION 1048832 400) (mk_obj_hdr 8 56 TYPE_COPY STATUS_NONE)),
      [(1048832, 900); (1048704, 800)], 500.
    do 9 (split; [by vm_compute |]). split; [exact ex_chain_stores |]. split; [done |]. split; [by intros ??? [= <- <- <-] |].
    split; [intros x [-> | [-> | []%not_elem_of_nil]%elem_of_cons]%elem_of_cons; by vm_compute |].
    intros x c [-> | [-> | []%not_elem_of_nil]%elem_of_cons]%elem_of_cons Hc; vm_compute in Hc; by injection Hc as <-.
  - split; [split; [repeat constructor; by vm_compute |] |];
      intros x [-> | [-> | [-> | []%not_elem_of_nil]%elem_of_cons]%elem_of_cons]%elem_of_cons; by vm_compute.
Defined.
