(* ===== verification/CkptHistory.v ===== *)
(** Checkpointing and readers: moving the version before the grace period to the
    checkpoint log, and detaching its copy, changes no history that a running
    transaction reads ([tvlog_reclaim] of [lib/tvlog.c], [ckptlog_enq] of
    [lib/ckptlog.c]). *)
From S2P Require Export CommitPoint CkptWalk.

Section CkptHistory.
Context `{Env}.

(** the version [o], of clock [clk], is the one before [qp0] in the history
    [hist] that the reader [t] of the object with header [vh] is served from *)
Record before_grace (n : nat) (s : st) (k : Z) (vh : ts_act_vhdr) (o clk qp0 : Z) (t : ts_thread_struct) (hist : history) : Prop := {
  bg_hist : history_ok hist;
  bg_local : is_clk qp0 /\ is_clk (local_clk t) /\ qp0 <= local_clk t;
  bg_stores : exists l ckpt, chain_stores n (reader t s) (v_copy vh) (np_cur_act vh) l ckpt hist /\
    0 <= ckpt <= qp0 /\ (o, clk) ∈ l /\ lt_clock clk qp0 = true /\
    (forall o' k', (o', k') ∈ l -> clk < k' -> lt_clock k' qp0 = false) /\
    outside k l.*1 s }.

(** * Facts *)

(** the versions, whatever becomes of their status *)
Lemma vchain_cells s s' local p l :
  wrt_sets (sh s') = wrt_sets (sh s) ->
  (forall o c, heap (sh s) !! o = Some (CCpy c) -> exists c', heap (sh s') !! o = Some (CCpy c') /\ cpy_hdr c' = cpy_hdr c) ->
  vchain s local p l -> vchain s' local p l.
Proof.
  intros Ew Hcell. induction 1 as [| o c clk l Ho Hc Hset Hn Hv IH]; [constructor |].
  destruct (Hcell o c Hc) as (c' & Hc' & Eh). rewrite <- Eh in IH. apply (vchain_cons _ _ o c'); try done.
  - unfold settled in *. by rewrite Ew, Eh.
  - by rewrite Eh.
Qed.

Lemma history_before n s t p cur l ckpt hist o clk qp0 :
  chain_stores n (reader t s) p cur l ckpt hist -> history_ok hist -> is_clk qp0 -> is_clk (local_clk t) -> qp0 <= local_clk t ->
  (o, clk) ∈ l -> lt_clock clk qp0 = true -> (forall o' k', (o', k') ∈ l -> clk < k' -> lt_clock k' qp0 = false) ->
  snapshot_read qp0 hist = bytes_at n s o /\ is_Some (bytes_at n s o).
Proof.
  intros [C1 C2 C3 C4 C5 _ _ _] [Hsort Hclk] Hq Hl Hle Hin Hlt Hnew. cbn in C4, C5.
  assert (Hclk' : is_clk clk) by (by apply (C3 (o, clk))).
  destruct (C4 o clk Hin) as (b & Hb & Ebytes); [by apply (lt_clock_mono_r clk qp0) |].
  change (bytes_at n (reader t s) o) with (bytes_at n s o) in Ebytes. rewrite Ebytes. split; [| by eexists].
  apply (snapshot_read_newest qp0 hist clk b Hsort Hb Hlt). intros [k' b'] Hx Hk'. cbn in *.
  specialize (Hclk _ Hx). cbn in Hclk. destruct (C5 k' b' Hx) as [[o' Ho'] | [_ Hold]]; [by apply (lt_clock_mono_r k' qp0) | |].
  - destruct (Z.le_gt_cases k' clk) as [? | Hgt]; [done |]. by rewrite (Hnew o' k' Ho' Hgt) in Hk'.
  - specialize (Hold o clk Hin). lia.
Qed.

(** the head of a chain is its newest version *)
Lemma head_newest s local o l clk x :
  vchain s local o l -> newest_first l -> (o, clk) ∈ l -> x ∈ l -> x.2 <= clk.
Proof.
  intros Hv Hs Hin Hx. pose proof (vchain_objs_NoDup _ _ _ _ Hv Hs) as Hnd.
  destruct Hv as [| o c k0 l Ho Hc Hset Hn Hv]; [by apply not_elem_of_nil in Hin |].
  apply StronglySorted_inv in Hs as [_ Hf]. rewrite Forall_forall in Hf. cbn in Hnd. apply NoDup_cons in Hnd as [Hno _].
  apply elem_of_cons in Hin as [[= ->] | Hin]; [| by destruct Hno; apply (list_elem_of_fmap_2 fst) in Hin].
  apply elem_of_cons in Hx as [-> | Hx]; [done |]. specialize (Hf x Hx). cbn in Hf. lia.
Qed.

(** the new master, and a chain that is kept or was headed by [o] *)
Lemma chain_stores_ckpt n s s' t vh vh' l ckpt hist o clk qp0 :
  chain_stores n (reader t s) (v_copy vh) (np_cur_act vh) l ckpt hist -> history_ok hist ->
  is_clk qp0 -> is_clk (local_clk t) -> qp0 <= local_clk t -> 0 <= ckpt <= qp0 ->
  (o, clk) ∈ l -> lt_clock clk qp0 = true -> (forall o' k', (o', k') ∈ l -> clk < k' -> lt_clock k' qp0 = false) ->
  wrt_sets (sh s') = wrt_sets (sh s) ->
  (forall x c, heap (sh s) !! x = Some (CCpy c) -> exists c', heap (sh s') !! x = Some (CCpy c') /\ cpy_hdr c' = cpy_hdr c) ->
  (forall x, x ∈ l -> bytes_at n s' x.1 = bytes_at n s x.1) -> bytes_at n s' (np_cur_act vh') = bytes_at n s o ->
  v_copy vh' = v_copy vh \/ (v_copy vh' = NULL /\ v_copy vh = o) ->
  exists l', chain_stores n (reader t s') (v_copy vh') (np_cur_act vh') l' qp0 hist.
Proof.
  intros Hcs Hok Hq Hl Hle Hck Hin Hlt Hnew Ew Hcell Hbytes Hcur Hcopy.
  destruct (history_before n s t _ _ l ckpt hist o clk qp0 Hcs Hok Hq Hl Hle Hin Hlt Hnew) as [Eread [b Eb]].
  destruct Hcs as [C1 C2 C3 C4 C5 C6 C7 C8]. cbn in C1, C4, C5, C6. destruct Hok as [_ Hclk].
  assert (Hqc : is_clk ckpt) by (unfold is_clk in *; lia).
  assert (Hmono : forall k' b', (k', b') ∈ hist -> lt_clock k' ckpt = true -> lt_clock k' qp0 = true).
  { intros k' b' Hx Hk'. apply (lt_clock_mono_r k' ckpt); try done; [by apply (Hclk (k', b')) | lia]. }
  assert (Hcur' : bytes_at n (reader t s') (np_cur_act vh') = snapshot_read qp0 hist) by (by rewrite Eread).
  assert (Hsome : is_Some (snapshot_read qp0 hist)) by (rewrite Eread, Eb; by eexists).
  destruct Hcopy as [-> | [-> Eo]].
  - exists l. split; try done; [by apply (vchain_cells (reader t s)) | | | cbn; lia].
    + intros o' k' Hx Hk'. destruct (C4 o' k' Hx Hk') as (b' & ? & Hb'). exists b'. split; [done |].
      specialize (Hbytes (o', k') Hx). cbn in Hbytes. change (bytes_at n s' o' = Some b'). by rewrite Hbytes.
    + intros k' b' Hx Hk'. destruct (C5 k' b' Hx Hk') as [? | [? ?]]; [by left | right; split; [by eapply Hmono | done]].
  - exists []. split; try done; [by constructor | by constructor | by intros x ?%not_elem_of_nil | by intros ? ? ?%not_elem_of_nil | | cbn; lia].
    intros k' b' Hx Hk'. right. split; [| by intros ? ? ?%not_elem_of_nil]. destruct (C5 k' b' Hx Hk') as [[o' Ho'] | [? _]]; [| by eapply Hmono].
    rewrite Eo in C1. pose proof (head_newest _ _ _ _ clk (o', k') C1 C2 Hin Ho') as Hle'. cbn in Hle'.
    apply (lt_clock_mono_l k' clk); try done; [by apply (C3 (o', k')) | by apply (C3 (o, clk))].
Qed.

(** detaching the copy [o] when no other thread runs in between *)
Lemma detach_alone s o c v :
  (forall x, interfere x = Ok (tt, x)) -> heap (sh s) !! o = Some (CCpy c) -> vhdrs (sh s) !! c_act_vhdr (cpy_hdr c) = Some v ->
  exists s' v', try_detach_obj o s = Ok (tt, s') /\ heap (sh s') = <[o := CCpy (detach c)]> (heap (sh s)) /\
    wrt_sets (sh s') = wrt_sets (sh s) /\ obj_data (sh s') = obj_data (sh s) /\
    vhdrs (sh s') !! c_act_vhdr (cpy_hdr c) = Some v' /\ np_cur_act v' = np_cur_act v /\
    (v_copy v' = v_copy v \/ (v_copy v' = NULL /\ v_copy v = o)).
Proof.
  intros Hi Hc Hv. unfold try_detach_obj.
  mrun (put_chs_run s o c (fun c => c <| c_hdr ::= (fun h => h <| o_status := STATUS_DETACHED |>) |>) Hc). fold (detach c).
  set (s1 := _ <| sh ::= _ |>). assert (Hc1 : heap (sh s1) !! o = Some (CCpy (detach c))) by apply lookup_insert_eq.
  mrun (get_chs_run s1 o _ Hc1). mrun (get_vhdr_run s1 (c_act_vhdr (cpy_hdr c)) v Hv).
  destruct (Z.eqb_spec (v_copy v) o) as [E | E]; cbn [negb]; [| exists s1, v; by repeat (split; [done |]); left].
  unfold smp_cas. rewrite !bind_assoc. mrun (Hi s1). rewrite !bind_assoc. mrun (get_vhdr_run s1 (c_act_vhdr (cpy_hdr c)) v Hv).
  msteps. rewrite (proj2 (Z.eqb_eq _ _) E). rewrite !bind_assoc. mrun (put_vhdr_run s1 _ v (fun v => v <| v_copy := NULL |>) Hv). msteps.
  eexists _, _. split; [reflexivity |]. do 3 (split; [done |]). split; [apply lookup_insert_eq |]. split; [done |]. by right.
Qed.

(** C19. Checkpointing keeps what transactions read.  When the version of an
    object that is the one before the grace period [qp0] is written to the
    checkpoint log and its copy is detached, with no other thread in between,
    then for every running transaction, which began after [qp0], the object has
    the history that it had: the current master stands for the version that the
    chain may no longer lead to. *)
Theorem checkpoint_keeps_histories k q M m wrt_clk qp0 s obj a vh o c clk bytes :
  let n := Z.to_nat (obj_size (c_hdr c)) in
  (forall x, interfere x = Ok (tt, x)) -> ckpt_ready k M (S m) q s ->
  heap (sh s) !! obj = Some (CAct a) -> o_type (a_hdr a) = TYPE_ACTUAL ->
  let v := nvh_act_vhdr (act_nvhdr a) in
  v <> NULL -> vhdrs (sh s) !! v = Some vh ->
  heap (sh s) !! o = Some (CCpy c) -> o_type (c_hdr c) = TYPE_COPY -> c_act_vhdr (cpy_hdr c) = v ->
  obj_data (sh s) !! o = Some bytes -> (n <= length bytes)%nat ->
  0 <= obj_size (c_hdr c) < 2 ^ 30 -> entry_size_of (ckpt_size c) <= M ->
  exists s', (ckptlog_enq wrt_clk qp0 o ;;; try_detach_obj o) s = Ok (tt, s') /\
    forall t hist, before_grace n s k vh o clk qp0 t hist -> stores_history n (reader t s') obj hist.
Proof.
  intros n Hi (Hs & Hroom & Hsto) Hobj Hta v Hvn Hvh Hc Hty Hcv Hd Hlen Hsz HM.
  assert (Hvc : vhdrs (sh s) !! c_act_vhdr (cpy_hdr c) = Some vh) by (by rewrite Hcv).
  destruct (enq_copy_run s k q M m wrt_clk qp0 o c vh bytes Hs Hroom Hsto Hc (not_free_copy _ Hty) Hvc Hd Hsz HM) as
    (cnt & rest & s1 & E1 & Hs1 & _ & _ & Eb & _ & Hsh & _).
  set (e := ckpt_ent_obj (slot (n_buffer (ckptlog (self s))) k cnt)) in *.
  assert (Hc1 : heap (sh s1) !! o = Some (CCpy c)) by (by rewrite Hsh).
  assert (Hv1 : vhdrs (sh s1) !! c_act_vhdr (cpy_hdr c) = Some (vh <| np_cur_act := e |>)) by (rewrite Hsh; cbn; apply lookup_insert_eq).
  destruct (detach_alone s1 o c _ Hi Hc1 Hv1) as (s2 & v2 & E2 & Eh2 & Ew2 & Ed2 & Hv2 & Ecur2 & Hcp2).
  exists s2. split; [mrun E1; exact E2 |]. intros t hist [Hok (Hq & Hl & Hle) (l & ckpt & Hcs & Hck & Hin & Hlt & Hnew & Hout)].
  assert (Eh : heap (sh s2) = <[o := CCpy (detach c)]> (heap (sh s))) by (by rewrite Eh2, Hsh).
  assert (Ew : wrt_sets (sh s2) = wrt_sets (sh s)) by (by rewrite Ew2, Hsh).
  assert (Ed : obj_data (sh s2) = <[e := take n bytes ++ rest]> (obj_data (sh s))) by (by rewrite Ed2, Hsh).
  assert (Hone : o <> obj) by congruence.
  destruct (chain_stores_ckpt n s s2 t vh v2 l ckpt hist o clk qp0 Hcs Hok Hq Hl Hle Hck Hin Hlt Hnew Ew) as [l' Hl'].
  - intros x d Hx. rewrite Eh. destruct (decide (x = o)) as [-> | Hne].
    + exists (detach c). rewrite lookup_insert_eq. assert (d = c) as -> by congruence. done.
    + exists d. by rewrite lookup_insert_ne.
  - intros x Hx. unfold bytes_at. rewrite Ed, lookup_insert_ne; [done |]. intros Ex.
    apply (outside_ent k l.*1 s q x.1 (cnt, ckpt_entry wrt_clk qp0 c vh) Hs Hout); [by apply list_elem_of_fmap_2 | by rewrite <- Ex].
  - rewrite Ecur2. unfold bytes_at. cbn. rewrite Ed, lookup_insert_eq, Hd. cbn. f_equal.
    rewrite take_app_le by (rewrite length_take; lia). by rewrite take_take, Nat.min_id.
  - exact Hcp2.
  - apply (history_versions _ _ _ _ v v2 l' qp0); [| done | by rewrite <- Hcv | exact Hl'].
    unfold get_act_vhdr, obj_to_obj_hdr. assert (Hobj2 : heap (sh s2) !! obj = Some (CAct a)) by (by rewrite Eh, lookup_insert_ne).
    unfold bind, obj_hdr_of. cbn. rewrite Hobj2. cbn. rewrite Hta. unfold get_ahs. cbn. by rewrite Hobj2.
Qed.
End CkptHistory.

(** * Example: the newest version of the object of [ex_versions] is checkpointed
    for the grace period 1000; a transaction of clock 1100 reads the object *)

Definition ex_eight (x : Z) : list Z := repeat x 8.
Definition ex_keep : st :=
  ex_versions <| self ::= (fun t => t <| ckptlog := ReclaimLog.ex_ckptlog |>) |>
    <| sh ::= (fun h => h <| stores := stores (sh ex_reclaim) |> <| sh_pm := sh_pm (sh ex_reclaim) |>
         <| obj_data := <[1048832 := ex_eight 9]> (<[1048704 := ex_eight 8]> {[ 300000 := ex_eight 7 ]}) |>) |>.
Definition ex_kept_reader : ts_thread_struct := (self ex_keep) <| local_clk := 1100 |>.
Definition ex_kept_history : history := [(900, ex_eight 9); (800, ex_eight 8); (0, ex_eight 7)].
Definition ex_kept_header : ts_act_vhdr := mk_act_vhdr 1048832 NULL 300000 300000 MAX_VERSION.

Lemma ex_kept_stores :
  chain_stores 8 (reader ex_kept_reader ex_keep) 1048832 300000 [(1048832, 900); (1048704, 800)] 500 ex_kept_history.
Proof.
  split.
  - apply (vchain_cons _ _ _ (ex_copy 900 800 1048704)); [done | by vm_compute | by left | by intros ??? [= <- <- <-] |].
    apply (vchain_cons _ _ _ (ex_copy 800 MIN_VERSION NULL)); [done | by vm_compute | by left | done |].
    apply vchain_nil.
  - repeat constructor; by vm_compute.
  - intros x [-> | [-> | []%not_elem_of_nil]%elem_of_cons]%elem_of_cons; done.
  - intros o clk [[= -> ->] | [[= -> ->] | []%not_elem_of_nil]%elem_of_cons]%elem_of_cons _;
      [exists (ex_eight 9); split; [by left | by vm_compute] | exists (ex_eight 8); split; [by right; left | by vm_compute]].
  - intros clk b [[= -> ->] | [[= -> ->] | [[= -> ->] | []%not_elem_of_nil]%elem_of_cons]%elem_of_cons]%elem_of_cons _;
      [left; exists 1048832; by left | left; exists 1048704; by right; left |].
    right. split; [by vm_compute |].
    intros o k [[= -> ->] | [[= -> ->] | []%not_elem_of_nil]%elem_of_cons]%elem_of_cons; lia.
  - by vm_compute.
  - by eexists.
  - by vm_compute.
Qed.

Lemma ex_before_grace : before_grace 8 ex_keep 12 ex_kept_header 1048832 900 1000 ex_kept_reader ex_kept_history.
Proof.
  split; [split; [repeat constructor; by vm_compute |] | by vm_compute |].
  - intros x [-> | [-> | [-> | []%not_elem_of_nil]%elem_of_cons]%elem_of_cons]%elem_of_cons; by vm_compute.
  - exists [(1048832, 900); (1048704, 800)], 500. split; [exact ex_kept_stores |]. split; [lia |]. split; [by left |].
    split; [by vm_compute |]. split.
    + intros o k [[= -> ->] | [[= -> ->] | []%not_elem_of_nil]%elem_of_cons]%elem_of_cons; lia.
    + intros o [-> | [-> | []%not_elem_of_nil]%elem_of_cons]%elem_of_cons; right; by vm_compute.
Qed.

Lemma checkpoint_keeps_histories_witness :
  exists s', @bind st _ _ (@ckptlog_enq 900 1000 1048832) (fun _ => @try_detach_obj ex_env 1048832) ex_keep = Ok (tt, s') /\
    stores_history 8 (reader ex_kept_reader s') 300000 ex_kept_history.
Proof.
  destruct (ReclaimLog.ex_tomb_ready 1 ltac:(lia)) as (q & H1 & H2 & H3 & _).
  assert (Hready : ckpt_ready 12 64 1 q ex_keep) by (split; [by eapply holds_ext | split; [exact H2 | exact H3]]).
  destruct (@checkpoint_keeps_histories ex_env 12 q 64 0 900 1000 ex_keep 300000 ex_object ex_kept_header 1048832
    (ex_copy 900 800 1048704) 900 (ex_eight 9) ltac:(done) Hready) as (s' & E & Hall); try by vm_compute.
  exists s'. split; [exact E |]. exact (Hall ex_kept_reader ex_kept_history ex_before_grace).
Defined.
