(* ===== verification/CommitHistory.v ===== *)
(** A commit as a whole against the specification of snapshots
    ([tvlog_commit] of [lib/tvlog.c]): it adds the versions of its write set to
    the histories of their objects. *)
From S2P Require Export CommitPoint Atomic.

Section CommitHistory.
Context `{Env}.

Lemma reading_chs o : reading (get_chs o).
Proof. intros s a s'. unfold get_chs. destruct (heap (sh s) !! o) as [[|]|]; by intros [=]. Qed.

Lemma reading_vhdr p : reading (get_vhdr p).
Proof. by intros s v s' [_ ->]%deref_Ok. Qed.

Lemma reading_bind_ret {A B} (m : M st A) (f : A -> B) : reading m -> reading (let* a := m in ret (f a)).
Proof. intros Hm s b s' (a & s1 & E1 & E2)%bind_Ok. pose proof (Hm _ _ _ E1). by injection E2 as _ <-. Qed.

Lemma keeps_smp_cas P rd wr old new :
  keeps P interfere (fun _ => P) -> reading rd -> keeps P (wr new) (fun _ => P) -> keeps P (smp_cas rd wr old new) (fun _ => P).
Proof.
  intros Hi Hr Hw. unfold smp_cas. eapply keeps_bind; [exact Hi | intros []]. eapply keeps_bind; [by apply keeps_reading | intros v].
  destruct (v =? old); [eapply keeps_bind; [exact Hw | intros []] |]; by apply keeps_ret.
Qed.

(** a version that a transaction is writing and a reader of its object: the
    count of the copy in the log, the object and its volatile header, the bytes
    written, and the history that the reader has of the object *)
Record client := mk_client {
  cl_cnt : Z;
  cl_obj : Z;
  cl_vhdr : Z;
  cl_size : nat;
  cl_bytes : list Z;
  cl_reader : ts_thread_struct;
  cl_hist : history }.

Section Served.
Context (l : list Z) (s0 : st) (local : Z) (x : client).
Abbreviation own := (tvlog_obj (tvlog (self s0)) (cl_cnt x)).

(** the reader has its history from [q] on, in committed versions of others
    that are not after [local], the clock of the transaction *)
Definition behind (s : st) (q : Z) (v : ts_act_vhdr) (chain : list (Z * Z)) : Prop :=
  (exists ckpt, chain_stores (cl_size x) (reader (cl_reader x) s) q (np_cur_act v) chain ckpt (cl_hist x) /\ ckpt <= local) /\
  forall y, y ∈ chain -> y.2 <= local /\ ~ own_copy s0 l y.1 /\
    forall d, heap (sh s) !! y.1 = Some (CCpy d) -> get_raw_wrt_clk d <> MAX_VERSION.

(** the reader is served: the history is stored behind the copy once that has
    been inserted ([ins]), or in the chain of the object *)
Record served (ins : bool) (s : st) : Prop := {
  sv_object : exists a, heap (sh s) !! cl_obj x = Some (CAct a) /\ o_type (a_hdr a) = TYPE_ACTUAL /\
    nvh_act_vhdr (act_nvhdr a) = cl_vhdr x;
  sv_bytes : bytes_at (cl_size x) s own = Some (cl_bytes x);
  sv_chain : exists v chain, vhdrs (sh s) !! cl_vhdr x = Some v /\
    (ins = false /\ behind s (v_copy v) v chain \/
     v_copy v = own /\ exists h, heap (sh s) !! own = Some (CCpy h) /\ behind s (c_copy (cpy_hdr h)) v chain /\
       forall o k r, chain = (o, k) :: r -> wrt_clk_next (cpy_hdr h) = k) }.

(** * Facts: steps of the transaction that serve the reader *)

(** a step changes the transaction's own copies, and what readers do not look at *)
Record aside (s s' : st) : Prop := {
  as_copies : forall o d, heap (sh s) !! o = Some (CCpy d) -> ~ own_copy s0 l o -> exists d', heap (sh s') !! o = Some (CCpy d') /\
    c_copy (cpy_hdr d') = c_copy (cpy_hdr d) /\ wrt_clk_next (cpy_hdr d') = wrt_clk_next (cpy_hdr d) /\
    get_raw_wrt_clk d' = get_raw_wrt_clk d;
  as_object : forall o a, heap (sh s) !! o = Some (CAct a) -> heap (sh s') !! o = Some (CAct a);
  as_data : obj_data (sh s') = obj_data (sh s) }.

Lemma behind_aside s s' q v v' chain :
  aside s s' -> np_cur_act v' = np_cur_act v -> behind s q v chain -> behind s' q v' chain.
Proof.
  intros [A1 A2 A3] Ev [(ckpt & [C1 C2 C3 C4 C5 C6 C7 C8] & Hck) Hb].
  assert (Eb : forall o, bytes_at (cl_size x) (reader (cl_reader x) s') o = bytes_at (cl_size x) (reader (cl_reader x) s) o)
    by (intros o; unfold bytes_at; cbn; by rewrite A3).
  split.
  - exists ckpt. split; [| done]. split; try done.
    + clear -A1 C1 Hb. cbn in *. induction C1 as [| o d k r Ho Hd Hset Hn Hv IH]; [constructor |].
      destruct (Hb (o, k) ltac:(by left)) as (_ & Hno & Hraw). destruct (A1 o d Hd Hno) as (d' & Hd' & Ec & En & Er). cbn in Hraw.
      destruct Hset as [[Hr ->] | [Hr _]]; [| by destruct (Hraw d Hd)].
      apply (vchain_cons _ _ _ d'); [done | exact Hd' | left; unfold get_raw_wrt_clk in *; by rewrite Er | by rewrite En |].
      rewrite Ec. apply IH. intros y Hy. apply Hb. by right.
    + intros o k Hin Hlt. destruct (C4 o k Hin Hlt) as (b & ? & ?). exists b. split; [done |]. by rewrite Eb.
    + by rewrite Eb, Ev.
  - intros y Hy. destruct (Hb y Hy) as (H1 & Hno & Hraw). do 2 (split; [done |]). intros d' Hd'.
    destruct (vchain_heap _ _ _ _ y C1 Hy) as (d & Hd & _). destruct (A1 y.1 d Hd Hno) as (d1 & Hd1 & _ & _ & Er).
    assert (d1 = d') as -> by congruence. rewrite Er. by apply Hraw.
Qed.

Lemma served_aside ins s s' :
  aside s s' ->
  (forall v, vhdrs (sh s) !! cl_vhdr x = Some v -> exists v', vhdrs (sh s') !! cl_vhdr x = Some v' /\
     v_copy v' = v_copy v /\ np_cur_act v' = np_cur_act v) ->
  (forall h, heap (sh s) !! own = Some (CCpy h) -> exists h', heap (sh s') !! own = Some (CCpy h') /\
     c_copy (cpy_hdr h') = c_copy (cpy_hdr h) /\ wrt_clk_next (cpy_hdr h') = wrt_clk_next (cpy_hdr h)) ->
  served ins s -> served ins s'.
Proof.
  intros Ha Hvh Hown [(a & Ho & Hta) Hb (v & chain & Hv & Hc)]. destruct (Hvh v Hv) as (v' & Hv' & Ec & Ecur). split.
  - exists a. split; [by apply Ha | done].
  - unfold bytes_at in *. by rewrite (as_data _ _ Ha).
  - exists v', chain. split; [done |]. destruct Hc as [[-> Hc] | (Eo & h & Hh & Hc & Hn)].
    + left. rewrite Ec. split; [done |]. by eapply behind_aside.
    + right. split; [congruence |]. destruct (Hown h Hh) as (h' & Hh' & E1 & E2). exists h'. split; [done |].
      split; [rewrite E1; by eapply behind_aside | by rewrite E2].
Qed.

Lemma aside_put s o d d' :
  heap (sh s) !! o = Some (CCpy d) ->
  own_copy s0 l o \/ (c_copy (cpy_hdr d') = c_copy (cpy_hdr d) /\ wrt_clk_next (cpy_hdr d') = wrt_clk_next (cpy_hdr d) /\
    get_raw_wrt_clk d' = get_raw_wrt_clk d) ->
  aside s (s <| sh ::= (fun h => h <| heap ::= (fun m => <[o := CCpy d']> m) |>) |>).
Proof.
  intros Ho Hk. split; [| | done]; cbn.
  - intros y e Hy Hno. destruct (decide (y = o)) as [-> | Hne]; [| rewrite lookup_insert_ne by done; by exists e].
    rewrite lookup_insert_eq. exists d'. split; [done |]. destruct Hk as [? | Hk]; [done |]. by assert (e = d) as -> by congruence.
  - intros y a Hy. rewrite lookup_insert_ne; [done |]. congruence.
Qed.

(** the header at [o] changes: of an own copy, or its [wrt_clk_prev] *)
Lemma keeps_put_chs ins o f :
  (forall d, own_copy s0 l o \/ (c_copy (cpy_hdr (f d)) = c_copy (cpy_hdr d) /\
     wrt_clk_next (cpy_hdr (f d)) = wrt_clk_next (cpy_hdr d) /\ get_raw_wrt_clk (f d) = get_raw_wrt_clk d)) ->
  (o = own -> forall d, c_copy (cpy_hdr (f d)) = c_copy (cpy_hdr d) /\ wrt_clk_next (cpy_hdr (f d)) = wrt_clk_next (cpy_hdr d)) ->
  keeps (served ins) (put_chs o f) (fun _ => served ins).
Proof.
  intros Hf Hown s [] s' Hs E. unfold put_chs in E. apply bind_Ok in E as (d & s1 & E1 & E2).
  unfold get_chs in E1. destruct (heap (sh s) !! o) as [[|d0]|] eqn:Ho; try done. injection E1 as -> <-. injection E2 as <-.
  apply (served_aside ins s); [by apply (aside_put s o d) | intros v Hv; by exists v | | done].
  intros h Hh. cbn. destruct (decide (own = o)) as [Eo | Hne].
  - rewrite Eo, lookup_insert_eq. exists (f d). split; [done |]. assert (h = d) as -> by congruence. by apply Hown.
  - rewrite lookup_insert_ne by done. by exists h.
Qed.

(** a volatile header changes: that of another object, or its lock *)
Lemma keeps_put_vhdr ins q f :
  (q = cl_vhdr x -> forall v, v_copy (f v) = v_copy v /\ np_cur_act (f v) = np_cur_act v) ->
  keeps (served ins) (put_vhdr q f) (fun _ => served ins).
Proof.
  intros Hf s [] s' Hs E. unfold put_vhdr in E. apply bind_Ok in E as (v & s1 & E1 & E2).
  unfold get_vhdr in E1. apply deref_Ok in E1 as [Hv ->]. injection E2 as <-.
  apply (served_aside ins s); [split; [| done | done]; intros o d; by exists d | | intros h Hh; by exists h | done].
  intros w Hw. cbn. destruct (decide (q = cl_vhdr x)) as [-> | Hne].
  - rewrite lookup_insert_eq. exists (f v). assert (w = v) as -> by congruence. split; [done |]. by apply Hf.
  - rewrite lookup_insert_ne by done. by exists w.
Qed.

(** other threads serve the reader as well *)
Context (Hothers : forall ins, keeps (served ins) interfere (fun _ => served ins)).

(** publishing a copy *)
Lemma unlock_serves ins clk c :
  c ∈ l -> keeps (fun s => served ins s /\ forall h, tvlog_obj (tvlog (self s0)) c = own -> heap (sh s) !! own = Some (CCpy h) -> o_type (c_hdr h) <> TYPE_FREE)
    (unlock_commit_body clk (tvlog_obj (tvlog (self s0)) c)) (fun _ => served ins).
Proof.
  intros Hc s [] s' [Hs Hty] E. unfold unlock_commit_body in E. apply bind_Ok in E as (h & s1 & E1 & E2).
  pose proof (reading_chs _ _ _ _ E1) as ->. assert (Hown : own_copy s0 l (tvlog_obj (tvlog (self s0)) c)) by (by exists c).
  assert (Hset : keeps (served ins) (put_chs (tvlog_obj (tvlog (self s0)) c) (fun c => c <| cpy_hdr ::= (fun h => h <| __wrt_clk := clk |>) |>)) (fun _ => served ins))
    by (apply keeps_put_chs; [by left | done]).
  assert (Hh : forall e, tvlog_obj (tvlog (self s0)) c = own -> heap (sh s) !! own = Some (CCpy e) -> h = e).
  { intros e Eo He. unfold get_chs in E1. rewrite Eo, He in E1. by injection E1. }
  destruct (o_type (c_hdr h)) eqn:Et; try (by injection E2 as <-).
  - refine ((_ : keeps (served ins) _ (fun _ => served ins)) s tt s' Hs E2). eapply keeps_bind; [exact Hset | intros []].
    eapply keeps_bind; [apply keeps_smp_cas; [apply Hothers | apply reading_bind_ret, reading_vhdr | apply keeps_put_vhdr; done] | intros ok].
    eapply keeps_bind; [apply keeps_reading, reading_chs | intros e]. destruct (negb _); [| by apply keeps_ret].
    apply keeps_put_chs; [by right | done].
  - refine ((_ : keeps (served ins) _ (fun _ => served ins)) s tt s' Hs E2). eapply keeps_bind; [exact Hset | intros []].
    apply keeps_put_chs; [by left |]. intros Eo. unfold get_chs in E1. rewrite Eo in E1.
    destruct (heap (sh s) !! own) as [[|e]|] eqn:He; try done. injection E1 as ->. by destruct (Hty h Eo eq_refl).
Qed.

(** moving a copy of another object *)
Lemma insert_other_serves c q :
  c ∈ l -> tvlog_obj (tvlog (self s0)) c <> own -> q <> cl_vhdr x ->
  keeps (served false) (insert_version q (tvlog_obj (tvlog (self s0)) c)) (fun _ => served false).
Proof.
  intros Hc Hne Hq. assert (Hown : own_copy s0 l (tvlog_obj (tvlog (self s0)) c)) by (by exists c).
  assert (Hset : forall f, keeps (served false) (put_chs (tvlog_obj (tvlog (self s0)) c) f) (fun _ => served false))
    by (intros f; apply keeps_put_chs; [by left | done]).
  unfold insert_version. eapply keeps_bind; [apply keeps_reading, reading_vhdr | intros v].
  apply (keeps_loop (fun _ => served false)). intros old. unfold insert_version_round.
  eapply keeps_bind; [apply Hset | intros []]. eapply keeps_bind with (Q := fun _ => served false); [| intros []].
  - destruct (_ =? _); [apply Hset |]. eapply keeps_bind; [apply keeps_reading, reading_chs | intros e]. apply Hset.
  - eapply keeps_bind; [apply keeps_smp_cas; [apply Hothers | apply reading_bind_ret, reading_vhdr | by apply keeps_put_vhdr] | intros ok].
    destruct ok; [by apply keeps_ret |].
    eapply keeps_bind; [apply keeps_reading, reading_vhdr | intros w]. by apply keeps_ret.
Qed.

(** the copy is still to be inserted, in front of [a] *)
Record fresh (a : Z) (s : st) : Prop := {
  fr_served : served false s;
  fr_self : self s = self s0;
  fr_vhdr : exists v, vhdrs (sh s) !! cl_vhdr x = Some v /\ v_lock v = own /\ v_copy v = a;
  fr_other : a <> own;
  fr_cell : exists h, heap (sh s) !! own = Some (CCpy h) }.

Lemma fresh_behind a s v : fresh a s -> vhdrs (sh s) !! cl_vhdr x = Some v -> exists chain, behind s a v chain.
Proof.
  intros [[_ _ (v' & chain & Hv' & Hc)] _ (v1 & Hv1 & _ & Ea) Hne _] Hv. assert (v1 = v) as -> by congruence.
  assert (v' = v) as -> by congruence. exists chain. destruct Hc as [[_ Hc] | [? _]]; [| congruence]. by rewrite <- Ea.
Qed.

Lemma fresh_put a s h h' : cl_cnt x ∈ l -> fresh a s -> heap (sh s) !! own = Some (CCpy h) ->
  fresh a (s <| sh ::= (fun m => m <| heap ::= (fun m => <[own := CCpy h']> m) |>) |>).
Proof.
  intros Hc Hf Hh. pose proof Hf as [[(b & Ho & Hb) Hby Hch] Hs (v & Hv & Hl & Ea) Hne _].
  destruct (fresh_behind a s v Hf Hv) as [chain Hbe]. set (s' := upd sh _ s).
  assert (Has : aside s s') by (apply (aside_put s own h h' Hh); left; by exists (cl_cnt x)).
  split; [split | done | by exists v | done | exists h'; apply lookup_insert_eq].
  - exists b. split; [by apply Has | done].
  - unfold bytes_at in *. by rewrite (as_data _ _ Has).
  - exists v, chain. split; [done |]. left. split; [done |]. rewrite Ea. by eapply behind_aside.
Qed.

Lemma behind_head s q v chain : behind s q v chain -> q <> NULL ->
  exists k rest d, chain = (q, k) :: rest /\ heap (sh s) !! q = Some (CCpy d) /\ get_raw_wrt_clk d = k /\ k <> MAX_VERSION.
Proof.
  intros [(ckpt & Hcs & _) Hb] Hq. destruct (cst_chain _ _ _ _ _ _ _ Hcs) as [| o d k rest Ho Hd Hset _ _]; [done |].
  exists k, rest, d. split; [done |]. split; [exact Hd |]. destruct (Hb (o, k) ltac:(by left)) as (_ & _ & Hraw).
  specialize (Hraw d Hd). destruct Hset as [[_ ->] | [Hr _]]; [| by destruct Hraw]. by split.
Qed.

(** the copy is linked to the version [a] *)
Definition linked (a : Z) (s : st) : Prop :=
  fresh a s /\ exists h, heap (sh s) !! own = Some (CCpy h) /\ c_copy (cpy_hdr h) = a /\
    (a <> NULL -> exists d, heap (sh s) !! a = Some (CCpy d) /\ wrt_clk_next (cpy_hdr h) = get_raw_wrt_clk d).

Lemma link_serves a : cl_cnt x ∈ l ->
  keeps (fun s => fresh a s /\ exists h, heap (sh s) !! own = Some (CCpy h) /\ c_copy (cpy_hdr h) = a)
    (if a =? NULL then put_chs own (fun c => c <| cpy_hdr ::= (fun h => h <| wrt_clk_next := MIN_VERSION |>) |>)
     else let* old := get_chs a in put_chs own (fun c => c <| cpy_hdr ::= (fun h => h <| wrt_clk_next := get_raw_wrt_clk old |>) |>))
    (fun _ => linked a).
Proof.
  intros Hc s [] s' (Hf & h & Hh & Ea) E. destruct (Z.eqb_spec a NULL) as [En | En].
  - rewrite (put_chs_run s own h _ Hh) in E. apply Ok_inj in E as [_ <-]. split; [by apply (fresh_put a s h) |].
    eexists. split; [apply lookup_insert_eq | done].
  - apply bind_Ok in E as (d & s1 & Ed & E). pose proof (reading_chs _ _ _ _ Ed) as ->.
    assert (Hd : heap (sh s) !! a = Some (CCpy d)).
    { revert Ed. unfold get_chs. destruct (heap (sh s) !! a) as [[|e]|]; try done. by intros [= ->]. }
    rewrite (put_chs_run s own h _ Hh) in E. apply Ok_inj in E as [_ <-]. split; [by apply (fresh_put a s h) |].
    eexists. split; [apply lookup_insert_eq |]. split; [done |]. intros _. exists d. split; [| done].
    rewrite <- Hd. apply lookup_insert_ne. intros E0. by apply (fr_other _ _ Hf).
Qed.

(** others keep the link; a reclamation may detach the version behind it *)
Lemma linked_others ws a s s' `{!Rely (others_kept ws l)} :
  cl_cnt x ∈ l -> 0 <= t_buffer (tvlog (self s0)) -> linked a s -> interfere s = Ok (tt, s') ->
  exists v h, fresh (v_copy v) s' /\ vhdrs (sh s') !! cl_vhdr x = Some v /\ heap (sh s') !! own = Some (CCpy h) /\
    c_copy (cpy_hdr h) = a /\ (a <> NULL -> forall d, heap (sh s') !! a = Some (CCpy d) -> wrt_clk_next (cpy_hdr h) = get_raw_wrt_clk d).
Proof.
  intros Hc Hb (Hf & h & Hh & Ea & Hn) E. destruct (fr_vhdr _ _ Hf) as (v & Hv & Hl & Eva).
  destruct (interfere_rely s) as (s1 & E1 & Ho). assert (s1 = s') as -> by congruence.
  assert (Hown : own_copy s l own) by (apply (own_copy_self s0); [apply Hf | by exists (cl_cnt x)]).
  assert (Hh' : heap (sh s') !! own = Some (CCpy h)) by (by rewrite (oth_entries _ _ _ _ Ho)).
  rewrite <- Hl in Hown. destruct (oth_locked _ _ _ _ Ho _ v Hv Hown) as (v' & Hv' & El & _ & Hvc).
  exists v', h. split; [| do 3 (split; [done |])].
  - split; [exact (Hothers false s tt s' (fr_served _ _ Hf) E) | by rewrite (oth_self _ _ _ _ Ho); apply Hf | | | by exists h].
    + exists v'. by rewrite El.
    + destruct Hvc as [-> | [-> _]]; [rewrite Eva; by apply (fr_other _ _ Hf) |].
      intros En. symmetry in En. revert En. by apply tvlog_obj_pos.
  - intros Hna d' Hd'. destruct (Hn Hna) as (d & Hd & ->). destruct (oth_copies _ _ _ _ Ho _ d Hd) as (d1 & Hd1 & Hr).
    assert (d1 = d') as -> by congruence. symmetry. apply Hr. destruct (fresh_behind a s v Hf Hv) as [chain Hbe].
    destruct (behind_head s a v chain Hbe Hna) as (k & rest & e & _ & He & <- & Hk). by assert (e = d) as -> by congruence.
Qed.

(** one round of the insertion of the reader's version *)
Lemma insert_round_serves ws a `{!Rely (others_kept ws l)} :
  cl_cnt x ∈ l -> 0 <= t_buffer (tvlog (self s0)) ->
  keeps (fresh a) (insert_version_round (cl_vhdr x) own a) (fun r s => match r with inl a' => fresh a' s | inr _ => served false s end).
Proof.
  intros Hc Hb. unfold insert_version_round.
  eapply keeps_bind with (Q := fun _ s => fresh a s /\ exists h, heap (sh s) !! own = Some (CCpy h) /\ c_copy (cpy_hdr h) = a).
  { intros s [] s1 Hf E. destruct (fr_cell _ _ Hf) as [h Hh]. rewrite (put_chs_run s own h _ Hh) in E. apply Ok_inj in E as [_ <-].
    split; [by apply (fresh_put a s h) |]. eexists. by split; [apply lookup_insert_eq |]. }
  intros []. eapply keeps_bind; [exact (link_serves a Hc) | intros []].
  intros s r s' Hlk E. destruct (interfere_rely s) as (s3 & E3 & _). unfold smp_cas in E. rewrite bind_assoc in E.
  rewrite (bind_run _ _ _ _ _ E3) in E. cbv beta in E.
  destruct (linked_others ws a s s3 Hc Hb Hlk E3) as (v & h & Hf & Hv & Hh & Ea & Hn).
  rewrite !bind_assoc in E. rewrite (bind_run _ _ _ _ _ (get_vhdr_run s3 _ v Hv)) in E. cbv beta in E. rewrite bind_ret in E.
  destruct (Z.eqb_spec (v_copy v) a) as [Eva | Eva].
  - rewrite bind_assoc in E. rewrite (bind_run _ _ _ _ _ (put_vhdr_run s3 _ v (fun v => v <| v_copy := own |>) Hv)) in E.
    cbv beta in E. rewrite bind_ret in E. apply Ok_inj in E as [<- <-]. set (s4 := upd sh _ s3).
    destruct (fresh_behind _ s3 v Hf Hv) as [chain Hbe]. rewrite Eva in Hbe.
    assert (Has : aside s3 s4) by (split; [intros o d; by exists d | done | done]).
    destruct (fr_served _ _ Hf) as [Hob Hby _]. split; [exact Hob | exact Hby |]. eexists _, chain. split; [apply lookup_insert_eq |]. right.
    split; [done |]. exists h. split; [exact Hh |]. rewrite Ea. split; [by eapply behind_aside |]. intros o k rest ->.
    destruct (decide (a = NULL)) as [En | En].
    + exfalso. destruct Hbe as [(ckpt & Hcs & _) _]. pose proof (cst_chain _ _ _ _ _ _ _ Hcs) as Hvc. rewrite En in Hvc. by inversion Hvc.
    + destruct (behind_head _ _ _ _ Hbe En) as (k' & rest' & d & [= -> -> ->] & Hd & <- & _). by apply (Hn En).
  - rewrite bind_ret in E. rewrite (bind_run _ _ _ _ _ (get_vhdr_run s3 _ v Hv)) in E. by apply Ok_inj in E as [<- <-].
Qed.

Lemma insert_own_serves ws a `{!Rely (others_kept ws l)} :
  cl_cnt x ∈ l -> 0 <= t_buffer (tvlog (self s0)) -> keeps (fresh a) (insert_version (cl_vhdr x) own) (fun _ => served false).
Proof.
  intros Hc Hb s [] s' Hf E. unfold insert_version in E. destruct (fr_vhdr _ _ Hf) as (v & Hv & _ & Ea).
  rewrite (bind_run _ _ _ _ _ (get_vhdr_run s _ v Hv)), Ea in E.
  exact (keeps_loop fresh _ (fun _ => served false) _ (fun a => insert_round_serves ws a Hc Hb) a s tt s' Hf E).
Qed.

(** the transaction has written the object and not freed it, and no reader of
    it is served from a version that the transaction wrote *)
Record written (free_set : list Z) : Prop := {
  wn_copy : cl_cnt x ∈ l /\ exists h0 v0, copy_of s0 (cl_cnt x) h0 v0 /\ c_act_vhdr (cpy_hdr h0) = cl_vhdr x /\
    is_freed free_set s0 (cl_cnt x) = false /\ obj_size (c_hdr h0) <> 0;
  wn_object : cl_obj x <> NULL /\ cl_vhdr x <> NULL;
  wn_served : served false s0;
  wn_clk : is_clk (local_clk (cl_reader x));
  wn_older : history_ok (cl_hist x) /\ forall y, y ∈ cl_hist x -> y.1 <= local }.

Lemma moving_fresh ws free_set rest n s :
  holding ws l s0 -> written free_set -> 0 <= t_buffer (tvlog (self s0)) ->
  moving ws l free_set s0 (cl_cnt x :: rest) n s -> served false s ->
  exists h v, heap (sh s) !! own = Some (CCpy h) /\ vhdrs (sh s) !! cl_vhdr x = Some v /\ fresh (v_copy v) s /\
    c_act_vhdr (cpy_hdr h) = cl_vhdr x /\ o_type (c_hdr h) = TYPE_COPY /\ obj_size (c_hdr h) <> 0 /\ (np_org_act v ∉ free_set).
Proof.
  intros Hh [(Hc & h0 & v0 & Hcv & Ep & Hfr & Hz) _ _ _ _] Hb Hm Hs. pose proof (mv_self _ _ _ _ _ _ _ Hm) as Es.
  destruct (mv_copies _ _ _ _ _ _ _ Hm _ h0 v0 Hc Hcv) as (h & v & He & Hv & Hsame & Hl & Hn & H6 & _).
  destruct (H6 ltac:(by left)) as [Hhdr Hvc]. rewrite Ep in Hv. pose proof (entry_at_heap _ _ _ He) as Hho. rewrite Es in Hho.
  exists h, v. rewrite Hhdr. do 2 (split; [done |]). split; [| split; [by rewrite (proj1 Hsame) | split; [apply Hcv | split; [done |]]]].
  - split; [done | done | by exists v | | by exists h]. intros E. destruct Hvc as [Ec | Ec].
    + assert (Hn0 : v_copy v0 <> NULL) by (rewrite <- Ec, E; by apply tvlog_obj_pos).
      destruct (hold_old _ _ _ Hh _ h0 v0 Hc Hcv Hn0) as [Hno _]. apply Hno. rewrite <- Ec, E. by exists (cl_cnt x).
    + rewrite Ec in E. symmetry in E. revert E. by apply tvlog_obj_pos.
  - rewrite Hn. intros Hin. rewrite (is_freed_copy free_set s0 _ h0 v0 Hcv) in Hfr. by apply bool_decide_eq_false in Hfr.
Qed.

(** one turn of [ws_move_lock_to_copy]'s loop *)
Lemma move_body_serves ws free_set fs c rest n `{!Rely (others_kept ws l)} :
  holding ws l s0 -> written free_set -> (forall p, ptrset_is_member fs p = bool_decide (p ∈ free_set)) ->
  0 <= t_buffer (tvlog (self s0)) -> c ∈ l -> is_Some (entry_at s0 c) ->
  keeps (fun s => moving ws l free_set s0 (c :: rest) n s /\ served false s)
    (move_lock_to_copy_body fs (tvlog_obj (tvlog (self s0)) c) n) (fun _ => served false).
Proof.
  intros Hh Hwn Hfs Hb Hc [e0 He0] s r s' [Hm Hs] E. pose proof (wn_copy _ Hwn) as (Hcx & hx & vx & Hcvx & Epx & _ & _).
  unfold move_lock_to_copy_body in E. destruct (decide (c = cl_cnt x)) as [-> | Hne].
  - destruct (moving_fresh ws free_set rest n s Hh Hwn Hb Hm Hs) as (h & v & Hho & Hv & Hf & Ep & Ht & Hz & Hni).
    rewrite (bind_run _ _ _ _ _ (get_chs_run s _ h Hho)), Ht, bool_decide_false, Ep in E by done.
    rewrite (bind_run _ _ _ _ _ (get_vhdr_run s _ v Hv)) in E. cbv beta in E.
    rewrite Hfs, (bool_decide_false _ Hni), andb_false_r, (proj2 (Z.eqb_neq _ _) Hz) in E.
    rewrite (bind_run _ _ _ _ _ (put_chs_run s own h _ Hho)) in E. apply bind_Ok in E as ([] & s1 & E1 & E).
    apply Ok_inj in E as [_ <-]. refine (insert_own_serves ws _ Hcx Hb _ tt s1 _ E1). by apply (fresh_put _ s h).
  - assert (Hno : tvlog_obj (tvlog (self s0)) c <> own) by (intros Eo; by apply Hne, (hold_inj _ _ _ Hh)).
    apply bind_Ok in E as (h & s1 & E1 & E). pose proof (reading_chs _ _ _ _ E1) as ->.
    assert (Hho : entry_at s c = Some h).
    { unfold entry_at. rewrite (mv_self _ _ _ _ _ _ _ Hm). revert E1. unfold get_chs.
      destruct (heap (sh s) !! _) as [[|d]|]; try done. by intros [= ->]. }
    case_bool_decide as Ebg; [by apply Ok_inj in E as [_ <-] |].
    assert (Hq : c_act_vhdr (cpy_hdr h) <> cl_vhdr x).
    { destruct (hold_types _ _ _ Hh c e0 Hc He0) as [Ht | Ht].
      2: { rewrite (mv_bogus _ _ _ _ _ _ _ Hm c e0 Hc He0 Ht) in Hho. congruence. }
      destruct (hold_lock _ _ _ Hh c e0 Hc He0 Ht) as (v0 & Hcv & _).
      destruct (mv_copies _ _ _ _ _ _ _ Hm c e0 v0 Hc Hcv) as (h1 & v & He & Hv & Hsame & Hl & _).
      destruct (mv_copies _ _ _ _ _ _ _ Hm _ hx vx Hcx Hcvx) as (h2 & v2 & _ & Hv2 & _ & Hl2 & _).
      assert (h1 = h) as -> by congruence. rewrite (proj1 Hsame). intros Eq. rewrite Epx in Hv2. rewrite Eq in Hv. congruence. }
    apply bind_Ok in E as (v & s1 & Ev & E). pose proof (reading_vhdr _ _ _ _ Ev) as ->.
    assert (Hset : forall f, keeps (served false) (put_chs (tvlog_obj (tvlog (self s0)) c) f) (fun _ => served false))
      by (intros f; apply keeps_put_chs; [left; by exists c | done]).
    destruct (_ && _); [| destruct (_ =? _); [by apply Ok_inj in E as [_ <-] |]].
    + refine ((_ : keeps (served false) _ (fun _ => served false)) s r s' Hs E). eapply keeps_bind; [apply Hset | intros []; by apply keeps_ret].
    + refine ((_ : keeps (served false) _ (fun _ => served false)) s r s' Hs E). eapply keeps_bind; [apply Hset | intros []].
      eapply keeps_bind; [by apply insert_other_serves | intros []; by apply keeps_ret].
Qed.

(** the whole move *)
Lemma ws_move_serves ws w e free_set s' `{!Rely (others_kept ws l)} :
  cur_wrt_set (tvlog (self s0)) = ws -> ws_layout s0 ws w l e -> NoDup l -> holding ws l s0 -> written free_set ->
  (forall p, ptrset_is_member (tx_free_set (self s0)) p = bool_decide (p ∈ free_set)) ->
  num_ptrs (tx_free_set (self s0)) = n_freed free_set s0 l -> (2 <= spin_bound)%nat -> 0 <= t_buffer (tvlog (self s0)) ->
  ws_move_lock_to_copy s0 = Ok (tt, s') -> served false s'.
Proof.
  intros Hcur Hlay Hnd Hh Hwn Hfs Hnum Hsp Hb E. unfold ws_move_lock_to_copy in E. rewrite !bind_asks, Hcur, Hnum in E.
  assert (Hlt : n_freed free_set s0 l < 2 ^ 32).
  { pose proof (lay_small _ _ _ _ _ Hlay). unfold n_freed. pose proof (List.filter_length_le (is_freed free_set s0) l). lia. }
  assert (Hall : forall c, c ∈ l -> is_Some (entry_at s0 c)).
  { destruct (lay_path _ _ _ _ _ Hlay) as (hw & _ & _ & Hp). intros c Hc. by eapply path_entry. }
  destruct (ws_for_each_rule ws (move_lock_to_copy_body (tx_free_set (self s0)))
    (fun rest n s => (exists before, l = before ++ rest) /\ moving ws l free_set s0 rest n s /\ served false s) (fun _ _ => False)
    w l e (n_freed free_set s0 l) s0 Hlay) as (r & s1 & E1 & _ & Hr).
  - split; [by exists [] | split; [by apply moving_start | by apply Hwn]].
  - intros c rest n s Hc ([before Hl] & Hm & Hs) _. rewrite (mv_self _ _ _ _ _ _ _ Hm).
    destruct (move_body_run ws l free_set s0 (fun _ => True) ltac:(done) (tx_free_set (self s0)) c rest n s) as (n' & s2 & E2 & Hm2); try done.
    + rewrite Hl in Hnd. apply NoDup_app in Hnd as (_ & _ & Hnd). by apply NoDup_cons in Hnd as [? _].
    + by apply Hall.
    + rewrite Hl. apply n_freed_le.
    + exists (inl n'), s2. split; [exact E2 |]. split; [by eapply (moving_sizes ws l free_set s0) |].
      split; [exists (before ++ [c]); by rewrite <- app_assoc |]. split; [exact Hm2 |].
      by apply (move_body_serves ws free_set (tx_free_set (self s0)) c rest n Hh Hwn Hfs Hb Hc (Hall c Hc) s (inl n') s2 (conj Hm Hs)).
  - rewrite (bind_run _ _ _ _ _ E1) in E. apply Ok_inj in E as [_ <-]. destruct r as [[cnt n] | []]. apply Hr.
Qed.

(** steps that touch neither the objects nor their headers *)
Lemma served_same ins s s' :
  heap (sh s') = heap (sh s) -> vhdrs (sh s') = vhdrs (sh s) -> obj_data (sh s') = obj_data (sh s) -> served ins s -> served ins s'.
Proof.
  intros Eh Ev Ed. apply served_aside; rewrite ?Eh, ?Ev.
  - split; rewrite ?Eh; [intros o d; by exists d | done | done].
  - intros v Hv. by exists v.
  - intros h Hh. by exists h.
Qed.

(** publishing the whole write set *)
Lemma ws_unlock_serves ins ws w e s s' `{!Rely (others_kept ws l)} :
  cur_wrt_set (tvlog (self s)) = ws -> tvlog (self s) = tvlog (self s0) -> 0 <= t_buffer (tvlog (self s0)) ->
  ws_layout s ws w l e -> locks_left l l s ->
  (forall c h, c ∈ l -> entry_at s c = Some h -> o_type (c_hdr h) = TYPE_COPY -> c_copy (cpy_hdr h) <> NULL ->
     exists old, heap (sh s) !! c_copy (cpy_hdr h) = Some (CCpy old)) ->
  cl_cnt x ∈ l -> (forall c h, c ∈ l -> tvlog_obj (tvlog (self s0)) c = own -> entry_at s c = Some h -> o_type (c_hdr h) <> TYPE_FREE) ->
  served ins s -> ws_unlock_commit s = Ok (tt, s') -> served ins s'.
Proof.
  intros Hcur Et Hb Hlay HL Hold Hcx Hty Hs E. unfold ws_unlock_commit, ws_iter in E.
  pose proof (lay_ws _ _ _ _ _ Hlay) as Hw. rewrite bind_asks, Hcur, (bind_run _ _ _ _ _ (get_ws_run s ws w Hw)) in E. cbv beta in E.
  assert (Hall : forall c, c ∈ l -> is_Some (entry_at s c)).
  { destruct (lay_path _ _ _ _ _ Hlay) as (hw & _ & _ & Hp). intros c Hc. by eapply path_entry. }
  destruct (ws_for_each_rule (B := Empty_set) ws (fun obj _ => unlock_commit_body (ws_wrt_clk w) obj ;;; ret (inl tt))
    (fun rest _ s2 => publishing (ws_wrt_clk w) ws l s rest s2 /\ served ins s2) (fun _ _ => False) w l e tt s Hlay) as (r & s1 & E1 & _ & Hr).
  - split; [by apply publishing_start | done].
  - intros c rest [] s1 Hc [P Hs1] _. destruct (Hall c Hc) as [h0 E0]. pose proof (pub_self _ _ _ _ _ _ P) as Es1.
    destruct (unlock_commit_body_run (ws_wrt_clk w) ws l s (fun _ => True) ltac:(done) c rest s1 h0) as (s2 & E2 & P2); [by rewrite Et | done.. |].
    exists (inl tt), s2. split; [by mrun E2 |]. split; [by eapply publishing_sizes |]. split; [done |].
    rewrite Es1, Et in E2. refine (unlock_serves ins (ws_wrt_clk w) c Hc s1 tt s2 (conj Hs1 _) E2).
    intros h Eo Hho. destruct (pub_hdr _ _ _ _ _ _ P c h0 Hc E0) as (h' & He' & A & _).
    assert (h' = h) as ->. { apply entry_at_heap in He'. rewrite Es1, Et, Eo in He'. congruence. }
    rewrite A. by apply (Hty c h0 Hc Eo).
  - rewrite (bind_run _ _ _ _ _ E1) in E. apply Ok_inj in E as [_ <-]. destruct r as [[cnt []] | []]. by apply Hr.
Qed.

(** what the caller does to its logs, its clocks and the write sets *)
Definition calm {A} (m : M st A) : Prop := forall s a s', m s = Ok (a, s') ->
  heap (sh s') = heap (sh s) /\ vhdrs (sh s') = vhdrs (sh s) /\ obj_data (sh s') = obj_data (sh s).

Lemma keeps_calm ins {A} (m : M st A) : calm m -> keeps (served ins) m (fun _ => served ins).
Proof. intros Hm s a s' Hs E. destruct (Hm s a s' E) as (? & ? & ?). by apply (served_same ins s). Qed.

Lemma calm_asks {A} (f : st -> A) : calm (asks f).
Proof. by intros s a s' [_ <-]%Ok_inj. Qed.

Lemma calm_self f : calm (mod_self f).
Proof. by intros s a s' [_ <-]%Ok_inj. Qed.

Lemma calm_with_log L {A} (m : M nvst A) : calm (with_log L m).
Proof.
  intros s a s'. unfold with_log. destruct (stores (sh s) !! _); [| done].
  destruct (m _) as [[b r] |]; [| done]. by intros [_ <-]%Ok_inj.
Qed.

Lemma calm_ws a f : calm (put_ws a f).
Proof. intros s b s' (w & s1 & [_ ->]%deref_Ok & [_ <-]%Ok_inj)%bind_Ok. done. Qed.

Lemma calm_wmb : calm st_wmb.
Proof. by intros s a s' [_ <-]%Ok_inj. Qed.

Lemma calm_get_ws a : calm (get_ws a).
Proof. by intros s w s' [_ ->]%deref_Ok. Qed.

Lemma calm_entry a : calm (get_log_entry a).
Proof. by intros s e s' [_ ->]%deref_Ok. Qed.

Lemma calm_clock n : calm (st_new_clock n).
Proof.
  intros s a s'. unfold st_new_clock, on_ticks, zoom. destruct (new_clock _ _ _ _) as [[c k] |]; [| done]. by intros [_ <-]%Ok_inj.
Qed.

Create HintDb calm.
#[local] Hint Resolve calm_asks calm_self calm_with_log calm_ws calm_wmb calm_get_ws calm_entry calm_clock : calm.

Ltac serve ins := repeat first
  [ progress cbv beta
  | solve [auto]
  | apply keeps_ret; solve [done]
  | apply keeps_calm; solve [eauto with calm]
  | eapply (keeps_bind _ _ (fun _ => served ins)); [| intros ?]
  | case_match ].

Lemma commit_log_at_serves ins op clk : keeps (served ins) (commit_log_at local op clk) (fun _ => served ins).
Proof. unfold commit_log_at, oplog_enq, oplog_enq_persist, stat_thread_asgn. serve ins. Qed.

Lemma request_serves ins R req : keeps (served ins) (_request_reclaim R req) (fun _ => served ins).
Proof.
  unfold _request_reclaim, read_req. eapply keeps_bind; [apply keeps_calm, calm_asks | intros old; cbv beta].
  case_match; [| by apply keeps_ret].
  apply keeps_smp_cas; [apply Hothers | intros s a s'; by intros [_ <-]%Ok_inj |].
  apply keeps_calm. by intros s a s' [_ <-]%Ok_inj.
Qed.

Lemma try_lock_log_serves ins L : keeps (served ins) (try_lock_log L) (fun _ => served ins).
Proof.
  unfold try_lock_log. eapply keeps_bind; [apply keeps_calm, calm_asks | intros n; cbv beta].
  case_match; [| by apply keeps_ret].
  apply keeps_smp_cas; [apply Hothers | intros s a s'; by intros [_ <-]%Ok_inj |]. apply keeps_calm, calm_self.
Qed.

(** the requests at the end of a commit *)
Lemma commit_request_serves ins : keeps (served ins) commit_request (fun _ => served ins).
Proof.
  assert (Hl : forall c f, keeps (served ins) (oplog_reclaim_loop c f) (fun _ => served ins)).
  { intros c f. unfold oplog_reclaim_loop, oplog_used. eapply keeps_bind; [apply keeps_calm, calm_asks | intros used; cbv beta].
    apply keeps_loop_inv. intros k. unfold oplog_peek_head, oplog_deq. serve ins. }
  pose proof (try_lock_log_serves ins) as Ht. pose proof (request_serves ins) as Hq.
  unfold commit_request, oplog_try_request_ckpt_if_needed, oplog_reclaim, tvlog_try_request_reclaim_if_needed, oplog_used,
    request_tvlog_reclaim, oplog_deq_persist, stat_thread_inc, stat_thread_acc, unlock_log, mod_log, when. serve ins.
Qed.

Lemma behind_not_own s q v chain : 0 <= t_buffer (tvlog (self s0)) -> cl_cnt x ∈ l -> behind s q v chain -> q <> own.
Proof.
  intros Hb Hc Hbe Eq. destruct (decide (q = NULL)) as [En | En].
  - rewrite En in Eq. symmetry in Eq. revert Eq. by apply tvlog_obj_pos.
  - destruct (behind_head s q v chain Hbe En) as (k & rest & d & -> & _). destruct Hbe as [_ Hbe].
    destruct (Hbe (q, k) ltac:(by left)) as (_ & Hno & _). apply Hno. cbn. rewrite Eq. by exists (cl_cnt x).
Qed.

(** once the copy heads the chain, the reader is served behind it *)
Lemma served_inserted ins s v : 0 <= t_buffer (tvlog (self s0)) -> cl_cnt x ∈ l ->
  vhdrs (sh s) !! cl_vhdr x = Some v -> v_copy v = own -> served ins s -> served true s.
Proof.
  intros Hb Hc Hv Ev [H1 H2 (v' & chain & Hv' & [[_ Hbe] | Hin])]; (split; [done | done |]); exists v', chain; (split; [done |]).
  - assert (v' = v) as -> by congruence. by destruct (behind_not_own _ _ _ _ Hb Hc Hbe).
  - by right.
Qed.

Lemma object_vhdr s a : heap (sh s) !! cl_obj x = Some (CAct a) -> o_type (a_hdr a) = TYPE_ACTUAL ->
  nvh_act_vhdr (act_nvhdr a) = cl_vhdr x -> get_act_vhdr (cl_obj x) s = Ok (cl_vhdr x, s).
Proof.
  intros Ha Ht <-. unfold get_act_vhdr, obj_to_obj_hdr, obj_hdr_of, bind. rewrite Ha. cbn. rewrite Ht. unfold get_ahs. cbn. by rewrite Ha.
Qed.

(** the reader's history, with the clock [k] that the copy has for the reader *)
Lemma served_history free_set ws w s h k :
  written free_set -> served true s -> wrt_sets (sh s) !! ws = Some w -> heap (sh s) !! own = Some (CCpy h) ->
  settled (reader (cl_reader x) s) (local_clk (cl_reader x)) h k -> local < k -> is_clk k ->
  0 <= t_buffer (tvlog (self s0)) ->
  (lt_clock k (local_clk (cl_reader x)) = false -> stores_history (cl_size x) (reader (cl_reader x) s) (cl_obj x) (cl_hist x)) /\
  stores_history (cl_size x) (reader (cl_reader x) s) (cl_obj x) ((k, cl_bytes x) :: cl_hist x).
Proof.
  intros Hwn [(a & Ha & Hta & Ep) Hby (v & chain & Hv & [[? _] | (Ev & h' & Hh' & Hbe & Hn)])] Hw Hh Hset Hlt Hk Hb; [done |].
  assert (h' = h) as -> by congruence. destruct Hbe as [(ckpt & Hcs & Hck) Hb2].
  destruct (wn_older _ Hwn) as [_ Hold]. destruct (wn_object _ Hwn) as [_ Hvn].
  assert (Hsb : same_but ws w s s) by (split; try done; by rewrite insert_id).
  assert (Hon : own <> NULL) by (by apply tvlog_obj_pos).
  assert (Hcons : forall hist', (forall y, y ∈ cl_hist x -> y ∈ hist') ->
    (lt_clock k (local_clk (cl_reader x)) = true -> exists b, (k, b) ∈ hist' /\ bytes_at (cl_size x) s own = Some b) ->
    (forall y, y ∈ hist' -> y ∈ cl_hist x \/ y.1 = k) -> snapshot_read ckpt hist' = snapshot_read ckpt (cl_hist x) ->
    stores_history (cl_size x) (reader (cl_reader x) s) (cl_obj x) hist').
  { intros hist' H1 H2 H3 H4. apply (history_versions _ _ _ _ (cl_vhdr x) v ((own, k) :: chain) ckpt); [| done | exact Hv |].
    { by apply (object_vhdr (reader (cl_reader x) s) a). }
    rewrite Ev. eapply (chain_stores_cons (cl_size x) (cl_reader x) s s ws w own h); try done.
    - intros y Hy. destruct (Hb2 y Hy) as [? _]. lia.
    - intros y d Hy Hd Hm. destruct (Hb2 y Hy) as (_ & _ & Hraw). by destruct (Hraw d Hd).
    - intros y Hy. specialize (Hold y Hy). lia. }
  split.
  - intros Hun. apply Hcons; [done | by rewrite Hun | by left | done].
  - apply Hcons; [by right | intros _; exists (cl_bytes x); by split; [left |] | |].
    + intros y [-> | Hy]%elem_of_cons; [by right | by left].
    + cbn. destruct (lt_clock k ckpt) eqn:E; [| done]. exfalso. unfold lt_clock, ordo_lt_clock in E.
      apply andb_prop in E as [E _]. apply Z.ltb_lt in E. lia.
Qed.

(** the reader's history before the commit *)
Lemma written_history free_set : (forall c h0 v0, c ∈ l -> copy_of s0 c h0 v0 -> v_copy v0 <> NULL -> ~ own_copy s0 l (v_copy v0)) -> 0 <= t_buffer (tvlog (self s0)) -> written free_set ->
  stores_history (cl_size x) (reader (cl_reader x) s0) (cl_obj x) (cl_hist x).
Proof.
  intros Hold Hb Hwn. pose proof (wn_copy _ Hwn) as (Hc & h0 & v0 & Hcv & Ep & _). destruct (wn_object _ Hwn) as [_ Hvn].
  destruct (wn_served _ Hwn) as [(a & Ha & Hta & Epa) _ (v & chain & Hv & Hch)].
  assert (v = v0) as -> by (destruct Hcv as (_ & _ & Hv0); rewrite Ep in Hv0; congruence).
  destruct Hch as [[_ [(ckpt & Hcs & _) _]] | [Eo _]].
  - apply (history_versions _ _ _ _ (cl_vhdr x) v0 chain ckpt); [by apply (object_vhdr (reader (cl_reader x) s0) a) | done | exact Hv | exact Hcs].
  - destruct (Hold _ h0 v0 Hc Hcv); rewrite Eo; [by apply tvlog_obj_pos | by exists (cl_cnt x)].
Qed.

(** when the operation is logged, the copy heads the chain *)
Lemma commit_log_serves ws w free_set op clk s1 `{!Rely (others_kept ws l)} :
  writing s0 ws w l -> locked ws l s0 -> frees s0 l free_set -> (2 <= spin_bound)%nat -> written free_set ->
  commit_log local op s0 = Ok (clk, s1) -> logged ws w l free_set clk s0 s1 -> served true s1.
Proof.
  intros Hw Hl [Hf1 Hf2] Hsp Hwn E Hg. pose proof (wn_copy _ Hwn) as (Hc & h0 & v0 & Hcv & Ep & Hfr & Hz).
  pose proof (writing_holding _ _ _ _ Hw Hl) as Hh. pose proof (wr_buffer _ _ _ _ Hw) as Hb.
  assert (Hs : served false s1).
  { unfold commit_log, commit_clock in E. rewrite bind_assoc in E. apply bind_Ok in E as ([] & s2 & E1 & E).
    apply bind_Ok in E as (k & s3 & E2 & E). apply (commit_log_at_serves false op k s3 clk s1); [| exact E].
    apply (keeps_calm false _ (calm_clock local) s2 k s3); [| exact E2].
    apply (ws_move_serves ws w _ free_set s2 (wr_cur _ _ _ _ Hw) (wr_layout _ _ _ _ Hw)); try done. by eapply writing_NoDup. }
  destruct (lg_copies _ _ _ _ _ _ _ Hg _ h0 v0 Hc Hcv) as (h & v & _ & Hv & _ & _ & Hout). rewrite Ep in Hv.
  unfold outcome in Hout. rewrite Hfr, (proj2 (Z.eqb_neq _ _) Hz) in Hout. destruct Hout as (_ & _ & Ev).
  by apply (served_inserted false s1 v).
Qed.

(** the rest of the commit *)
Lemma commit_rest_serves ws w free_set clk s1 s' op `{!Rely (others_kept ws l)} :
  writing s0 ws w l -> locked ws l s0 -> written free_set -> logged ws w l free_set clk s0 s1 ->
  commit_log local op s0 = Ok (clk, s1) -> tvlog_commit local op s0 = Ok (tt, s') -> served true s1 ->
  served true (public ws w clk s1) /\ served true s'.
Proof.
  intros Hw Hl Hwn Hg E1 E Hs. pose proof (wr_buffer _ _ _ _ Hw) as Hb. pose proof (lg_tvlog _ _ _ _ _ _ _ Hg) as Et.
  assert (Hp : served true (public ws w clk s1)) by (by apply (served_same true s1)). split; [exact Hp |].
  pose proof (lg_layout _ _ _ _ _ _ _ Hg) as [Lw Ln Ls (hw & Lh & Lr & Lp)].
  unfold tvlog_commit in E. rewrite (bind_run _ _ _ _ _ E1) in E. cbv beta in E.
  apply bind_Ok in E as ([] & s2 & E2 & E). apply bind_Ok in E as ([] & s3 & E3 & E).
  assert (Hcur : cur_wrt_set (tvlog (self s1)) = ws) by (by rewrite Et, (wr_cur _ _ _ _ Hw)).
  rewrite (commit_publish_public ws w clk s1 Hcur Lw) in E2.
  destruct (logged_locks ws w l free_set clk s0 s1 Hw Hl Hg) as [Hlk Hold].
  assert (Hs2 : served true s2).
  { refine (ws_unlock_serves true ws (w <| pending_wrt_clk := clk |> <| ws_wrt_clk := clk |>) (t_tail_cnt (tvlog (self s0)))
      (public ws w clk s1) s2 Hcur Et Hb _ Hlk Hold _ _ Hp E2); [| by apply (wn_copy _ Hwn) |].
    - split; [by cbn; rewrite lookup_insert_eq | done | done |]. exists hw. split; [exact Lh |]. split; [exact Lr |].
      by apply (path_same s1).
    - intros c h Hc Eo He. pose proof (wn_copy _ Hwn) as (Hcx & h0 & v0 & Hcv & _ & Hfr & _).
      assert (c = cl_cnt x) as -> by (by apply (hold_inj _ _ _ (writing_holding _ _ _ _ Hw Hl))).
      destruct (logged_entry ws w l free_set clk s0 s1 _ h Hw Hl Hg Hc He) as [[-> _] | (? & ? & ? & _ & _ & _ & _ & -> & _)]; [done |].
      by rewrite Hfr. }
  pose proof (commit_request_serves true s2 tt s3 Hs2 E3) as Hs3.
  apply bind_Ok in E as ([] & s4 & [_ <-]%Ok_inj & [_ <-]%Ok_inj). by apply (served_same true s3).
Qed.
End Served.

(** C3. A commit refines the addition of a version to the history of every
    object that the transaction has written and not freed.  [x] is such a
    version and any reader of its object, whom other threads keep serving while
    the commit runs.  The commit returns; a reader with an earlier clock than
    the commit's has its history unchanged: as before the commit, so when the operation is logged, when
    the write set is published and when the commit is over; a reader whose clock
    is not before the commit's has the history with the new version in front as
    soon as the write set is published, and still when the commit is over. *)
Theorem tvlog_commit_extends_histories ws w l free_set k q r local op s `{!Rely (others_kept ws l)} :
  writing s ws w l -> locked ws l s -> frees s l free_set -> op_ready s k q r op -> clock_ready local ->
  (2 <= spin_bound)%nat ->
  op_count (oplog (self s)) k op + entry_size_of (sizeof_op_entry_hdr + oi_curr op) - n_head_cnt (oplog (self s))
    < TS_OPLOG_HIGH_MARK ->
  exists clk s1 s2 s', commit_log local op s = Ok (clk, s1) /\ commit_publish clk s1 = ws_unlock_commit s2 /\
    tvlog_commit local op s = Ok (tt, s') /\ lt_clock local clk = true /\
    (clk < MAX_VERSION -> forall x, written l s local x free_set ->
       (forall ins, keeps (served l s local x ins) interfere (fun _ => served l s local x ins)) ->
       let stores s := stores_history (cl_size x) (reader (cl_reader x) s) (cl_obj x) in
       stores s (cl_hist x) /\
       (local_clk (cl_reader x) < clk -> stores s1 (cl_hist x) /\ stores s2 (cl_hist x) /\ stores s' (cl_hist x)) /\
       (clk <= local_clk (cl_reader x) ->
          stores s2 ((clk, cl_bytes x) :: cl_hist x) /\ stores s' ((clk, cl_bytes x) :: cl_hist x))).
Proof.
  intros Hw Hl Hf Hop Hclk Hsp Hmark.
  destruct (tvlog_commit_run (fun _ => True) ws w l free_set k q r local op s ltac:(done) ltac:(done) Hw Hl Hf Hop Hclk Hsp Hmark)
    as (clk & s1 & s3 & s' & E1 & Hlt & _ & _ & Hg & E & _ & _ & Hfin & _ & Hic & P & Hws' & _ & Hobj).
  pose proof (lg_layout _ _ _ _ _ _ _ Hg) as [Lw _ _ _]. pose proof (wr_buffer _ _ _ _ Hw) as Hb.
  assert (Hloc : local < clk) by (unfold lt_clock, ordo_lt_clock in Hlt; apply andb_prop in Hlt as [Hlt _]; by apply Z.ltb_lt in Hlt).
  exists clk, s1, (public ws w clk s1), s'. split; [done |].
  split; [apply commit_publish_public; [by rewrite (lg_tvlog _ _ _ _ _ _ _ Hg), (wr_cur _ _ _ _ Hw) | exact Lw] |].
  do 2 (split; [done |]). intros Hmax x Hwn Hothers stores.
  pose proof (commit_log_serves l s local x Hothers ws w free_set op clk s1 Hw Hl Hf Hsp Hwn E1 Hg) as Hs1.
  destruct (commit_rest_serves l s local x Hothers ws w free_set clk s1 s' op Hw Hl Hwn Hg E1 E Hs1) as [Hs2 Hs'].
  pose proof (wn_copy _ _ _ _ _ Hwn) as (Hc & h0 & v0 & Hcv & _).
  destruct (lg_copies _ _ _ _ _ _ _ Hg _ h0 v0 Hc Hcv) as (h & v & He & _ & (_ & Hp & Hraw & _) & _).
  destruct (wr_entries _ _ _ _ Hw _ h0 Hc (proj1 Hcv)) as [_ [_ _ [(_ & Hp0 & _ & Hraw0) | Ht]]]; [| by rewrite (proj1 (proj2 Hcv)) in Ht].
  rewrite Hp0 in Hp. rewrite Hraw0 in Hraw. apply entry_at_heap in He. rewrite (lg_tvlog _ _ _ _ _ _ _ Hg) in He.
  destruct (Hfin _ h0 v0 Hc Hcv) as (h' & He' & Hk). apply entry_at_heap in He'. rewrite Hobj in He'.
  assert (Hw2 : wrt_sets (sh (public ws w clk s1)) !! ws = Some (w <| pending_wrt_clk := clk |> <| ws_wrt_clk := clk |>)) by apply lookup_insert_eq.
  assert (Hw3 : wrt_sets (sh s') !! ws = Some (w <| pending_wrt_clk := clk |> <| ws_wrt_clk := clk |>)) by (rewrite Hws', (pub_ws _ _ _ _ _ _ P); exact Hw2).
  pose proof (wn_clk _ _ _ _ _ Hwn) as Ht. pose proof is_clk_MAX as HM.
  assert (Hlm : local < MAX_VERSION) by lia.
  assert (Hset : settled (reader (cl_reader x) s') (local_clk (cl_reader x)) h' clk) by (left; unfold get_raw_wrt_clk in Hk; split; [lia | done]).
  split; [| split].
  - apply (written_history l s local x free_set); [intros c e u Hc' Hcu Hn; by apply (lck_old _ _ _ Hl c e u) | done..].
  - intros Hlt'. pose proof (later_unseen clk _ Hic Ht Hlt') as Hun. pose proof (max_unseen _ Ht) as Hmun. split; [| split].
    + apply (served_history l s local x free_set ws _ s1 h MAX_VERSION Hwn Hs1 Lw He); try done.
      right. split; [done |]. eexists. split; [cbn; rewrite Hp; exact Lw |]. left. split; [done | by right].
    + apply (served_history l s local x free_set ws _ (public ws w clk s1) h MAX_VERSION Hwn Hs2 Hw2 He); try done.
      right. split; [done |]. eexists. split; [cbn -[public]; rewrite Hp; exact Hw2 |]. left. split; [done | by right].
    + by apply (served_history l s local x free_set ws _ s' h' clk Hwn Hs' Hw3 He').
  - intros Hle. split; [| by apply (served_history l s local x free_set ws _ s' h' clk Hwn Hs' Hw3 He')].
    apply (served_history l s local x free_set ws _ (public ws w clk s1) h clk Hwn Hs2 Hw2 He); try done.
    right. split; [done |]. eexists. split; [cbn -[public]; rewrite Hp; exact Hw2 |]. right. cbn. repeat split; lia.
Qed.
End CommitHistory.

(** * Example: the transaction of [ex_writing] writes the object 300000, whose
    history has two versions *)

Definition ex_committing : st :=
  ex_writing <| sh ::= (fun h => h
    <| heap ::= (fun m => <[300000 := CAct (mk_ahs (mk_act_nvhdr 400 1 0) (mk_obj_hdr 8 0 TYPE_ACTUAL STATUS_NONE))]> m) |>
    <| obj_data := <[1048760 := [9; 9]]> (<[2097336 := [8; 8]]> {[ 300000 := [7; 7] ]}) |>) |>.

(** a reader with clock 5000 *)
Definition ex_client : client :=
  mk_client 128 300000 400 2 [9; 9] ((self ex_committing) <| local_clk := 5000 |>) [(700, [8; 8]); (0, [7; 7])].

Lemma ex_is_committing : writing ex_committing 1048632 ex_ws [128].
Proof.
  split; [done | by vm_compute | | apply ex_tail_ok; by right | by split; vm_compute | apply ex_tail_ok; by left | by vm_compute |].
  - split; [by vm_compute | done | done |]. exists ex_ws_hdr. split; [by vm_compute |]. split; [by vm_compute |].
    eapply path_cons; [by vm_compute | done | by vm_compute | by vm_compute | apply path_nil].
  - intros c h Hc He. destruct (ex_entry c h Hc) as [-> ->]; [by revert He; apply list_elem_of_singleton in Hc as ->; vm_compute |].
    split; [done |]. split; [by exists 2 | by vm_compute | left; by vm_compute].
Qed.

Lemma ex_entry_committing c h : c ∈ [128] -> entry_at ex_committing c = Some h -> h = ex_new_copy /\ c = 128.
Proof. intros ->%list_elem_of_singleton. vm_compute. by intros [= <-]. Qed.

Lemma ex_committing_copy : copy_of ex_committing 128 ex_new_copy (mk_act_vhdr 2097336 1048760 300000 300000 MAX_VERSION).
Proof. by vm_compute. Qed.

Lemma ex_committing_locked : locked 1048632 [128] ex_committing.
Proof.
  split.
  - intros c h Hc He _. destruct (ex_entry_committing c h Hc He) as [-> ->]. eexists. split; [exact ex_committing_copy | by vm_compute].
  - intros p v. cbn. intros [<- <-]%lookup_singleton_Some _. exists 128, ex_new_copy.
    split; [by left |]. split; [exact ex_committing_copy | done].
  - intros c h v Hc Hcv _. destruct (ex_entry_committing c h Hc (proj1 Hcv)) as [-> ->].
    destruct (copy_of_fun _ _ _ _ _ _ Hcv ex_committing_copy) as [_ ->]. split.
    + intros (y & Hy & E). apply list_elem_of_singleton in Hy as ->. by vm_compute in E.
    + exists 700. by vm_compute.
Qed.

Lemma ex_client_written : @written [128] ex_committing 1000 ex_client [].
Proof.
  split.
  - split; [by left |]. exists ex_new_copy, (mk_act_vhdr 2097336 1048760 300000 300000 MAX_VERSION). by vm_compute.
  - done.
  - split; [eexists; by vm_compute | by vm_compute |].
    exists (mk_act_vhdr 2097336 1048760 300000 300000 MAX_VERSION), [(2097336, 700)]. split; [by vm_compute |]. left. split; [done |].
    split; [exists 500; split; [| done] |].
    + split.
      * apply (vchain_cons _ _ _ ex_old_copy); [done | by vm_compute | by left | done | apply vchain_nil].
      * repeat constructor.
      * intros y ->%list_elem_of_singleton. done.
      * intros o k [= -> ->]%list_elem_of_singleton _. exists [8; 8]. split; [by left | by vm_compute].
      * intros k b [[= -> ->] | [= -> ->]%list_elem_of_singleton]%elem_of_cons _; [left; eexists; by left |].
        right. split; [by vm_compute |]. intros o j [= -> ->]%list_elem_of_singleton. lia.
      * by vm_compute.
      * by eexists.
      * by vm_compute.
    + intros y ->%list_elem_of_singleton. split; [done |]. split.
      * intros (z & ->%list_elem_of_singleton & E). by vm_compute in E.
      * intros d Hd. vm_compute in Hd. injection Hd as <-. done.
  - done.
  - split; [split; [repeat constructor; by vm_compute |] |];
      intros y [-> | ->%list_elem_of_singleton]%elem_of_cons; by vm_compute.
Qed.

(** the write clock of the commit *)
Definition commit_clk : Z :=
  match @commit_log ex_env_sat 1000 (mk_op_info 0 5 []) ex_committing with Ok (clk, _) => clk | Fault _ => 0 end.

Lemma tvlog_commit_extends_histories_witness :
  exists s', @tvlog_commit ex_env_sat 1000 (mk_op_info 0 5 []) ex_committing = Ok (tt, s') /\
    stores_history 2 (reader (cl_reader ex_client) s') 300000 [(commit_clk, [9; 9]); (700, [8; 8]); (0, [7; 7])].
Proof.
  destruct (@tvlog_commit_extends_histories ex_env_sat 1048632 ex_ws [128] [] 8 [(64, new_entry 128)] (ex_log 192) 1000
    (mk_op_info 0 5 []) ex_committing (ex_rely _ _) ex_is_committing ex_committing_locked
    ltac:(split; [intros p; by vm_compute | by vm_compute]) ltac:(destruct ex_op_ready as [R1 R2 R3 R4 R5 R6 R7]; by split)
    ex_clock_ready ltac:(cbn; lia) ltac:(by vm_compute)) as (clk & s1 & s2 & s' & E1 & _ & E & _ & Hall).
  assert (Ec : commit_clk = clk) by (unfold commit_clk; by rewrite E1).
  assert (Hb : commit_clk <= 5000) by (by vm_compute). rewrite Ec in Hb |- *.
  exists s'. split; [exact E |].
  apply (Hall ltac:(unfold MAX_VERSION, ULONG_MAX; lia) ex_client ex_client_written); [| exact Hb].
  intros ins s u t Hs Ei. apply Ok_inj in Ei as [_ <-]. exact Hs.
Defined.
