(* ===== verification/LockTx.v ===== *)
(** Locking an object for writing ([_ts_try_lock] of [lib/timestone.c]): what a
    transaction may lock, and that locking keeps the state from which commit
    and abort start. *)
From S2P Require Export CommitTx Timestone.

Section LockTx.
Context `{Env}.

(** * What others keep while a transaction locks an object *)

(** the log from the open write set on, with the entry being appended *)
Definition own_obj (s : st) (o : Z) : Prop :=
  exists w x, wrt_sets (sh s) !! cur_wrt_set (tvlog (self s)) = Some w /\
    start_tail_cnt w <= x <= t_tail_cnt (tvlog (self s)) /\ o = tvlog_obj (tvlog (self s)) x.

(** every current master has its bytes *)
Definition masters (h : shared) : Prop := forall p v, vhdrs h !! p = Some v -> is_Some (obj_data h !! np_cur_act v).

(** like [others_kept], for the open write set whatever its entries are; and no
    object's bytes disappear *)
Record others_tx (s s' : st) : Prop := {
  otx_self : self s' = self s;
  otx_ws : wrt_sets (sh s') !! cur_wrt_set (tvlog (self s)) = wrt_sets (sh s) !! cur_wrt_set (tvlog (self s));
  otx_oplog : oplog_left s s';
  otx_cells : forall o, own_obj s o -> heap (sh s') !! o = heap (sh s) !! o;
  otx_locked : forall p v, vhdrs (sh s) !! p = Some v -> own_obj s (v_lock v) ->
    exists v', vhdrs (sh s') !! p = Some v' /\ v_lock v' = v_lock v /\ np_org_act v' = np_org_act v /\
      (v_copy v' = v_copy v \/ (v_copy v' = NULL /\ ~ own_obj s (v_copy v)));
  otx_lock : forall p v', vhdrs (sh s') !! p = Some v' -> own_obj s (v_lock v') ->
    exists v, vhdrs (sh s) !! p = Some v /\ v_lock v = v_lock v';
  otx_vhdrs : forall p, is_Some (vhdrs (sh s) !! p) -> is_Some (vhdrs (sh s') !! p);
  otx_copies : forall o c, heap (sh s) !! o = Some (CCpy c) -> exists c', heap (sh s') !! o = Some (CCpy c') /\
    (get_raw_wrt_clk c <> MAX_VERSION -> get_raw_wrt_clk c' = get_raw_wrt_clk c);
  otx_data : forall o, is_Some (obj_data (sh s) !! o) -> is_Some (obj_data (sh s') !! o);
  otx_masters : masters (sh s) -> masters (sh s') }.

Lemma own_copy_obj s ws w l : cur_wrt_set (tvlog (self s)) = ws -> wrt_sets (sh s) !! ws = Some w ->
  (forall c, c ∈ l -> start_tail_cnt w <= c <= t_tail_cnt (tvlog (self s))) ->
  forall o, own_copy s l o -> own_obj s o.
Proof. intros <- Hw Hl o (c & Hc & ->). exists w, c. split; [done |]. split; [by apply Hl | done]. Qed.

Lemma others_tx_kept s s' ws w l : others_tx s s' -> cur_wrt_set (tvlog (self s)) = ws -> wrt_sets (sh s) !! ws = Some w ->
  (forall c, c ∈ l -> start_tail_cnt w <= c <= t_tail_cnt (tvlog (self s))) ->
  start_tail_cnt w <= t_tail_cnt (tvlog (self s)) -> ws = tvlog_obj (tvlog (self s)) (start_tail_cnt w) ->
  others_kept ws l s s'.
Proof.
  intros [O1 O2 O3 O4 O5 O6 O7 O8 O9 O10] Hcur Hw Hl Hle Hws. pose proof (own_copy_obj s ws w l Hcur Hw Hl) as Hown.
  rewrite Hcur in O2. split; try done.
  - apply O4. exists w, (start_tail_cnt w). rewrite Hcur. split; [done |]. split; [lia | done].
  - intros o Ho. by apply O4, Hown.
  - intros p v Hv Ho. destruct (O5 p v Hv (Hown _ Ho)) as (v' & A & B & C & D). exists v'. do 3 (split; [done |]).
    destruct D as [D | [D1 D2]]; [by left | right]. split; [done |]. intros Ho'. by apply D2, Hown.
  - intros p v' Hv Ho. by apply (O6 p v' Hv), Hown.
Qed.

(** * The locks of a transaction, while it adds an entry *)

(** [locked], when the entries of [l] are locks and those of [l'] are to be *)
Record locked_in (l l' : list Z) (s : st) : Prop := {
  lin_lock : forall c h0, c ∈ l -> entry_at s c = Some h0 -> o_type (c_hdr h0) = TYPE_COPY ->
    exists v0, copy_of s c h0 v0 /\ v_lock v0 = tvlog_obj (tvlog (self s)) c;
  lin_only : forall p v, vhdrs (sh s) !! p = Some v -> own_copy s l' (v_lock v) ->
    exists c h0, c ∈ l /\ copy_of s c h0 v /\ c_act_vhdr (cpy_hdr h0) = p;
  lin_old : forall c h0 v0, c ∈ l -> copy_of s c h0 v0 -> v_copy v0 <> NULL ->
    ~ own_copy s l' (v_copy v0) /\ exists k, clk_of s (v_copy v0) = Some k /\ k <> MAX_VERSION }.

Lemma locked_in_all ws l s : locked ws l s <-> locked_in l l s.
Proof. split; intros [A B C]; by split. Qed.

Lemma own_copy_sub s l l' o : l ⊆ l' -> own_copy s l o -> own_copy s l' o.
Proof. intros Hs (c & Hc & E). exists c. split; [by apply Hs | done]. Qed.

Lemma locked_in_sub l l' s : l ⊆ l' -> locked_in l l' s -> locked_in l l s.
Proof.
  intros Hs [A B C]. split; [done | |].
  - intros p v Hv Ho. apply (B p v Hv). by eapply own_copy_sub.
  - intros c h0 v0 Hc Hcv Hn. destruct (C c h0 v0 Hc Hcv Hn) as [C1 C2]. split; [| done]. intros Ho. by eapply C1, own_copy_sub.
Qed.

Lemma clk_of_others ws l s s' o k : others_kept ws l s s' -> clk_of s o = Some k -> k <> MAX_VERSION -> clk_of s' o = Some k.
Proof.
  intros Ho Hk Hne. unfold clk_of in *. destruct (heap (sh s) !! o) as [[|c]|] eqn:E; try done. injection Hk as Hk.
  destruct (oth_copies _ _ _ _ Ho o c E) as (c' & -> & Hc). by rewrite Hc, Hk by congruence.
Qed.

Lemma locked_in_others ws l l' s s' : l ⊆ l' -> others_kept ws l' s s' -> locked_in l l' s -> locked_in l l' s'.
Proof.
  intros Hs Ho [A B C]. pose proof (fun c Hc => entry_at_others ws l' s s' c Ho (Hs c Hc)) as He.
  pose proof (oth_self _ _ _ _ Ho) as Es.
  assert (Hown : forall o, own_copy s' l' o <-> own_copy s l' o) by (intros o; by apply own_copy_self).
  assert (Hlk : forall c h0, c ∈ l -> entry_at s c = Some h0 -> o_type (c_hdr h0) = TYPE_COPY ->
    exists v0 v', copy_of s c h0 v0 /\ copy_of s' c h0 v' /\ v_lock v' = tvlog_obj (tvlog (self s)) c /\
      (v_copy v' = v_copy v0 \/ v_copy v' = NULL)).
  { intros c h0 Hc Hh Ht. destruct (A c h0 Hc Hh Ht) as (v0 & Hcv & El). pose proof Hcv as (_ & _ & Hv0).
    assert (Hl0 : own_copy s l' (v_lock v0)) by (rewrite El; exists c; split; [by apply Hs | done]).
    destruct (oth_locked _ _ _ _ Ho _ v0 Hv0 Hl0) as (v' & Hv' & El' & _ & Hcp). exists v0, v'. split; [done |].
    split; [split; [by rewrite He | done] |]. split; [congruence |]. destruct Hcp as [-> | [-> _]]; auto. }
  split.
  - intros c h0 Hc Hh Ht. rewrite He in Hh by done. destruct (Hlk c h0 Hc Hh Ht) as (_ & v' & _ & Hcv' & El & _).
    exists v'. by rewrite Es.
  - intros p v' Hv' Hl. apply Hown in Hl. destruct (oth_lock _ _ _ _ Ho p v' Hv' Hl) as (v & Hv & El). rewrite <- El in Hl.
    destruct (B p v Hv Hl) as (c & h0 & Hc & (Hh & Ht & _) & Ep). exists c, h0. split; [done |]. split; [| done].
    split; [by rewrite He | by rewrite Ep].
  - intros c h0 v' Hc (Hh & Ht & Hv') Hn. rewrite He in Hh by done.
    destruct (Hlk c h0 Hc Hh Ht) as (v0 & v1 & Hcv & (_ & _ & Hv1) & _ & Hcp). assert (v1 = v') as -> by congruence.
    destruct Hcp as [Hcp | ?]; [| done]. rewrite Hcp in Hn |- *. destruct (C c h0 v0 Hc Hcv Hn) as [C1 (k & C2 & C3)].
    split; [by rewrite Hown |]. exists k. split; [by eapply clk_of_others | done].
Qed.

(** * Facts: the new entry *)

(** the counts from the tail on that an append may write are no newest version
    and no lock *)
Definition log_free (n : Z) (s : st) : Prop :=
  forall x p v, t_tail_cnt (tvlog (self s)) <= x < t_tail_cnt (tvlog (self s)) + n -> vhdrs (sh s) !! p = Some v ->
    v_lock v <> tvlog_obj (tvlog (self s)) x /\ v_copy v <> tvlog_obj (tvlog (self s)) x.

(** the counts that an append adds when the tail is at [cnt] *)
Definition added (cnt size : Z) : list Z :=
  if wraps_at cnt (copy_size size) then [cnt; alloc_at cnt size] else [alloc_at cnt size].

Lemma added_range cnt size x : small_object size -> tail_ok cnt -> x ∈ added cnt size ->
  cnt <= x <= alloc_at cnt size /\ alloc_at cnt size < cnt + (2 * copy_size size + ws_reserve).
Proof.
  intros Hs Ht Hx. pose proof (append_turn cnt size Hs Ht). destruct (alloc_at_ok cnt size Hs Ht) as (_ & A & _).
  pose proof (append_size_bounds cnt size Hs Ht) as (_ & B & _). unfold small_object in Hs.
  unfold added in Hx. destruct (wraps_at _ _); [apply elem_of_cons in Hx as [-> | ->%list_elem_of_singleton] |
    apply list_elem_of_singleton in Hx as ->]; lia.
Qed.

Lemma append_state_frame p size s o :
  (forall x, x ∈ added (t_tail_cnt (tvlog (self s))) size -> o <> tvlog_obj (tvlog (self s)) x) ->
  heap (sh (append_state p size s)) !! o = heap (sh s) !! o.
Proof.
  unfold added, append_state, alloc_state. intros Ho. destruct (wraps_at _ _); cbn.
  - rewrite !lookup_insert_ne by (symmetry; apply Ho; elems). done.
  - rewrite !lookup_insert_ne by (symmetry; apply Ho; elems). done.
Qed.

Lemma append_state_data p size s : obj_data (sh (append_state p size s)) = obj_data (sh s).
Proof. unfold append_state, alloc_state. by destruct (wraps_at _ _). Qed.

Lemma append_state_obj p size s x :
  tvlog_obj (tvlog (self (append_state p size s))) x = tvlog_obj (tvlog (self s)) x.
Proof. unfold tvlog_obj, tvlog_at. by rewrite (proj1 (append_state_fields p size s)). Qed.

(** after the first half of an append the locks are as before, and the new
    entries are none of them *)
Lemma append_locked_in s ws w l p size :
  writing s ws w l -> locked ws l s -> small_object size -> entry_room s (start_tail_cnt w) size ->
  log_free (2 * copy_size size + ws_reserve) s ->
  locked_in l (l ++ added (t_tail_cnt (tvlog (self s))) size) (append_state p size s).
Proof.
  intros Hw [A B C] Hs [Hr _] Hf. pose proof (wr_tail _ _ _ _ Hw) as Ht. set (cnt := t_tail_cnt (tvlog (self s))) in *.
  destruct (writing_path s ws w l Hw) as (c0 & Hc0 & Hp). pose proof (path_bounds _ _ _ _ Hp) as [_ Hb]. fold cnt in Hb.
  destruct (wr_start _ _ _ _ Hw) as [Hst _]. fold cnt in Hst.
  destruct (alloc_at_ok cnt size Hs Ht) as (_ & A2 & _ & _). pose proof (append_turn cnt size Hs Ht) as At.
  pose proof (append_size_bounds cnt size Hs Ht) as (_ & Bs & _). rewrite ws_reserve_eq in *. pose proof Hs as Hs'. unfold small_object in Hs'.
  assert (Hent : forall x, x ∈ l -> entry_at (append_state p size s) x = entry_at s x).
  { intros x Hx. specialize (Hb x Hx). rewrite append_state_entry; fold cnt; [| done | done | lia | lia].
    by rewrite !decide_False by lia. }
  destruct (append_state_fields p size s) as (_ & _ & Ev & _).
  assert (Hcp : forall c h v, c ∈ l -> copy_of (append_state p size s) c h v <-> copy_of s c h v).
  { intros c h v Hc. unfold copy_of. by rewrite Hent, Ev by done. }
  assert (Hown : forall o, own_copy (append_state p size s) (l ++ added cnt size) o ->
    own_copy s l o \/ exists x, x ∈ added cnt size /\ o = tvlog_obj (tvlog (self s)) x).
  { intros o (x & [Hx | Hx]%elem_of_app & E); rewrite append_state_obj in E; [left; by exists x | right; by exists x]. }
  assert (Hnew : forall x q v, x ∈ added cnt size -> vhdrs (sh s) !! q = Some v ->
    v_lock v <> tvlog_obj (tvlog (self s)) x /\ v_copy v <> tvlog_obj (tvlog (self s)) x).
  { intros x q v Hx Hv. apply (Hf x q v); [| done]. fold cnt. pose proof (added_range cnt size x Hs Ht Hx). rewrite ws_reserve_eq in *. lia. }
  split.
  - intros c h0 Hc He Htp. rewrite Hent in He by done. destruct (A c h0 Hc He Htp) as (v0 & Hcv & El). exists v0.
    by rewrite Hcp, append_state_obj.
  - intros q v Hv Ho. rewrite Ev in Hv. apply Hown in Ho as [Ho | (x & Hx & E)]; [| by destruct (Hnew x q v Hx Hv)].
    destruct (B q v Hv Ho) as (c & h0 & Hc & Hcv & Ep). exists c, h0. by rewrite Hcp.
  - intros c h0 v0 Hc Hcv Hn. rewrite Hcp in Hcv by done. destruct (C c h0 v0 Hc Hcv Hn) as [C1 C2]. pose proof Hcv as (_ & _ & Hv0).
    assert (Hno : forall x, x ∈ added cnt size -> v_copy v0 <> tvlog_obj (tvlog (self s)) x) by (intros x Hx; by apply (Hnew x _ v0 Hx Hv0)).
    split; [| by unfold clk_of; rewrite append_state_frame]. intros [Ho | (x & Hx & E)]%Hown; [done | by apply (Hno x)].
Qed.

(** the newest version, if any, is committed and none of [l] *)
Definition old_ok (s : st) (l : list Z) (old : Z) : Prop :=
  old <> NULL -> ~ own_copy s l old /\ exists k, clk_of s old = Some k /\ k <> MAX_VERSION.

(** the new entry at [c] becomes the lock of the object with header [p] *)
Lemma locked_add ws l ys c s2 s3 p v h :
  0 <= t_buffer (tvlog (self s2)) -> locked_in l (l ++ ys ++ [c]) s2 ->
  vhdrs (sh s2) !! p = Some v -> v_lock v = NULL -> old_ok s2 (l ++ ys ++ [c]) (v_copy v) ->
  t_buffer (tvlog (self s3)) = t_buffer (tvlog (self s2)) -> heap (sh s3) = heap (sh s2) ->
  vhdrs (sh s3) = <[p := v <| v_lock := tvlog_obj (tvlog (self s2)) c |>]> (vhdrs (sh s2)) ->
  entry_at s3 c = Some h -> o_type (c_hdr h) = TYPE_COPY -> c_act_vhdr (cpy_hdr h) = p ->
  (forall y hy, y ∈ ys -> entry_at s3 y = Some hy -> o_type (c_hdr hy) = TYPE_BOGUS) ->
  locked ws (l ++ ys ++ [c]) s3.
Proof.
  intros Hb [A B C] Hv Hnl Hold Ebf Eh Ev Hc Ht Hp Hys. set (l' := l ++ ys ++ [c]) in *.
  assert (Eo : forall x, tvlog_obj (tvlog (self s3)) x = tvlog_obj (tvlog (self s2)) x) by (intros x; unfold tvlog_obj, tvlog_at; by rewrite Ebf).
  assert (Ee : forall x, entry_at s3 x = entry_at s2 x) by (intros x; unfold entry_at; by rewrite Eo, Eh).
  assert (Hown : forall o, own_copy s3 l' o <-> own_copy s2 l' o) by (intros o; unfold own_copy; by setoid_rewrite Eo).
  assert (Hclk : forall o, clk_of s3 o = clk_of s2 o) by (intros o; unfold clk_of; by rewrite Eh).
  assert (Hne : forall x h0, x ∈ l -> entry_at s2 x = Some h0 -> o_type (c_hdr h0) = TYPE_COPY -> c_act_vhdr (cpy_hdr h0) <> p).
  { intros x h0 Hx Hh Hth E. destruct (A x h0 Hx Hh Hth) as (v0 & (_ & _ & Hv0) & El). rewrite E in Hv0.
    assert (v0 = v) as -> by congruence. rewrite Hnl in El. symmetry in El. by apply tvlog_obj_pos in El. }
  assert (Hin : forall x h0, x ∈ l' -> entry_at s3 x = Some h0 -> o_type (c_hdr h0) = TYPE_COPY -> x ∈ l \/ (x = c /\ h0 = h)).
  { intros x h0 [Hx | [Hx | ->%list_elem_of_singleton]%elem_of_app]%elem_of_app Hh Hth; [by left | | right; split; congruence].
    rewrite (Hys x h0 Hx Hh) in Hth. done. }
  split.
  - intros x h0 Hx Hh Hth. destruct (Hin x h0 Hx Hh Hth) as [Hxl | [-> ->]].
    + rewrite Ee in Hh. destruct (A x h0 Hxl Hh Hth) as (v0 & (_ & _ & Hv0) & El). exists v0.
      rewrite Eo. split; [| done]. split; [by rewrite Ee |]. split; [done |].
      rewrite Ev, lookup_insert_ne; [done |]. symmetry. by apply (Hne x).
    + exists (v <| v_lock := tvlog_obj (tvlog (self s2)) c |>). split; [| by rewrite Eo].
      split; [done |]. split; [done |]. by rewrite Ev, Hp, lookup_insert_eq.
  - intros q u Hq Ho. rewrite Ev in Hq. destruct (decide (q = p)) as [-> | Hqp].
    + rewrite lookup_insert_eq in Hq. injection Hq as <-. exists c, h. split; [unfold l'; elems |].
      split; [| done]. split; [done |]. split; [done |]. by rewrite Ev, Hp, lookup_insert_eq.
    + rewrite lookup_insert_ne in Hq by done. apply Hown in Ho. destruct (B q u Hq Ho) as (x & h0 & Hx & (Hh & Hth & Hu) & Eq).
      exists x, h0. split; [unfold l'; elems |]. split; [| done]. split; [by rewrite Ee |]. split; [done |].
      rewrite Ev, lookup_insert_ne; [done |]. congruence.
  - intros x h0 u Hx (Hh & Hth & Hu) Hn. rewrite Hown, Hclk. destruct (Hin x h0 Hx Hh Hth) as [Hxl | [-> ->]].
    + rewrite Ee in Hh. rewrite Ev, lookup_insert_ne in Hu by (symmetry; by apply (Hne x)). by apply (C x h0 u).
    + rewrite Ev, Hp, lookup_insert_eq in Hu. injection Hu as <-. by apply Hold.
Qed.

(** [try_lock_obj] under others: it takes the lock in the state that they leave,
    or changes nothing *)
Lemma try_lock_obj_run G R `{!RelyWhen G R} p old new s v : G s ->
  vhdrs (sh s) !! p = Some v -> (forall s2, R s s2 -> is_Some (vhdrs (sh s2) !! p)) ->
  exists b s2 s', try_lock_obj p old new s = Ok (b, s') /\ (s2 = s \/ R s s2) /\
    if b then exists v2, vhdrs (sh s2) !! p = Some v2 /\ v_lock v2 = NULL /\ v_copy v2 = old /\
      s' = s2 <| sh ::= (fun h => h <| vhdrs ::= (fun m => <[p := v2 <| v_lock := new |>]> m) |>) |>
    else s' = s2.
Proof.
  intros HG Hv Hdom. unfold try_lock_obj. mrun (get_vhdr_run s p v Hv).
  destruct (_ || _); [exists false, s, s; split; [done |]; by split; [left |] |].
  unfold smp_cas. rewrite bind_assoc. destruct (interfere_when s HG) as (s2 & Ei & Hr). mrun Ei. destruct (Hdom s2 Hr) as [v2 Hv2].
  msteps. mrun (get_vhdr_run s2 p v2 Hv2). msteps. destruct (Z.eqb_spec (v_lock v2) NULL) as [El | El]; msteps.
  2: { exists false, s2, s2. split; [done |]. by split; [right |]. }
  mrun (put_vhdr_run s2 p v2 (fun v => v <| v_lock := new |>) Hv2). msteps. cbn [negb]. set (s3 := upd sh _ s2).
  assert (Hv3 : vhdrs (sh s3) !! p = Some (v2 <| v_lock := new |>)) by (cbn; apply lookup_insert_eq).
  mrun (get_vhdr_run s3 p _ Hv3). change (v_copy (v2 <| v_lock := new |>)) with (v_copy v2).
  destruct (Z.eqb_spec (v_copy v2) old) as [Ec | Ec]; cbn [negb].
  - exists true, s2, s3. split; [done |]. split; [by right |]. by exists v2.
  - mrun (put_vhdr_run s3 p _ (fun v => v <| v_lock := NULL |>) Hv3). exists false, s2, s2. split; [| by split; [right |]].
    unfold ret. do 2 f_equal. unfold s3. destruct s2 as [me h2], h2. cbn in *. f_equal. f_equal.
    rewrite insert_insert_eq. apply insert_id. rewrite Hv2. f_equal. destruct v2. cbn in *. by subst.
Qed.

(** * Facts: a lock and its copy *)

Lemma writing_kept s s' ws w l :
  writing s ws w l -> tvlog (self s') = tvlog (self s) -> wrt_sets (sh s') !! ws = wrt_sets (sh s) !! ws ->
  (forall x, start_tail_cnt w <= x < t_tail_cnt (tvlog (self s)) ->
     heap (sh s') !! tvlog_obj (tvlog (self s)) x = heap (sh s) !! tvlog_obj (tvlog (self s)) x) ->
  writing s' ws w l.
Proof.
  intros Hw Et Ews Hh. destruct (writing_path s ws w l Hw) as (c0 & Hc0 & Hp0). pose proof (path_bounds _ _ _ _ Hp0) as [_ Hb].
  assert (He : forall x, x ∈ l -> entry_at s' x = entry_at s x).
  { intros x Hx. apply entry_at_cells; [by rewrite Et |]. apply Hh. specialize (Hb x Hx). lia. }
  destruct Hw as [W1 W2 [L1 L2 L3 (h & L4 & L5 & L6)] W4 [W5 W5'] W6 W7 W8]. split; rewrite ?Et; try done.
  - split; [by rewrite Ews | done | done |]. exists h. split; [| split; [done | by apply (path_same s s')]].
    rewrite W5', Hh, <- W5'; [done | lia].
  - intros c hc Hc Hhc. rewrite He in Hhc by done. by apply (W8 c hc).
Qed.

(** what a granted lock leaves: the copy [o], which is the newest entry of the
    write set and the object's lock, and holds the bytes of the version or
    master that it copies *)
Definition granted (s : st) (ws : Z) (w : ts_wrt_set) (l : list Z) (p old size o : Z) (s' : st) : Prop :=
  exists w' ys c v b rest, o = tvlog_obj (tvlog (self s)) c /\ start_tail_cnt w' = start_tail_cnt w /\
    writing s' ws w' (l ++ ys ++ [c]) /\ locked ws (l ++ ys ++ [c]) s' /\ is_write_detected (self s') = true /\
    vhdrs (sh s') !! p = Some v /\ v_lock v = o /\ v_copy v = old /\
    obj_data (sh s') !! o = Some (take (Z.to_nat size) b ++ rest) /\
    let src := if old =? NULL then np_cur_act v else old in
    src <> o -> obj_data (sh s') !! src = Some b.

Lemma lock_fill_run s1 s2 ws w p old size c o v2 :
  own_log_kept ws (start_tail_cnt w) c s1 s2 -> vhdrs (sh s2) !! p = Some v2 ->
  is_Some (obj_data (sh s2) !! (if old =? NULL then np_cur_act v2 else old)) ->
  exists s3 b rest, (if old =? NULL then let* v := get_vhdr p in memcpy_obj o (np_cur_act v) size
          else memcpy_obj o old size) s2 = Ok (tt, s3) /\
    own_log_kept ws (start_tail_cnt w) c s1 s3 /\ heap (sh s3) = heap (sh s2) /\ vhdrs (sh s3) = vhdrs (sh s2) /\
    self s3 = self s2 /\ wrt_sets (sh s3) = wrt_sets (sh s2) /\
    obj_data (sh s3) !! o = Some (take (Z.to_nat size) b ++ rest) /\
    let src := if old =? NULL then np_cur_act v2 else old in src <> o -> obj_data (sh s3) !! src = Some b.
Proof.
  intros [K1 K2 K3] Hv [b Hb]. set (src := if old =? NULL then _ else _) in *. eexists _, b, _. split; [transitivity (memcpy_obj o src size s2); [| exact (memcpy_obj_run o src size s2 b Hb)] |
    split; [split; [exact K1 | exact K2 | exact K3] |]].
  -
    unfold src. destruct (old =? NULL); [by mrun (get_vhdr_run s2 p v2 Hv) | done].
  - do 4 (split; [done |]). cbn. split; [by rewrite lookup_insert_eq |]. intros Hne. by rewrite lookup_insert_ne.
Qed.

Lemma append_own_obj p size s ws w l x :
  writing s ws w l -> start_tail_cnt w <= x <= alloc_at (t_tail_cnt (tvlog (self s))) size ->
  own_obj (append_state p size s) (tvlog_obj (tvlog (self s)) x).
Proof.
  intros Hw Hx. destruct (append_state_fields p size s) as (F1 & F2 & _ & _). exists w, x. rewrite append_state_obj, F1, F2.
  cbn. rewrite (wr_cur _ _ _ _ Hw). split; [apply (lay_ws _ _ _ _ _ (wr_layout _ _ _ _ Hw)) |]. by split.
Qed.

(** the state after the first half of the append, once others have run *)
Lemma append_others s ws w l p size s2 :
  let s1 := append_state p size s in
  writing s ws w l -> small_object size -> (s2 = s1 \/ others_tx s1 s2) ->
  others_kept ws (l ++ added (t_tail_cnt (tvlog (self s))) size) s1 s2 \/ s2 = s1.
Proof.
  intros s1 Hw Hs [-> | Ho]; [by right | left]. destruct (append_state_fields p size s) as (F1 & F2 & _ & _).
  pose proof (wr_tail _ _ _ _ Hw) as Ht. destruct (wr_start _ _ _ _ Hw) as [Hst Ews].
  destruct (writing_path s ws w l Hw) as (c0 & Hc0 & Hp). pose proof (path_bounds _ _ _ _ Hp) as [_ Hb].
  destruct (alloc_at_ok _ size Hs Ht) as (_ & A2 & _ & _).
  apply (others_tx_kept s1 s2 ws w _ Ho); unfold s1; rewrite ?F1, ?F2; cbn; try apply Hw.
  - intros c [Hc | Hc]%elem_of_app; [specialize (Hb c Hc); lia |]. pose proof (added_range _ size c Hs Ht Hc). lia.
  - lia.
Qed.

Lemma append_own_kept s ws w l p size s2 :
  let s1 := append_state p size s in
  writing s ws w l -> (s2 = s1 \/ others_tx s1 s2) ->
  own_log_kept ws (start_tail_cnt w) (alloc_at (t_tail_cnt (tvlog (self s))) size) s1 s2.
Proof.
  intros s1 Hw [-> | Ho]; [done |]. destruct (append_state_fields p size s) as (F1 & F2 & _ & _).
  split; [by rewrite (otx_self _ _ Ho) | |].
  - pose proof (otx_ws _ _ Ho) as E. unfold s1 in E. rewrite F1 in E. cbn in E. by rewrite (wr_cur _ _ _ _ Hw) in E.
  - intros x Hx. apply (otx_cells _ _ Ho). unfold s1. rewrite append_state_obj. by apply (append_own_obj p size s ws w l).
Qed.

(** a failed lock leaves the write set as it was, unless a bogus entry was put *)
Lemma refused_tx s ws w l p size s2 :
  let s1 := append_state p size s in
  writing s ws w l -> small_object size -> wraps_at (t_tail_cnt (tvlog (self s))) (copy_size size) = false ->
  entry_room s (start_tail_cnt w) size ->
  own_log_kept ws (start_tail_cnt w) (alloc_at (t_tail_cnt (tvlog (self s))) size) s1 s2 -> writing s2 ws w l.
Proof.
  intros s1 Hw Hs Hwr Hroom Hk. destruct (append_begin_entries s ws w l p size s2 Hw Hs Hroom Hk) as (F1 & F2 & Eat).
  assert (Ec : alloc_at (t_tail_cnt (tvlog (self s))) size = t_tail_cnt (tvlog (self s))) by (unfold alloc_at; by rewrite Hwr).
  apply (writing_kept s s2 ws w l Hw).
  - rewrite F1, Ec. by destruct (tvlog (self s)).
  - rewrite F2. symmetry. apply (lay_ws _ _ _ _ _ (wr_layout _ _ _ _ Hw)).
  - intros x Hx. destruct Hk as [K1 K2 K3]. specialize (K3 x ltac:(lia)). unfold s1 in K3. rewrite append_state_obj in K3. rewrite K3.
    apply append_state_frame. intros y Hy. unfold added in Hy. rewrite Hwr, Ec in Hy. apply list_elem_of_singleton in Hy as ->.
    intros E. pose proof (wr_tail _ _ _ _ Hw) as (_ & T & _). destruct (wr_start _ _ _ _ Hw) as [Hst _].
    pose proof (wr_turn _ _ _ _ Hw). destruct Hroom as [Hr _]. destruct (copy_size_bounds size Hs) as (_ & ? & _).
    unfold small_object in Hs. rewrite ws_reserve_eq in Hr. apply tvlog_obj_inj in E; lia.
Qed.

(** the version behind the new copy, once others have run *)
Lemma old_ok_after s ws l p size s2 old :
  let s1 := append_state p size s in
  let l' := l ++ added (t_tail_cnt (tvlog (self s))) size in
  (forall x, x ∈ added (t_tail_cnt (tvlog (self s))) size -> old <> tvlog_obj (tvlog (self s)) x) ->
  others_kept ws l' s1 s2 \/ s2 = s1 -> old_ok s l old -> old_ok s2 l' old.
Proof.
  intros s1 l' Hne Ho Hold Hn. destruct (Hold Hn) as [Hno (k & Hk & Hkm)].
  assert (Hno1 : ~ own_copy s1 l' old).
  { intros (x & [Hx | Hx]%elem_of_app & E); unfold s1 in E; rewrite append_state_obj in E; [apply Hno; by exists x | by apply (Hne x)]. }
  assert (Hk1 : clk_of s1 old = Some k) by (unfold clk_of, s1; by rewrite append_state_frame).
  destruct Ho as [Ho | ->]; [| split; [done | by exists k]]. split.
  - intros Hc. apply Hno1. apply (own_copy_self s1 s2) in Hc; [done | by apply Ho].
  - exists k. split; [by eapply clk_of_others | done].
Qed.

Lemma added_split cnt size : added cnt size = (if wraps_at cnt (copy_size size) then [cnt] else []) ++ [alloc_at cnt size].
Proof. unfold added. by destruct (wraps_at _ _). Qed.

(** from the state [s2] in which the lock is free and taken *)
Lemma lock_granted s ws w l p size s2 v2 :
  let old := v_copy v2 in
  let cnt := t_tail_cnt (tvlog (self s)) in
  let c := alloc_at cnt size in
  let o := tvlog_obj (tvlog (self s)) c in
  let l' := l ++ added cnt size in
  writing s ws w l -> small_object size -> entry_room s (start_tail_cnt w) size ->
  own_log_kept ws (start_tail_cnt w) c (append_state p size s) s2 -> locked_in l l' s2 -> old_ok s2 l' old ->
  vhdrs (sh s2) !! p = Some v2 -> v_lock v2 = NULL ->
  is_Some (obj_data (sh s2) !! (if old =? NULL then np_cur_act v2 else old)) ->
  exists s', ((if old =? NULL then let* v := get_vhdr p in memcpy_obj o (np_cur_act v) size else memcpy_obj o old size) ;;;
      tvlog_append_end o (wraps_at cnt (copy_size size)) ;;;
      mod_self (fun t => t <| is_write_detected := true |>) ;;; write_set_add o ;;; ret (Some o))
      (s2 <| sh ::= (fun h => h <| vhdrs ::= (fun m => <[p := v2 <| v_lock := o |>]> m) |>) |>) = Ok (Some o, s') /\
    granted s ws w l p old size o s'.
Proof.
  intros old cnt c o l' Hw Hs Hroom Hown Hin Hold Hv2 Hnl Hsrc. set (s3 := upd sh _ s2). set (s1 := append_state p size s) in *.
  assert (Hs3 : vhdrs (sh s3) !! p = Some (v2 <| v_lock := o |>)) by (cbn; apply lookup_insert_eq).
  assert (Hown3 : own_log_kept ws (start_tail_cnt w) c s1 s3) by (destruct Hown as [K1 K2 K3]; by split).
  destruct (lock_fill_run s1 s3 ws w p old size c o _ Hown3 Hs3 Hsrc) as (s4 & b & rest & E4 & Hown4 & G1 & G2 & G3 & G4 & G5 & G6).
  mrun E4. destruct (writing_end s ws w l p size s4 Hw Hs Hroom Hown4) as (s5 & E5 & W5 & C5 & B5 & O5 & V5 & H5 & D5 & T5).
  fold cnt c o in E5, W5, C5, B5. mrun E5. unfold mod_self, write_set_add. msteps. set (s6 := upd self _ s5).
  exists s6. split; [done |]. destruct (append_state_fields p size s) as (F1 & _ & _ & _).
  assert (Ebuf : t_buffer (tvlog (self s2)) = t_buffer (tvlog (self s))) by (rewrite (olk_tvlog _ _ _ _ _ Hown); unfold s1; by rewrite F1).
  assert (Eo : tvlog_obj (tvlog (self s2)) c = o) by (unfold o, tvlog_obj, tvlog_at; by rewrite Ebuf).
  set (ys := if wraps_at cnt (copy_size size) then [cnt] else []).
  assert (El : l ++ ys ++ [c] = l ++ (if wraps_at cnt (copy_size size) then [cnt; c] else [c])) by (unfold ys; by destruct (wraps_at _ _)).
  unfold l' in Hin, Hold. rewrite added_split in Hin, Hold. fold ys c in Hin, Hold.
  eexists _, ys, c, (v2 <| v_lock := o |>), b, rest. split; [done |]. split; [| split; [| split; [| split; [done |]]]].
  2: { rewrite El. apply (writing_kept s5 s6 ws _ _ W5); done. }
  { done. }
  - apply (locked_add ws l ys c s2 s6 p v2 (copy_entry ws p size (append_size cnt size))); try done.
    + rewrite Ebuf. apply Hw.
    + cbn. by rewrite T5.
    + cbn. by rewrite H5, G1.
    + cbn. rewrite V5, G2, Eo. done.
    + intros y hy Hy Hyy. unfold ys in Hy. destruct (wraps_at cnt (copy_size size)); [| by apply not_elem_of_nil in Hy].
      apply list_elem_of_singleton in Hy as ->. change (entry_at s6 cnt) with (entry_at s5 cnt) in Hyy. rewrite B5 in Hyy by done. by injection Hyy as <-.
  - cbn. rewrite V5, G2, Hs3. do 3 (split; [done |]). rewrite D5. split; [exact G5 | exact G6].
Qed.

Lemma lock_new_copy_run `{!Rely others_tx} s ws w l p size v :
  let old := v_copy v in
  writing s ws w l -> locked ws l s -> small_object size -> entry_room s (start_tail_cnt w) size ->
  log_free (2 * copy_size size + ws_reserve) s -> vhdrs (sh s) !! p = Some v -> old_ok s l old ->
  masters (sh s) -> (old <> NULL -> is_Some (obj_data (sh s) !! old)) ->
  exists r s', lock_new_copy p old size s = Ok (r, s') /\
    match r with
    | Some o => granted s ws w l p old size o s'
    | None => wraps_at (t_tail_cnt (tvlog (self s))) (copy_size size) = false -> writing s' ws w l /\ locked ws l s'
    end.
Proof.
  intros old Hw Hl Hs Hroom Hfree Hv Hold Hm Hd. pose proof (wr_tail _ _ _ _ Hw) as Ht. set (cnt := t_tail_cnt (tvlog (self s))) in *.
  assert (Hne : cur_wrt_set (tvlog (self s)) <> NULL).
  { rewrite (wr_cur _ _ _ _ Hw). destruct (wr_start _ _ _ _ Hw) as [_ ->]. apply tvlog_obj_pos. by apply Hw. }
  unfold lock_new_copy. assert (Hsz : u32 size = size) by (unfold small_object in Hs; rewrite u32_small; lia). rewrite Hsz.
  mrun (tvlog_append_begin_run s p size Hne Hs Ht). fold cnt. cbv iota. set (c := alloc_at cnt size). set (o := tvlog_obj _ c).
  set (s1 := append_state p size s). destruct (append_state_fields p size s) as (F1 & F2 & F3 & _). fold s1 cnt c in F1, F2, F3.
  destruct (try_lock_obj_run (fun _ => True) others_tx p old o s1 v I) as (b & s2 & s3 & E3 & Ho & Hb).
  { by rewrite F3. } { intros s2 Ho. apply (otx_vhdrs _ _ Ho). rewrite F3. by eexists. }
  mrun E3. pose proof (append_locked_in s ws w l p size Hw Hl Hs Hroom Hfree) as Hin. fold s1 cnt in Hin.
  pose proof (append_others s ws w l p size s2 Hw Hs Ho) as Hk. pose proof (append_own_kept s ws w l p size s2 Hw Ho) as Hown.
  fold s1 cnt c in Hk, Hown. assert (Hin2 : locked_in l (l ++ added cnt size) s2).
  { destruct Hk as [Hk | ->]; [| exact Hin]. apply (locked_in_others ws l _ s1 s2); [| exact Hk | exact Hin]. intros x ?. elems. }
  destruct b; [| subst s3; exists None, s2; split; [done |]].
  2: { intros Hwr. split; [by apply (refused_tx s ws w l p size s2) |]. apply locked_in_all, (locked_in_sub l (l ++ added cnt size)); [| done].
       intros x ?. elems. }
  destruct Hb as (v2 & Hv2 & Hnl & Hvc & ->). cbn [negb].
  destruct (lock_granted s ws w l p size s2 v2 Hw Hs Hroom Hown Hin2) as (s' & E' & Hg); rewrite ?Hvc; try done.
  - apply (old_ok_after s ws l p size s2 old); [| exact Hk | exact Hold]. intros x Hx. apply (Hfree x p v); [| done].
    pose proof (added_range cnt size x Hs Ht Hx). fold cnt. lia.
  - assert (Hm1 : masters (sh s1)) by (intros q u; rewrite F3; unfold s1; rewrite append_state_data; apply Hm).
    destruct (Z.eqb_spec old NULL) as [En | En].
    + destruct Ho as [-> | Ho]; [by apply (Hm1 p) | by apply (otx_masters _ _ Ho Hm1 p)].
    + assert (Hd1 : is_Some (obj_data (sh s1) !! old)) by (unfold s1; rewrite append_state_data; by apply Hd).
      destruct Ho as [-> | Ho]; [done | by apply (otx_data _ _ Ho)].
  - rewrite Hvc in E', Hg. exists (Some o), s'. split; [exact E' | exact Hg].
Qed.

(** * Facts: [_ts_try_lock] *)

(** the transaction may append: to its open write set [ws], whose copies are its
    locks, or to the one that the first append opens *)
Definition tx_open (s : st) (ws : Z) (w : ts_wrt_set) (l : list Z) : Prop :=
  (writing s ws w l /\ locked ws l s) \/ (idle s /\ next_wrt_set s ws w /\ l = []).

(** the append does not wrap around the end of the log *)
Definition no_wrap (s : st) (size : Z) : Prop :=
  forall cnt, t_tail_cnt (tvlog (self s)) <= cnt <= t_tail_cnt (tvlog (self s)) + 2 * ws_reserve ->
    wraps_at cnt (copy_size size) = false.

Lemma old_ok_ext s s' old : heap (sh s') !! old = heap (sh s) !! old -> old_ok s [] old -> old_ok s' [] old.
Proof.
  intros Eh Ho Hn. destruct (Ho Hn) as [_ Hk]. split; [intros (x & Hx & _); by apply not_elem_of_nil in Hx |].
  unfold clk_of in *. by rewrite Eh.
Qed.

Lemma locked_nil ws s : locked ws [] s.
Proof.
  split; [by intros c h0 ?%not_elem_of_nil | intros p v _ (x & Hx & _) | by intros c h0 v0 ?%not_elem_of_nil].
  by apply not_elem_of_nil in Hx.
Qed.

Lemma lock_new_copy_tx `{!Rely others_tx} s ws w l p size v :
  let old := v_copy v in
  tx_open s ws w l -> small_object size -> append_room s (start_tail_cnt w) size ->
  log_free (2 * copy_size size + 3 * ws_reserve) s -> vhdrs (sh s) !! p = Some v -> old_ok s l old ->
  masters (sh s) -> (old <> NULL -> is_Some (obj_data (sh s) !! old)) ->
  exists r s', lock_new_copy p old size s = Ok (r, s') /\
    match r with
    | Some o => granted s ws w l p old size o s'
    | None => no_wrap s size -> tx_open s' ws w l
    end.
Proof.
  intros old Ht Hs [Hr Hr2] Hf Hv Hold Hm Hd. assert (Hres := ws_reserve_eq).
  destruct Ht as [[Hw Hl] | (Hi & Hn & ->)].
  - destruct (lock_new_copy_run s ws w l p size v Hw Hl Hs) as (r & s' & E & Hg); try done.
    + split; lia.
    + intros x q u Hx. apply Hf. lia.
    + exists r, s'. split; [done |]. destruct r; [done |]. intros Hnw. left. apply Hg, Hnw. lia.
  - destruct (append_wrt_set_run s ws w Hi Hn Hr2) as (s1 & E1 & W1 & T1 & B1 & V1 & D1 & H1).
    assert (Hst : start_tail_cnt w = t_tail_cnt (tvlog (self s))) by (by destruct Hn as [_ ->]).
    assert (Eo : forall x, tvlog_obj (tvlog (self s1)) x = tvlog_obj (tvlog (self s)) x) by (intros x; unfold tvlog_obj, tvlog_at; by rewrite B1).
    assert (Hle : t_tail_cnt (tvlog (self s)) <= t_tail_cnt (tvlog (self s1))) by (destruct (wr_start _ _ _ _ W1); lia).
    assert (Hws : old <> ws).
    { destruct Hn as [-> _]. apply (Hf _ p v); [| done]. destruct (copy_size_bounds size Hs). lia. }
    destruct (lock_new_copy_run s1 ws w [] p size v W1) as (r & s' & E & Hg); try done.
    + apply locked_nil.
    + split; lia.
    + intros x q u Hx. rewrite V1, Eo. apply Hf. lia.
    + by rewrite V1.
    + eapply old_ok_ext; [| exact Hold]. by apply H1.
    + unfold masters. by rewrite V1, D1.
    + by rewrite D1.
    + exists r, s'. split.
      { rewrite <- E. unfold lock_new_copy, bind. rewrite (append_begin_idle s s1); [done | by apply Hi | done |].
        rewrite (wr_cur _ _ _ _ W1). destruct (wr_start _ _ _ _ W1) as [_ ->]. apply tvlog_obj_pos. by apply W1. }
      destruct r as [o |]; [| intros Hnw; left; apply Hg, Hnw; lia].
      destruct Hg as (w' & ys & c & u & b & rest & Ec & Hg). exists w', ys, c, u, b, rest. by rewrite <- Eo.
Qed.

(** the newest version of an object that nobody has locked is committed, has its
    bytes, and is no entry of the write set *)
Definition newest_committed (s : st) (l : list Z) (v : ts_act_vhdr) : Prop :=
  v_lock v = NULL -> v_copy v <> NULL ->
  exists c, heap (sh s) !! v_copy v = Some (CCpy c) /\ get_raw_wrt_clk c <> MAX_VERSION /\
    ~ own_copy s l (v_copy v) /\ is_Some (obj_data (sh s) !! v_copy v).

(** it is not newer than the transaction's snapshot *)
Definition in_snapshot (s : st) (v : ts_act_vhdr) : bool :=
  (v_copy v =? NULL) ||
  match clk_of s (v_copy v) with Some clk => lt_clock clk (local_clk (self s)) | None => false end.

Lemma version_in_snapshot_run s l v : newest_committed s l v -> v_lock v = NULL ->
  version_in_snapshot (v_copy v) s = Ok (in_snapshot s v, s).
Proof.
  intros Hn Hl. unfold version_in_snapshot, in_snapshot. destruct (Z.eqb_spec (v_copy v) NULL) as [E | E]; [done |]. cbn [orb].
  destruct (Hn Hl E) as (c & Hc & Hm & _). mrun (get_chs_run s _ c Hc). msteps.
  assert (E1 : get_wrt_clk c (local_clk (self s)) s = Ok (get_raw_wrt_clk c, s)).
  { unfold get_wrt_clk, get_raw_wrt_clk in *. by rewrite (proj2 (Z.eqb_neq _ _)). }
  mrun E1. unfold clk_of, gte_clock, ret. by rewrite Hc, negb_involutive.
Qed.

(** C7. Locking for a write ([_ts_try_lock]), whatever other threads do at its
    compare-and-swap.  It refuses, and changes nothing, when the object is
    locked or its newest version is not in the transaction's snapshot (so that of
    two concurrent writers the first wins).  Otherwise it appends a copy; if
    no other locked the object or added a version first, the copy is granted:
    it is the object's lock and the last entry of the write set, it holds the
    bytes of the version behind it, or of the current master, and the write set
    and its locks are again such that the transaction can lock more objects,
    commit or abort; and if one did, the write set is as it was, provided
    that the copy had not wrapped around the end of the log. *)
Theorem ts_try_lock_keeps_tx `{!Rely others_tx} s ws w l obj p v size :
  stale_read_occurred s = Ok (false, s) -> get_act_vhdr obj s = Ok (p, s) -> p <> NULL -> vhdrs (sh s) !! p = Some v ->
  TS_NESTED_LOCKING = false -> tx_open s ws w l -> small_object size -> append_room s (start_tail_cnt w) size ->
  log_free (2 * copy_size size + 3 * ws_reserve) s -> masters (sh s) -> newest_committed s l v ->
  exists r s', _ts_try_lock obj size s = Ok (r, s') /\
    ((v_lock v <> NULL \/ in_snapshot s v = false) -> r = None /\ s' = s) /\
    match r with
    | Some o => granted s ws w l p (v_copy v) size o s'
    | None => no_wrap s size -> tx_open s' ws w l
    end.
Proof.
  intros Est Ev Hp Hv Hnest Ht Hs Hr Hf Hm Hn. unfold _ts_try_lock. mrun Est. unfold act_vhdr_for_lock.
  rewrite ?bind_assoc. mrun Ev. rewrite (proj2 (Z.eqb_neq p NULL)) by done. msteps. rewrite (proj2 (Z.eqb_neq p NULL)) by done.
  mrun (get_vhdr_run s p v Hv). destruct (Z.eqb_spec (v_lock v) NULL) as [El | El]; cbn [negb].
  2: { unfold lock_again. rewrite Hnest. exists None, s. split; [done |]. by split. }
  mrun (version_in_snapshot_run s l v Hn El). destruct (in_snapshot s v); cbn [negb].
  2: { exists None, s. split; [done |]. by split. }
  destruct (lock_new_copy_tx s ws w l p size v Ht Hs Hr Hf Hv) as (r & s' & E & Hg).
  - intros Hne. destruct (Hn El Hne) as (c & Hc & Hmx & Ho & _). split; [done |]. exists (get_raw_wrt_clk c).
    split; [| done]. unfold clk_of. by rewrite Hc.
  - exact Hm.
  - intros Hne. by destruct (Hn El Hne) as (c & _ & _ & _ & Hd).
  - exists r, s'. split; [exact E |]. split; [| exact Hg]. intros [? | ?]; done.
Qed.
End LockTx.

(** * Example: a second object is locked in a transaction that holds one *)

Definition ex_locking : st := ex_writing
  <| sh ::= (fun h => h <| heap ::= (fun m => <[310000 := CAct (mk_ahs (mk_act_nvhdr 500 1 0) (mk_obj_hdr 8 0 TYPE_ACTUAL STATUS_NONE))]> m) |>
     <| vhdrs ::= (fun m => <[500 := mk_act_vhdr NULL NULL 310000 310000 MAX_VERSION]> m) |>
     <| obj_data := <[300000 := [0; 0; 0; 0; 0; 0; 0; 0]]> {[ 310000 := [1; 2; 3; 4; 5; 6; 7; 8] ]} |>) |>.

Lemma ex_locking_entry c h : c ∈ [128] -> entry_at ex_locking c = Some h -> h = ex_new_copy /\ c = 128.
Proof. intros ->%list_elem_of_singleton. vm_compute. by intros [= <-]. Qed.

Lemma ex_locking_obj x : 0 <= x < 2 ^ 20 -> tvlog_obj (tvlog (self ex_locking)) x = 1048632 + x.
Proof.
  intros Hx. unfold tvlog_obj, tvlog_at. rewrite tvlog_index_mod by lia. change TS_TVLOG_SIZE with (2 ^ 20).
  rewrite Z.mod_small by done. change (t_buffer (tvlog (self ex_locking))) with 1048576. unfold sizeof_cpy_hdr_struct, sizeof_cpy_hdr, sizeof_obj_hdr. lia.
Qed.

Lemma ex_locking_layout : writing ex_locking 1048632 ex_ws [128].
Proof.
  split; [done | by vm_compute | | apply ex_tail_ok; by right | by split; vm_compute | apply ex_tail_ok; by left | by vm_compute |].
  - split; [by vm_compute | done | done |]. exists ex_ws_hdr. split; [by vm_compute |]. split; [by vm_compute |].
    eapply path_cons; [by vm_compute | done | by vm_compute | by vm_compute | apply path_nil].
  - intros c h Hc He. destruct (ex_locking_entry c h Hc He) as [-> ->]. split; [done |].
    split; [by exists 2 | by vm_compute | left; by vm_compute].
Qed.

Lemma ex_locking_locked : locked 1048632 [128] ex_locking.
Proof.
  split.
  - intros c h Hc He _. destruct (ex_locking_entry c h Hc He) as [-> ->].
    exists (mk_act_vhdr 2097336 1048760 300000 300000 MAX_VERSION). split; [split; [exact He | by vm_compute] | by vm_compute].
  - intros p v. cbn. intros [[<- <-] | [_ [<- <-]%lookup_singleton_Some]]%lookup_insert_Some (x & Hx & E);
      apply list_elem_of_singleton in Hx as ->; [by vm_compute in E |].
    exists 128, ex_new_copy. split; [by left |]. by split; [vm_compute |].
  - intros c h v Hc (He & _ & Hv) _. destruct (ex_locking_entry c h Hc He) as [-> ->]. vm_compute in Hv. injection Hv as <-. split.
    + intros (x & Hx & E). apply list_elem_of_singleton in Hx as ->. by vm_compute in E.
    + exists 700. by vm_compute.
Qed.

#[local] Instance ex_tx_rely : @Rely ex_env_sat others_tx.
Proof. intros s. exists s. split; [done |]. split; try done; eauto 10. Qed.

Lemma ts_try_lock_keeps_tx_witness :
  exists o s', @_ts_try_lock ex_env_sat 310000 8 ex_locking = Ok (Some o, s') /\
    granted ex_locking 1048632 ex_ws [128] 500 NULL 8 o s'.
Proof.
  destruct (@ts_try_lock_keeps_tx ex_env_sat ex_tx_rely ex_locking 1048632 ex_ws [128] 310000 500
    (mk_act_vhdr NULL NULL 310000 310000 MAX_VERSION) 8) as (r & s' & E & _ & Hr);
    [by vm_compute | by vm_compute | done | by vm_compute | done | left; exact (conj ex_locking_layout ex_locking_locked) |
     by unfold small_object | split; by vm_compute | | | by intros _ [] |].
  - intros x p v Hx. change (copy_size 8) with 64 in Hx. rewrite ws_reserve_eq in Hx.
    change (t_tail_cnt (tvlog (self ex_locking))) with 192 in Hx. rewrite ex_locking_obj by lia.
    change (vhdrs (sh ex_locking)) with (<[500 := mk_act_vhdr NULL NULL 310000 310000 MAX_VERSION]> (vhdrs (sh ex_writing))). cbn.
    intros [[<- <-] | [_ [<- <-]%lookup_singleton_Some]]%lookup_insert_Some; cbn; unfold NULL; lia.
  - intros p v. cbn. intros [[<- <-] | [_ [<- <-]%lookup_singleton_Some]]%lookup_insert_Some; by eexists.
  - destruct r as [o |]; [| vm_compute in E; discriminate E]. exists o, s'. split; [exact E | exact Hr].
Defined.
