(* ===== verification/Qp.v ===== *)
(** The qp thread: [lib/qp.c].  It detects grace periods (every transaction
    that was running when one started has finished), advances the system
    clocks and triggers log reclamation. *)
From S2P Require Export Timestone.

Section Qp.
Context `{Env}.

Definition mod_qp (f : ts_qp_thread -> ts_qp_thread) : M shared unit :=
  modify (fun h => h <| g_qp_thread ::= f |>).
Definition stat_qp_inc (n : stat_name) : M shared unit :=
  mod_qp (fun q => q <| q_stat ::= (fun s => stat_inc s n) |>).

Definition advance_qp_clock (k : ts_sys_clks) (qp0_clk : Z) : ts_sys_clks :=
  k <| __qp2 := __qp1 k |> <| __qp1 := __qp0 k |> <| __qp0 := qp0_clk |>.

Definition sh_get_clock : M shared Z :=
  zoom ticks (fun n h => h <| ticks := n |>) (ordo_get_clock tsc).

Definition qp_init (qp_clk : Z) : M shared unit :=
  thread_list_lock LIVE ;;;
  thread_list_iter LIVE (fun p => mod_thread p (fun t =>
    t <| qp_info := mk_qp_info (Z.odd (run_cnt t)) (run_cnt t) |>)) ;;;
  thread_list_unlock LIVE.

(** the thread passed a quiescent period since [qp_init] *)
Definition thread_passed (t : ts_thread_struct) (qp_clk : Z) : bool :=
  negb (qi_run_cnt (qp_info t) =? run_cnt t) || gte_clock (local_clk t) qp_clk.

(** the wait for one thread: [false] when a waiter for the list interrupts it *)
Definition qp_wait_thread (qp_clk p : Z) : M shared bool :=
  loop spin_bound (fun _ : unit =>
    let* t := get_thread p in
    if thread_passed t qp_clk then
      mod_thread p (fun t => t <| qp_info ::= (fun q => q <| need_wait := false |>) |>) ;;;
      ret (inr true)
    else
      let* w := thread_list_has_waiter LIVE in
      if w : bool then ret (inr false) else qp_interfere ;;; ret (inl tt)) tt.

Definition qp_wait (qp_clk : Z) : M shared unit :=
  loop spin_bound (fun _ : unit =>
    thread_list_lock LIVE ;;;
    let* r := thread_list_for_each_safe LIVE (fun p (_ : unit) =>
      let* t := get_thread p in
      if negb (need_wait (qp_info t)) then ret (inl tt)
      else
        let* passed := qp_wait_thread qp_clk p in
        if passed : bool then ret (inl tt) else ret (inr tt)) tt in
    thread_list_unlock LIVE ;;;
    match r with inl _ => ret (inr tt) | inr _ => ret (inl tt) end) tt.

Definition qp_cleanup_ckptlogs : M shared unit :=
  let* q := asks g_qp_thread in
  let until_clk := correct_qp_clock (__min_ckpt_reclaimed (q_clks q)) in
  thread_list_lock LIVE ;;;
  thread_list_iter LIVE (fun p => with_thread p (ckptlog_cleanup until_clk)) ;;;
  thread_list_unlock LIVE.

(** [qp_take_nap]: others run *)
Definition qp_take_nap : M shared unit := qp_interfere.

Definition qp_detect (need_free : Z) : M shared unit :=
  let* qp0_clk := sh_get_clock in
  qp_init qp0_clk ;;;
  stat_qp_inc n_qp_detect ;;;
  when (negb (need_free =? 0)) qp_cleanup_ckptlogs ;;;
  let* q := asks g_qp_thread in
  when (requested (q_reclaim q) =? 0) (qp_take_nap ;;; stat_qp_inc n_qp_nap) ;;;
  qp_wait qp0_clk ;;;
  mod_qp (fun q => q <| q_clks ::= (fun k => advance_qp_clock k (correct_qp_clock qp0_clk)) |>).

(** a walk that starts again when someone waits for the list: the body is run
    for each thread under the list's lock *)
Definition list_retry (T : tl_sel) (body : Z -> M shared unit) (after : M shared unit) : M shared unit :=
  loop spin_bound (fun _ : unit =>
    thread_list_lock T ;;;
    let* r := thread_list_for_each_safe T (fun p (_ : unit) =>
      let* w := thread_list_has_waiter T in
      if w : bool then ret (inr tt) else body p ;;; ret (inl tt)) tt in
    match r with
    | inl _ => after ;;; thread_list_unlock T ;;; ret (inr tt)
    | inr _ => thread_list_unlock T ;;; ret (inl tt)
    end) tt.

Definition qp_help_reclaim_log : M shared unit :=
  list_retry LIVE (fun p => with_thread p try_reclaim_logs) (thread_list_rotate_left_unsafe LIVE).

(** one zombie of [qp_reap_zombie_threads] *)
Definition reap_zombie (p : Z) : M shared unit :=
  let* q := asks g_qp_thread in
  mod_thread p (fun t => t <| clks := q_clks q |>) ;;;
  let* t := get_thread p in
  when (negb (tvlog_used (tvlog t) =? 0))
    (with_thread p (mod_self (fun t => t <| reclaim ::= (fun r => r <| r_tvlog := RECLAIM_TVLOG_CKPT |>) |>) ;;;
                    tvlog_reclaim)) ;;;
  let* t := get_thread p in
  when (negb (nvlog_used (ckptlog t) =? 0))
    (with_thread p (mod_self (fun t => t <| reclaim ::= (fun r => r <| r_ckptlog := RECLAIM_CKPTLOG_WRITEBACK_ALL |>) |>) ;;;
                    ckptlog_reclaim)) ;;;
  let* e := with_thread p logs_empty in
  when e
    (with_thread p (tvtlog_destroy ;;; ckptlog_destroy ;;; oplog_destroy) ;;;
     let* t := get_thread p in
     when (bool_decide (live_status t = THREAD_DEAD_ZOMBIE))
       (thread_list_del_unsafe ZOMBIE p ;;; with_thread p ts_thread_free)).

Definition qp_reap_zombie_threads : M shared unit := list_retry ZOMBIE reap_zombie (ret tt).

Definition qp_reclaim_barrier : M shared unit :=
  loop spin_bound (fun _ : unit =>
    let* q := asks g_qp_thread in
    let min0 := __min_ckpt_reclaimed (q_clks q) in
    thread_list_lock LIVE ;;;
    let* r := thread_list_for_each_safe LIVE (fun p min_ckpt =>
      let* t := get_thread p in
      if negb (requested (reclaim t) =? 0) then ret (inr tt)
      else if __min_ckpt_reclaimed (clks t) <? min_ckpt then ret (inl (__min_ckpt_reclaimed (clks t)))
      else ret (inl min_ckpt)) min0 in
    match r with
    | inl min_ckpt =>
        mod_qp (fun q => q <| q_clks ::= (fun k => k <| __min_ckpt_reclaimed := min_ckpt |>) |>) ;;;
        thread_list_unlock LIVE ;;;
        ret (inr tt)
    | inr _ => thread_list_unlock LIVE ;;; qp_interfere ;;; ret (inl tt)
    end) tt.

Definition qp_trigger_reclaim (req : ts_reclaim) : M shared unit :=
  thread_list_lock LIVE ;;;
  thread_list_iter LIVE (fun p =>
    let* q := asks g_qp_thread in
    mod_thread p (fun t => t <| clks := q_clks q |>) ;;;
    mod_thread p (fun t => t <| reclaim := req |>)) ;;;
  thread_list_unlock LIVE.

Definition should_stop : M shared bool :=
  let* q := asks g_qp_thread in
  if negb (stop_requested q) then ret false
  else
    let* z := thread_list_empty ZOMBIE in
    if negb z then ret false else thread_list_empty LIVE.

(** the qp thread's own requests ([request_tvlog_reclaim] and
    [request_ckptlog_reclaim] from [__qp_thread_main]) *)
Definition qp_request (R : req_sel) (new_req : Z) : M shared unit :=
  let* q := asks g_qp_thread in
  let old_req := req_get R (q_reclaim q) in
  when (old_req <? new_req)
    (qp_interfere ;;;
     let* q := asks g_qp_thread in
     when (req_get R (q_reclaim q) =? old_req)
       (mod_qp (fun q => q <| q_reclaim ::= req_put R new_req |>))).

(** one round of [__qp_thread_main]'s loop, from [need_free] to the next *)
Definition qp_round (need_free : Z) : M shared Z :=
  qp_detect need_free ;;;
  let* q := asks g_qp_thread in
  when (stop_requested q)
    (qp_request REQ_TVLOG RECLAIM_TVLOG_CKPT ;;;
     qp_request REQ_CKPTLOG RECLAIM_CKPTLOG_WRITEBACK_ALL) ;;;
  let* q := asks g_qp_thread in
  if requested (q_reclaim q) =? 0 then ret 0
  else
    let req := q_reclaim q in
    mod_qp (fun q => q <| q_reclaim := mk_reclaim 0 0 |>) ;;;
    qp_trigger_reclaim req ;;;
    qp_reap_zombie_threads ;;;
    qp_help_reclaim_log ;;;
    qp_reclaim_barrier ;;;
    when (r_tvlog req =? RECLAIM_TVLOG_CKPT)
      (let* q := asks g_qp_thread in
       let last_ckpt := __qp0 (q_clks q) in
       nvlog_set_last_ckpt_clk last_ckpt ;;;
       mod_qp (fun q => q <| q_clks ::= (fun k => k <| __last_ckpt := last_ckpt |>) |>)) ;;;
    ret (r_ckptlog req).

Definition __qp_thread_main : M shared unit :=
  loop spin_bound (fun need_free =>
    let* stop := should_stop in
    if stop : bool then ret (inr tt)
    else let* nf := qp_round need_free in ret (inl nf)) 0.

(** * Start and end *)

(** [rc] is the result of [pthread_create] *)
Definition init_qp_thread (rc : Z) : M shared Z :=
  mod_qp (fun _ => zero_qp_thread) ;;;
  mod_qp (fun q => q <| q_clks ::= (fun k => k <| __last_ckpt := MIN_VERSION |>
                                               <| __min_ckpt_reclaimed := MAX_VERSION |>) |>) ;;;
  ret rc.

(** joining the qp thread lets it run to its end *)
Definition finish_qp_thread : M shared unit :=
  mod_qp (fun q => q <| stop_requested := true |>) ;;;
  qp_interfere ;;;
  let* q := asks g_qp_thread in
  modify (fun h => h <| g_stat ::= (fun g => stat_atomic_merge g (q_stat q)) |>).

(** the two list heads are the addresses [live] and [zombie] *)
Definition init_qp (live zombie rc : Z) : M shared Z :=
  init_thread_list LIVE live ;;; init_thread_list ZOMBIE zombie ;;; init_qp_thread rc.
Definition deinit_qp : M shared unit := finish_qp_thread.

Definition reset_all_stats : M shared unit :=
  thread_list_lock ZOMBIE ;;;
  thread_list_iter ZOMBIE (fun p => mod_thread p (fun t => t <| stat := fun _ => 0 |>)) ;;;
  thread_list_unlock ZOMBIE ;;;
  thread_list_lock LIVE ;;;
  thread_list_iter LIVE (fun p => mod_thread p (fun t => t <| stat := fun _ => 0 |>)) ;;;
  thread_list_unlock LIVE.

End Qp.

(** * Facts *)

Section QpFacts.
Context `{Env}.

(** the live list holds the threads [l], all of them in memory, and its lock is free *)
Record live_ok (h : shared) (l : list Z) : Prop := {
  live_list : list_ok LIVE h l;
  live_free : tl_lock (g_live_threads h) = false;
  live_mem : forall p, p ∈ l -> is_Some (threads h !! p) }.

Lemma live_lock h l :
  live_ok h l -> (0 < spin_bound)%nat ->
  thread_list_lock LIVE h = Ok (tt, h <| g_live_threads ::= (fun t => t <| tl_lock := true |>) |>).
Proof. intros [_ Hf _] Hs. by apply (thread_list_lock_free LIVE). Qed.

(** [h'] is [h] with other threads only *)
Definition only_threads (h h' : shared) : Prop := h' = h <| threads := threads h' |>.

(** [body] updates the thread it is given with [f], in the memory of [h] *)
Definition updates (body : Z -> M shared unit) (f : ts_thread_struct -> ts_thread_struct) (h : shared) :=
  forall p h1 t, only_threads h h1 -> threads h1 !! p = Some t ->
    body p h1 = Ok (tt, h1 <| threads := <[p := f t]> (threads h1) |>).

Lemma mod_thread_updates f h : updates (fun p => mod_thread p f) f h.
Proof. intros p h1 t _ Et. unfold mod_thread, get_thread, bind. by rewrite Et. Qed.

(** updating every thread of the list with [f] *)
Lemma iter_mod_threads body f l h :
  updates body f h -> list_ok LIVE h l -> (forall p, p ∈ l -> is_Some (threads h !! p)) ->
  exists h', thread_list_iter LIVE body h = Ok (tt, h') /\ only_threads h h' /\
    forall p, threads h' !! p = if decide (p ∈ l) then f <$> threads h !! p else threads h !! p.
Proof.
  set (I := fun (rest : list Z) (h' : shared) => NoDup rest /\ (forall p, p ∈ rest -> p ∈ l) /\
     only_threads h h' /\
     forall p, threads h' !! p = if decide (p ∈ l /\ p ∉ rest) then f <$> threads h !! p else threads h !! p).
  intros Hb Hl Hm.
  destruct (list_iter_rule LIVE body l I) with (h := h) as (h' & E & _ & _ & HI); try done.
  - intros p rest h1 Hp (Hnd & Hsub & Ho & Ht) _. apply NoDup_cons in Hnd as [Hpr Hnd].
    destruct (Hm p Hp) as [t Et].
    assert (Et1 : threads h1 !! p = Some t).
    { rewrite Ht, decide_False; [done |]. intros [_ Hn]. apply Hn. by left. }
    eexists. split; [by apply Hb |]. split; [done |]. split; [done |].
    split; [done |]. split; [intros; apply Hsub; by right |]. split.
    { unfold only_threads in *. rewrite Ho. done. }
    intros q. cbn. destruct (decide (q = p)) as [-> | Hq].
    + rewrite lookup_insert_eq, decide_True by done. by rewrite Et.
    + rewrite lookup_insert_ne, Ht by done. apply decide_ext. elems.
  - split; [by destruct Hl as [?%NoDup_cons_1_2 _] |]. split; [done |]. split; [by destruct h |].
    intros p. by rewrite decide_False by tauto.
  - exists h'. split; [done |]. destruct HI as (_ & _ & Ho & Ht). split; [done |].
    intros p. rewrite Ht. apply decide_ext. elems.
Qed.

(** an update of every live thread under the list's lock *)
Lemma locked_mod_threads body f l h :
  (forall h1, g_qp_thread h1 = g_qp_thread h -> updates body f h1) ->
  live_ok h l -> (0 < spin_bound)%nat ->
  exists h', (thread_list_lock LIVE ;;; thread_list_iter LIVE body ;;;
              thread_list_unlock LIVE) h = Ok (tt, h') /\
    g_qp_thread h' = g_qp_thread h /\ live_ok h' l /\ g_live_threads h' = (g_live_threads h) <| thread_wait := false |> /\
    forall p, threads h' !! p = if decide (p ∈ l) then f <$> threads h !! p else threads h !! p.
Proof.
  intros Hb Hl Hs. pose proof Hl as [Hlist Hfree Hmem]. mrun (live_lock h l Hl Hs).
  set (h1 := upd _ _ h).
  destruct (iter_mod_threads body f l h1 (Hb h1 eq_refl) Hlist Hmem) as (h2 & E2 & Ho & Ht). mrun E2.
  unfold thread_list_unlock, mod_tl. msteps. eexists. split; [reflexivity |].
  cbn. split; [by rewrite Ho |]. split; [split; cbn |].
  - unfold list_ok in *. cbn in *. rewrite Ho. exact Hlist.
  - done.
  - intros p Hp. rewrite Ht, decide_True by done. by apply fmap_is_Some, Hmem.
  - split; [| exact Ht]. rewrite Ho. revert Hfree. cbn. by destruct (g_live_threads h) as [[] ? ? ? ?].
Qed.

(** [qp_init] takes the snapshot that starts a grace period: afterwards each
    live thread's [qp_info] records its run counter and whether it was inside a
    transaction (an odd counter); other threads, the list and the system clocks
    are as before. *)
Theorem qp_init_snapshot h l clk :
  live_ok h l -> (0 < spin_bound)%nat ->
  exists h', qp_init clk h = Ok (tt, h') /\ live_ok h' l /\ g_qp_thread h' = g_qp_thread h /\
    g_live_threads h' = (g_live_threads h) <| thread_wait := false |> /\
    (forall p t, p ∈ l -> threads h !! p = Some t ->
       threads h' !! p = Some (t <| qp_info := mk_qp_info (Z.odd (run_cnt t)) (run_cnt t) |>)) /\
    (forall p, p ∉ l -> threads h' !! p = threads h !! p).
Proof.
  intros Hl Hs.
  destruct (locked_mod_threads _ _ l h (fun h1 _ => mod_thread_updates
    (fun t => t <| qp_info := mk_qp_info (Z.odd (run_cnt t)) (run_cnt t) |>) h1) Hl Hs)
    as (h' & E & Hq & Hok & Hw & Ht).
  exists h'. split; [exact E |]. split; [done |]. split; [done |]. split; [done |]. split.
  - intros p t Hp Hpt. by rewrite Ht, decide_True, Hpt by done.
  - intros p Hp. by rewrite Ht, decide_False by done.
Qed.

(** [qp_trigger_reclaim] hands the request and one consistent copy of the
    system clocks to every live thread and to no other. *)
Theorem qp_trigger_reclaim_spec h l req :
  live_ok h l -> (0 < spin_bound)%nat ->
  exists h', qp_trigger_reclaim req h = Ok (tt, h') /\ live_ok h' l /\
    g_qp_thread h' = g_qp_thread h /\
    (forall p t, p ∈ l -> threads h !! p = Some t ->
       threads h' !! p = Some (t <| clks := q_clks (g_qp_thread h) |> <| reclaim := req |>)) /\
    (forall p, p ∉ l -> threads h' !! p = threads h !! p).
Proof.
  intros Hl Hs.
  destruct (locked_mod_threads (fun p =>
      let* q := asks g_qp_thread in
      mod_thread p (fun t => t <| clks := q_clks q |>) ;;; mod_thread p (fun t => t <| reclaim := req |>))
    (fun t => t <| clks := q_clks (g_qp_thread h) |> <| reclaim := req |>) l h) as (h' & E & Hq & Hok & _ & Ht);
    try done.
  { intros h1 Hq p h2 t Ho Et. unfold only_threads in Ho.
    assert (Hq2 : g_qp_thread h2 = g_qp_thread h) by (rewrite Ho; exact Hq).
    msteps. rewrite Hq2. erewrite bind_run by (by apply (mod_thread_updates _ h1)).
    erewrite (mod_thread_updates _ h2); [| reflexivity | by apply lookup_insert_eq].
    cbn. by rewrite insert_insert_eq. }
  exists h'. split; [exact E |]. split; [done |]. split; [done |]. split.
  - intros p t Hp Hpt. by rewrite Ht, decide_True, Hpt by done.
  - intros p Hp. by rewrite Ht, decide_False by done.
Qed.

(** the checkpoint clocks up to which the threads of [l] reclaimed *)
Definition reclaimed_clks (h : shared) (l : list Z) : list Z :=
  omap (fun p => (fun t => __min_ckpt_reclaimed (clks t)) <$> threads h !! p) l.

(** [qp_reclaim_barrier], once no live thread has a request pending, sets the
    clock up to which original objects may be freed to the minimum of its old
    value and of the clocks the live threads reclaimed up to, and changes
    nothing else.  (It can therefore never grow.) *)
Theorem qp_reclaim_barrier_min h l :
  live_ok h l -> (0 < spin_bound)%nat ->
  (forall p t, p ∈ l -> threads h !! p = Some t -> requested (reclaim t) = 0) ->
  let old := q_clks (g_qp_thread h) in
  exists h', qp_reclaim_barrier h = Ok (tt, h') /\ live_ok h' l /\ threads h' = threads h /\
    q_clks (g_qp_thread h') =
      old <| __min_ckpt_reclaimed := fold_right Z.min (__min_ckpt_reclaimed old) (reclaimed_clks h l) |> /\
    __min_ckpt_reclaimed (q_clks (g_qp_thread h')) <= __min_ckpt_reclaimed old.
Proof.
  intros Hl Hs Hreq old. pose proof Hl as [Hlist Hfree Hmem].
  unfold qp_reclaim_barrier. destruct spin_bound as [| n] eqn:En; [lia |]. cbn [loop]. msteps.
  rewrite <- En in Hs. mrun (live_lock h l Hl Hs). set (h1 := upd _ _ h). msteps. fold old.
  set (m0 := __min_ckpt_reclaimed old).
  set (I := fun (rest : list Z) (m : Z) (h' : shared) => h' = h1 /\ exists before, l = before ++ rest /\
     m = fold_right Z.min m0 (reclaimed_clks h before)).
  destruct (for_each_safe_rule (B := unit) LIVE (fun p min_ckpt =>
      let* t := get_thread p in
      if negb (requested (reclaim t) =? 0) then ret (inr tt)
      else if __min_ckpt_reclaimed (clks t) <? min_ckpt then ret (inl (__min_ckpt_reclaimed (clks t)))
      else ret (inl min_ckpt)) l I (fun _ _ => False)) with (a := m0) (h := h1)
    as (r & h2 & E & Hlk & Htl & Hr); try done.
  - intros p rest m h2 Hp (-> & before & El & Hm) _. destruct (Hmem p Hp) as [t Et].
    unfold bind at 1, get_thread. cbn [h1 upd threads]. rewrite Et. cbn [deref ret].
    rewrite (Hreq p t Hp Et). cbn [Z.eqb negb].
    exists (inl (Z.min m (__min_ckpt_reclaimed (clks t)))), h1.
    split. { destruct (Z.ltb_spec (__min_ckpt_reclaimed (clks t)) m); unfold ret; do 3 f_equal; lia. }
    do 2 (split; [done |]). split; [done |].
    exists (before ++ [p]). split; [by rewrite <- app_assoc |].
    unfold reclaimed_clks in *. rewrite omap_app. cbn. rewrite Et. cbn.
    rewrite fold_right_app. cbn. rewrite Hm. clear. generalize (omap (fun p => (fun t => __min_ckpt_reclaimed (clks t)) <$> threads h !! p) before).
    intros l. induction l as [| x l IH]; cbn; lia.
  - split; [done |]. by exists [].
  - mrun E. destruct r as [m | []]; [| done]. destruct Hr as (-> & before & El & Hm).
    rewrite app_nil_r in El. subst before.
    unfold mod_qp, thread_list_unlock, mod_tl. msteps. eexists. split; [reflexivity |].
    split; [by split |]. split; [done |]. cbn. rewrite Hm. split; [done |].
    fold m0. clear. induction (reclaimed_clks h l) as [| x xs IH]; cbn; lia.
Qed.

End QpFacts.

(** * Examples *)

Lemma ex_live_ok : live_ok ex_shared [8192].
Proof.
  split; [exact ex_list_ok | done |]. intros p ->%list_elem_of_singleton. by eexists.
Qed.

Lemma qp_init_snapshot_witness :
  exists h', @qp_init ex_env 5 ex_shared = Ok (tt, h') /\ live_ok h' [8192].
Proof.
  destruct (@qp_init_snapshot ex_env ex_shared [8192] 5 ex_live_ok ltac:(cbn; lia)) as (h' & E & H & _).
  exists h'. split; [exact E | exact H].
Defined.

Lemma qp_trigger_reclaim_spec_witness :
  exists h', @qp_trigger_reclaim ex_env (mk_reclaim 17 0) ex_shared = Ok (tt, h') /\
    (reclaim <$> threads h' !! 8192) = Some (mk_reclaim 17 0).
Proof.
  destruct (@qp_trigger_reclaim_spec ex_env ex_shared [8192] (mk_reclaim 17 0) ex_live_ok ltac:(cbn; lia))
    as (h' & E & _ & _ & Ht & _).
  exists h'. split; [exact E |]. by rewrite (Ht 8192 (zero_thread 8192) ltac:(by left) eq_refl).
Defined.

Lemma qp_reclaim_barrier_min_witness :
  exists h', @qp_reclaim_barrier ex_env ex_shared = Ok (tt, h') /\
    __min_ckpt_reclaimed (q_clks (g_qp_thread h')) = 0.
Proof.
  destruct (@qp_reclaim_barrier_min ex_env ex_shared [8192] ex_live_ok ltac:(cbn; lia)) as (h' & E & _ & _ & Hq & _).
  { intros p t ->%list_elem_of_singleton [= <-]. done. }
  exists h'. split; [exact E |]. rewrite Hq. by vm_compute.
Defined.
