(* ===== verification/GracePeriod.v ===== *)
(** Grace periods: what [qp_init] and [qp_wait] of [lib/qp.c] promise the rest
    of the library.  A thread that was inside a transaction when [qp_init] ran
    has left that transaction when [qp_wait] returns, or runs on a snapshot
    that is not before the grace period.

    The threads that the qp thread observes are those of [lib/timestone.c]: the
    history of a thread is a sequence of its calls of the library ([ts_begin],
    [ts_end], [ts_abort] and what a transaction calls in between), each run by
    its definition, between which other threads change all of the thread's
    structure but its run counter, its mode and its snapshot.  The calls are
    bracketed as the interface asks: [ts_begin] outside of a transaction, [ts_abort] inside
    one. *)
From S2P Require Export RunCnt Qp.

Section GracePeriod.
Context `{Env}.

(** what a call means for the grace periods *)
Inductive event : Set := Begin | Finish | Other.
#[export] Instance event_eq_dec : EqDecision event.
Proof. solve_decision. Defined.

(** what a transaction calls between its begin and its end *)
Inductive inner : M st unit -> Prop :=
| inner_deref o : inner (ts_deref o ;;; ret tt)
| inner_lock o size : inner (_ts_try_lock o size ;;; ret tt)
| inner_alloc size : inner (ts_alloc size ;;; ret tt)
| inner_free o : inner (ts_free o)
| inner_assign o : inner (_ts_assign_pointer o ;;; ret tt)
| inner_op type : inner (ts_set_op type)
| inner_operand bytes : inner (ts_memcpy_operand bytes)
| inner_flush : inner ts_flush_log.

(** one call of the library by the thread that [self] describes *)
Inductive call : event -> st -> st -> Prop :=
| call_begin lv s s' : Z.odd (run_cnt (self s)) = false -> ts_begin lv s = Ok (tt, s') -> call Begin s s'
| call_abort s s' : Z.odd (run_cnt (self s)) = true -> ts_abort s = Ok (tt, s') -> call Finish s s'
| call_end b s s' : Z.odd (run_cnt (self s)) = true -> ts_end s = Ok (b, s') ->
    call (if in_recovery_mode (self s) then Other else Finish) s s'
| call_inner m s s' : inner m -> m s = Ok (tt, s') -> call Other s s'.

(** the history of a thread: its calls, and others' changes in between *)
Inductive thread_run : list event -> ts_thread_struct -> ts_thread_struct -> Prop :=
| run_nil t : thread_run [] t t
| run_call e es s s' t : call e s s' -> thread_run es (self s') t -> thread_run (e :: es) (self s) t
| run_others es t t1 t' : tx_of t1 = tx_of t -> thread_run es t1 t' -> thread_run es t t'.

(** how often it entered or left a transaction *)
Definition boundaries (es : list event) : Z := Z.of_nat (length (filter (fun e => e <> Other) es)).

(** the transaction of [t0] is over, or it does not matter to a grace period that started at [clk] *)
Definition quiescent (es : list event) (t0 : ts_thread_struct) (clk : Z) : Prop :=
  Finish ∈ es \/ gte_clock (local_clk t0) clk = true.

(** what [qp_init] records of a thread *)
Definition snapshot_of (t : ts_thread_struct) : ts_qp_info := mk_qp_info (Z.odd (run_cnt t)) (run_cnt t).

End GracePeriod.

(** * Facts: the history of a thread *)

Section Runs.
Context `{Env} (Hothers : kept id interfere).

Lemma steady_interfere : kept fst interfere.
Proof. intros s a s' E. by rewrite (Hothers s a s' E : tx_of _ = _). Qed.

Lemma inner_kept m s s' : inner m -> m s = Ok (tt, s') -> tx_of (self s') = tx_of (self s).
Proof. intros Hm. assert (Hk : kept id m) by (destruct Hm; steady). exact (Hk s tt s'). Qed.

(** a call either is at a boundary and advances the counter or leaves it and the snapshot *)
Lemma call_spec e s s' : call e s s' ->
  match e with
  | Other => tx_of (self s') = tx_of (self s)
  | _ => tx_word s' = (u32 (run_cnt (self s) + 1), in_recovery_mode (self s)) /\
         (Z.odd (run_cnt (self s)) = true -> e = Finish)
  end.
Proof.
  pose proof steady_interfere as Hs. destruct 1 as [lv s s' Hr E | s s' Hr E | b s s' Hr E | m s s' Hm E].
  - split; [by apply (ts_begin_advances Hs) in E | congruence].
  - split; [by apply (ts_abort_advances Hs) in E | done].
  - destruct (in_recovery_mode (self s)) eqn:Er.
    + unfold ts_end in E. rewrite bind_asks, Er in E. by apply Ok_inj in E as [_ <-].
    + split; [| done]. rewrite <- Er. by apply (ts_end_advances Hs) in E.
  - by apply (inner_kept m).
Qed.

Lemma boundaries_cons e es : boundaries (e :: es) = (if decide (e = Other) then 0 else 1) + boundaries es.
Proof.
  unfold boundaries. rewrite filter_cons. destruct (decide (e = Other)) as [-> | He].
  - by rewrite decide_False by tauto.
  - rewrite decide_True by done. cbn. lia.
Qed.

Lemma boundaries_pos es : 0 <= boundaries es.
Proof. unfold boundaries. lia. Qed.

(** the counter counts the boundaries, and the snapshot is new only after one *)
Lemma thread_run_words es t t' : thread_run es t t' ->
  (boundaries es = 0 -> tx_of t' = tx_of t) /\
  (0 <= run_cnt t < 2 ^ 32 -> run_cnt t' = u32 (run_cnt t + boundaries es)) /\
  (Z.odd (run_cnt t) = true -> 0 < boundaries es <-> Finish ∈ es).
Proof.
  induction 1 as [t | e es s s' t Hc _ IH | es t t1 t' Hw _ IH].
  - change (boundaries []) with 0. split; [done |]. split; [intros; rewrite u32_small; lia |].
    intros _. split; [lia | by intros ?%not_elem_of_nil].
  - rewrite boundaries_cons. apply call_spec in Hc. pose proof (boundaries_pos es) as Hp. destruct IH as (I1 & I2 & I3).
    assert (Hb : (e = Other /\ tx_of (self s') = tx_of (self s)) \/
                 (e <> Other /\ run_cnt (self s') = u32 (run_cnt (self s) + 1) /\ (Z.odd (run_cnt (self s)) = true -> e = Finish))).
    { destruct e; [right; destruct Hc as [[= ??] ?]; by split | right; destruct Hc as [[= ??] ?]; by split | by left]. }
    destruct Hb as [[-> Hw] | (He & Hw & Hf)].
    + rewrite decide_True by done. injection Hw as Hr Hm Hl. rewrite Hr in I2, I3. split; [intros; rewrite I1 by lia; unfold tx_of, word_of; congruence |].
      split; [exact I2 |]. intros Ho. rewrite elem_of_cons, I3 by done. intuition done.
    + rewrite decide_False by done. split; [lia |]. split.
      * intros Hr. rewrite I2 by (rewrite Hw; apply Z.mod_pos_bound; lia). rewrite Hw. unfold u32. rewrite Zplus_mod_idemp_l. f_equal. lia.
      * intros Ho. rewrite (Hf Ho). split; [left | lia].
  - destruct IH as (I1 & I2 & I3). injection Hw as Hr Hm Hl. rewrite Hr in I2, I3. split; [| by split].
    intros Hb. rewrite (I1 Hb). unfold tx_of, word_of. congruence.
Qed.

Lemma thread_run_app es1 es2 t t1 t2 : thread_run es1 t t1 -> thread_run es2 t1 t2 -> thread_run (es1 ++ es2) t t2.
Proof. induction 1; cbn; intros; [done | econstructor; eauto | eapply run_others; eauto]. Qed.

(** what the qp thread reads of a thread that passes its test *)
Lemma passed_quiescent es t0 t clk :
  thread_run es t0 t -> Z.odd (run_cnt t0) = true -> qi_run_cnt (qp_info t) = run_cnt t0 ->
  thread_passed t clk = true -> quiescent es t0 clk.
Proof.
  intros Hr Ho Hq. destruct (thread_run_words es t0 t Hr) as (H1 & _ & H3). specialize (H3 Ho). pose proof (boundaries_pos es).
  destruct (decide (boundaries es = 0)) as [E | E]; [| intros _; left; apply H3; lia].
  injection (H1 E) as Er _ El. unfold thread_passed. rewrite Hq, Er, Z.eqb_refl, El. cbn. by right.
Qed.

(** C13. What the qp thread's test means.  [t0] is a thread inside a
    transaction, [t] the thread after the calls [es] of the library, which
    enter or leave a transaction less often than the 32-bit counter's period.
    With the snapshot that [qp_init] takes of [t0], the test holds of [t]
    exactly when one of the calls ended the transaction ([ts_end], whatever it
    answered, or [ts_abort]), or when the grace period started no later
    than the transaction, up to the clock's uncertainty. *)
Theorem grace_period_exact es t0 t clk :
  thread_run es t0 t -> Z.odd (run_cnt t0) = true -> 0 <= run_cnt t0 < 2 ^ 32 -> boundaries es < 2 ^ 32 ->
  is_clk (local_clk t0) -> is_clk clk ->
  thread_passed (t <| qp_info := snapshot_of t0 |>) clk = true <-> Finish ∈ es \/ clk <= local_clk t0 + __ORDO_BOUNDARY.
Proof.
  intros Hr Ho Hrange Hlt Hc Hk. destruct (thread_run_words es t0 t Hr) as (H1 & H2 & H3). specialize (H2 Hrange). specialize (H3 Ho).
  pose proof (boundaries_pos es). rewrite <- H3. pose proof (gte_clock_iff (local_clk t0) clk Hc Hk) as Hg. unfold ordo_boundary, g_ordo_boundary in Hg.
  rewrite <- Hg. unfold thread_passed. cbn [upd snapshot_of qp_info qi_run_cnt run_cnt local_clk].
  rewrite orb_true_iff, negb_true_iff, Z.eqb_neq. destruct (decide (boundaries es = 0)) as [E | E].
  - injection (H1 E) as -> _ ->. rewrite E. split; intros [? | ?]; by (lia || right || done).
  - split; [left; lia | intros _; left]. rewrite H2. unfold u32. intros He.
    assert (Hm : run_cnt t0 mod 2 ^ 32 = (run_cnt t0 + boundaries es) mod 2 ^ 32) by (rewrite <- He; by rewrite Z.mod_small).
    apply mod_window_inj in Hm; lia.
Qed.
End Runs.

(** * Facts: the wait *)

(** what the qp thread relies on while it waits for the threads [l].  [G] is
    what is known of their structures, whatever the qp thread writes there, and
    [rank] bounds how long the transactions still run. *)
Section Bystanders.
Context `{Env} (l : list Z) (clk : Z) (G : ts_thread_struct -> Prop) (rank : ts_thread_struct -> nat).

(** from [t] to [t'] while the qp thread waits once: calls of the library.
    The thread does not touch what [qp_init] recorded, but may take itself off
    the wait when it runs no transaction ([ts_thread_finish]).  Its counter does
    not come back to the recorded value, and a thread that the wait is still
    for came closer to the end of its transaction. *)
Record moves (t t' : ts_thread_struct) (es : list event) : Prop := {
  mv_run : thread_run es t t';
  mv_good : G t';
  mv_cnt : qi_run_cnt (qp_info t') = qi_run_cnt (qp_info t);
  mv_wait : need_wait (qp_info t') = need_wait (qp_info t) \/
            need_wait (qp_info t') = false /\ Z.odd (run_cnt t') = false;
  mv_passed : Z.odd (qi_run_cnt (qp_info t)) = true -> thread_passed t clk = true -> thread_passed t' clk = true;
  mv_rank : Z.odd (qi_run_cnt (qp_info t)) = true -> thread_passed t' clk = true \/ (rank t' < rank t)%nat }.

(** the threads on the list stay, and nobody else writes the system's clocks
    or takes the list's lock *)
Class Bystanders : Prop := {
  by_info q t : G t -> G (t <| qp_info := q |>);
  by_rank q t : rank (t <| qp_info := q |>) = rank t;
  by_run h : list_ok LIVE h l -> (forall p, p ∈ l -> exists t, threads h !! p = Some t /\ G t) ->
    exists h', qp_interfere h = Ok (tt, h') /\ stays LIVE l h h' /\
      tl_lock (g_live_threads h') = tl_lock (g_live_threads h) /\ q_clks (g_qp_thread h') = q_clks (g_qp_thread h) /\
      forall p t, p ∈ l -> threads h !! p = Some t -> exists t' es, threads h' !! p = Some t' /\ moves t t' es }.
End Bystanders.

Section Wait.
Context `{Bystanders}.
Context (Hothers : kept id interfere).

(** the thread [t] during the wait that [qp_init] started when it was [t0]:
    [todo] tells whether the walk still has to visit it, [n] bounds its rank *)
Record watched (n : nat) (todo : Prop) (t0 t : ts_thread_struct) : Prop := {
  wa_good : G t;
  wa_cnt : qi_run_cnt (qp_info t) = run_cnt t0;
  wa_wait : need_wait (qp_info t) = true -> Z.odd (run_cnt t0) = true;
  wa_rank : Z.odd (run_cnt t0) = true -> thread_passed t clk = true \/ (rank t < n)%nat;
  wa_run : exists es, thread_run es t0 t /\
    (Z.odd (run_cnt t0) = true -> todo /\ need_wait (qp_info t) = true \/ quiescent es t0 clk) }.

Lemma watched_moves n todo t0 t t' es :
  watched n todo t0 t -> moves clk G rank t t' es -> watched (Nat.pred n) todo t0 t'.
Proof.
  intros [Hg Hc Hw Hr (es0 & Hrun & Hq)] [Mr Mg Mc Mw Mp Mk]. pose proof (thread_run_app es0 es t0 t t' Hrun Mr) as Hrun'. split; try done.
  - congruence.
  - destruct Mw as [-> | [-> _]]; done.
  - intros Ho. rewrite Hc in Mk, Mp. destruct (Hr Ho) as [Hp | Hlt]; [left; auto |]. destruct (Mk Ho); [by left | right; lia].
  - exists (es0 ++ es). split; [done |]. intros Ho. destruct (Hq Ho) as [[Ht Hn] | [Hf | Hclk]].
    + destruct Mw as [-> | [_ Hev]]; [by left |]. right. left. apply (thread_run_words Hothers _ _ _ Hrun'); [done |].
      destruct (thread_run_words Hothers _ _ _ Hrun') as (H1 & _ & _). pose proof (boundaries_pos (es0 ++ es)).
      destruct (decide (boundaries (es0 ++ es) = 0)) as [E | E]; [| lia]. injection (H1 E) as E1 _ _. congruence.
    + right. left. apply elem_of_app. by left.
    + right. by right.
Qed.

(** the threads of the list during the wait that started in [h0] *)
Record watching (n : nat) (todo : Z -> Prop) (h0 h : shared) : Prop := {
  ws_list : list_ok LIVE h l;
  ws_head : tl_head (g_live_threads h) = tl_head (g_live_threads h0);
  ws_clks : q_clks (g_qp_thread h) = q_clks (g_qp_thread h0);
  ws_watched : forall p, p ∈ l -> exists t0 t, threads h0 !! p = Some t0 /\ threads h !! p = Some t /\ watched n (todo p) t0 t }.

Lemma watching_weaken n n' (todo todo' : Z -> Prop) h0 h :
  watching n todo h0 h -> (n <= n')%nat ->
  (forall p t, p ∈ l -> threads h !! p = Some t -> todo p -> need_wait (qp_info t) = true -> todo' p) -> watching n' todo' h0 h.
Proof.
  intros [Hl Hh Hq Hw] Hn Ht. split; try done. intros p Hp. destruct (Hw p Hp) as (t0 & t & E0 & E & [? ? ? Hr (es & ? & Hd)]).
  exists t0, t. do 2 (split; [done |]). split; try done.
  - intros Ho. destruct (Hr Ho); [by left | right; lia].
  - exists es. split; [done |]. intros Ho. destruct (Hd Ho) as [[? ?] | ?]; [left; eauto | by right].
Qed.

Lemma watching_interfere n todo h0 h :
  watching n todo h0 h -> exists h', qp_interfere h = Ok (tt, h') /\ watching (Nat.pred n) todo h0 h' /\
    tl_lock (g_live_threads h') = tl_lock (g_live_threads h).
Proof.
  intros [Hl Hh Hq Hw]. destruct (by_run l clk G rank h Hl) as (h' & E & [Hl' Hh'] & Hk & Hq' & Ht).
  { intros p Hp. destruct (Hw p Hp) as (t0 & t & _ & E & Hwa). exists t. split; [done | by eapply wa_good]. }
  exists h'. split; [done |]. split; [| done]. split; [done | cbn in Hh'; congruence | congruence |].
  intros p Hp. destruct (Hw p Hp) as (t0 & t & E0 & Et & Hwa). destruct (Ht p t Hp Et) as (t' & es & Et' & Hm).
  exists t0, t'. do 2 (split; [done |]). by eapply watched_moves.
Qed.

(** the wait for a thread: it passes, or a waiter for the list interrupts it
    after others ran *)
Lemma qp_wait_thread_watching fuel p todo h0 : forall n n0 h, (n < fuel)%nat -> (n <= n0)%nat ->
  p ∈ l -> watching n todo h0 h -> (exists t0, threads h0 !! p = Some t0 /\ Z.odd (run_cnt t0) = true) ->
  (thread_wait (g_live_threads h) = true -> n < n0)%nat ->
  exists b h' n', loop fuel (fun _ : unit =>
      let* t := get_thread p in
      if thread_passed t clk then
        mod_thread p (fun t => t <| qp_info ::= (fun q => q <| need_wait := false |>) |>) ;;; ret (inr true)
      else
        let* w := thread_list_has_waiter LIVE in
        if w : bool then ret (inr false) else qp_interfere ;;; ret (inl tt)) tt h = Ok (b, h') /\
    (n' <= n)%nat /\ tl_lock (g_live_threads h') = tl_lock (g_live_threads h) /\
    (thread_wait (g_live_threads h') = true -> n' < n0)%nat /\
    if b : bool then watching n' (fun q => todo q /\ q <> p) h0 h' else watching n' todo h0 h' /\ (n' < n0)%nat.
Proof.
  induction fuel as [| fuel IH]; intros n n0 h Hf Hn Hp Hw Hodd Hwait; [lia |]. cbn [loop].
  destruct (ws_watched _ _ _ _ Hw p Hp) as (t0 & t & E0 & Et & Hwa). destruct Hodd as (t0' & E0' & Ho).
  assert (t0' = t0) as -> by congruence.
  rewrite bind_assoc. unfold bind at 1, get_thread at 1. rewrite Et. cbn [deref ret].
  destruct (thread_passed t clk) eqn:Ep.
  - rewrite bind_assoc. rewrite (bind_run _ _ h tt (h <| threads ::= (fun m => <[p := t <| qp_info ::= (fun q => q <| need_wait := false |>) |>]> m) |>)).
    2: { unfold mod_thread, get_thread, bind. by rewrite Et. }
    msteps. do 3 eexists. split; [reflexivity |]. split; [reflexivity |]. split; [done |]. split; [exact Hwait |].
    destruct Hw as [Hl Hh Hq Hws]. split; [done | done | done |]. intros q Hql. destruct (decide (q = p)) as [-> | Hqp].
    + exists t0. eexists. split; [done |]. split; [apply lookup_insert_eq |].
      destruct Hwa as [Hg Hc Hnw Hr (es & Hrun & Hq')]. split; cbn; try done.
      * by apply (by_info l clk G rank).
      * intros _. left. unfold thread_passed in *. exact Ep.
      * exists es. split.
        { rewrite <- (app_nil_r es). eapply thread_run_app; [exact Hrun |]. eapply run_others; [| constructor]. done. }
        intros _. right. by eapply passed_quiescent.
    + destruct (Hws q Hql) as (u0 & u & F0 & Fu & [? ? ? ? (es & ? & Hd)]). exists u0, u. split; [done |].
      split; [cbn; by rewrite lookup_insert_ne by done |]. split; try done. exists es. split; [done |].
      intros Hu. destruct (Hd Hu) as [[? ?] | ?]; [by left | by right].
  - unfold thread_list_has_waiter. msteps. destruct (thread_wait (tl_get LIVE h)) eqn:Ew.
    + msteps. do 3 eexists. split; [reflexivity |]. split; [reflexivity |]. split; [done |].
      split; [exact Hwait |]. split; [done | by apply Hwait].
    + destruct (watching_interfere n todo h0 h Hw) as (h1 & E1 & Hw1 & Hl1). msteps. mrun E1. msteps.
      assert (0 < n)%nat. { destruct (wa_rank _ _ _ _ Hwa Ho); [congruence | lia]. }
      destruct (IH (Nat.pred n) n0 h1) as (b & h' & n' & E & Hn' & Hlk & Hwt & Hb); try done; try lia.
      { by exists t0. }
      exists b, h', n'. split; [exact E |]. split; [lia |]. split; [congruence |]. by split.
Qed.

(** one walk of [qp_wait]: it visits every thread, or a waiter interrupts it *)
Lemma qp_wait_walk n n0 todo h0 h :
  watching n todo h0 h -> (forall p, p ∈ l -> todo p) -> (n <= n0 < spin_bound)%nat ->
  (thread_wait (g_live_threads h) = true -> n < n0)%nat ->
  exists r h' n', thread_list_for_each_safe LIVE (fun p (_ : unit) =>
      let* t := get_thread p in
      if negb (need_wait (qp_info t)) then ret (inl tt)
      else let* passed := qp_wait_thread clk p in if passed : bool then ret (inl tt) else ret (inr tt)) tt h = Ok (r, h') /\
    (n' <= n0)%nat /\ tl_lock (g_live_threads h') = tl_lock (g_live_threads h) /\
    match r with inl _ => watching n' (fun _ => False) h0 h' | inr _ => watching n' todo h0 h' /\ (n' < n0)%nat end.
Proof.
  intros Hw Htodo Hn Hwait. pose proof (ws_list _ _ _ _ Hw) as Hl.
  set (I := fun (rest : list Z) (_ : unit) (h1 : shared) => exists n1, (n1 <= n0)%nat /\ watching n1 (fun p => p ∈ rest) h0 h1 /\
    tl_lock (g_live_threads h1) = tl_lock (g_live_threads h) /\ (thread_wait (g_live_threads h1) = true -> n1 < n0)%nat).
  set (Q := fun (_ : unit) (h1 : shared) => exists n1, (n1 < n0)%nat /\ watching n1 todo h0 h1 /\
    tl_lock (g_live_threads h1) = tl_lock (g_live_threads h)).
  destruct (for_each_stays_rule LIVE (fun p (_ : unit) =>
      let* t := get_thread p in
      if negb (need_wait (qp_info t)) then ret (inl tt)
      else let* passed := qp_wait_thread clk p in if passed : bool then ret (inl tt) else ret (inr tt)) l I Q) with (a := tt) (h := h)
    as (r & h' & E & _ & Hr).
  - intros p rest [] h1 Hp (n1 & Hn1 & Hw1 & Hk1 & Hwt1) Hl1. destruct (ws_watched _ _ _ _ Hw1 p Hp) as (t0 & t & E0 & Et & Hwa).
    unfold bind at 1, get_thread at 1. rewrite Et. cbn [deref ret]. destruct (need_wait (qp_info t)) eqn:Ew; cbn [negb].
    + destruct (qp_wait_thread_watching spin_bound p (fun q => q ∈ p :: rest) h0 n1 n0 h1) as (b & h2 & n2 & E & Hn2 & Hk2 & Hwt2 & Hb);
        try done; try lia. { exists t0. split; [done | by apply (wa_wait _ _ _ _ Hwa)]. }
      unfold qp_wait_thread. mrun E. destruct b.
      * do 2 eexists. split; [reflexivity |]. split; [split; [apply Hb | cbn; rewrite (ws_head _ _ _ _ Hb); symmetry; apply Hw1] |].
        exists n2. split; [lia |]. split; [| split; [congruence | done]]. eapply watching_weaken; [exact Hb | lia |].
        cbn. intros q u _ _ [Hq Hqp] _. by apply elem_of_cons in Hq as [-> | ?].
      * destruct Hb as [Hb Hlt]. do 2 eexists. split; [reflexivity |].
        split; [split; [apply Hb | cbn; rewrite (ws_head _ _ _ _ Hb); symmetry; apply Hw1] |].
        exists n2. split; [done |]. split; [| congruence]. eapply watching_weaken; [exact Hb | lia |]. auto.
    + do 2 eexists. split; [reflexivity |]. split; [by split |]. exists n1. split; [done |]. split; [| by split].
      eapply watching_weaken; [exact Hw1 | done |]. cbn. intros q u _ Eu [-> | ?]%elem_of_cons Hu; [congruence | done].
  - done.
  - exists n. split; [lia |]. split; [| by split]. eapply watching_weaken; [exact Hw | done | auto].
  - exists r, h'. destruct r as [[] | []]; destruct Hr as (n1 & Hn1 & Hw1 & Hr); exists n1; (split; [exact E |]).
    + split; [done |]. split; [apply Hr |]. eapply watching_weaken; [exact Hw1 | done |]. by intros q u _ _ ?%not_elem_of_nil.
    + split; [lia |]. by split.
Qed.

(** [qp_wait] returns, and no thread is left to visit *)
Lemma qp_wait_watching n todo h0 h :
  watching n todo h0 h -> (forall p, p ∈ l -> todo p) -> (S n < spin_bound)%nat -> tl_lock (g_live_threads h) = false ->
  exists h' n', qp_wait clk h = Ok (tt, h') /\ watching n' (fun _ => False) h0 h' /\ tl_lock (g_live_threads h') = false.
Proof.
  intros Hw Htodo Hn Hf. unfold qp_wait. set (body := fun _ : unit => _).
  assert (Hround : forall n1 n2 h1, watching n1 todo h0 h1 -> (n1 <= n2 < spin_bound)%nat -> tl_lock (g_live_threads h1) = false ->
    (thread_wait (g_live_threads h1) = true -> n1 < n2)%nat ->
    exists r h2 n', body tt h1 = Ok (r, h2) /\ (n' <= n2)%nat /\ tl_lock (g_live_threads h2) = false /\ thread_wait (g_live_threads h2) = false /\
      match r with inr _ => watching n' (fun _ => False) h0 h2 | inl _ => watching n' todo h0 h2 /\ (n' < n2)%nat end).
  { intros n1 n2 h1 Hw1 Hle Hf1 Hwt1. unfold body. rewrite (bind_run _ _ _ _ _ (thread_list_lock_free LIVE h1 ltac:(lia) Hf1)).
    set (h2 := tl_mod _ _ _). assert (Hw2 : watching n1 todo h0 h2) by (destruct Hw1; by split).
    destruct (qp_wait_walk n1 n2 todo h0 h2 Hw2 Htodo Hle Hwt1) as (r & h3 & n3 & E & Hn3 & Hk & Hr). mrun E.
    unfold thread_list_unlock, mod_tl. msteps. destruct r as [[] | []]; do 3 eexists; (split; [reflexivity |]); (split; [exact Hn3 |]);
      do 2 (split; [done |]); [| destruct Hr as [Hr ?]; split; [| done]]; by destruct Hr. }
  assert (Hloop : forall fuel n1 h1, watching n1 todo h0 h1 -> (n1 < fuel)%nat -> (n1 < spin_bound)%nat -> tl_lock (g_live_threads h1) = false ->
    thread_wait (g_live_threads h1) = false ->
    exists h' n', loop fuel body tt h1 = Ok (tt, h') /\ watching n' (fun _ => False) h0 h' /\ tl_lock (g_live_threads h') = false).
  { induction fuel as [| fuel IH]; intros n1 h1 Hw1 Hlt Hs Hf1 Hwt1; [lia |]. cbn [loop].
    destruct (Hround n1 n1 h1 Hw1 ltac:(lia) Hf1 ltac:(congruence)) as (r & h2 & n' & E & Hn' & Hf2 & Hwt2 & Hr). mrun E.
    destruct r as [[] | []].
    - destruct Hr as [Hr ?]. apply (IH n' h2); try done; lia.
    - exists h2, n'. by split. }
  destruct spin_bound as [| fuel] eqn:Es; [lia |]. cbn [loop]. rewrite <- Es in *.
  destruct (Hround n (S n) h Hw ltac:(lia) Hf ltac:(lia)) as (r & h2 & n' & E & Hn' & Hf2 & Hwt2 & Hr). mrun E. destruct r as [[] | []].
  - destruct Hr as [Hr ?]. apply (Hloop fuel n' h2); try done; lia.
  - exists h2, n'. by split.
Qed.
End Wait.

Section Detect.
Context `{Env} (l : list Z) (G : ts_thread_struct -> Prop) (rank : ts_thread_struct -> nat).
Context (Hothers : kept id interfere).

End Detect.

(** * Facts: threads whose run counter does not tell the truth *)

Section Misled.
Context `{Env}.

(** a period does not wait for threads with even counters, whatever they do *)
Lemma qp_detect_even h l :
  live_ok h l -> (0 < spin_bound)%nat -> requested (q_reclaim (g_qp_thread h)) <> 0 ->
  (forall p t, p ∈ l -> threads h !! p = Some t -> Z.odd (run_cnt t) = false) ->
  exists h', qp_detect 0 h = Ok (tt, h') /\
    q_clks (g_qp_thread h') = advance_qp_clock (q_clks (g_qp_thread h)) (correct_qp_clock (tsc (ticks h))) /\
    forall p t, p ∈ l -> threads h !! p = Some t -> tx_of <$> threads h' !! p = Some (tx_of t).
Proof.
  intros Hl Hs Hreq Hev. unfold qp_detect. set (clk := tsc (ticks h)).
  rewrite (bind_run sh_get_clock _ h clk (h <| ticks := S (ticks h) |>)) by done. set (h1 := upd _ _ h).
  assert (Hl1 : live_ok h1 l) by (by destruct Hl; split).
  destruct (qp_init_snapshot h1 l clk Hl1 Hs) as (h2 & E2 & Hl2 & Hq2 & _ & Ht2 & _). mrun E2.
  unfold stat_qp_inc, mod_qp at 1. msteps. cbn [Z.eqb negb]. msteps.
  rewrite (proj2 (Z.eqb_neq _ _)) by (cbn; by rewrite Hq2). msteps. set (h3 := upd _ _ h2).
  assert (Hl3 : live_ok h3 l) by (by destruct Hl2; split). assert (Hlk := live_lock h3 l Hl3 Hs). set (h4 := upd _ _ h3) in Hlk.
  assert (E : qp_wait clk h3 = Ok (tt, (h4 <| g_live_threads ::= (fun t => t <| thread_wait := false |>) |>)
                                        <| g_live_threads ::= (fun t => t <| tl_lock := false |>) |>)).
  { unfold qp_wait. destruct spin_bound as [| n] eqn:En; [lia |]. cbn [loop]. rewrite <- En in *. msteps. mrun Hlk.
    destruct (for_each_safe_rule (B := unit) LIVE (fun p (_ : unit) =>
        let* t := get_thread p in
        if negb (need_wait (qp_info t)) then ret (inl tt)
        else let* passed := qp_wait_thread clk p in if passed : bool then ret (inl tt) else ret (inr tt)) l
        (fun _ _ h' => h' = h4) (fun _ _ => False)) with (a := tt) (h := h4) as (r & h5 & E5 & _ & _ & Hr).
    - intros p rest [] h5 Hp -> _. destruct (live_mem _ _ Hl p Hp) as [t Et].
      exists (inl tt), h4. split; [| done]. unfold bind at 1, get_thread. rewrite (Ht2 p t Hp Et : threads h4 !! p = _).
      cbn [deref ret upd qp_info need_wait]. by rewrite (Hev p t Hp Et).
    - apply Hl3.
    - done.
    - msteps. mrun E5. destruct r as [[] |]; [| done]. subst h5. done. }
  mrun E. eexists. split; [reflexivity |]. split; [cbn; by rewrite Hq2 |].
  intros p t Hp Et. cbn. by rewrite (Ht2 p t Hp Et).
Qed.

(** a period does not end while a thread with an odd counter makes no call *)
Section Stuck.
Context (p : Z) (rest : list Z) (clk : Z).
Context (Hidle : forall h h', qp_interfere h = Ok (tt, h') -> list_ok LIVE h (p :: rest) ->
  stays LIVE (p :: rest) h h' /\ forall t, threads h !! p = Some t ->
    exists t', threads h' !! p = Some t' /\ tx_of t' = tx_of t /\ qp_info t' = qp_info t).

(** the wait is for [p], and its test does not pass *)
Definition stuck (h : shared) : Prop := list_ok LIVE h (p :: rest) /\
  exists t, threads h !! p = Some t /\ need_wait (qp_info t) = true /\ thread_passed t clk = false.

Lemma stuck_interfere : keeps stuck qp_interfere (fun _ => stuck).
Proof.
  intros h [] h' [Hl (t & Et & Hn & Hp)] E. destruct (Hidle h h' E Hl) as [[Hl' _] Ht]. split; [done |].
  destruct (Ht t Et) as (t' & Et' & Hw & Hq). exists t'. split; [done |]. rewrite Hq. split; [done |].
  injection Hw as Hr _ Hc. unfold thread_passed in *. by rewrite Hq, Hr, Hc.
Qed.

Lemma stuck_tl f : (forall t, tl_head (f t) = tl_head t) -> keeps stuck (mod_tl LIVE f) (fun _ => stuck).
Proof. intros Hf h [] h' [Hl Ht] [_ <-]%Ok_inj. split; [| done]. unfold list_ok in *. cbn. by rewrite Hf. Qed.

Lemma stuck_lock : keeps stuck (thread_list_lock LIVE) (fun _ => stuck).
Proof.
  apply (keeps_loop_inv stuck). intros []. eapply keeps_bind; [by apply keeps_reading; intros h a h' [_ ->]%Ok_inj |].
  intros tl. destruct (tl_lock tl); (eapply keeps_bind; [first [apply stuck_interfere | by apply stuck_tl] | intros; by apply keeps_ret]).
Qed.

Lemma stuck_unlock : keeps stuck (thread_list_unlock LIVE) (fun _ => stuck).
Proof. eapply keeps_bind; [by apply stuck_tl | intros; by apply stuck_tl]. Qed.

Lemma stuck_thread : keeps stuck (qp_wait_thread clk p) (fun b h => b = false /\ stuck h).
Proof.
  unfold qp_wait_thread. apply (keeps_loop (fun _ => stuck)). intros [] h r h' Hs E. pose proof Hs as [_ (t & Et & _ & Hp)].
  unfold bind at 1, get_thread at 1 in E. rewrite Et in E. cbn [deref ret] in E. rewrite Hp in E.
  unfold thread_list_has_waiter in E. rewrite bind_asks in E. destruct (thread_wait _).
  - apply Ok_inj in E as [<- <-]. done.
  - apply bind_Ok in E as ([] & h1 & E1 & E). apply Ok_inj in E as [<- <-]. by apply (stuck_interfere h tt h1).
Qed.

Lemma stuck_walk : keeps stuck (thread_list_for_each_safe LIVE (fun p (_ : unit) =>
      let* t := get_thread p in
      if negb (need_wait (qp_info t)) then ret (inl tt)
      else let* passed := qp_wait_thread clk p in if passed : bool then ret (inl tt) else ret (inr tt)) tt)
    (fun r h => r = inr tt /\ stuck h).
Proof.
  intros h r h' Hs E. pose proof Hs as [Hl (t & Et & Hn & _)]. unfold thread_list_for_each_safe in E. rewrite bind_asks in E. cbv zeta in E.
  destruct (dll_first _ _ _ Hl) as [Hf _]. rewrite (bind_run _ _ _ _ _ (on_links_next _ _ _ Hf)) in E. cbn [hd_error default] in E. unfold id in E.
  apply bind_Ok in E as (n & h1 & E1 & E). assert (h1 = h) as ->.
  { revert E1. unfold on_links, zoom. unfold node_next. destruct (list_links h !! p); [| done].
    intros [_ <-]%Ok_inj. by destruct h. }
  rewrite bind_asks in E. cbn [loop] in E. rewrite (proj2 (Z.eqb_neq p _)) in E.
  2: { destruct Hl as [Hnd _]. apply NoDup_cons in Hnd as [Hni _]. intros ->. apply Hni. by left. }
  apply bind_Ok in E as (r0 & h0 & (r1 & h2 & Eb & E)%bind_Ok & E').
  apply bind_Ok in Eb as (t' & h5 & [Et' ->]%deref_Ok & Eb). assert (t' = t) as -> by congruence. rewrite Hn in Eb. cbn [negb] in Eb.
  apply bind_Ok in Eb as (b & h3 & E3 & E4). destruct (stuck_thread h b h3 Hs E3) as [-> Hs3].
  apply Ok_inj in E4 as [<- <-]. apply Ok_inj in E as [<- <-]. by apply Ok_inj in E' as [<- <-].
Qed.

Lemma stuck_wait : keeps stuck (qp_wait clk) (fun _ _ => False).
Proof.
  unfold qp_wait. apply (keeps_loop (fun _ => stuck)). intros []. eapply keeps_bind; [apply stuck_lock | intros []].
  eapply keeps_bind; [apply stuck_walk | intros r]. intros h a h' [-> Hs] E. apply bind_Ok in E as ([] & h1 & E1 & [<- <-]%Ok_inj).
  by apply (stuck_unlock h tt h1).
Qed.
End Stuck.

Lemma qp_detect_odd h p rest t :
  (forall h h', qp_interfere h = Ok (tt, h') -> list_ok LIVE h (p :: rest) ->
     stays LIVE (p :: rest) h h' /\ forall t, threads h !! p = Some t ->
       exists t', threads h' !! p = Some t' /\ tx_of t' = tx_of t /\ qp_info t' = qp_info t) ->
  live_ok h (p :: rest) -> threads h !! p = Some t -> Z.odd (run_cnt t) = true -> gte_clock (local_clk t) (tsc (ticks h)) = false ->
  forall h', qp_detect 0 h <> Ok (tt, h').
Proof.
  intros Hidle Hl Et Ho Hc h' E. unfold qp_detect in E. set (clk := tsc (ticks h)) in *.
  rewrite (bind_run sh_get_clock _ h clk (h <| ticks := S (ticks h) |>)) in E by done. set (h1 := upd _ _ h) in E.
  assert (Hl1 : live_ok h1 (p :: rest)) by (by destruct Hl; split).
  destruct (decide (0 < spin_bound)%nat) as [Hs | Hs].
  2: { revert E. unfold qp_init, thread_list_lock, port_spin_lock. by replace spin_bound with 0%nat by lia. }
  destruct (qp_init_snapshot h1 _ clk Hl1 Hs) as (h2 & E2 & Hl2 & Hq2 & _ & Ht2 & _). rewrite (bind_run _ _ _ _ _ E2) in E.
  assert (S2 : stuck p rest clk h2).
  { split; [apply Hl2 |]. eexists. split; [apply (Ht2 p t ltac:(by left) Et) |]. split; [exact Ho |].
    unfold thread_passed. cbn. rewrite Z.eqb_refl. exact Hc. }
  unfold stat_qp_inc, mod_qp in E. rewrite !bind_modify in E. cbn [Z.eqb negb] in E. rewrite bind_when_false, bind_asks in E.
  apply bind_Ok in E as ([] & h4 & E4 & ([] & h5 & E5 & _)%bind_Ok). apply (stuck_wait p rest clk Hidle h4 tt h5); [| exact E5].
  revert E4. set (h3 := upd _ _ h2). assert (S3 : stuck p rest clk h3) by exact S2.
  destruct (requested _ =? 0); [| by intros [_ <-]%Ok_inj].
  intros ([] & h6 & E6 & [_ <-]%Ok_inj)%bind_Ok. exact (stuck_interfere p rest clk Hidle h3 tt h6 S3 E6).
Qed.
End Misled.

(** * Example: a thread inside a transaction, which ends while the qp thread waits *)

Definition gp_thread : ts_thread_struct :=
  (zero_thread 8192) <| run_cnt := 1 |> <| local_clk := 500 |> <| tx_alloc_set := (ptrset_init true).2 |>
    <| tx_free_set := (ptrset_init true).2 |>.
(** [ts_end] by the thread [t] *)
Definition gp_end (t : ts_thread_struct) : res (bool * st) := @ts_end ex_env (mk_st t ex_shared).
Definition gp_done : ts_thread_struct := match gp_end gp_thread with Ok (_, s) => self s | Fault _ => gp_thread end.
Definition gp_others : M shared unit := fun h =>
  match threads h !! 8192 with
  | Some t =>
      if Z.odd (run_cnt t) then
        match gp_end t with
        | Ok (_, s) => Ok (tt, h <| threads ::= (fun m => <[8192 := self s]> m) |>)
        | Fault e => Fault e
        end
      else Ok (tt, h)
  | None => Ok (tt, h)
  end.
#[local] Instance gp_env : Env := {|
  interfere := ret tt; qp_interfere := gp_others; spin_bound := 5;
  tsc := fun n => 1000 + 10 * Z.of_nat n; alloc_result := ex_alloc; nvm_root_addr := 64;
  TS_ENABLE_SERIALIZABILITY_LINEARIZABILITY := false; TS_NESTED_LOCKING := false |}.

Lemma gp_quiet : kept id interfere.
Proof. apply (steady_ret id). Qed.

Lemma gp_end_run q : gp_end (gp_thread <| qp_info := q |>) = Ok (true, mk_st (gp_done <| qp_info := q |>) ex_shared).
Proof. by vm_compute. Qed.

Lemma gp_run q : thread_run [Finish] (gp_thread <| qp_info := q |>) (gp_done <| qp_info := q |>).
Proof.
  refine (run_call Finish [] (mk_st (gp_thread <| qp_info := q |>) ex_shared) (mk_st (gp_done <| qp_info := q |>) ex_shared)
    (gp_done <| qp_info := q |>) _ _); [| constructor].
  change Finish with (if in_recovery_mode (gp_thread <| qp_info := q |>) then Other else Finish).
  refine (call_end true (mk_st (gp_thread <| qp_info := q |>) ex_shared) (mk_st (gp_done <| qp_info := q |>) ex_shared) _ _); [done |].
  by vm_compute.
Qed.

Lemma grace_period_exact_witness :
  thread_passed (gp_done <| qp_info := snapshot_of gp_thread |>) 1000 = true /\
  thread_passed (gp_thread <| qp_info := snapshot_of gp_thread |>) 1000 = false.
Proof.
  split.
  - apply (grace_period_exact gp_quiet [Finish] gp_thread gp_done 1000); try done; [exact (gp_run (qp_info gp_thread)) | left; by left].
  - apply not_true_iff_false. intros Hp.
    by apply (grace_period_exact gp_quiet [] gp_thread gp_thread 1000) in Hp as [[]%not_elem_of_nil | Hle]; [.. | constructor | done | done | done | done | done].
Defined.

Definition gp_good (t : ts_thread_struct) : Prop := exists q, t = gp_thread <| qp_info := q |> \/ t = gp_done <| qp_info := q |>.
Definition gp_shared : shared := ex_shared <| threads := {[ 8192 := gp_thread ]} |>.

Lemma gp_passed q clk : Z.odd (qi_run_cnt q) = true -> thread_passed (gp_done <| qp_info := q |>) clk = true.
Proof.
  intros Ho. apply orb_true_intro. left. apply negb_true_iff, Z.eqb_neq. intros E. cbn in E. by rewrite E in Ho.
Qed.

Lemma gp_bystanders clk : Bystanders [8192] clk gp_good (fun _ => 0%nat).
Proof.
  split; [| done |].
  - intros q t [q0 [-> | ->]]; exists q; [left | right]; done.
  - intros h Hl Hm. destruct (Hm 8192 ltac:(by left)) as (t & Et & q & Hq). unfold qp_interfere, gp_env, gp_others. rewrite Et.
    assert (Hmoves : exists t' es, (if Z.odd (run_cnt t) then
        match gp_end t with Ok (_, s) => Ok (tt, h <| threads ::= (fun m => <[8192 := self s]> m) |>) | Fault e => Fault e end
        else Ok (tt, h)) = Ok (tt, h <| threads ::= (fun m => <[8192 := t']> m) |>) /\ moves clk gp_good (fun _ => 0%nat) t t' es).
    { exists (gp_done <| qp_info := q |>). destruct Hq as [-> | ->].
      - exists [Finish]. split; [change (Z.odd _) with true; by rewrite gp_end_run |].
        split; [apply gp_run | exists q; by right | done | by left | |]; intros Ho; [intros _ | left]; by apply gp_passed.
      - exists []. split.
        + change (Z.odd _) with false. destruct h. cbn. cbn in Et. by rewrite insert_id.
        + split; [constructor | exists q; by right | done | by left | done |]. intros Ho. left. by apply gp_passed. }
    destruct Hmoves as (t' & es & E & Hmv). rewrite E. eexists. split; [reflexivity |]. split; [by split |].
    do 2 (split; [done |]). intros p u ->%list_elem_of_singleton Eu. assert (u = t) as -> by congruence.
    exists t', es. split; [apply lookup_insert_eq | done].
Qed.

Lemma gp_live_ok : live_ok gp_shared [8192].
Proof. split; [exact ex_list_ok | done |]. intros p ->%list_elem_of_singleton. by eexists. Qed.

