(* ===== verification/Recovery.v ===== *)
(** Recovery after a crash ([lib/recovery.c]) and the start and end of the
    library ([ts_init], [ts_finish] of [lib/timestone.c]). *)
From S2P Require Export Qp.

(** [ts_op_context_t] and [ts_replay_entry_t]; a context is reached by its
    index in the context array *)
Record ts_op_context := mk_context { ctx_thread : Z; ctx_op_entry : Z }.
#[export] Instance eta_context : Eta ts_op_context := fun r => mk_context (ctx_thread r) (ctx_op_entry r).
Record ts_replay_entry := mk_replay { time_stamp : Z; re_type : replay_type; re_context : Z }.

(** their sizes *)
Definition sizeof_op_context : Z := 16.
Definition sizeof_replay_entry : Z := 24.

(** [qsort] of the C library on the replay array *)
Class Qsort : Type := qsort_array : (ts_replay_entry -> ts_replay_entry -> Z) -> list ts_replay_entry -> list ts_replay_entry.

Section Recovery.
Context `{Env, Qsort}.
(** [op_exec] of the user's configuration: thread, operation type, operands *)
Context (op_exec : Z -> Z -> list Z -> M shared unit).

(** code that uses no thread structure *)
Definition no_thread {A} (m : M st A) : M shared A := fun h =>
  match m (mk_st (zero_thread NULL) h) with
  | Ok (a, s) => Ok (a, sh s)
  | Fault e => Fault e
  end.

(** run a log operation on a volatile log [n] that is a local variable *)
Definition on_nvlog {A} (n : ts_nvlog) (m : M nvst A) : M shared (A * ts_nvlog) := fun h =>
  match stores h !! n_store n with
  | None => Fault UB
  | Some t =>
      match m (mk_nvst n t (sh_pm h)) with
      | Ok (a, r) => Ok ((a, nv r), h <| stores ::= (fun m => <[n_store n := sto r]> m) |>
                                      <| sh_pm := pm r |>)
      | Fault e => Fault e
      end
  end.

(** the log of the store at [a]; [None] when memory is out *)
Definition reconstruct_volatile_nvlog (a : Z) : M shared (option ts_nvlog) :=
  let* p := sh_alloc in
  if p =? NULL then ret None
  else let* t := get_store a in ret (Some (nvlog_load a t)).

(** [for (; current; current = current->next)] over the log stores: the body
    answers 0 to go on or an error code to stop *)
Definition for_each_store {A} (body : Z -> ts_nvlog_store -> A -> M shared (Z * A)) (a : A) : M shared (Z * A) :=
  let* r := asks root in
  let* m := asks stores in
  loop (S (size m)) (fun '(current, a) =>
    if current =? NULL then ret (inr (0, a))
    else
      let* t := get_store current in
      let* ' (rc, a') := body current t a in
      if negb (rc =? 0) then ret (inr (rc, a'))
      else let* t := get_store current in ret (inl (s_next t, a'))) (root_next r, a).

(** a log of the given type in normal use *)
Definition is_log (type : nvlog_type) (t : ts_nvlog_store) : bool :=
  bool_decide (s_type t = type) && bool_decide (s_status t = STATUS_NVLOG_NORMAL).

Definition nvlog_fuel (n : ts_nvlog) : nat := S (S (Z.to_nat (nvlog_used n / TS_CACHE_LINE_SIZE))).

(** * Checkpoint log *)

Definition reconstruct_volatile_header (ent gen : Z) : M st Z :=
  let* ' (e, c) := get_ckpt_entry ent in
  let org := ce_np_org_act c in
  let* ahs := get_ahs org in
  let nvh := act_nvhdr ahs in
  if negb (gen_id nvh =? gen) || (nvh_act_vhdr nvh =? NULL) then
    let* p_act_vhdr := alloc_act_vhdr (ckpt_ent_obj ent) in
    if p_act_vhdr =? NULL then ret ENOMEM
    else
      put_ahs org (fun a => a <| act_nvhdr ::= (fun n => n <| nvh_act_vhdr := p_act_vhdr |>) |>) ;;;
      put_ahs org (fun a => a <| act_nvhdr ::= (fun n => n <| gen_id := gen |>) |>) ;;;
      ret 0
  else
    let p_act_vhdr := nvh_act_vhdr nvh in
    let* v := get_vhdr p_act_vhdr in
    let* ' (cur, _) := get_ckpt_entry (obj_to_ckpt_ent (np_cur_act v)) in
    (if e_wrt_clk cur <? e_wrt_clk e then
       put_vhdr p_act_vhdr (fun v => v <| np_cur_act := ckpt_ent_obj ent |>)
     else ret tt) ;;;
    ret 0.

(** the entries of one checkpoint log up to the last checkpoint *)
Definition recover_ckptlog_entries (last_ckpt gen : Z) (n : ts_nvlog) : M shared (Z * ts_nvlog) :=
  loop (nvlog_fuel n) (fun n =>
    if n_head_cnt n =? n_tail_cnt n then ret (inr (0, n))
    else
      let* ' (ent, n) := on_nvlog n nvlog_peek_head in
      let* ' (_, c) := no_thread (get_ckpt_entry ent) in
      if last_ckpt <? ckpt_s_clk c then ret (inr (0, n))
      else
        let* rc := no_thread (reconstruct_volatile_header ent gen) in
        if negb (rc =? 0) then ret (inr (ENOMEM, n))
        else let* ' (_, n) := on_nvlog n nvlog_deq in ret (inl n)) n.

(** one round of the loop of [ckptlog_recovery] over the stores *)
Definition recover_ckptlog_store (last_ckpt gen a : Z) (t : ts_nvlog_store) (_ : unit) : M shared (Z * unit) :=
  if negb (is_log TYPE_CKPTLOG t) then ret (0, tt)
  else
    let* o := reconstruct_volatile_nvlog a in
    match o with
    | None => ret (ENOMEM, tt)
    | Some n =>
        let* ' (rc, n) := recover_ckptlog_entries last_ckpt gen n in
        if negb (rc =? 0) then ret (rc, tt)
        else on_nvlog n (nvlog_truncate_tail (n_head_cnt n)) ;;; ret (0, tt)
    end.

Definition ckptlog_recovery : M shared Z :=
  let* last_ckpt := nvlog_get_last_ckpt_clk in
  let* gen := nvm_get_gen_id in
  let* ' (rc, _) := for_each_store (recover_ckptlog_store last_ckpt gen) tt in
  ret rc.

(** * Operation log *)

Definition op_entry_of (h : shared) (ent : Z) : option (ts_nvlog_entry * ts_op_entry_hdr) :=
  match cells (sh_pm h) !! ent with
  | Some e => match e_body e with EB_op o => Some (e, o) | _ => None end
  | None => None
  end.
Definition get_op_entry (ent : Z) : M shared (ts_nvlog_entry * ts_op_entry_hdr) :=
  fun h => deref (op_entry_of h ent) h.

Definition is_op_entry_valid (o : ts_op_entry_hdr) (last_ckpt_clk : Z) : bool :=
  last_ckpt_clk <? op_local_clk o.

(** [n++] on an [int] *)
Definition int_inc (n : Z) : M shared Z := if n =? 2 ^ 31 - 1 then raise UB else ret (n + 1).

(** one oplog of [alloc_replay_array]: the number of valid operations so far
    and the head to keep *)
Definition count_op_entries (last_ckpt : Z) (n : ts_nvlog) (ops_cnt : Z) : M shared (ts_nvlog * (Z * Z)) :=
  loop (nvlog_fuel n) (fun '(n, (ops_cnt, head_cnt)) =>
    if n_head_cnt n =? n_tail_cnt n then ret (inr (n, (ops_cnt, head_cnt)))
    else
      let* ' (ent, n) := on_nvlog n nvlog_peek_head in
      let* ' (_, o) := get_op_entry ent in
      let* acc := (if is_op_entry_valid o last_ckpt then
                     let head_cnt := if ops_cnt =? 0 then n_head_cnt n else head_cnt in
                     let* ops_cnt := int_inc ops_cnt in ret (ops_cnt, head_cnt)
                   else ret (ops_cnt, head_cnt)) in
      let* ' (_, n) := on_nvlog n nvlog_deq in
      ret (inl (n, acc))) (n, (ops_cnt, n_head_cnt n)).

(** one round of the loop of [alloc_replay_array] over the stores *)
Definition alloc_replay_store (last_ckpt a : Z) (t : ts_nvlog_store) (ops_cnt : Z) : M shared (Z * Z) :=
  if negb (is_log TYPE_OPLOG t) then ret (0, ops_cnt)
  else
    let* o := reconstruct_volatile_nvlog a in
    match o with
    | None => ret (ENOMEM, ops_cnt)
    | Some n =>
        let* ' (n, (ops_cnt, head_cnt)) := count_op_entries last_ckpt n ops_cnt in
        on_nvlog n (nvlog_truncate_head head_cnt) ;;;
        ret (0, ops_cnt)
    end.

(** [port_alloc(size)] and [memset(p, 0, size)] with the size in an [int]: a
    negative one asks for more than the address space holds, and the code goes
    on to clear the array when it did not get one *)
Definition alloc_array (size : Z) : M shared unit :=
  let* p := sh_alloc in
  if (size <? 0) || ((p =? NULL) && negb (size =? 0)) then raise UB else ret tt.

(** [int replay_size] and [int context_size] *)
Definition array_sizes (ops_cnt : Z) : Z * Z :=
  (s32 (u64 (sizeof_replay_entry * 2 * ops_cnt)), s32 (u64 (sizeof_op_context * ops_cnt))).

(** the answer: a return code and the sizes of the two arrays in bytes *)
Definition alloc_replay_array : M shared (Z * (Z * Z)) :=
  let* last_ckpt := nvlog_get_last_ckpt_clk in
  let* ' (rc, ops_cnt) := for_each_store (alloc_replay_store last_ckpt) 0 in
  if negb (rc =? 0) then ret (rc, (0, 0))
  else
    let sizes := array_sizes ops_cnt in
    alloc_array sizes.1 ;;;
    alloc_array sizes.2 ;;;
    ret (0, sizes).

(** the replay entries of one operation, with its context at index [k] *)
Definition add_op_replay (e : ts_nvlog_entry) (o : ts_op_entry_hdr) (k : Z) : list ts_replay_entry :=
  [mk_replay (op_local_clk o) OPLOG_REPLAY_TYPE_EXEC k;
   mk_replay (e_wrt_clk e) OPLOG_REPLAY_TYPE_COMMIT k].

(** the arrays as they are filled: [i / 2] contexts are in use *)
Definition arrays : Type := list ts_replay_entry * list ts_op_context.

(** [replay_array[i]], [replay_array[i + 1]] and [context_array[i / 2]] with
    [i = 2 * k] are inside arrays of these sizes (so that [i += 2] does not overflow) *)
Definition arrays_have_room (sizes : Z * Z) (k : Z) : bool :=
  (sizeof_replay_entry * (2 * k + 2) <=? sizes.1) && (sizeof_op_context * (k + 1) <=? sizes.2).

(** one oplog of [collect_replay_entries]; writing past an array's end is [UB] *)
Definition collect_op_entries (last_ckpt : Z) (sizes : Z * Z) (n : ts_nvlog) (ra : arrays) : M shared (ts_nvlog * arrays) :=
  loop (nvlog_fuel n) (fun '(n, ra) =>
    if n_head_cnt n =? n_tail_cnt n then ret (inr (n, ra))
    else
      let* ' (ent, n) := on_nvlog n nvlog_peek_head in
      let* ' (e, o) := get_op_entry ent in
      let* ra := (if is_op_entry_valid o last_ckpt then
                    let k := Z.of_nat (length ra.2) in
                    if arrays_have_room sizes k then
                      ret (ra.1 ++ add_op_replay e o k, ra.2 ++ [mk_context NULL ent])
                    else raise UB
                  else ret ra) in
      let* ' (_, n) := on_nvlog n nvlog_deq in
      ret (inl (n, ra))) (n, ra).

(** one round of the loop of [collect_replay_entries] over the stores *)
Definition collect_replay_store (last_ckpt : Z) (sizes : Z * Z) (a : Z) (t : ts_nvlog_store) (ra : arrays) : M shared (Z * arrays) :=
  if negb (is_log TYPE_OPLOG t) then ret (0, ra)
  else
    let* o := reconstruct_volatile_nvlog a in
    match o with
    | None => ret (ENOMEM, ra)
    | Some n =>
        let head_cnt := n_head_cnt n in
        let* ' (n, ra) := collect_op_entries last_ckpt sizes n ra in
        on_nvlog n (nvlog_truncate_head head_cnt) ;;;
        ret (0, ra)
    end.

Definition collect_replay_entries (sizes : Z * Z) : M shared (Z * arrays) :=
  let* last_ckpt := nvlog_get_last_ckpt_clk in
  for_each_store (collect_replay_store last_ckpt sizes) ([], []).

(** [int d = time_stamp - time_stamp;] *)
Definition comp_replay_entries (r1 r2 : ts_replay_entry) : Z :=
  let d := s32 (u64 (time_stamp r1 - time_stamp r2)) in
  if d =? 0 then replay_code (re_type r1) - replay_code (re_type r2) else d.

Definition sort_replay_array (l : list ts_replay_entry) : list ts_replay_entry := qsort_array comp_replay_entries l.

Definition oplog_recovery : M shared Z :=
  let* ' (rc, sizes) := alloc_replay_array in
  if negb (rc =? 0) then ret rc
  else
    let* ' (rc, (replay, _)) := collect_replay_entries sizes in
    if negb (rc =? 0) then ret rc
    else let _ := sort_replay_array replay in ret 0.

Definition perform_recovery : M shared Z :=
  let* r := asks root in
  if root_next r =? NULL then ret 0
  else
    let* rc := ckptlog_recovery in
    if negb (rc =? 0) then ret rc else oplog_recovery.

(** * Replaying (the call is commented out in [oplog_recovery]) *)

(** the pool of idle threads and the contexts *)
Record replay_st := mk_rst { rs_pool : ts_ptr_set; rs_ctx : list ts_op_context; rs_sh : shared }.
#[local] Instance eta_rst : Eta replay_st := fun r => mk_rst (rs_pool r) (rs_ctx r) (rs_sh r).
Definition on_rs {A} (m : M shared A) : M replay_st A := zoom rs_sh (fun h r => r <| rs_sh := h |>) m.

Definition get_ctx (re : ts_replay_entry) : M replay_st ts_op_context :=
  fun s => deref (rs_ctx s !! Z.to_nat (re_context re)) s.
Definition set_ctx_thread (re : ts_replay_entry) (t : Z) : M replay_st unit :=
  modify (fun s => s <| rs_ctx ::= alter (fun c => c <| ctx_thread := t |>) (Z.to_nat (re_context re)) |>).

Definition pool_pop : M replay_st Z :=
  let* ps := asks rs_pool in
  let* ' (p, ps') := lift (ptrset_pop ps) in
  modify (fun s => s <| rs_pool := ps' |>) ;;; ret p.
Definition pool_push (p : Z) : M replay_st unit :=
  let* ps := asks rs_pool in
  let* ok := (if num_max_ptrs ps <=? num_ptrs ps then on_rs (no_thread alloc_ok) else ret true) in
  let* ' (_, ps') := lift (ptrset_push ok ps p) in
  modify (fun s => s <| rs_pool := ps' |>).

Definition acquire_thread (re : ts_replay_entry) : M replay_st Z :=
  let* c := get_ctx re in
  if negb (ctx_thread c =? NULL) then ret 0
  else
    let* t := pool_pop in
    if negb (t =? NULL) then set_ctx_thread re t ;;; ret 0
    else
      let* t := on_rs ts_thread_alloc in
      if t =? NULL then ret ENOMEM
      else
        on_rs (with_thread t (ts_thread_init_x STATUS_NVLOG_RECOVERY)) ;;;
        set_ctx_thread re t ;;; ret 0.

Definition release_thread (re : ts_replay_entry) : M replay_st unit :=
  match re_type re with
  | OPLOG_REPLAY_TYPE_EXEC => ret tt
  | OPLOG_REPLAY_TYPE_COMMIT =>
      let* c := get_ctx re in
      set_ctx_thread re NULL ;;;
      pool_push (ctx_thread c)
  end.

(** the operation type handed to the user is the replay entry's type *)
Definition execute_op (re : ts_replay_entry) : M replay_st Z :=
  let* c := get_ctx re in
  let p := ctx_thread c in
  let set_mode b := on_rs (mod_thread p (fun t => t <| in_recovery_mode := b |>)) in
  match re_type re with
  | OPLOG_REPLAY_TYPE_EXEC =>
      set_mode true ;;;
      let* ' (_, o) := on_rs (get_op_entry (ctx_op_entry c)) in
      on_rs (op_exec p (replay_code (re_type re)) (opd o))
  | OPLOG_REPLAY_TYPE_COMMIT =>
      set_mode false ;;;
      on_rs (with_thread p ts_end) ;;; ret tt
  end ;;;
  set_mode true ;;;
  ret 0.

Definition deinit_threads : M replay_st unit :=
  let* ps := asks rs_pool in
  loop (S (Z.to_nat (num_ptrs ps))) (fun _ : unit =>
    let* t := pool_pop in
    if t =? NULL then ret (inr tt)
    else
      on_rs (with_thread t ts_thread_finish) ;;;
      on_rs (with_thread t ts_thread_free) ;;;
      ret (inl tt)) tt ;;;
  modify (fun s => s <| rs_pool ::= ptrset_deinit |>).

Fixpoint replay_loop (l : list ts_replay_entry) : M replay_st Z :=
  match l with
  | [] => ret 0
  | re :: l' =>
      let* rc := acquire_thread re in
      if negb (rc =? 0) then ret rc
      else
        let* rc := execute_op re in
        if negb (rc =? 0) then ret rc
        else release_thread re ;;; replay_loop l'
  end.

Definition replay_ops (l : list ts_replay_entry) (ctx : list ts_op_context) : M shared Z := fun h =>
  match no_thread alloc_ok h with
  | Ok (ok, h) =>
      match (let* rc := replay_loop l in deinit_threads ;;; ret rc)
              (mk_rst (ptrset_init ok).2 ctx h) with
      | Ok (rc, s) => Ok (rc, rs_sh s)
      | Fault e => Fault e
      end
  | Fault e => Fault e
  end.

(** * Start and end of the library *)

Definition EBUSY : Z := 16.

(** [init] is the function's static flag; the answer is its new value and the
    return code.  The heap that [nvm_load_heap] loads, the mapping that [mmap]
    makes and the result of [pthread_create] are arguments. *)
Definition ts_init (init : bool) (loaded : option ts_nvm_root_obj) (is_created nr0 : bool)
    (mapping : Z + Z) (live zombie thread_rc : Z) : M shared (bool * Z) :=
  if init then ret (true, - EBUSY)
  else
    let* heap := nvm_init_heap loaded is_created nr0 in
    match heap with
    | None => ret (true, ENOMEM)
    | Some need_recovery =>
        let* gen := nvm_get_gen_id in
        modify (fun h => h <| __g_gen_id := gen |>) ;;;
        let* r := asks g_lr in
        let '(rc, r') := port_tvlog_region_init mapping TS_TVLOG_SIZE TS_MAX_THREAD_NUM r in
        modify (fun h => h <| g_lr := r' |>) ;;;
        if negb (rc =? 0) then ret (true, rc)
        else
          let* rc := init_qp live zombie thread_rc in
          if negb (rc =? 0) then ret (true, rc)
          else
            let* rc := (if need_recovery : bool then perform_recovery else ret 0) in
            ret (true, rc)
    end.

Definition ts_finish : M shared unit :=
  deinit_qp ;;; modify (fun h => h <| g_lr ::= port_tvlog_region_destroy |>).

End Recovery.

(** * Facts: the replay order *)

(** the order a replay needs: by time stamp, execution before commit *)
Definition replay_key_le (r1 r2 : ts_replay_entry) : Prop :=
  time_stamp r1 < time_stamp r2 \/
  (time_stamp r1 = time_stamp r2 /\ replay_code (re_type r1) <= replay_code (re_type r2)).

(** time stamps close enough for the [int] that [comp_replay_entries] computes *)
Definition in_window (l : list ts_replay_entry) : Prop :=
  forall r1 r2, r1 ∈ l -> r2 ∈ l -> Z.abs (time_stamp r1 - time_stamp r2) < 2 ^ 31.

Lemma s32_u64_small x : - 2 ^ 31 <= x < 2 ^ 31 -> s32 (u64 x) = x.
Proof.
  intros Hx. unfold s32, u64. destruct (Z.lt_ge_cases x 0).
  - replace (x mod 2 ^ 64) with (x + 2 ^ 64).
    2: { symmetry. rewrite <- (Z.mod_add x 1) by lia. rewrite Z.mod_small; lia. }
    replace (x + 2 ^ 64 + 2 ^ 31) with (x + 2 ^ 31 + 2 ^ 32 * 2 ^ 32) by lia.
    rewrite Z.mod_add by lia. rewrite Z.mod_small; lia.
  - rewrite (Z.mod_small x) by lia. rewrite Z.mod_small; lia.
Qed.

Lemma comp_replay_key r1 r2 :
  Z.abs (time_stamp r1 - time_stamp r2) < 2 ^ 31 ->
  (comp_replay_entries r1 r2 <= 0 <-> replay_key_le r1 r2) /\ (0 <= comp_replay_entries r1 r2 <-> replay_key_le r2 r1).
Proof.
  intros Hw. unfold comp_replay_entries, replay_key_le. cbv zeta. rewrite s32_u64_small by lia.
  destruct (Z.eqb_spec (time_stamp r1 - time_stamp r2) 0); lia.
Qed.

(** what the C standard says of [qsort]: the array holds the same elements in
    ascending order, provided that the comparison is consistent on them *)
Definition consistent (cmp : ts_replay_entry -> ts_replay_entry -> Z) (l : list ts_replay_entry) : Prop :=
  forall x y, x ∈ l -> y ∈ l -> (cmp x y <= 0 <-> 0 <= cmp y x) /\
    forall z, z ∈ l -> cmp x y <= 0 -> cmp y z <= 0 -> cmp x z <= 0.
Class QsortSpec `{Qsort} : Prop := {
  qsort_perm cmp l : consistent cmp l -> qsort_array cmp l ≡ₚ l;
  qsort_sorts cmp l : consistent cmp l -> StronglySorted (fun x y => cmp x y <= 0) (qsort_array cmp l) }.

(** insertion sort is such a [qsort] *)
Fixpoint insert_entry (cmp : ts_replay_entry -> ts_replay_entry -> Z) (x : ts_replay_entry) (l : list ts_replay_entry) :
    list ts_replay_entry :=
  match l with
  | [] => [x]
  | y :: l' => if cmp x y <=? 0 then x :: l else y :: insert_entry cmp x l'
  end.
Definition insertion_sort : Qsort := fun cmp l => foldr (insert_entry cmp) [] l.

Lemma insert_entry_perm cmp x l : insert_entry cmp x l ≡ₚ x :: l.
Proof.
  induction l as [| y l IH]; cbn; [done |]. destruct (_ <=? 0); [done |]. by rewrite IH, Permutation_swap.
Qed.

Lemma insert_entry_sorted cmp x l :
  consistent cmp (x :: l) -> StronglySorted (fun x y => cmp x y <= 0) l -> StronglySorted (fun x y => cmp x y <= 0) (insert_entry cmp x l).
Proof.
  intros Hc. induction l as [| y l IH]; cbn; intros Hs; [by repeat constructor |].
  pose proof Hs as [Hs' Hy]%StronglySorted_inv. rewrite Forall_forall in Hy.
  destruct (Z.leb_spec (cmp x y) 0) as [E | E].
  - constructor; [done |]. apply Forall_forall. intros z [-> | Hz]%elem_of_cons; [done |].
    apply (proj2 (Hc x y ltac:(elems) ltac:(elems)) z); [elems | done | auto].
  - constructor; [apply IH; [| done] |].
    + intros a b Ha Hb. destruct (Hc a b) as [H1 H2]; [revert Ha; elems | revert Hb; elems |]. split; [done |].
      intros z Hz. apply H2. revert Hz. elems.
    + rewrite insert_entry_perm. apply Forall_forall. intros z [-> | Hz]%elem_of_cons; [| auto].
      apply (proj1 (Hc y x ltac:(elems) ltac:(elems))). lia.
Qed.

Lemma insertion_sort_spec : @QsortSpec insertion_sort.
Proof.
  assert (Hp : forall cmp l, insertion_sort cmp l ≡ₚ l).
  { intros cmp l. induction l as [| x l IH]; cbn; [done |]. by rewrite insert_entry_perm, IH. }
  split; intros cmp l Hc; [apply Hp |]. unfold qsort_array. induction l as [| x l IH]; cbn; [constructor |].
  fold (insertion_sort cmp l) in *. apply insert_entry_sorted.
  - assert (Hin : forall a, a ∈ x :: insertion_sort cmp l -> a ∈ x :: l) by (intros a; by rewrite Hp).
    intros a b Ha Hb. destruct (Hc a b (Hin a Ha) (Hin b Hb)) as [H1 H2]. split; [done |]. intros z Hz. by apply H2, Hin.
  - apply IH. intros a b Ha Hb. destruct (Hc a b) as [H1 H2]; [by right.. |]. split; [done |]. intros z Hz. apply H2. by right.
Qed.

Section Sort.
Context `{QsortSpec}.

(** C39. [sort_replay_array] orders the replay, whatever algorithm [qsort]
    uses: the result is a permutation of the collected entries, sorted by time
    stamp with executions before commits, provided that the time stamps span
    less than [2 ^ 31] ticks. *)
Theorem sort_replay_array_sorted l :
  in_window l -> sort_replay_array l ≡ₚ l /\ StronglySorted replay_key_le (sort_replay_array l).
Proof.
  intros Hw.
  assert (Hc : consistent comp_replay_entries l).
  { intros x y Hx Hy. destruct (comp_replay_key x y (Hw x y Hx Hy)) as [H1 _], (comp_replay_key y x (Hw y x Hy Hx)) as [_ H2].
    split; [by rewrite H1, H2 |]. intros z Hz. destruct (comp_replay_key y z (Hw y z Hy Hz)) as [H3 _],
      (comp_replay_key x z (Hw x z Hx Hz)) as [H4 _]. rewrite H1, H3, H4. unfold replay_key_le. lia. }
  pose proof (qsort_perm _ l Hc) as Hp. split; [exact Hp |]. pose proof (qsort_sorts _ l Hc) as Hs. fold (sort_replay_array l) in Hp, Hs |- *.
  assert (Hin : forall x, x ∈ sort_replay_array l -> x ∈ l) by (intros x; by rewrite Hp). clear Hp Hc.
  induction Hs as [| x l1 Hs IH Hx]; constructor.
  - apply IH. intros y Hy. apply Hin. by right.
  - rewrite Forall_forall in *. intros y Hy. apply (proj1 (comp_replay_key x y ltac:(apply Hw; apply Hin; [by left | by right]))), Hx, Hy.
Qed.

(** C38. Beyond that span the comparison truncates the difference of the time
    stamps to an [int]: two entries that are more than [2 ^ 31] and less than [2 ^ 32] ticks
    apart are ordered the wrong way round, so the sort puts the later operation
    first. *)
Theorem comp_replay_entries_truncates r1 r2 :
  2 ^ 31 < time_stamp r2 - time_stamp r1 < 2 ^ 32 ->
  0 < comp_replay_entries r1 r2 /\ sort_replay_array [r1; r2] = [r2; r1].
Proof.
  intros Hd.
  assert (H12 : 0 < comp_replay_entries r1 r2).
  { unfold comp_replay_entries. cbv zeta. set (d := time_stamp r1 - time_stamp r2).
    assert (Ed : s32 (u64 d) = d + 2 ^ 32).
    { unfold s32, u64. replace (d mod 2 ^ 64) with (d + 2 ^ 64).
      2: { symmetry. rewrite <- (Z.mod_add d 1) by lia. rewrite Z.mod_small; lia. }
      replace (d + 2 ^ 64 + 2 ^ 31) with (d + 2 ^ 32 + 2 ^ 31 + (2 ^ 32 - 1) * 2 ^ 32) by lia.
      rewrite Z.mod_add by lia. rewrite Z.mod_small; lia. }
    rewrite Ed, (proj2 (Z.eqb_neq _ _)) by lia. lia. }
  assert (H21 : comp_replay_entries r2 r1 < 0).
  { unfold comp_replay_entries. cbv zeta. set (d := time_stamp r2 - time_stamp r1).
    assert (Ed : s32 (u64 d) = d - 2 ^ 32).
    { unfold s32, u64. rewrite (Z.mod_small d) by lia.
      replace (d + 2 ^ 31) with (d - 2 ^ 31 + 1 * 2 ^ 32) by lia. rewrite Z.mod_add by lia. rewrite Z.mod_small; lia. }
    rewrite Ed, (proj2 (Z.eqb_neq _ _)) by lia. lia. }
  assert (Hrefl : forall r, comp_replay_entries r r = 0).
  { intros r. unfold comp_replay_entries. cbv zeta. rewrite !Z.sub_diag. by vm_compute. }
  assert (Hc : consistent comp_replay_entries [r1; r2]).
  { intros x y Hx Hy. apply elem_of_cons in Hx as [-> | ->%list_elem_of_singleton];
      apply elem_of_cons in Hy as [-> | ->%list_elem_of_singleton]; (split; [rewrite ?Hrefl; lia |]);
      intros z [-> | ->%list_elem_of_singleton]%elem_of_cons; rewrite ?Hrefl; lia. }
  split; [done |]. pose proof (qsort_perm _ _ Hc) as Hp. pose proof (qsort_sorts _ _ Hc) as Hs. unfold sort_replay_array.
  symmetry in Hp. apply Permutation_length_2_inv in Hp as [E | E]; [| done]. exfalso. rewrite E in Hs.
  apply StronglySorted_inv in Hs as [_ Hf]. apply Forall_cons in Hf as [? _]. lia.
Qed.
End Sort.

(** * Examples *)

#[local] Existing Instance insertion_sort.
#[local] Existing Instance insertion_sort_spec.

Lemma sort_replay_array_sorted_witness :
  sort_replay_array [mk_replay 20 OPLOG_REPLAY_TYPE_COMMIT 0; mk_replay 10 OPLOG_REPLAY_TYPE_EXEC 0] =
    [mk_replay 10 OPLOG_REPLAY_TYPE_EXEC 0; mk_replay 20 OPLOG_REPLAY_TYPE_COMMIT 0].
Proof.
  destruct (sort_replay_array_sorted [mk_replay 20 OPLOG_REPLAY_TYPE_COMMIT 0; mk_replay 10 OPLOG_REPLAY_TYPE_EXEC 0]) as [Hp Hs].
  - intros r1 r2 [-> | ->%list_elem_of_singleton]%elem_of_cons [-> | ->%list_elem_of_singleton]%elem_of_cons; by vm_compute.
  - symmetry in Hp. apply Permutation_length_2_inv in Hp as [E | E]; [| exact E]. exfalso. rewrite E in Hs.
    apply StronglySorted_inv in Hs as [_ Hf]. apply Forall_cons in Hf as [Hf _]. unfold replay_key_le in Hf. cbn in Hf. lia.
Defined.

Lemma comp_replay_entries_truncates_witness :
  sort_replay_array [mk_replay 0 OPLOG_REPLAY_TYPE_EXEC 0; mk_replay 3000000000 OPLOG_REPLAY_TYPE_EXEC 1]
  = [mk_replay 3000000000 OPLOG_REPLAY_TYPE_EXEC 1; mk_replay 0 OPLOG_REPLAY_TYPE_EXEC 0].
Proof.
  exact (proj2 (comp_replay_entries_truncates (mk_replay 0 OPLOG_REPLAY_TYPE_EXEC 0)
    (mk_replay 3000000000 OPLOG_REPLAY_TYPE_EXEC 1) ltac:(cbn; lia))).
Defined.
