(* ===== verification/RecoveryLogs.v ===== *)
(** How recovery walks the logs: the traversal of the store list
    ([for_each_store]) and the walk of one log from its head
    ([nvlog_peek_head], [nvlog_deq] on a volatile log), which the facts on the
    two recovery passes share. *)
From S2P Require Export Recovery.

(** * Traversing the store list *)

(** the links of the store list do not change *)
Definition same_links (h h' : shared) : Prop :=
  root h' = root h /\ s_next <$> stores h' = s_next <$> stores h.

#[export] Instance same_links_pre : PreOrder same_links.
Proof. split; [done |]. intros a b c [E1 E2] [E3 E4]. split; congruence. Qed.

Lemma chain_links m m' p l : s_next <$> m' = s_next <$> m -> chain m p l -> chain m' p l.
Proof.
  intros E. revert p. induction l as [| a l IH]; intros p; cbn; [done |].
  intros (-> & Ha & t & Ht & Hc). split; [done |]. split; [done |].
  assert (Hn : s_next <$> (m' !! a) = Some (s_next t)).
  { change (s_next <$> (m' !! a)) with (fmap s_next (m' !! a)). by rewrite <- lookup_fmap, E, lookup_fmap, Ht. }
  destruct (m' !! a) as [t' |]; [| done]. injection Hn as Hn. exists t'. rewrite Hn. auto.
Qed.

Lemma stores_ok_links h h' l : same_links h h' -> stores_ok h l -> stores_ok h' l.
Proof. intros [Er Es] [Hn Hc]. split; [done |]. rewrite Er. by eapply chain_links. Qed.

(** writing a store but for its link *)
Lemma same_links_put h h' a t t' :
  root h' = root h -> stores h' = <[a := t']> (stores h) -> stores h !! a = Some t -> s_next t' = s_next t ->
  same_links h h'.
Proof.
  intros Er Es Ht Hn. split; [done |]. rewrite Es, fmap_insert, Hn. apply insert_id. by rewrite lookup_fmap, Ht.
Qed.

(** the traversal: [I l a h] holds with [l] the stores to come *)
Section Traversal.
Context `{Env} {A : Type} (body : Z -> ts_nvlog_store -> A -> M shared (Z * A)).
Context (I : list Z -> A -> shared -> Prop).
Hypothesis body_ok : forall x l a h t, I (x :: l) a h -> stores h !! x = Some t ->
  exists a' h', body x t a h = Ok ((0, a'), h') /\ I l a' h' /\ same_links h h'.

Lemma for_each_store_loop n l a h p :
  (length l < n)%nat -> chain (stores h) p l -> I l a h ->
  exists a' h', loop n (fun '(current, a) =>
    if current =? NULL then ret (inr (0, a))
    else
      let* t := get_store current in
      let* ' (rc, a') := body current t a in
      if negb (rc =? 0) then ret (inr (rc, a'))
      else let* t := get_store current in ret (inl (s_next t, a'))) (p, a) h = Ok ((0, a'), h') /\
    I [] a' h' /\ same_links h h'.
Proof.
  revert l a h p. induction n as [| n IH]; intros l a h p Hn Hc HI; [lia |]. cbn [loop].
  destruct l as [| x l]; cbn in Hc.
  - rewrite Hc. exists a, h. by split_and!.
  - destruct Hc as (-> & Hx & t & Ht & Hc). rewrite (proj2 (Z.eqb_neq x NULL)) by done.
    msteps. erewrite bind_run by (unfold get_store; by rewrite Ht). msteps.
    destruct (body_ok x l a h t HI Ht) as (a1 & h1 & E & HI1 & Hl). mrun E. cbn [negb Z.eqb].
    assert (Hc1 : chain (stores h1) x (x :: l)).
    { destruct Hl as [_ El]. eapply chain_links; [exact El |]. cbn. eauto. }
    cbn in Hc1. destruct Hc1 as (_ & _ & t1 & Ht1 & Hc1). msteps.
    erewrite bind_run by (unfold get_store; by rewrite Ht1). msteps.
    destruct (IH l a1 h1 (s_next t1)) as (a' & h' & E' & HI' & Hl'); [cbn in Hn; lia | done | done |].
    exists a', h'. split; [exact E' |]. split; [done |]. by transitivity h1.
Qed.

Lemma for_each_store_run l a h :
  stores_ok h l -> I l a h ->
  exists a' h', for_each_store body a h = Ok ((0, a'), h') /\ I [] a' h' /\ same_links h h'.
Proof.
  intros [Hn Hc] HI. unfold for_each_store. msteps.
  apply for_each_store_loop with (l := l); [| done | done].
  pose proof (chain_length _ _ _ Hn Hc). lia.
Qed.
End Traversal.

(** * Walking one log *)

(** the volatile log [n] holds the queue [q] *)
Definition vlog_holds (h : shared) (n : ts_nvlog) (q : entries) : Prop :=
  exists t k, stores h !! n_store n = Some t /\ log_holds (mk_nvst n t (sh_pm h)) k q.

Abbreviation move_head n c := (n <| n_head_cnt := c |>).

(** an operation that moves only the head of the volatile log *)
Lemma on_nvlog_head {A} (m : M nvst A) h n t a c :
  stores h !! n_store n = Some t -> m (mk_nvst n t (sh_pm h)) = Ok (a, set_head c (mk_nvst n t (sh_pm h))) ->
  on_nvlog n m h = Ok ((a, move_head n c), h).
Proof.
  intros Ht E. unfold on_nvlog. rewrite Ht, E. cbn. rewrite insert_id by done. by destruct h, n.
Qed.

Lemma nvlog_at_head n c d : nvlog_at (move_head n c) d = nvlog_at n d.
Proof. done. Qed.

Lemma vlog_empty h n : vlog_holds h n [] -> n_head_cnt n = n_tail_cnt n.
Proof.
  intros (t & k & _ & l & Hi & Hc). pose proof (inv_bogus _ _ _ Hi) as Hb.
  rewrite (bogus_ok_contents l Hb Hc) in Hi. by apply inv_empty in Hi.
Qed.

(** a peek answers the oldest entry and moves the head to it at most *)
Lemma vlog_peek h n c e q :
  vlog_holds h n ((c, e) :: q) ->
  n_head_cnt n <> n_tail_cnt n /\ cells (sh_pm h) !! nvlog_at n c = Some e /\
  on_nvlog n nvlog_peek_head h = Ok ((nvlog_at n c, move_head n c), h) /\
  vlog_holds h (move_head n c) ((c, e) :: q).
Proof.
  intros (t & k & Ht & l & Hi & Hc).
  destruct (nvlog_peek_head_spec _ _ _ Hi) as (a & s1 & l1 & E1 & Hs1 & Hi1 & Hc1 & Hr1).
  rewrite Hc in Hr1, Hc1. destruct Hr1 as (-> & Hcell & Hh1). rewrite Hh1 in Hs1. rewrite Hs1 in E1, Hi1.
  assert (Hne : n_head_cnt n <> n_tail_cnt n).
  { intros E. destruct l as [| [h0 e0] l]; [done |]. by destruct (inv_pop _ _ _ _ _ Hi) as (_ & Hne & _). }
  split; [done |]. split; [done |]. split; [by eapply on_nvlog_head |].
  exists t, k. split; [done |]. by exists l1.
Qed.

(** a dequeue answers it and moves the head behind it *)
Lemma vlog_deq h n c e q :
  vlog_holds h n ((c, e) :: q) ->
  on_nvlog n nvlog_deq h = Ok ((nvlog_at n c, move_head n (c + e_size e)), h) /\
  vlog_holds h (move_head n (c + e_size e)) q.
Proof.
  intros (t & k & Ht & l & Hi & Hc).
  destruct (nvlog_deq_spec _ _ _ Hi) as (a & s1 & l1 & E1 & Hs1 & Hi1 & Hr1).
  rewrite Hc in Hr1. destruct Hr1 as (-> & _ & Hh1 & Hc1). rewrite Hh1 in Hs1. rewrite Hs1 in E1, Hi1.
  split; [by eapply on_nvlog_head |]. exists t, k. split; [done |]. by exists l1.
Qed.

(** the fuel of a walk is enough for the queue *)
Lemma vlog_fuel h n q : vlog_holds h n q -> (length q < nvlog_fuel n)%nat.
Proof.
  intros (t & k & _ & Hl). pose proof (log_holds_length _ _ _ Hl) as Hle. cbn in Hle.
  unfold nvlog_fuel. lia.
Qed.

(** * What a log holds *)

(** [body] wraps the contents of an entry of one type of log *)
Section Items.
Context {B : Type} (body : B -> entry_body) (type : nvlog_type).

(** an entry as recovery reads it: its address, its header and its contents *)
Definition item : Type := Z * ts_nvlog_entry * B.

(** [y] is the entry [x] of the log [n] *)
Definition item_of (n : ts_nvlog) (x : Z * ts_nvlog_entry) (y : item) : Prop :=
  y.1 = (nvlog_at n x.1, x.2) /\ e_body x.2 = body y.2.

(** the log [n] holds [ys], oldest first *)
Definition vlog_items (h : shared) (n : ts_nvlog) (ys : list item) : Prop :=
  exists q, vlog_holds h n q /\ Forall2 (item_of n) q ys.

(** the store at [a] holds [ys]; a store of another type or status holds none *)
Definition log_at (h : shared) (a : Z) (ys : list item) : Prop :=
  exists t, stores h !! a = Some t /\
    if is_log type t then vlog_items h (nvlog_load a t) ys else ys = [].

Lemma log_at_items h x t ys : stores h !! x = Some t -> log_at h x ys ->
  if is_log type t then vlog_items h (nvlog_load x t) ys else ys = [].
Proof. intros Ht (t' & Ht' & Hys). by simplify_eq. Qed.

Lemma items_empty h n : vlog_items h n [] -> n_head_cnt n = n_tail_cnt n.
Proof. intros (q & Hq & Hf). apply Forall2_nil_inv_r in Hf. subst q. by eapply vlog_empty. Qed.

Lemma items_head n y q ys : Forall2 (item_of n) q (y :: ys) ->
  exists c q', q = (c, y.1.2) :: q' /\ y.1.1 = nvlog_at n c /\ e_body y.1.2 = body y.2 /\ Forall2 (item_of n) q' ys.
Proof.
  intros Hf. inversion Hf as [| [c e] ? q' ? [Hy Hb] Hf']; subst.
  destruct y as [[a e'] o]. cbn in *. injection Hy as -> ->. by exists c, q'.
Qed.

Lemma items_peek h n y ys :
  vlog_items h n (y :: ys) ->
  n_head_cnt n <> n_tail_cnt n /\ cells (sh_pm h) !! y.1.1 = Some y.1.2 /\ e_body y.1.2 = body y.2 /\
  exists c, on_nvlog n nvlog_peek_head h = Ok ((y.1.1, move_head n c), h) /\ vlog_items h (move_head n c) (y :: ys).
Proof.
  intros (q & Hq & Hf). destruct (items_head _ _ _ _ Hf) as (c & q' & -> & -> & Hb & _).
  destruct (vlog_peek _ _ _ _ _ Hq) as (Hne & Hc & Ep & Hq1).
  do 3 (split; [done |]). exists c. split; [done |]. by exists ((c, y.1.2) :: q').
Qed.

Lemma items_deq h n y ys :
  vlog_items h n (y :: ys) ->
  exists c, on_nvlog n nvlog_deq h = Ok ((y.1.1, move_head n c), h) /\ vlog_items h (move_head n c) ys.
Proof.
  intros (q & Hq & Hf). destruct (items_head _ _ _ _ Hf) as (c & q' & -> & -> & Hb & Hf').
  destruct (vlog_deq _ _ _ _ _ Hq) as (Ed & Hq2).
  exists (c + e_size y.1.2). split; [done |]. by exists q'.
Qed.

Lemma items_fuel h n ys : vlog_items h n ys -> (length ys < nvlog_fuel n)%nat.
Proof. intros (q & Hq & Hf). rewrite <- (Forall2_length _ _ _ Hf). by eapply vlog_fuel. Qed.

(** the items depend on the buffer, the counts and the cells *)
Lemma vlog_items_ext h h' n n' ys t' :
  vlog_items h n ys -> stores h' !! n_store n' = Some t' -> cells (sh_pm h') = cells (sh_pm h) ->
  n_buffer n' = n_buffer n -> n_log_size n' = n_log_size n -> n_mask n' = n_mask n ->
  n_head_cnt n' = n_head_cnt n -> n_tail_cnt n' = n_tail_cnt n -> vlog_items h' n' ys.
Proof.
  intros (q & (t & k & Ht & l & Hi & Hc) & Hf) Ht' Ec Eb El Em Eh Et. exists q. split.
  - exists t', k. split; [done |]. exists l. split; [| done]. by eapply nvlog_inv_ext; [exact Hi | ..].
  - eapply Forall2_impl; [exact Hf |]. intros x y [Hy Hb]. split; [| done]. rewrite Hy.
    unfold nvlog_at, nvlog_index. by rewrite Eb, Em.
Qed.
End Items.

(** [h'] is [h] but for the counters in the store at [x] *)
Definition store_step (x : Z) (h h' : shared) : Prop :=
  exists t t', stores h !! x = Some t /\ stores h' = <[x := t']> (stores h) /\ s_next t' = s_next t /\
    (forall ty, is_log ty t' = is_log ty t) /\
    cells (sh_pm h') = cells (sh_pm h) /\ root h' = root h /\ (allocs h <= allocs h')%nat.

Lemma store_step_links x h h' : store_step x h h' -> same_links h h'.
Proof. intros (t & t' & Ht & Es & En & _ & _ & Er & _). by eapply same_links_put. Qed.

Lemma store_step_same x h h' t :
  stores h !! x = Some t -> stores h' = stores h -> cells (sh_pm h') = cells (sh_pm h) ->
  root h' = root h -> (allocs h <= allocs h')%nat -> store_step x h h'.
Proof.
  intros Ht Es Ec Er Ea. exists t, t. split_and!; try done.
  rewrite Es. symmetry. by apply insert_id.
Qed.

(** the other stores hold what they held *)
Lemma log_at_step {B} (body : B -> entry_body) type x h h' a ys :
  store_step x h h' -> a <> x -> log_at body type h a ys -> log_at body type h' a ys.
Proof.
  intros (t & t' & Ht & Es & _ & _ & Ec & _) Ha (ta & Hta & Hys).
  assert (Hta' : stores h' !! a = Some ta) by (by rewrite Es, lookup_insert_ne).
  exists ta. split; [done |]. destruct (is_log _ _); [| done]. by eapply vlog_items_ext.
Qed.

(** a store with a log of another type holds nothing, before and after *)
Lemma log_at_other {B} (body : B -> entry_body) type type' x h h' t a ys :
  store_step x h h' -> stores h !! x = Some t -> is_log type' t = true -> type' <> type ->
  log_at body type h a ys -> log_at body type h' a ys.
Proof.
  intros Hst Ht Hl Hne Ha. destruct (decide (a = x)) as [-> | Hax]; [| by eapply log_at_step].
  pose proof (log_at_items _ _ _ _ _ _ Ht Ha) as Hys. destruct Hst as (t0 & t' & Ht0 & Es & _ & Hk & _).
  assert (t0 = t) as -> by congruence.
  assert (Hf : is_log type t = false).
  { unfold is_log in *. apply andb_true_iff in Hl as [Hl _]. apply bool_decide_eq_true in Hl.
    by rewrite bool_decide_eq_false_2 by congruence. }
  rewrite Hf in Hys. exists t'. rewrite Es, lookup_insert_eq, Hk, Hf. by split.
Qed.

Lemma logs_at_step {B} (body : B -> entry_body) type x h h' l qs :
  store_step x h h' -> x ∉ l -> Forall2 (log_at body type h) l qs -> Forall2 (log_at body type h') l qs.
Proof.
  intros Hst Hx Hf. induction Hf as [| a q l qs Ha _ IH]; [constructor |].
  apply not_elem_of_cons in Hx as [? ?]. constructor; [by eapply log_at_step | auto].
Qed.

(** * The ends of a walk *)

Lemma on_truncate_head h n t c :
  stores h !! n_store n = Some t -> exists h', on_nvlog n (nvlog_truncate_head c) h = Ok ((tt, move_head n c), h') /\
    stores h' = <[n_store n := t <| s_head_cnt := c |>]> (stores h) /\
    cells (sh_pm h') = cells (sh_pm h) /\ root h' = root h /\ allocs h' = allocs h.
Proof.
  intros Ht. unfold on_nvlog. rewrite Ht. unfold nvlog_truncate_head. msteps. cbn [sto upd].
  destruct (Z.eqb_spec (s_head_cnt t) c) as [E | E]; cbn [negb].
  - eexists. split; [reflexivity |]. split_and!; try done. cbn. subst c. by destruct t.
  - eexists. split; [reflexivity |]. split_and!; try done. unfold store_head_addr.
    cbn. by rewrite cells_clwb.
Qed.

Lemma on_truncate_tail h n t c :
  stores h !! n_store n = Some t ->
  exists h', on_nvlog n (nvlog_truncate_tail c) h = Ok ((tt, n <| n_tail_cnt := c |>), h') /\
    stores h' = <[n_store n := t <| s_tail_cnt := c |>]> (stores h) /\
    cells (sh_pm h') = cells (sh_pm h) /\ root h' = root h /\ allocs h' = allocs h /\
    heap h' = heap h /\ vhdrs h' = vhdrs h.
Proof.
  intros Ht. unfold on_nvlog. rewrite Ht. unfold nvlog_truncate_tail. msteps. cbn [sto upd].
  destruct (Z.eqb_spec (s_tail_cnt t) c) as [E | E]; cbn [negb].
  - eexists. split; [reflexivity |]. split_and!; try done. cbn. subst c. by destruct t.
  - eexists. split; [reflexivity |]. split_and!; try done. cbn. by rewrite cells_clwb.
Qed.

Section Memory.
Context `{Env}.

(** the allocator does not fail from now on *)
Definition memory_left (h : shared) : Prop :=
  forall n, (allocs h <= n)%nat -> exists p, alloc_result n = Some p /\ p <> NULL.

Lemma memory_left_le h h' : (allocs h <= allocs h')%nat -> memory_left h -> memory_left h'.
Proof. intros Hle Hm n Hn. apply Hm. lia. Qed.

Lemma sh_alloc_run h : memory_left h ->
  exists p, p <> NULL /\ alloc_result (allocs h) = Some p /\ sh_alloc h = Ok (p, h <| allocs := S (allocs h) |>).
Proof.
  intros Hm. destruct (Hm (allocs h) ltac:(lia)) as (p & E & Hp). exists p. split; [done |]. split; [done |].
  unfold sh_alloc. msteps. by rewrite E.
Qed.

Lemma reconstruct_run h x t : stores h !! x = Some t -> memory_left h ->
  reconstruct_volatile_nvlog x h = Ok (Some (nvlog_load x t), h <| allocs := S (allocs h) |>).
Proof.
  intros Ht Hm. unfold reconstruct_volatile_nvlog. destruct (sh_alloc_run h Hm) as (p & Hp & _ & E). mrun E.
  rewrite (proj2 (Z.eqb_neq p NULL)) by done. unfold get_store, bind. cbn [stores upd]. by rewrite Ht.
Qed.
End Memory.
