(* ===== verification/OplogRecovery.v ===== *)
(** What operation-log recovery reads ([alloc_replay_array],
    [collect_replay_entries] and [oplog_recovery] of [lib/recovery.c]): the
    first pass counts the operations that the second one collects, and the
    truncation in between loses none of them. *)
From S2P Require Export RecoveryLogs.

(** an operation: its address, entry and operation header *)
Abbreviation op_item := (item (B := ts_op_entry_hdr)).
Abbreviation vlog_ops := (vlog_items EB_op).
Abbreviation oplog_at := (log_at EB_op TYPE_OPLOG).

(** the operations after the checkpoint [last], which recovery collects to replay *)
Definition replayed (last : Z) (ops : list op_item) : list op_item :=
  List.filter (fun y => is_op_entry_valid y.2 last) ops.

(** the arrays of the second pass: contexts from index [k] on *)
Fixpoint replay_of (k : Z) (ops : list op_item) : list ts_replay_entry :=
  match ops with
  | [] => []
  | y :: ops => add_op_replay y.1.2 y.2 k ++ replay_of (k + 1) ops
  end.
Definition contexts_of (ops : list op_item) : list ts_op_context := (fun y => mk_context NULL y.1.1) <$> ops.

Lemma replayed_app last l1 l2 : replayed last (l1 ++ l2) = replayed last l1 ++ replayed last l2.
Proof. apply List.filter_app. Qed.

Lemma replayed_cons last y l :
  replayed last (y :: l) = (if is_op_entry_valid y.2 last then [y] else []) ++ replayed last l.
Proof. unfold replayed. cbn. by destruct (is_op_entry_valid _ _). Qed.

Lemma replay_of_app k l1 l2 : replay_of k (l1 ++ l2) = replay_of k l1 ++ replay_of (k + Z.of_nat (length l1)) l2.
Proof.
  revert k. induction l1 as [| y l1 IH]; intros k; cbn.
  - by rewrite Z.add_0_r.
  - rewrite IH. do 4 f_equal. lia.
Qed.

(** * The walk of one operation log *)

Lemma get_op_entry_run h (y : op_item) :
  cells (sh_pm h) !! y.1.1 = Some y.1.2 -> e_body y.1.2 = EB_op y.2 -> get_op_entry y.1.1 h = Ok ((y.1.2, y.2), h).
Proof. intros Hc Hb. unfold get_op_entry, op_entry_of. by rewrite Hc, Hb. Qed.

(** the head that the first pass keeps: while no operation counts, the log
    from the head [hd] has the operations [ops]; afterwards it has at least
    those that count *)
Lemma count_loop h last n0 : forall fuel n ops cnt hd,
  (length ops < fuel)%nat -> 0 <= cnt -> cnt + Z.of_nat (length (replayed last ops)) < 2 ^ 31 -> vlog_ops h n ops -> (exists c, n = move_head n0 c) ->
  exists n' hd', loop fuel (fun '(n, (ops_cnt, head_cnt)) =>
      if n_head_cnt n =? n_tail_cnt n then ret (inr (n, (ops_cnt, head_cnt)))
      else
        let* ' (ent, n) := on_nvlog n nvlog_peek_head in
        let* ' (_, o) := get_op_entry ent in
        let* acc := (if is_op_entry_valid o last then
                       let head_cnt := if ops_cnt =? 0 then n_head_cnt n else head_cnt in
                       let* ops_cnt := int_inc ops_cnt in ret (ops_cnt, head_cnt)
                     else ret (ops_cnt, head_cnt)) in
        let* ' (_, n) := on_nvlog n nvlog_deq in
        ret (inl (n, acc))) (n, (cnt, hd)) h
    = Ok ((n', (cnt + Z.of_nat (length (replayed last ops)), hd')), h) /\
    (exists c, n' = move_head n0 c) /\
    (hd' = hd \/ cnt = 0 /\ exists ops', vlog_ops h (move_head n0 hd') ops' /\ replayed last ops' = replayed last ops).
Proof.
  induction fuel as [| fuel IH]; intros n ops cnt hd Hlen Hcnt Hmax Hops Hn; [lia |]. cbn [loop].
  destruct ops as [| y ops].
  - rewrite (items_empty _ _ _ Hops), Z.eqb_refl. exists n, hd. cbn. rewrite Z.add_0_r. by split_and!; auto.
  - destruct (items_peek _ _ _ _ _ Hops) as (Hne & Hc & Hb & c & Ep & Hops1).
    destruct (items_deq _ _ _ _ _ Hops1) as (c' & Ed & Hops2).
    pose proof (get_op_entry_run h y Hc Hb) as Eg.
    rewrite (proj2 (Z.eqb_neq _ _)) by done. msteps. mrun Ep. msteps. mrun Eg. msteps.
    destruct Hn as [c0 ->]. cbn [length] in Hlen. rewrite replayed_cons, length_app in *.
    set (cnt1 := if is_op_entry_valid y.2 last then cnt + 1 else cnt).
    set (hd1 := if is_op_entry_valid y.2 last then if cnt =? 0 then c else hd else hd).
    rewrite (bind_run _ _ h (cnt1, hd1) h).
    2: { subst cnt1 hd1. destruct (is_op_entry_valid _ _); [| done]. cbn [length] in Hmax. unfold int_inc.
         rewrite (proj2 (Z.eqb_neq cnt (2 ^ 31 - 1))) by lia. done. }
    cbv beta. msteps. mrun Ed. msteps.
    destruct (IH _ ops cnt1 hd1 ltac:(lia) ltac:(subst cnt1; destruct (is_op_entry_valid _ _); lia)
      ltac:(subst cnt1; destruct (is_op_entry_valid _ _); cbn [length] in Hmax; lia) Hops2)
      as (n' & hd' & E & Hn' & Hhd); [by eexists |].
    exists n', hd'. split; [| split; [done |]].
    + assert (Ec : cnt + Z.of_nat (length (if is_op_entry_valid y.2 last then [y] else []) + length (replayed last ops))
                = cnt1 + Z.of_nat (length (replayed last ops)))
        by (subst cnt1; destruct (is_op_entry_valid _ _); cbn [length]; lia).
      rewrite Ec, <- E. subst cnt1 hd1. cbn [n_head_cnt upd]. by destruct (is_op_entry_valid _ _).
    + subst cnt1 hd1. destruct (is_op_entry_valid y.2 last) eqn:Ev.
      * destruct Hhd as [-> | [? _]]; [| lia]. destruct (Z.eqb_spec cnt 0); [| by left].
        right. split; [done |]. exists (y :: ops). split; [done |]. by rewrite replayed_cons, Ev.
      * cbn. done.
Qed.

(** arrays of these sizes hold [k] operations *)
Definition has_space (sizes : Z * Z) (k : Z) : Prop := sizeof_replay_entry * 2 * k <= sizes.1 /\ sizeof_op_context * k <= sizes.2.

Lemma arrays_room_below sizes j k : has_space sizes k -> 0 <= j < k -> arrays_have_room sizes j = true.
Proof. unfold has_space, arrays_have_room, sizeof_replay_entry, sizeof_op_context. intros [? ?] ?. apply andb_true_intro. lia. Qed.

Lemma array_sizes_space n : 0 <= n -> sizeof_replay_entry * 2 * n < 2 ^ 31 -> has_space (array_sizes n) n /\ 0 <= (array_sizes n).1 /\ 0 <= (array_sizes n).2.
Proof.
  unfold has_space, array_sizes, sizeof_replay_entry, sizeof_op_context. intros Hn Hlt. cbn [fst snd]. rewrite !s32_u64_small by lia. lia.
Qed.

(** the second pass appends the operations that count, while there is room *)
Lemma collect_loop h last (sizes : Z * Z) n0 : forall fuel n ops (ra : arrays),
  (length ops < fuel)%nat -> vlog_ops h n ops -> (exists c, n = move_head n0 c) ->
  has_space sizes (Z.of_nat (length ra.2 + length (replayed last ops))) ->
  exists n', loop fuel (fun '(n, ra) =>
      if n_head_cnt n =? n_tail_cnt n then ret (inr (n, ra))
      else
        let* ' (ent, n) := on_nvlog n nvlog_peek_head in
        let* ' (e, o) := get_op_entry ent in
        let* ra := (if is_op_entry_valid o last then
                      let k := Z.of_nat (length ra.2) in
                      if arrays_have_room sizes k then
                        ret (ra.1 ++ add_op_replay e o k, ra.2 ++ [mk_context NULL ent])
                      else raise UB
                    else ret ra) in
        let* ' (_, n) := on_nvlog n nvlog_deq in
        ret (inl (n, ra))) (n, ra) h
    = Ok ((n', (ra.1 ++ replay_of (Z.of_nat (length ra.2)) (replayed last ops),
                ra.2 ++ contexts_of (replayed last ops))), h) /\ (exists c, n' = move_head n0 c).
Proof.
  induction fuel as [| fuel IH]; intros n ops ra Hlen Hops Hn Hcap; [lia |]. cbn [loop].
  destruct ops as [| y ops].
  - rewrite (items_empty _ _ _ Hops), Z.eqb_refl. exists n. cbn. rewrite !app_nil_r. by destruct ra.
  - destruct (items_peek _ _ _ _ _ Hops) as (Hne & Hc & Hb & c & Ep & Hops1).
    destruct (items_deq _ _ _ _ _ Hops1) as (c' & Ed & Hops2).
    pose proof (get_op_entry_run h y Hc Hb) as Eg.
    rewrite (proj2 (Z.eqb_neq _ _)) by done. msteps. mrun Ep. msteps. mrun Eg. msteps.
    destruct Hn as [c0 ->]. cbn [length] in Hlen. rewrite replayed_cons, length_app in *.
    destruct (is_op_entry_valid y.2 last) eqn:Ev; cbn [length app] in *.
    + rewrite (arrays_room_below _ _ _ Hcap) by lia. msteps. mrun Ed. msteps.
      destruct (IH (move_head n0 c') ops
        (ra.1 ++ add_op_replay y.1.2 y.2 (Z.of_nat (length ra.2)), ra.2 ++ [mk_context NULL y.1.1]))
        as (n' & E & Hn'); [lia | done | by eexists | cbn; rewrite length_app; cbn; by rewrite <- Nat.add_assoc |].
      exists n'. split; [| done]. cbn [fst snd] in E. rewrite length_app in E. cbn [length] in E.
      rewrite Nat2Z.inj_add, <- !app_assoc in E. exact E.
    + msteps. mrun Ed. msteps. apply IH; [lia | done | by eexists | done].
Qed.

(** * A pass over the stores *)

Section Pass.
Context `{Env}.

(** a pass that reads the operations of each store: its state after the
    operations [R] is [f R] *)
Context {A : Type} (body : Z -> ts_nvlog_store -> A -> M shared (Z * A)).
Context (f : list op_item -> A) (last : Z) (V : list op_item) (r0 : ts_nvm_root_obj).
Hypothesis body_reads : forall x t R ops h,
  root h = r0 -> memory_left h -> stores h !! x = Some t -> oplog_at h x ops ->
  (length (R ++ replayed last ops) <= length V)%nat ->
  exists h' ops', body x t (f R) h = Ok ((0, f (R ++ replayed last ops)), h') /\ store_step x h h' /\
    oplog_at h' x ops' /\ replayed last ops' = replayed last ops.

(** the operations that a store still holds are those that counted *)
Definition same_replayed (ops ops' : list op_item) : Prop := replayed last ops' = replayed last ops.

Lemma same_replayed_concat qs qs' :
  Forall2 same_replayed qs qs' -> replayed last (concat qs') = replayed last (concat qs).
Proof. induction 1 as [| ? ? ? ? E _ IH]; cbn [concat]; [done |]. unfold same_replayed in E. by rewrite !replayed_app, E, IH. Qed.

(** before the stores [l], of which [qs] holds: [done] have been read *)
Record pass_inv (l0 : list Z) (qs0 : list (list op_item)) (h0 : shared) (l : list Z) (a : A) (h : shared) : Prop := {
  pass_split : exists lr qr qd qs, l0 = lr ++ l /\ qs0 = qr ++ qs /\ Forall2 (oplog_at h) lr qd /\
    Forall2 same_replayed qr qd /\ Forall2 (oplog_at h) l qs /\ a = f (replayed last (concat qr));
  pass_root : root h = r0;
  pass_cells : cells (sh_pm h) = cells (sh_pm h0);
  pass_memory : memory_left h }.

Lemma pass_step l0 qs0 h0 x l a h t :
  NoDup l0 -> V = replayed last (concat qs0) -> pass_inv l0 qs0 h0 (x :: l) a h -> stores h !! x = Some t ->
  exists a' h', body x t a h = Ok ((0, a'), h') /\ pass_inv l0 qs0 h0 l a' h' /\ same_links h h'.
Proof.
  intros Hnd HV [(lr & qr & qd & qs & -> & -> & Hr & Hs & Hl & ->) Hroot Hc Hm] Ht.
  inversion Hl as [| ? ops ? qs' Hx Hl']; subst.
  destruct (body_reads x t (replayed last (concat qr)) ops h) as (h' & ops' & E & Hst & Hx' & Heq); try done.
  { rewrite concat_app, replayed_app, !length_app. cbn [concat]. rewrite replayed_app, length_app. lia. }
  exists (f (replayed last (concat (qr ++ [ops])))), h'.
  rewrite concat_app, replayed_app. cbn [concat]. rewrite app_nil_r. split; [done |].
  split; [| by eapply store_step_links]. apply NoDup_app in Hnd as (_ & Hdisj & Hnd).
  apply NoDup_cons in Hnd as [Hxl _].
  pose proof Hst as (? & ? & _ & _ & _ & _ & Ec & Er & Ha). split; [| congruence | congruence | by eapply memory_left_le].
  exists (lr ++ [x]), (qr ++ [ops]), (qd ++ [ops']), qs'. rewrite <- !app_assoc. split_and!; try done.
  - apply Forall2_app; [eapply logs_at_step; [done | | done] | by constructor]. intros Hin. apply (Hdisj x Hin). by left.
  - apply Forall2_app; [done | by constructor].
  - by eapply logs_at_step.
  - rewrite concat_app, replayed_app. cbn [concat]. by rewrite app_nil_r.
Qed.

Lemma pass_run l qs h :
  stores_ok h l -> Forall2 (oplog_at h) l qs -> root h = r0 -> V = replayed last (concat qs) -> memory_left h ->
  exists h' qs', for_each_store body (f []) h = Ok ((0, f V), h') /\ stores_ok h' l /\
    Forall2 (oplog_at h') l qs' /\ replayed last (concat qs') = V /\ root h' = r0 /\
    cells (sh_pm h') = cells (sh_pm h) /\ memory_left h'.
Proof.
  intros Hok Hqs Hr HV Hm.
  destruct (for_each_store_run body (pass_inv l qs h)) with (l := l) (a := f []) (h := h)
    as (a & h' & E & [(lr & qr & qd & qs' & El & Eq & Hl & Hs & Hn & ->) Hr' Hc' Hm'] & Hln).
  - intros x l1 a1 h1 t1. apply pass_step; [by destruct Hok | done].
  - done.
  - split; try done. by exists [], [], [], qs.
  - inversion Hn; subst. rewrite !app_nil_r in *. exists h', qd.
    split; [done |]. split; [by eapply stores_ok_links |]. split; [done |]. split; [| done].
    by apply same_replayed_concat.
Qed.
End Pass.

(** * The two passes *)

Section Passes.
Context `{Env}.

(** a store that is no log in use keeps everything *)
Lemma skip_store {A} (a : A) h x t : stores h !! x = Some t -> oplog_at h x [] ->
  exists h' ops', ret (0, a) h = Ok ((0, a), h') /\ store_step x h h' /\ oplog_at h' x ops' /\ ops' = [].
Proof. intros Ht Hx. exists h, []. split_and!; try done. by eapply store_step_same. Qed.

(** the walk ends with the truncation at [c], from where the log has [ops'] *)
Lemma truncate_run h h1 x t n c ops' :
  stores h !! x = Some t -> is_log TYPE_OPLOG t = true -> h1 = h <| allocs := S (allocs h) |> ->
  (exists c, n = move_head (nvlog_load x t) c) -> vlog_ops h1 (move_head (nvlog_load x t) c) ops' ->
  exists h', on_nvlog n (nvlog_truncate_head c) h1 = Ok ((tt, move_head n c), h') /\
    store_step x h h' /\ oplog_at h' x ops'.
Proof.
  intros Ht Hl -> [c0 ->] Hops. set (h1 := h <| allocs := _ |>) in *.
  destruct (on_truncate_head h1 (move_head (nvlog_load x t) c0) t c) as (h' & E & Es & Ec & Er & Ea); [done |].
  exists h'. split; [exact E |]. split.
  - eexists t, _. split_and!; try done. rewrite Ea. cbn. lia.
  - exists (t <| s_head_cnt := c |>). rewrite Es, lookup_insert_eq. split; [done |].
    change (is_log TYPE_OPLOG (t <| s_head_cnt := c |>)) with (is_log TYPE_OPLOG t). rewrite Hl.
    eapply vlog_items_ext; [exact Hops | by rewrite Es, lookup_insert_eq | done ..].
Qed.

Lemma alloc_replay_store_reads last x t (R : list op_item) ops h :
  memory_left h -> stores h !! x = Some t -> oplog_at h x ops -> Z.of_nat (length (R ++ replayed last ops)) < 2 ^ 31 ->
  exists h' ops', alloc_replay_store last x t (Z.of_nat (length R)) h
      = Ok ((0, Z.of_nat (length (R ++ replayed last ops))), h') /\ store_step x h h' /\
    oplog_at h' x ops' /\ replayed last ops' = replayed last ops.
Proof.
  intros Hm Ht Hx Hmax. pose proof (log_at_items _ _ _ _ _ _ Ht Hx) as Hops. unfold alloc_replay_store.
  destruct (is_log TYPE_OPLOG t) eqn:El; cbn [negb].
  - rewrite length_app, Nat2Z.inj_add in *. mrun (reconstruct_run _ _ _ Ht Hm). set (h1 := h <| allocs := _ |>).
    assert (Hops1 : vlog_ops h1 (nvlog_load x t) ops) by (by eapply vlog_items_ext).
    destruct (count_loop h1 last (nvlog_load x t) _ _ ops (Z.of_nat (length R)) (n_head_cnt (nvlog_load x t))
      (items_fuel _ _ _ _ Hops1) (Nat2Z.is_nonneg _) Hmax Hops1) as (n & hd & E & Hn & Hhd); [by eexists |].
    unfold count_op_entries. mrun E.
    assert (Hkeep : exists ops', vlog_ops h1 (move_head (nvlog_load x t) hd) ops' /\ replayed last ops' = replayed last ops).
    { destruct Hhd as [-> | [_ Hk]]; [by exists ops | done]. }
    destruct Hkeep as (ops' & Ho & Hr).
    destruct (truncate_run h h1 x t n hd ops' Ht El eq_refl Hn Ho) as (h' & E' & Hst & Hx').
    exists h', ops'. mrun E'. by split_and!.
  - subst ops. rewrite app_nil_r. destruct (skip_store (Z.of_nat (length R)) h x t Ht Hx) as (h' & ops' & E & Hst & Hx' & ->).
    by exists h', [].
Qed.

Lemma collect_replay_store_reads last (V : list op_item) sizes x t R ops h :
  has_space sizes (Z.of_nat (length V)) ->
  memory_left h -> stores h !! x = Some t -> oplog_at h x ops ->
  (length (R ++ replayed last ops) <= length V)%nat ->
  exists h' ops', collect_replay_store last sizes x t (replay_of 0 R, contexts_of R) h
      = Ok ((0, (replay_of 0 (R ++ replayed last ops), contexts_of (R ++ replayed last ops))), h') /\
    store_step x h h' /\ oplog_at h' x ops' /\ replayed last ops' = replayed last ops.
Proof.
  intros [Hs1 Hs2] Hm Ht Hx Hcap. pose proof (log_at_items _ _ _ _ _ _ Ht Hx) as Hops. unfold collect_replay_store.
  destruct (is_log TYPE_OPLOG t) eqn:El; cbn [negb].
  - mrun (reconstruct_run _ _ _ Ht Hm). set (h1 := h <| allocs := _ |>).
    assert (Hops1 : vlog_ops h1 (nvlog_load x t) ops) by (by eapply vlog_items_ext).
    rewrite length_app in Hcap.
    destruct (collect_loop h1 last sizes (nvlog_load x t) _ _ ops (replay_of 0 R, contexts_of R)
      (items_fuel _ _ _ _ Hops1) Hops1) as (n & E & Hn); [by eexists | |].
    { cbn [snd]. unfold contexts_of. rewrite length_fmap. unfold has_space, sizeof_replay_entry, sizeof_op_context in *.
      apply inj_le in Hcap. split; (etrans; [| eassumption]); by apply Z.mul_le_mono_nonneg_l. }
    unfold collect_op_entries. mrun E.
    destruct (truncate_run h h1 x t n (n_head_cnt (nvlog_load x t)) ops Ht El eq_refl Hn) as (h' & E' & Hst & Hx'); [done |].
    exists h', ops. mrun E'. split; [| done]. unfold ret. do 3 f_equal.
    cbn [fst snd]. unfold contexts_of. by rewrite replay_of_app, length_fmap, fmap_app.
  - subst ops. rewrite app_nil_r.
    destruct (skip_store (replay_of 0 R, contexts_of R) h x t Ht Hx) as (h' & ops' & E & Hst & Hx' & ->).
    by exists h', [].
Qed.
End Passes.

(** the [int] sizes of the arrays hold two replay entries for each operation *)
Definition sizes_fit (ops : list op_item) : Prop := sizeof_replay_entry * 2 * Z.of_nat (length ops) < 2 ^ 31.

Section Complete.
Context `{Env, Qsort}.

Lemma alloc_array_run h size : memory_left h -> (0 <= size) -> alloc_array size h = Ok (tt, h <| allocs := S (allocs h) |>).
Proof.
  intros Hm Hs. unfold alloc_array. destruct (sh_alloc_run h Hm) as (p & Hp & _ & Ep). mrun Ep.
  by rewrite (proj2 (Z.ltb_ge _ _)), (proj2 (Z.eqb_neq p NULL)) by done.
Qed.

Lemma pass_first last r0 h l qs :
  stores_ok h l -> Forall2 (oplog_at h) l qs -> root h = r0 -> last_ckpt_clk r0 = last -> memory_left h ->
  sizes_fit (replayed last (concat qs)) ->
  exists h' qs', alloc_replay_array h = Ok ((0, array_sizes (Z.of_nat (length (replayed last (concat qs))))), h') /\
    stores_ok h' l /\ Forall2 (oplog_at h') l qs' /\ replayed last (concat qs') = replayed last (concat qs) /\
    root h' = r0 /\ cells (sh_pm h') = cells (sh_pm h) /\ memory_left h'.
Proof.
  intros Hok Hqs Hr Hl Hm Hfit.
  destruct (pass_run (alloc_replay_store last) (fun R => Z.of_nat (length R)) last (replayed last (concat qs)) r0)
    with (l := l) (qs := qs) (h := h) as (h1 & qs1 & E & Hok1 & Hqs1 & He1 & Hr1 & Hc1 & Hm1); try done.
  { intros x t R ops h0 _ Hm0 Ht Hx Hlen. apply alloc_replay_store_reads; try done.
    unfold sizes_fit, sizeof_replay_entry in Hfit. apply inj_le in Hlen. lia. }
  destruct (array_sizes_space _ (Nat2Z.is_nonneg _) Hfit) as (_ & Hs1 & Hs2).
  assert (Hm2 : memory_left (h1 <| allocs := S (allocs h1) |>)) by (eapply memory_left_le; [| exact Hm1]; cbn; lia).
  pose proof (alloc_array_run _ _ Hm1 Hs1) as Ep. pose proof (alloc_array_run _ _ Hm2 Hs2) as Eq. eexists _, qs1. split.
  - unfold alloc_replay_array, nvlog_get_last_ckpt_clk. msteps. rewrite Hr, Hl. mrun E. cbn [negb Z.eqb].
    mrun Ep. mrun Eq. reflexivity.
  - split; [done |]. split; [exact Hqs1 |]. do 3 (split; [done |]). eapply memory_left_le; [| exact Hm2]. cbn. lia.
Qed.

(** both passes *)
Lemma oplog_recovery_run h l qs :
  stores_ok h l -> Forall2 (oplog_at h) l qs -> memory_left h ->
  let last := last_ckpt_clk (root h) in
  let ops := replayed last (concat qs) in
  sizes_fit ops ->
  exists h1 h2 qs', alloc_replay_array h = Ok ((0, array_sizes (Z.of_nat (length ops))), h1) /\
    collect_replay_entries (array_sizes (Z.of_nat (length ops))) h1 = Ok ((0, (replay_of 0 ops, contexts_of ops)), h2) /\
    stores_ok h2 l /\ Forall2 (oplog_at h2) l qs' /\ replayed last (concat qs') = ops /\
    root h2 = root h /\ cells (sh_pm h2) = cells (sh_pm h).
Proof.
  intros Hok Hqs Hm last ops Hfit.
  destruct (pass_first last (root h) h l qs) as (h1 & qs1 & E1 & Hok1 & Hqs1 & He1 & Hr1 & Hc1 & Hm1); try done.
  destruct (array_sizes_space _ (Nat2Z.is_nonneg (length ops)) Hfit) as (Hsp & _).
  destruct (pass_run (collect_replay_store last (array_sizes (Z.of_nat (length ops))))
      (fun R => (replay_of 0 R, contexts_of R)) last ops (root h))
    with (l := l) (qs := qs1) (h := h1) as (h2 & qs2 & E2 & Hok2 & Hqs2 & He2 & Hr2 & Hc2 & Hm2); try done.
  { intros x t R ops0 h0 _ Hm0 Ht Hx Hcap. by apply (collect_replay_store_reads last ops). }
  exists h1, h2, qs2. split; [exact E1 |]. split; [| split_and!; try done; congruence].
  unfold collect_replay_entries, nvlog_get_last_ckpt_clk. msteps. rewrite Hr1. exact E2.
Qed.

(** C29. Operation-log recovery is complete: the second pass finds exactly the
    operations that the first one made room for.  [alloc_replay_array] counts
    the operations of all logs that are younger than the last checkpoint, and
    although it truncates the logs, [collect_replay_entries] then fills the
    arrays with an execution and a commit entry for each of these operations,
    oldest first in each log, never past their end.  [oplog_recovery] succeeds,
    the store list and the entries stay as they are, and the logs still hold
    the operations, so that a crash during recovery loses none.  All of this as
    long as the arrays' sizes, which the code computes as [int], are below 2 GB. *)
Theorem oplog_recovery_complete h l qs :
  stores_ok h l -> Forall2 (oplog_at h) l qs -> memory_left h ->
  let last := last_ckpt_clk (root h) in
  let ops := replayed last (concat qs) in
  sizes_fit ops ->
  exists h1 h2 qs', alloc_replay_array h = Ok ((0, array_sizes (Z.of_nat (length ops))), h1) /\
    collect_replay_entries (array_sizes (Z.of_nat (length ops))) h1 = Ok ((0, (replay_of 0 ops, contexts_of ops)), h2) /\
    oplog_recovery h = Ok (0, h2) /\
    stores_ok h2 l /\ Forall2 (oplog_at h2) l qs' /\ replayed last (concat qs') = ops /\
    root h2 = root h /\ cells (sh_pm h2) = cells (sh_pm h).
Proof.
  intros Hok Hqs Hm last ops Hfit.
  destruct (oplog_recovery_run h l qs Hok Hqs Hm Hfit) as (h1 & h2 & qs' & E1 & E2 & Hrest).
  exists h1, h2, qs'. split; [exact E1 |]. split; [exact E2 |]. split; [| exact Hrest].
  unfold oplog_recovery. mrun E1. cbn [negb Z.eqb]. by mrun E2.
Qed.
End Complete.

(** * Example: two operations, one before the last checkpoint, and a
    checkpoint log *)

Definition ex_op (lo clk sz : Z) : ts_nvlog_entry :=
  mk_nvlog_entry clk sz TYPE_ACTUAL (EB_op (mk_op_entry_hdr lo 1 [])).
Definition ex_item (a lo clk sz : Z) : op_item := (a, ex_op lo clk sz, mk_op_entry_hdr lo 1 []).
Definition ex_recovery : shared := ex_shared
  <| root := mk_root NVPOOL_MAGIC 1 1024 10 |>
  <| stores := <[1024 := mk_nvlog_store 64 256 4000 4096 256 (lnot64 255) TYPE_OPLOG STATUS_NVLOG_NORMAL 2048]>
                 {[ 2048 := mk_nvlog_store 0 0 8000 8192 256 (lnot64 255) TYPE_CKPTLOG STATUS_NVLOG_NORMAL NULL ]} |>
  <| sh_pm := pmem_with (<[4160 := ex_op 5 8 128]> {[ 4288 := ex_op 20 30 64 ]}) ∅ |>.

Lemma ex_recovery_stores : stores_ok ex_recovery [1024; 2048].
Proof.
  split; [by repeat (constructor; [elems |]); constructor |]. split; [done |]. split; [done |].
  eexists. split; [reflexivity |]. split; [done |]. split; [done |]. eexists. by split.
Qed.

Lemma ex_recovery_ops :
  Forall2 (oplog_at ex_recovery) [1024; 2048] [[ex_item 4160 5 8 128; ex_item 4288 20 30 64]; []].
Proof.
  constructor; [| constructor; [| constructor]]; eexists; split; try reflexivity.
  change (is_log TYPE_OPLOG _) with true. exists [(64, ex_op 5 8 128); (192, ex_op 20 30 64)]. split.
  - eexists _, 8. split; [reflexivity |].
    exists [(64, ex_op 5 8 128); (192, ex_op 20 30 64)]. split; [| reflexivity].
    split; cbn; [split; cbn; [lia | done | done | by exists 64 | lia] | lia | by exists 1 | lia | lia | | done].
    constructor; cbn; [done | lia | by exists 2 | by vm_compute |].
    constructor; cbn; [done | lia | by exists 1 | by vm_compute |]. apply seg_nil.
  - repeat constructor.
Qed.

Lemma oplog_recovery_complete_witness :
  exists h1 h2, @alloc_replay_array ex_env ex_recovery = Ok ((0, (48, 16)), h1) /\
    @collect_replay_entries ex_env (48, 16) h1 =
      Ok ((0, ([mk_replay 20 OPLOG_REPLAY_TYPE_EXEC 0; mk_replay 30 OPLOG_REPLAY_TYPE_COMMIT 0],
               [mk_context NULL 4288])), h2) /\
    @oplog_recovery ex_env insertion_sort ex_recovery = Ok (0, h2).
Proof.
  destruct (@oplog_recovery_complete ex_env insertion_sort ex_recovery [1024; 2048] _ ex_recovery_stores ex_recovery_ops)
    as (h1 & h2 & qs' & E1 & E2 & E3 & _).
  - intros n _. eexists. split; [reflexivity | unfold NULL; lia].
  - by vm_compute.
  - exists h1, h2. split; [exact E1 |]. split; [exact E2 | exact E3].
Defined.
