(* ===== verification/CkptRecovery.v ===== *)
(** What checkpoint recovery rebuilds ([reconstruct_volatile_header],
    [ckptlog_recovery] of [lib/recovery.c]): each object with a checkpoint gets
    a volatile header whose current master is the newest of its checkpoints. *)
From S2P Require Export OplogRecovery.

(** a checkpoint: its address, entry and checkpoint header *)
Abbreviation ckpt_item := (item (B := ts_ckpt_entry_hdr)).
Abbreviation vlog_ckpts := (vlog_items EB_ckpt).
Abbreviation ckptlog_at := (log_at EB_ckpt TYPE_CKPTLOG).

(** the object of a checkpoint and the one it is a copy of *)
Definition item_obj (y : ckpt_item) : Z := ckpt_ent_obj y.1.1.
Definition item_org (y : ckpt_item) : Z := ce_np_org_act y.2.
Definition item_clk (y : ckpt_item) : Z := e_wrt_clk y.1.2.

(** the entries of a log that recovery takes: up to the first one that a
    later, unfinished checkpoint wrote *)
Fixpoint checkpointed (last : Z) (ys : list ckpt_item) : list ckpt_item :=
  match ys with
  | [] => []
  | y :: ys => if last <? ckpt_s_clk y.2 then [] else y :: checkpointed last ys
  end.

(** the checkpoints of the object [org] *)
Definition of_object (org : Z) (ys : list ckpt_item) : list ckpt_item :=
  List.filter (fun y => item_org y =? org) ys.

(** the newest of [y] and [ys]; the first of those with the same clock *)
Fixpoint newest (y : ckpt_item) (ys : list ckpt_item) : ckpt_item :=
  match ys with
  | [] => y
  | z :: ys => newest (if item_clk y <? item_clk z then z else y) ys
  end.

Lemma newest_spec y ys : newest y ys ∈ y :: ys /\ forall z, z ∈ y :: ys -> item_clk z <= item_clk (newest y ys).
Proof.
  revert y. induction ys as [| z ys IH]; intros y; cbn.
  - split; [elems |]. by intros z ->%list_elem_of_singleton.
  - destruct (IH (if item_clk y <? item_clk z then z else y)) as [Hin Hmax].
    split; [destruct (_ <? _); revert Hin; elems |]. intros x Hx.
    pose proof (Hmax _ ltac:(by left)) as H0.
    destruct (Z.ltb_spec (item_clk y) (item_clk z));
      (apply elem_of_cons in Hx as [-> | [-> | Hx]%elem_of_cons]; [lia | lia | apply Hmax; by right]).
Qed.

Lemma newest_snoc y ys z :
  newest y (ys ++ [z]) = if item_clk (newest y ys) <? item_clk z then z else newest y ys.
Proof. revert y. induction ys as [| x ys IH]; intros y; cbn; [done |]. by rewrite IH. Qed.

Lemma of_object_app org l1 l2 : of_object org (l1 ++ l2) = of_object org l1 ++ of_object org l2.
Proof. apply List.filter_app. Qed.

(** * The volatile headers *)

Section Headers.
Context `{Env}.

(** the allocator answers fresh addresses from now on *)
Definition memory_fresh (n : nat) : Prop :=
  forall i j p, (n <= i)%nat -> (n <= j)%nat -> alloc_result i = Some p -> alloc_result j = Some p -> i = j.

(** the volatile header of an object with the checkpoints [ys], made after [h0] *)
Definition rebuilt (h0 : shared) (gen : Z) (a0 : ts_act_hdr_struct) (h : shared) (org : Z) (ys : list ckpt_item) : Prop :=
  match ys with
  | [] => heap h !! org = Some (CAct a0)
  | y :: ys => exists i v, (allocs h0 <= i)%nat /\ (i < allocs h)%nat /\ alloc_result i = Some v /\ v <> NULL /\
      heap h !! org = Some (CAct (a0 <| act_nvhdr ::= (fun n => n <| nvh_act_vhdr := v |> <| gen_id := gen |>) |>)) /\
      vhdrs h !! v = Some (mk_act_vhdr NULL NULL (item_obj y) (item_obj (newest y ys)) MAX_VERSION)
  end.

(** [h] is [h0] after the checkpoints [ys] *)
Record headers (gen : Z) (h0 : shared) (ys : list ckpt_item) (h : shared) : Prop := {
  hd_rebuilt : forall org a0, heap h0 !! org = Some (CAct a0) -> rebuilt h0 gen a0 h org (of_object org ys);
  hd_objects : forall org a, heap h !! org = Some (CAct a) -> exists a0, heap h0 !! org = Some (CAct a0);
  hd_apart : forall o1 o2 a1 a2, heap h !! o1 = Some (CAct a1) -> heap h !! o2 = Some (CAct a2) ->
    gen_id (act_nvhdr a1) = gen -> gen_id (act_nvhdr a2) = gen ->
    nvh_act_vhdr (act_nvhdr a1) = nvh_act_vhdr (act_nvhdr a2) -> o1 = o2;
  hd_items : forall y, y ∈ ys -> cells (sh_pm h) !! y.1.1 = Some y.1.2 /\ e_body y.1.2 = EB_ckpt y.2;
  hd_allocs : (allocs h0 <= allocs h)%nat }.

(** no object has a header of this run yet *)
Definition stale_headers (gen : Z) (h : shared) : Prop :=
  forall org a, heap h !! org = Some (CAct a) -> gen_id (act_nvhdr a) <> gen.

(** with a header of this run an object has a checkpoint, and its header came
    from an earlier allocation *)
Lemma headers_gen gen h0 ys h org a :
  stale_headers gen h0 -> headers gen h0 ys h -> heap h !! org = Some (CAct a) -> gen_id (act_nvhdr a) = gen ->
  exists i, (i < allocs h)%nat /\ (allocs h0 <= i)%nat /\ alloc_result i = Some (nvh_act_vhdr (act_nvhdr a)).
Proof.
  intros Hst [Hr Ho Hap Hi Hal] Ha Hg. destruct (Ho org a Ha) as [a0 Ha0]. specialize (Hr org a0 Ha0).
  destruct (of_object org ys) as [| y l]; cbn in Hr.
  - rewrite Ha in Hr. injection Hr as ->. by destruct (Hst org a0 Ha0).
  - destruct Hr as (i & v & Hlo & Hlt & Hv & _ & Hh & _). rewrite Ha in Hh. injection Hh as ->. by exists i.
Qed.

Lemma no_thread_run {A} (m : M st A) h a s' :
  m (mk_st (zero_thread NULL) h) = Ok (a, s') -> no_thread m h = Ok (a, sh s').
Proof. intros E. unfold no_thread. by rewrite E. Qed.

Lemma put_ahs_run s org a f : heap (sh s) !! org = Some (CAct a) ->
  put_ahs org f s = Ok (tt, s <| sh ::= (fun h => h <| heap ::= (fun m => <[org := CAct (f a)]> m) |>) |>).
Proof. intros E. unfold put_ahs. by mrun (get_ahs_run s org a E). Qed.

Lemma get_ckpt_item_run s (y : ckpt_item) :
  cells (sh_pm (sh s)) !! y.1.1 = Some y.1.2 -> e_body y.1.2 = EB_ckpt y.2 ->
  get_ckpt_entry y.1.1 s = Ok ((y.1.2, y.2), s).
Proof. intros Hc Hb. unfold get_ckpt_entry, ckpt_entry_of. by rewrite Hc, Hb. Qed.

Lemma obj_ckpt_ent a : obj_to_ckpt_ent (ckpt_ent_obj a) = a.
Proof. unfold obj_to_ckpt_ent, ckpt_ent_obj. lia. Qed.

Lemma alloc_act_vhdr_run s o v : alloc_result (allocs (sh s)) = Some v -> v <> NULL ->
  alloc_act_vhdr o s = Ok (v, s <| sh ::= (fun h => h <| allocs ::= S |>
    <| vhdrs ::= (fun m => <[v := mk_act_vhdr NULL NULL o o MAX_VERSION]> m) |> <| sh_pm ::= wmb |>) |>).
Proof.
  intros Hv Hv0. assert (Ea : alloc s = Ok (v, s <| sh ::= (fun h => h <| allocs ::= S |>) |>)).
  { unfold alloc, on_sh, zoom, sh_alloc. msteps. by rewrite Hv. }
  unfold alloc_act_vhdr. mrun Ea. by rewrite (proj2 (Z.eqb_neq v NULL)).
Qed.

(** the state after a new header at [v] for [y] *)
Definition new_header (gen v : Z) (y : ckpt_item) (a0 : ts_act_hdr_struct) (h : shared) : shared :=
  h <| allocs ::= S |> <| vhdrs ::= (fun m => <[v := mk_act_vhdr NULL NULL (item_obj y) (item_obj y) MAX_VERSION]> m) |>
    <| sh_pm ::= wmb |>
    <| heap ::= (fun m => <[item_org y := CAct (a0 <| act_nvhdr ::= (fun n => n <| nvh_act_vhdr := v |> <| gen_id := gen |>) |>)]> m) |>.

Lemma first_checkpoint_run gen h (y : ckpt_item) a v :
  cells (sh_pm h) !! y.1.1 = Some y.1.2 -> e_body y.1.2 = EB_ckpt y.2 ->
  heap h !! item_org y = Some (CAct a) -> gen_id (act_nvhdr a) <> gen ->
  alloc_result (allocs h) = Some v -> v <> NULL ->
  no_thread (reconstruct_volatile_header y.1.1 gen) h = Ok (0, new_header gen v y a h).
Proof.
  intros Hc Hb Ha Hg Hv Hv0.
  assert (E : reconstruct_volatile_header y.1.1 gen (mk_st (zero_thread NULL) h)
              = Ok (0, mk_st (zero_thread NULL) (new_header gen v y a h))).
  { unfold reconstruct_volatile_header. mrun (get_ckpt_item_run (mk_st (zero_thread NULL) h) y Hc Hb).
    mrun (get_ahs_run (mk_st (zero_thread NULL) h) (item_org y) a Ha).
    rewrite (proj2 (Z.eqb_neq _ _)) by done. cbn [negb orb].
    erewrite bind_run by (by apply alloc_act_vhdr_run). rewrite (proj2 (Z.eqb_neq v NULL)) by done.
    erewrite bind_run by (apply put_ahs_run; exact Ha).
    erewrite bind_run by (apply put_ahs_run; cbn; by rewrite lookup_insert_eq).
    unfold ret, new_header. do 4 f_equal. cbn. by rewrite insert_insert_eq. }
  by rewrite (no_thread_run _ _ _ _ E).
Qed.

(** the state after a newer checkpoint [y] than [z] for the header at [v] *)
Definition newer_header (v : Z) (x : ts_act_vhdr) (z y : ckpt_item) (h : shared) : shared :=
  if item_clk z <? item_clk y
  then h <| vhdrs ::= (fun m => <[v := x <| np_cur_act := item_obj y |>]> m) |> else h.

Lemma later_checkpoint_run gen h (y z : ckpt_item) a v x :
  cells (sh_pm h) !! y.1.1 = Some y.1.2 -> e_body y.1.2 = EB_ckpt y.2 ->
  cells (sh_pm h) !! z.1.1 = Some z.1.2 -> e_body z.1.2 = EB_ckpt z.2 ->
  heap h !! item_org y = Some (CAct a) -> gen_id (act_nvhdr a) = gen -> nvh_act_vhdr (act_nvhdr a) = v ->
  v <> NULL -> vhdrs h !! v = Some x -> np_cur_act x = item_obj z ->
  no_thread (reconstruct_volatile_header y.1.1 gen) h = Ok (0, newer_header v x z y h).
Proof.
  intros Hc Hb Hcz Hbz Ha Hg Hn Hv Hx Hcur. set (s := mk_st (zero_thread NULL) h).
  assert (E : reconstruct_volatile_header y.1.1 gen s = Ok (0, mk_st (zero_thread NULL) (newer_header v x z y h))).
  { unfold reconstruct_volatile_header. mrun (get_ckpt_item_run s y Hc Hb).
    mrun (get_ahs_run s (item_org y) a Ha). rewrite Hg, Hn, Z.eqb_refl, (proj2 (Z.eqb_neq v NULL)) by done. cbn [negb orb].
    mrun (get_vhdr_run s v x Hx). rewrite Hcur. unfold item_obj at 1. rewrite obj_ckpt_ent.
    mrun (get_ckpt_item_run s z Hcz Hbz). unfold newer_header, item_clk. destruct (_ <? _).
    - by mrun (put_vhdr_run s v x (fun v => v <| np_cur_act := ckpt_ent_obj y.1.1 |>) Hx).
    - done. }
  by rewrite (no_thread_run _ _ _ _ E).
Qed.

(** an object keeps its header when the heap does, and the header's address
    does or another header is written *)
Lemma rebuilt_frame h0 gen a0 h h' org ys :
  rebuilt h0 gen a0 h org ys -> heap h' !! org = heap h !! org -> (allocs h <= allocs h')%nat ->
  (forall i v, (allocs h0 <= i)%nat -> (i < allocs h)%nat -> alloc_result i = Some v ->
     heap h !! org = Some (CAct (a0 <| act_nvhdr ::= (fun n => n <| nvh_act_vhdr := v |> <| gen_id := gen |>) |>)) ->
     vhdrs h' !! v = vhdrs h !! v) ->
  rebuilt h0 gen a0 h' org ys.
Proof.
  destruct ys as [| y ys]; cbn; intros Hr Eh Ea Hv; [by rewrite Eh |].
  destruct Hr as (i & v & Hlo & Hlt & Hi & Hv0 & Hh & Hx). exists i, v. rewrite Eh, (Hv i v) by done.
  split_and!; try done. lia.
Qed.

(** nothing but the headers changes *)
Definition headers_only (h h' : shared) : Prop :=
  stores h' = stores h /\ cells (sh_pm h') = cells (sh_pm h) /\ root h' = root h /\ (allocs h <= allocs h')%nat.

#[export] Instance headers_only_pre : PreOrder headers_only.
Proof. split; [done |]. intros a b c (E1 & E2 & E3 & E4) (F1 & F2 & F3 & F4). split_and!; [congruence.. | lia]. Qed.

Lemma of_object_snoc org ys y :
  of_object org (ys ++ [y]) = of_object org ys ++ if item_org y =? org then [y] else [].
Proof. rewrite of_object_app. unfold of_object at 2. cbn. by destruct (_ =? _). Qed.

Lemma items_snoc ys y h h' :
  (forall x, x ∈ ys -> cells (sh_pm h) !! x.1.1 = Some x.1.2 /\ e_body x.1.2 = EB_ckpt x.2) ->
  cells (sh_pm h) !! y.1.1 = Some y.1.2 -> e_body y.1.2 = EB_ckpt y.2 -> cells (sh_pm h') = cells (sh_pm h) ->
  forall x, x ∈ ys ++ [y] -> cells (sh_pm h') !! x.1.1 = Some x.1.2 /\ e_body x.1.2 = EB_ckpt x.2.
Proof. intros Hi Hc Hb -> x [Hx | ->%list_elem_of_singleton]%elem_of_app; auto. Qed.

(** the first checkpoint of an object *)
Lemma headers_first gen h0 ys h y a v :
  stale_headers gen h0 -> headers gen h0 ys h -> memory_fresh (allocs h0) ->
  cells (sh_pm h) !! y.1.1 = Some y.1.2 -> e_body y.1.2 = EB_ckpt y.2 ->
  heap h0 !! item_org y = Some (CAct a) -> of_object (item_org y) ys = [] ->
  alloc_result (allocs h) = Some v -> v <> NULL ->
  headers gen h0 (ys ++ [y]) (new_header gen v y a h).
Proof.
  intros Hst Hh Hfr Hc Hb Ha Hnone Hv Hv0. pose proof Hh as [Hr Ho Hap Hi Hal].
  assert (Hnew : forall org b, heap h !! org = Some (CAct b) -> gen_id (act_nvhdr b) = gen ->
    nvh_act_vhdr (act_nvhdr b) <> v).
  { intros org b Hb0 Hg E. destruct (headers_gen gen h0 ys h org b Hst Hh Hb0 Hg) as (i & Hlt & Hle & Hiv).
    rewrite E in Hiv. pose proof (Hfr i (allocs h) v Hle Hal Hiv Hv). lia. }
  split; [| | | by eapply items_snoc | cbn; lia].
  - intros org a0 Ha0. rewrite of_object_snoc. destruct (Z.eqb_spec (item_org y) org) as [<- | Hne].
    + rewrite Hnone. assert (a0 = a) as -> by congruence. exists (allocs h), v. split_and!; try done.
      * cbn. lia.
      * cbn. by rewrite lookup_insert_eq.
      * cbn. by rewrite lookup_insert_eq.
    + rewrite app_nil_r. eapply rebuilt_frame; [by apply Hr | cbn; by rewrite lookup_insert_ne | cbn; lia |].
      intros i w Hlo Hlt Hw _. cbn. rewrite lookup_insert_ne; [done |]. intros <-.
      pose proof (Hfr i (allocs h) v Hlo Hal Hw Hv). lia.
  - intros org b. cbn. destruct (decide (item_org y = org)) as [<- | Hne]; [by exists a |].
    rewrite lookup_insert_ne by done. apply Ho.
  - intros o1 o2 a1 a2. cbn. destruct (decide (item_org y = o1)) as [<- | H1], (decide (item_org y = o2)) as [<- | H2]; [done | ..];
      rewrite ?lookup_insert_eq, ?lookup_insert_ne by done.
    + intros [= <-] H2' _ Hg2 E. cbn in E. by destruct (Hnew o2 a2 H2' Hg2).
    + intros H1' [= <-] Hg1 _ E. cbn in E. by destruct (Hnew o1 a1 H1' Hg1).
    + apply Hap.
Qed.

(** a later one *)
Lemma headers_later gen h0 ys h y a v z zs :
  headers gen h0 ys h -> cells (sh_pm h) !! y.1.1 = Some y.1.2 -> e_body y.1.2 = EB_ckpt y.2 ->
  heap h !! item_org y = Some (CAct a) -> gen_id (act_nvhdr a) = gen -> nvh_act_vhdr (act_nvhdr a) = v ->
  of_object (item_org y) ys = z :: zs ->
  vhdrs h !! v = Some (mk_act_vhdr NULL NULL (item_obj z) (item_obj (newest z zs)) MAX_VERSION) ->
  headers gen h0 (ys ++ [y])
    (newer_header v (mk_act_vhdr NULL NULL (item_obj z) (item_obj (newest z zs)) MAX_VERSION) (newest z zs) y h).
Proof.
  intros [Hr Ho Hap Hi Hal] Hc Hb Ha Hg Hn Hsome Hx. set (h' := newer_header _ _ _ _ _).
  assert (Eh : heap h' = heap h) by (subst h'; unfold newer_header; by destruct (_ <? _)).
  assert (Ea : allocs h' = allocs h) by (subst h'; unfold newer_header; by destruct (_ <? _)).
  assert (Ec : cells (sh_pm h') = cells (sh_pm h)) by (subst h'; unfold newer_header; by destruct (_ <? _)).
  split; rewrite ?Eh, ?Ea; try done; [| by eapply items_snoc].
  intros org a0 Ha0. rewrite of_object_snoc. specialize (Hr org a0 Ha0).
  destruct (Z.eqb_spec (item_org y) org) as [<- | Hne].
  - rewrite Hsome in *. cbn [app rebuilt] in *. destruct Hr as (i & w & Hlo & Hlt & Hw & Hw0 & Hh & Hx').
    rewrite Ha in Hh. injection Hh as Ea0. assert (w = v) as -> by (by rewrite <- Hn, Ea0).
    exists i, v. rewrite Eh, Ea, newest_snoc. split_and!; try done; [by rewrite Ha, Ea0 |].
    subst h'. unfold newer_header. destruct (_ <? _); [| done]. cbn. by rewrite lookup_insert_eq.
  - rewrite app_nil_r. eapply rebuilt_frame; [done | by rewrite Eh | by rewrite Ea |].
    intros i w _ _ _ Hh. subst h'. unfold newer_header. destruct (_ <? _); [| done]. cbn.
    rewrite lookup_insert_ne; [done |]. intros <-. apply Hne.
    eapply Hap; [exact Ha | exact Hh | done | done | done].
Qed.

Lemma headers_step gen h0 ys h y a0 :
  stale_headers gen h0 -> headers gen h0 ys h -> memory_fresh (allocs h0) -> memory_left h ->
  cells (sh_pm h) !! y.1.1 = Some y.1.2 -> e_body y.1.2 = EB_ckpt y.2 ->
  heap h0 !! item_org y = Some (CAct a0) ->
  exists h', no_thread (reconstruct_volatile_header y.1.1 gen) h = Ok (0, h') /\
    headers gen h0 (ys ++ [y]) h' /\ headers_only h h'.
Proof.
  intros Hst Hh Hfr Hm Hc Hb Ha0. pose proof (hd_rebuilt _ _ _ _ Hh _ _ Ha0) as Hr.
  destruct (of_object (item_org y) ys) as [| z zs] eqn:Eo; cbn [rebuilt] in Hr.
  - destruct (Hm (allocs h) ltac:(lia)) as (v & Hv & Hv0). exists (new_header gen v y a0 h).
    split; [by apply first_checkpoint_run; [.. | apply (Hst (item_org y)) | |] |].
    split; [by eapply headers_first |]. split_and!; try done. cbn. lia.
  - destruct Hr as (i & v & _ & _ & _ & Hv0 & Hheap & Hx).
    destruct (hd_items _ _ _ _ Hh (newest z zs)) as [Hcz Hbz].
    { destruct (newest_spec z zs) as [Hin _]. rewrite <- Eo in Hin.
      apply list_elem_of_In, filter_In in Hin as [Hin _]. by apply list_elem_of_In. }
    eexists. split; [by eapply later_checkpoint_run |]. split; [by eapply headers_later |].
    unfold newer_header. by destruct (_ <? _).
Qed.
End Headers.

(** * One checkpoint log, and all of them *)

Section CkptPass.
Context `{Env} (gen last : Z) (h0 : shared).
Hypothesis stale : stale_headers gen h0.
Hypothesis fresh : memory_fresh (allocs h0).

(** the objects of the checkpoints are there *)
Definition objects_exist (ys : list ckpt_item) : Prop :=
  Forall (fun y => exists a0, heap h0 !! item_org y = Some (CAct a0)) ys.

Lemma ckpts_same h h' n ys : headers_only h h' -> vlog_ckpts h n ys -> vlog_ckpts h' n ys.
Proof.
  intros (Es & Ec & _) (q & (t & k & Ht & Hl) & Hf). eapply vlog_items_ext; try done.
  - exists q. split; [by exists t, k | done].
  - by rewrite Es.
Qed.

Lemma checkpoint_walk n0 : forall fuel n ys R h,
  (length ys < fuel)%nat -> vlog_ckpts h n ys -> (exists c, n = move_head n0 c) ->
  headers gen h0 R h -> memory_left h -> objects_exist ys ->
  exists c h', loop fuel (fun n =>
      if n_head_cnt n =? n_tail_cnt n then ret (inr (0, n))
      else
        let* ' (ent, n) := on_nvlog n nvlog_peek_head in
        let* ' (_, c) := no_thread (get_ckpt_entry ent) in
        if last <? ckpt_s_clk c then ret (inr (0, n))
        else
          let* rc := no_thread (reconstruct_volatile_header ent gen) in
          if negb (rc =? 0) then ret (inr (ENOMEM, n))
          else let* ' (_, n) := on_nvlog n nvlog_deq in ret (inl n)) n h
    = Ok ((0, move_head n0 c), h') /\ headers gen h0 (R ++ checkpointed last ys) h' /\ headers_only h h'.
Proof.
  induction fuel as [| fuel IH]; intros n ys R h Hlen Hys [c0 ->] Hh Hm Hobj; [lia |]. cbn [loop].
  destruct ys as [| y ys].
  - rewrite (items_empty _ _ _ Hys), Z.eqb_refl. exists c0, h. cbn [checkpointed]. by rewrite app_nil_r.
  - destruct (items_peek _ _ _ _ _ Hys) as (Hne & Hc & Hb & c & Ep & Hys1).
    rewrite (proj2 (Z.eqb_neq _ _)) by done. msteps. mrun Ep. msteps.
    mrun (no_thread_run _ h _ _ (get_ckpt_item_run (mk_st (zero_thread NULL) h) y Hc Hb)).
    cbn [checkpointed sh]. destruct (last <? ckpt_s_clk y.2).
    + exists c, h. by rewrite app_nil_r.
    + inversion Hobj as [| ? ? [a0 Ha0] Hobj']; subst. msteps.
      destruct (headers_step gen h0 R h y a0) as (h1 & E1 & Hh1 & Hs1); try done. mrun E1. cbn [negb Z.eqb].
      destruct (items_deq _ _ _ _ _ (ckpts_same _ _ _ _ Hs1 Hys1)) as (c1 & Ed1 & Hys2).
      msteps. mrun Ed1. msteps.
      destruct (IH _ ys (R ++ [y]) h1 ltac:(cbn in Hlen; lia) Hys2) as (c' & h' & E' & Hh' & Hs'); try done.
      * by eexists.
      * destruct Hs1 as (_ & _ & _ & Ha). by eapply memory_left_le.
      * exists c', h'. split; [exact E' |]. split; [by rewrite <- app_assoc in Hh' |]. by transitivity h1.
Qed.

Lemma headers_same ys h h' :
  headers gen h0 ys h -> heap h' = heap h -> vhdrs h' = vhdrs h -> cells (sh_pm h') = cells (sh_pm h) ->
  (allocs h <= allocs h')%nat -> headers gen h0 ys h'.
Proof.
  intros [Hr Ho Hap Hi Hal] Eh Ev Ec Ea. split; rewrite ?Eh, ?Ec; try done; [| lia].
  intros org a0 Ha0. eapply rebuilt_frame; [by apply Hr | by rewrite Eh | done | by intros; rewrite Ev].
Qed.

(** one store: its checkpoints up to the last checkpoint get headers *)
Lemma recover_ckptlog_store_run x t R ys h :
  stores h !! x = Some t -> ckptlog_at h x ys -> headers gen h0 R h -> memory_left h -> objects_exist ys ->
  exists h', recover_ckptlog_store last gen x t tt h = Ok ((0, tt), h') /\ store_step x h h' /\
    headers gen h0 (R ++ checkpointed last ys) h' /\ memory_left h' /\
    forall a ops, log_at EB_op TYPE_OPLOG h a ops -> log_at EB_op TYPE_OPLOG h' a ops.
Proof.
  intros Ht Hx Hh Hm Hobj. pose proof (log_at_items _ _ _ _ _ _ Ht Hx) as Hys. unfold recover_ckptlog_store.
  destruct (is_log TYPE_CKPTLOG t) eqn:El; cbn [negb].
  - mrun (reconstruct_run _ _ _ Ht Hm). set (h1 := h <| allocs := _ |>).
    assert (Hys1 : vlog_ckpts h1 (nvlog_load x t) ys) by (by eapply vlog_items_ext).
    assert (Hh1 : headers gen h0 R h1) by (eapply headers_same; try done; cbn; lia).
    assert (Hm1 : memory_left h1) by (eapply memory_left_le; [| exact Hm]; cbn; lia).
    destruct (checkpoint_walk (nvlog_load x t) _ _ ys R h1 (items_fuel _ _ _ _ Hys1) Hys1)
      as (c & h2 & E2 & Hh2 & Es2 & Ec2 & Er2 & Ea2); [by eexists | done.. |].
    unfold recover_ckptlog_entries. mrun E2. cbn [negb Z.eqb].
    destruct (on_truncate_tail h2 (move_head (nvlog_load x t) c) t c) as (h3 & E3 & Es3 & Ec3 & Er3 & Ea3 & Eh3 & Ev3);
      [by rewrite Es2 |].
    mrun E3. exists h3. split; [done |].
    assert (Hst : store_step x h h3); [| split; [exact Hst |]; split; [| split]].
    + exists t, (t <| s_tail_cnt := c |>). rewrite Es3, Es2, Ec3, Ec2, Er3, Er2, Ea3. split_and!; try done. cbn in Ea2. lia.
    + eapply headers_same; try done. by rewrite Ea3.
    + eapply memory_left_le; [| exact Hm1]. rewrite Ea3. exact Ea2.
    + intros a ops. by eapply log_at_other.
  - subst ys. exists h. cbn [checkpointed]. rewrite app_nil_r. split_and!; try done. by eapply store_step_same.
Qed.

(** before the stores [l], of which [qs] holds: those before have been read *)
Record ckpt_inv (l0 : list Z) (qs0 : list (list ckpt_item)) (l : list Z) (u : unit) (h : shared) : Prop := {
  ci_split : exists lr qr qs, l0 = lr ++ l /\ qs0 = qr ++ qs /\ Forall2 (ckptlog_at h) l qs /\
    Forall objects_exist qs /\ headers gen h0 (concat (checkpointed last <$> qr)) h;
  ci_ops : forall a ops, log_at EB_op TYPE_OPLOG h0 a ops -> log_at EB_op TYPE_OPLOG h a ops;
  ci_memory : memory_left h;
  ci_root : root h = root h0;
  ci_cells : cells (sh_pm h) = cells (sh_pm h0) }.

Lemma ckpt_pass_step l0 qs0 x l u h t :
  NoDup l0 -> ckpt_inv l0 qs0 (x :: l) u h -> stores h !! x = Some t ->
  exists u' h', recover_ckptlog_store last gen x t u h = Ok ((0, u'), h') /\ ckpt_inv l0 qs0 l u' h' /\ same_links h h'.
Proof.
  intros Hnd [(lr & qr & qs & -> & -> & Hl & Hobj & Hh) Hop Hm Hr Hc] Ht. destruct u.
  inversion Hl as [| ? ys ? qs' Hx Hl']; subst. inversion Hobj as [| ? ? Hobj1 Hobj2]; subst.
  destruct (recover_ckptlog_store_run x t _ ys h Ht Hx Hh Hm Hobj1) as (h' & E & Hst & Hh' & Hm' & Hop').
  exists tt, h'. split; [done |]. split; [| by eapply store_step_links].
  apply NoDup_app in Hnd as (_ & _ & Hnd). apply NoDup_cons in Hnd as [Hxl _].
  pose proof Hst as (? & ? & _ & _ & _ & _ & Ec & Er & _). split; [| by auto | done | congruence | congruence].
  exists (lr ++ [x]), (qr ++ [ys]), qs'. rewrite <- !app_assoc. split_and!; try done.
  - by eapply logs_at_step.
  - rewrite fmap_app, concat_app. cbn. by rewrite app_nil_r.
Qed.
End CkptPass.

Section CkptComplete.
Context `{Env}.

(** the checkpoints that recovery uses of logs with the entries [qs] *)
Definition covered (h : shared) (qs : list (list ckpt_item)) : list ckpt_item :=
  concat (checkpointed (last_ckpt_clk (root h)) <$> qs).

(** [h'] has the newest of the checkpoints [ys] of each object of [h] current *)
Definition newest_current (h h' : shared) (ys : list ckpt_item) : Prop :=
  forall org a0, heap h !! org = Some (CAct a0) ->
    match of_object org ys with
    | [] => heap h' !! org = Some (CAct a0)
    | y :: _ => exists v z,
        heap h' !! org = Some (CAct (a0 <| act_nvhdr ::= (fun n => n <| nvh_act_vhdr := v |> <| gen_id := root_gen_id (root h) |>) |>)) /\
        vhdrs h' !! v = Some (mk_act_vhdr NULL NULL (item_obj y) (item_obj z) MAX_VERSION) /\
        z ∈ of_object org ys /\ forall y', y' ∈ of_object org ys -> item_clk y' <= item_clk z
    end.

(** what checkpoint recovery finds after a crash *)
Record ckpts_ready (h : shared) (l : list Z) (qs : list (list ckpt_item)) : Prop := {
  cr_stores : stores_ok h l;
  cr_logs : Forall2 (ckptlog_at h) l qs;
  cr_memory : memory_left h;
  cr_fresh : memory_fresh (allocs h);
  cr_stale : stale_headers (root_gen_id (root h)) h;
  cr_objects : Forall (objects_exist h) qs }.

Lemma ckptlog_recovery_run h l qs :
  ckpts_ready h l qs ->
  exists h', ckptlog_recovery h = Ok (0, h') /\ stores_ok h' l /\ root h' = root h /\
    cells (sh_pm h') = cells (sh_pm h) /\ newest_current h h' (covered h qs) /\ memory_left h' /\
    forall a ops, log_at EB_op TYPE_OPLOG h a ops -> log_at EB_op TYPE_OPLOG h' a ops.
Proof.
  intros [Hok Hqs Hm Hfr Hst Hobj]. set (last := last_ckpt_clk (root h)). set (gen := root_gen_id (root h)) in *.
  destruct (for_each_store_run (recover_ckptlog_store last gen) (ckpt_inv gen last h l qs))
    with (l := l) (a := tt) (h := h)
    as (u & h' & E & [(lr & qr & qs' & El & Eq & Hl & _ & Hh) Hop Hm' Hr' Hc'] & Hln).
  - intros x l1 u h1 t. apply ckpt_pass_step; [done.. | by destruct Hok].
  - done.
  - split; try done. exists [], [], qs. split_and!; try done.
    split; [by intros | by eauto | | by intros ? ?%not_elem_of_nil | done].
    intros o1 o2 a1 a2 H1 _ Hg. by destruct (Hst o1 a1 H1).
  - exists h'. inversion Hl; subst. rewrite app_nil_r in Hok, Hqs, Hobj |- *. split.
    { unfold ckptlog_recovery, nvlog_get_last_ckpt_clk, nvm_get_gen_id. msteps. mrun E. by destruct u. }
    split; [by eapply stores_ok_links |]. split; [done |]. split; [done |]. split; [| by split].
    intros org a0 Ha0. pose proof (hd_rebuilt _ _ _ _ Hh org a0 Ha0) as Hr. unfold covered. fold last gen. rewrite app_nil_r.
    destruct (of_object _ _) as [| y ys]; [done |]. destruct Hr as (i & v & _ & _ & _ & _ & Hheap & Hx).
    exists v, (newest y ys). destruct (newest_spec y ys). by split_and!.
Qed.

(** C28. Checkpoint recovery makes the newest checkpoint of each object current.
    With headers of earlier runs only, [ckptlog_recovery] succeeds, and
    afterwards an object has a volatile header of this run exactly if the
    logs have a checkpoint of it that the last completed checkpoint covers.  The
    current master of that header is the newest of these checkpoints, whatever
    the order of the logs.  The header's original master is the first of them
    that recovery meets, not the object itself.  Objects without a checkpoint,
    and the entries, stay as they are. *)
Theorem ckptlog_recovery_newest h l qs :
  ckpts_ready h l qs ->
  exists h', ckptlog_recovery h = Ok (0, h') /\ stores_ok h' l /\ root h' = root h /\
    cells (sh_pm h') = cells (sh_pm h) /\ newest_current h h' (covered h qs).
Proof.
  intros Hr. destruct (ckptlog_recovery_run h l qs Hr) as (h' & E & Hok & Hroot & Hc & Hn & _).
  by exists h'.
Qed.

Context `{Qsort}.

(** C30. Recovery as a whole: after a crash that leaves well-formed logs and a
    non-empty store list, [perform_recovery] succeeds.  It makes the newest
    covered checkpoint of each object current first, and what it collects
    from the operation logs afterwards is exactly the operations that were
    there after the crash and that are younger than the last checkpoint, as long
    as the [int] sizes of the replay arrays are below 2 GB.  (It sorts the
    collected entries; replaying them is commented out in the code.) *)
Theorem perform_recovery_complete h l qs qo :
  ckpts_ready h l qs -> Forall2 (oplog_at h) l qo -> l <> [] ->
  let ops := replayed (last_ckpt_clk (root h)) (concat qo) in
  sizes_fit ops ->
  exists h1 h2 h', ckptlog_recovery h = Ok (0, h1) /\ newest_current h h1 (covered h qs) /\
    alloc_replay_array h1 = Ok ((0, array_sizes (Z.of_nat (length ops))), h2) /\
    collect_replay_entries (array_sizes (Z.of_nat (length ops))) h2 = Ok ((0, (replay_of 0 ops, contexts_of ops)), h') /\
    perform_recovery h = Ok (0, h') /\ stores_ok h' l /\ cells (sh_pm h') = cells (sh_pm h).
Proof.
  intros Hr Hqo Hl ops Hfit. destruct (ckptlog_recovery_run h l qs Hr) as (h1 & E1 & Hok1 & Hr1 & Hc1 & Hn & Hm1 & Hops).
  assert (Hqo1 : Forall2 (oplog_at h1) l qo) by (eapply Forall2_impl; [exact Hqo | exact Hops]).
  destruct (oplog_recovery_run h1 l qo Hok1 Hqo1 Hm1) as (h2 & h3 & qs' & E2 & E3 & Hok3 & _ & _ & _ & Hc3); [by rewrite Hr1 |].
  rewrite Hr1 in E2, E3. exists h1, h2, h3. split_and!; try done; [| congruence].
  unfold perform_recovery. msteps. destruct Hr as [[_ Hch] _ _ _ _ _].
  rewrite (chain_null _ _ _ Hch), bool_decide_eq_false_2 by done. mrun E1. cbn [negb Z.eqb].
  unfold oplog_recovery. mrun E2. cbn [negb Z.eqb]. by mrun E3.
Qed.
End CkptComplete.

(** * Truncating behind a bogus entry *)

Section Strand.
Context `{Env}.

(** a peek at a bogus entry that ends at [c] *)
Lemma peek_bogus h n t b c :
  stores h !! n_store n = Some t -> n_head_cnt n <> n_tail_cnt n -> cells (sh_pm h) !! nvlog_at n (n_head_cnt n) = Some b ->
  e_type b = TYPE_BOGUS -> u64 (n_head_cnt n + e_size b) = c ->
  on_nvlog n nvlog_peek_head h = Ok ((if c =? n_tail_cnt n then NULL else nvlog_at n c, move_head n c), h).
Proof.
  intros Ht Hne Hb Hty Hc. apply (on_nvlog_head _ _ _ t); [done |]. unfold nvlog_peek_head. msteps. cbn [nv].
  rewrite (proj2 (Z.eqb_neq _ _)) by done.
  assert (Eg : get_entry (nvlog_at n (n_head_cnt n)) (mk_nvst n t (sh_pm h)) = Ok (b, mk_nvst n t (sh_pm h)))
    by (unfold get_entry; cbn [pm]; by rewrite Hb). mrun Eg.
  rewrite decide_True by done. msteps. cbn [nv upd n_head_cnt n_tail_cnt]. rewrite Hc.
  destruct (c =? n_tail_cnt n); done.
Qed.

(** C32. The truncation of checkpoint recovery can leave a log that recovery
    cannot read.  Let the oldest entry of a checkpoint log be the bogus entry at
    the end of the buffer, and the entry behind it a checkpoint that the last
    one does not cover.  The walk peeks past the bogus entry before it stops,
    so that recovery, which succeeds, puts the log's tail behind the bogus
    entry and leaves its head before it.  Whenever such a log is walked again,
    after the next crash, the peek steps over the bogus entry onto the tail and
    answers NULL, which the walk dereferences. *)
Theorem ckpt_truncation_strands_bogus last gen x t h b c e ce :
  stores h !! x = Some t -> is_log TYPE_CKPTLOG t = true -> memory_left h ->
  let n := nvlog_load x t in
  n_head_cnt n <> n_tail_cnt n -> cells (sh_pm h) !! nvlog_at n (n_head_cnt n) = Some b -> e_type b = TYPE_BOGUS ->
  u64 (n_head_cnt n + e_size b) = c -> c <> n_head_cnt n -> c <> n_tail_cnt n ->
  ckpt_entry_of h (nvlog_at n c) = Some (e, ce) -> last < ckpt_s_clk ce ->
  exists h' t', recover_ckptlog_store last gen x t tt h = Ok ((0, tt), h') /\ stores h' !! x = Some t' /\
    cells (sh_pm h') = cells (sh_pm h) /\ s_head_cnt t' = s_head_cnt t /\ s_tail_cnt t' = c /\
    forall last2 gen2 h2, stores h2 !! x = Some t' -> cells (sh_pm h2) !! nvlog_at n (n_head_cnt n) = Some b ->
      memory_left h2 -> ckpt_entry_of h2 NULL = None ->
      on_nvlog (nvlog_load x t') nvlog_peek_head h2 = Ok ((NULL, move_head (nvlog_load x t') c), h2) /\
      recover_ckptlog_store last2 gen2 x t' tt h2 = Fault UB.
Proof.
  intros Ht Hlog Hm n Hne Hb Hty Hc Hch Hct He Hlast. set (t' := t <| s_tail_cnt := c |>).
  assert (Hrun : exists h', recover_ckptlog_store last gen x t tt h = Ok ((0, tt), h') /\
      stores h' = <[x := t']> (stores h) /\ cells (sh_pm h') = cells (sh_pm h)).
  { unfold recover_ckptlog_store. rewrite Hlog. cbn [negb]. mrun (reconstruct_run _ _ _ Ht Hm). fold n. set (h1 := h <| allocs := _ |>).
    pose proof (peek_bogus h1 n t b c Ht Hne Hb Hty Hc) as Ep. rewrite (proj2 (Z.eqb_neq c _)) in Ep by done.
    unfold recover_ckptlog_entries, nvlog_fuel. cbn [loop]. rewrite (proj2 (Z.eqb_neq (n_head_cnt n) _)) by done.
    rewrite !bind_assoc. mrun Ep. rewrite bind_assoc.
    assert (Eg : no_thread (get_ckpt_entry (nvlog_at n c)) h1 = Ok ((e, ce), h1)).
    { unfold no_thread, get_ckpt_entry. cbn [sh]. by rewrite (He : ckpt_entry_of h1 _ = _). }
    mrun Eg. rewrite (proj2 (Z.ltb_lt _ _)) by done. msteps. cbn [negb Z.eqb].
    destruct (on_truncate_tail h1 (move_head n c) t c) as (h' & E & Es & Ec & _); [exact Ht |]. cbn [n_head_cnt upd]. mrun E. by exists h'. }
  destruct Hrun as (h' & E & Es & Ec). exists h', t'. split; [exact E |]. split; [by rewrite Es, lookup_insert_eq |].
  do 3 (split; [done |]). intros last2 gen2 h2 Ht2 Hb2 Hm2 Hnull.
  assert (Hpeek : forall h3, stores h3 !! x = Some t' -> cells (sh_pm h3) !! nvlog_at n (n_head_cnt n) = Some b ->
    on_nvlog (nvlog_load x t') nvlog_peek_head h3 = Ok ((NULL, move_head (nvlog_load x t') c), h3)).
  { intros h3 Ht3 Hb3. rewrite (peek_bogus h3 (nvlog_load x t') t' b c Ht3); [| | exact Hb3 | done | exact Hc].
    - cbn [n_tail_cnt nvlog_load t' upd s_tail_cnt]. by rewrite Z.eqb_refl.
    - cbn. cbn in Hch. congruence. }
  split; [by apply Hpeek |]. unfold recover_ckptlog_store. change (is_log TYPE_CKPTLOG t') with (is_log TYPE_CKPTLOG t). rewrite Hlog.
  cbn [negb]. mrun (reconstruct_run _ _ _ Ht2 Hm2). set (h3 := h2 <| allocs := _ |>).
  unfold recover_ckptlog_entries, nvlog_fuel. cbn [loop]. rewrite (proj2 (Z.eqb_neq (n_head_cnt (nvlog_load x t')) _)) by (cbn; cbn in Hch; congruence).
  rewrite !bind_assoc. mrun (Hpeek h3 Ht2 Hb2). rewrite bind_assoc. unfold bind at 1, no_thread, get_ckpt_entry. cbn [sh].
  by rewrite (Hnull : ckpt_entry_of h3 NULL = None).
Qed.
End Strand.

(** * Example: two checkpoint logs on one object; the first log wraps around,
    and its second checkpoint was not completed *)

Definition ex_ckpt (s_clk clk sz : Z) : ts_nvlog_entry :=
  mk_nvlog_entry clk sz TYPE_ACTUAL (EB_ckpt (mk_ckpt_entry_hdr s_clk 500 0 (mk_obj_hdr 16 0 TYPE_NVLOG_ENTRY STATUS_NONE))).
Definition ex_ckpt_item (a s_clk clk sz : Z) : ckpt_item :=
  (a, ex_ckpt s_clk clk sz, mk_ckpt_entry_hdr s_clk 500 0 (mk_obj_hdr 16 0 TYPE_NVLOG_ENTRY STATUS_NONE)).
Definition ex_ckpts : shared := ex_shared
  <| root := mk_root NVPOOL_MAGIC 1 1024 10 |>
  <| heap := {[ 500 := CAct (mk_ahs (mk_act_nvhdr NULL 0 0) (mk_obj_hdr 16 0 TYPE_ACTUAL STATUS_NONE)) ]} |>
  <| stores := <[1024 := mk_nvlog_store 256 704 4000 4096 512 (lnot64 511) TYPE_CKPTLOG STATUS_NVLOG_NORMAL 2048]>
                 {[ 2048 := mk_nvlog_store 0 128 8000 8192 512 (lnot64 511) TYPE_CKPTLOG STATUS_NVLOG_NORMAL NULL ]} |>
  <| sh_pm := pmem_with (<[4352 := ex_ckpt 5 20 128]> (<[4480 := bogus_entry 128]> (<[4096 := ex_ckpt 15 40 192]>
                {[ 8192 := ex_ckpt 8 30 128 ]}))) ∅ |>.

Lemma ex_ckpts_stores : stores_ok ex_ckpts [1024; 2048].
Proof.
  split; [by repeat (constructor; [elems |]); constructor |]. split; [done |]. split; [done |].
  eexists. split; [reflexivity |]. split; [done |]. split; [done |]. eexists. by split.
Qed.

Definition ex_ckpt_items : list (list ckpt_item) :=
  [[ex_ckpt_item 4352 5 20 128; ex_ckpt_item 4096 15 40 192]; [ex_ckpt_item 8192 8 30 128]].

Lemma ex_ckpts_logs : Forall2 (ckptlog_at ex_ckpts) [1024; 2048] ex_ckpt_items.
Proof.
  constructor; [| constructor; [| constructor]]; eexists; split; try reflexivity; change (is_log TYPE_CKPTLOG _) with true.
  - exists [(256, ex_ckpt 5 20 128); (512, ex_ckpt 15 40 192)]. split; [| repeat constructor].
    eexists _, 9. split; [reflexivity |].
    exists [(256, ex_ckpt 5 20 128); (384, bogus_entry 128); (512, ex_ckpt 15 40 192)]. split; [| reflexivity].
    split; cbn; [split; cbn; [lia | done | done | by exists 64 | lia] | lia | by exists 4 | lia | lia | | done].
    constructor; cbn; [done | lia | by exists 2 | by vm_compute |].
    constructor; cbn; [done | lia | by exists 2 | by vm_compute |].
    constructor; cbn; [done | lia | by exists 3 | by vm_compute |]. apply seg_nil.
  - exists [(0, ex_ckpt 8 30 128)]. split; [| repeat constructor].
    eexists _, 9. split; [reflexivity |]. exists [(0, ex_ckpt 8 30 128)]. split; [| reflexivity].
    split; cbn; [split; cbn; [lia | done | done | by exists 128 | lia] | lia | by exists 0 | lia | lia | | done].
    constructor; cbn; [done | lia | by exists 2 | by vm_compute |]. apply seg_nil.
Qed.

Lemma ex_ckpts_ready : @ckpts_ready ex_env ex_ckpts [1024; 2048] ex_ckpt_items.
Proof.
  split; [exact ex_ckpts_stores | exact ex_ckpts_logs | | | |].
  - intros n _. eexists. split; [reflexivity | unfold NULL; lia].
  - intros i j p _ _ Ei Ej. cbn in Ei, Ej. rewrite <- Ej in Ei. injection Ei. lia.
  - intros org a Ha. cbn in Ha. apply lookup_singleton_Some in Ha as [_ [= <-]]. done.
  - repeat constructor; eexists; reflexivity.
Qed.

(** the header of the object at 500 after recovery *)
Lemma ex_newest h' : newest_current ex_ckpts h' (covered ex_ckpts ex_ckpt_items) ->
  exists v, heap h' !! 500 = Some (CAct (mk_ahs (mk_act_nvhdr v 1 0) (mk_obj_hdr 16 0 TYPE_ACTUAL STATUS_NONE))) /\
    np_cur_act <$> vhdrs h' !! v = Some (ckpt_ent_obj 8192).
Proof.
  intros Hall. destruct (Hall 500 _ eq_refl) as (v & z & Hh & Hv & Hz & Hmax).
  exists v. split; [exact Hh |]. rewrite Hv. cbn. f_equal.
  assert (Hz' : z ∈ [ex_ckpt_item 4352 5 20 128; ex_ckpt_item 8192 8 30 128]) by exact Hz.
  specialize (Hmax (ex_ckpt_item 8192 8 30 128) ltac:(by right; left)).
  apply elem_of_cons in Hz' as [-> | ->%list_elem_of_singleton]; [destruct (Hmax eq_refl) | reflexivity].
Qed.

Lemma ckptlog_recovery_newest_witness :
  exists h' v, @ckptlog_recovery ex_env ex_ckpts = Ok (0, h') /\
    heap h' !! 500 = Some (CAct (mk_ahs (mk_act_nvhdr v 1 0) (mk_obj_hdr 16 0 TYPE_ACTUAL STATUS_NONE))) /\
    np_cur_act <$> vhdrs h' !! v = Some (ckpt_ent_obj 8192).
Proof.
  destruct (@ckptlog_recovery_newest ex_env ex_ckpts [1024; 2048] ex_ckpt_items ex_ckpts_ready)
    as (h' & E & _ & _ & _ & Hall).
  destruct (ex_newest h' Hall) as (v & Hh & Hv). exists h', v. exact (conj E (conj Hh Hv)).
Defined.

Lemma perform_recovery_complete_witness : exists h', @perform_recovery ex_env insertion_sort ex_ckpts = Ok (0, h').
Proof.
  destruct (@perform_recovery_complete ex_env insertion_sort ex_ckpts [1024; 2048] ex_ckpt_items [[]; []] ex_ckpts_ready)
    as (h1 & h2 & h' & _ & _ & _ & _ & E & _).
  - constructor; [| constructor; [| constructor]]; eexists; (split; [reflexivity |]);
      by change (is_log TYPE_OPLOG _) with false.
  - done.
  - by vm_compute.
  - exists h'. exact E.
Defined.

(** the machine after its recovery, and at the start of the next run *)
Definition ex_recovered : shared :=
  match @ckptlog_recovery ex_env ex_ckpts with Ok (_, h) => h | Fault _ => ex_shared end.
Definition ex_restarted : shared :=
  ex_recovered <| root ::= (fun r => r <| root_gen_id ::= Z.succ |>) |> <| vhdrs := ∅ |>.

(** A run of [ckpt_truncation_strands_bogus] on well-formed logs:  The walk peeks past a bogus entry before it finds
    the checkpoint to stop at, so the tail is put behind the bogus entry.  When
    such a log is walked again, the peek steps over the bogus entry to the
    tail and answers NULL, which [ckptlog_recovery] dereferences: the recovery
    after the next crash fails, although both started from well-formed logs. *)
Lemma ckpt_truncation_run :
  Forall2 (ckptlog_at ex_ckpts) [1024; 2048] ex_ckpt_items /\
  @ckptlog_recovery ex_env ex_ckpts = Ok (0, ex_recovered) /\
  s_tail_cnt <$> stores ex_recovered !! 1024 = Some 512 /\
  @ckptlog_recovery ex_env ex_restarted = Fault UB.
Proof.
  split; [exact ex_ckpts_logs |]. split; [| split].
  - assert (Hrc : match @ckptlog_recovery ex_env ex_ckpts with Ok (rc, _) => rc =? 0 | Fault _ => false end = true)
      by (vm_compute; reflexivity).
    unfold ex_recovered. destruct (ckptlog_recovery _) as [[rc h] |]; [| done]. by apply Z.eqb_eq in Hrc as ->.
  - vm_compute. reflexivity.
  - vm_compute. reflexivity.
Qed.

(** the first log, when its first checkpoint has been reclaimed *)
Definition ex_bogus_first : shared := ex_ckpts
  <| stores := {[ 1024 := mk_nvlog_store 384 704 4000 4096 512 (lnot64 511) TYPE_CKPTLOG STATUS_NVLOG_NORMAL NULL ]} |>.

Lemma ckpt_truncation_strands_bogus_witness :
  exists h' t', @recover_ckptlog_store ex_env 10 1 1024
      (mk_nvlog_store 384 704 4000 4096 512 (lnot64 511) TYPE_CKPTLOG STATUS_NVLOG_NORMAL NULL) tt ex_bogus_first = Ok ((0, tt), h') /\
    s_tail_cnt t' = 512 /\
    @recover_ckptlog_store ex_env 20 2 1024 t' tt (ex_bogus_first <| stores := {[ 1024 := t' ]} |>) = Fault UB.
Proof.
  assert (Hm : forall h, @memory_left ex_env h).
  { intros h n _. eexists. split; [reflexivity | unfold NULL; lia]. }
  destruct (@ckpt_truncation_strands_bogus ex_env 10 1 1024
      (mk_nvlog_store 384 704 4000 4096 512 (lnot64 511) TYPE_CKPTLOG STATUS_NVLOG_NORMAL NULL) ex_bogus_first (bogus_entry 128) 512
      (ex_ckpt 15 40 192) (mk_ckpt_entry_hdr 15 500 0 (mk_obj_hdr 16 0 TYPE_NVLOG_ENTRY STATUS_NONE)))
    as (h' & t' & E & _ & _ & _ & Ht & Hagain);
    [reflexivity | reflexivity | apply Hm | discriminate | reflexivity | reflexivity | reflexivity | discriminate | discriminate
    | reflexivity | reflexivity |].
  exists h', t'. split; [exact E |]. split; [exact Ht |].
  destruct (Hagain 20 2 (ex_bogus_first <| stores := {[ 1024 := t' ]} |>)) as [_ Ef]; [by apply lookup_insert_eq | reflexivity | apply Hm | reflexivity | exact Ef].
Defined.
