(* ===== verification/Scenarios.v ===== *)
(** Runs of the library on the small machine of [State.v]: sequences of calls
    through its interface, evaluated, which show a write that is committed, read
    and checkpointed, and some of the library's faults ([observe] picks the part
    of the final state that a statement is about); and, for any machine, what
    follows when a thread is freed late. *)
From S2P Require Import Recovery.

Definition observe {S A B} (f : A -> S -> B) (r : res (A * S)) : option B :=
  match r with Ok (a, s) => Some (f a s) | Fault _ => None end.

(** * A thread that is freed late *)

Section LateFree.
Context `{Env}.

(** what the qp thread leaves of a finished thread whose logs it has reclaimed and
    destroyed *)
Record reaped (t : ts_thread_struct) : Prop := {
  rp_tvlog : tvlog_used (tvlog t) = 0;
  rp_ckptlog : nvlog_used (ckptlog t) = 0;
  rp_buffer : t_buffer (tvlog t) = NULL;
  rp_ckpt_store : n_store (ckptlog t) = NULL;
  rp_op_store : n_store (oplog t) = NULL;
  rp_free_set : num_ptrs (ckpt_free_set t) = 0 }.

(** the thread during its last call, with the threads and lists of [h] *)
Definition dying (p : Z) (h : shared) (s : st) : Prop :=
  reaped (self s) /\ self_ptr (self s) = p /\ threads (sh s) = threads h /\ list_links (sh s) = list_links h /\
  g_zombie_threads (sh s) = g_zombie_threads h.

Lemma dying_self p h f : (forall t, reaped t -> reaped (f t) /\ self_ptr (f t) = self_ptr t) ->
  hoare (dying p h) (mod_self f) (fun _ => dying p h).
Proof.
  intros Hf s (Hr & Hp & Hs). do 2 eexists. split; [reflexivity |]. destruct (Hf (self s) Hr) as [Hr' Ep]. split; [exact Hr' |].
  split; [cbn; congruence | exact Hs].
Qed.

Lemma dying_merge p h : hoare (dying p h) stat_thread_merge (fun _ => dying p h).
Proof. intros s Hs. do 2 eexists. split; [reflexivity |]. exact Hs. Qed.

Lemma dying_empty p h : hoare (dying p h) logs_empty (fun e s => e = true /\ dying p h s).
Proof. intros s Hs. do 2 eexists. split; [reflexivity |]. split; [| exact Hs]. destruct Hs as [[H1 H2 _ _ _ _] _]. by rewrite H1, H2. Qed.

Lemma dying_tvlog p h : hoare (dying p h) tvtlog_destroy (fun _ => dying p h).
Proof. intros s Hs. exists tt, s. split; [| done]. unfold tvtlog_destroy. msteps. by rewrite (rp_buffer _ (proj1 Hs)). Qed.

Lemma dying_log p h L : (forall t, reaped t -> n_store (sel_get L t) = NULL /\ reaped (sel_put L (sel_get L t) t) /\
    self_ptr (sel_put L (sel_get L t) t) = self_ptr t) ->
  hoare (dying p h) (log_destroy L) (fun _ => dying p h).
Proof.
  intros HL s Hs. destruct (HL (self s) (proj1 Hs)) as (Hn & Hr & Hp). unfold log_destroy. msteps.
  rewrite (bind_run _ _ s (sel_get L (self s)) s).
  2: { unfold on_sh, zoom, nvlog_destroy. rewrite Hn. by destruct s. }
  do 2 eexists. split; [reflexivity |]. split; [exact Hr |]. split; [cbn; rewrite Hp; apply Hs | apply Hs].
Qed.

Lemma dying_cleanup p h until_clk : hoare (dying p h) (ckptlog_cleanup until_clk) (fun _ => dying p h).
Proof.
  intros s Hs. pose proof (rp_free_set _ (proj1 Hs)) as Hn. unfold ckptlog_cleanup. msteps.
  destruct (negb _ || bool_decide _); [by exists tt, s |]. rewrite Hn. cbn [Z.to_nat cleanup_loop]. msteps. rewrite Hn. cbn [Z.ltb Z.compare].
  do 2 eexists. split; [reflexivity |]. destruct Hs as ([] & Hs). by split.
Qed.

Lemma dying_ckptlog p h : hoare (dying p h) ckptlog_destroy (fun _ => dying p h).
Proof.
  intros s Hs. unfold ckptlog_destroy. msteps. destruct (n_free_set _); msteps.
  - destruct (dying_cleanup p h MAX_VERSION s Hs) as ([] & s1 & E & Hs1). mrun E.
    apply (dying_log p h CKPTLOG); [| done]. intros t []. by destruct t.
  - apply (dying_log p h CKPTLOG); [| done]. intros t []. by destruct t.
Qed.

Lemma free_reaped t h : reaped t -> exists t' h', ts_thread_free (mk_st t h) = Ok (tt, mk_st t' h') /\
  threads h' = delete (self_ptr t) (threads h) /\ list_links h' = delete (self_ptr t) (list_links h) /\
  g_zombie_threads h' = g_zombie_threads h.
Proof.
  intros Hr. set (p := self_ptr t).
  assert (Hrun : hoare (dying p h) ts_thread_free (fun _ s => threads (sh s) = delete p (threads h) /\
    list_links (sh s) = delete p (list_links h) /\ g_zombie_threads (sh s) = g_zombie_threads h)).
  { unfold ts_thread_free. eapply hoare_bind; [apply dying_self; by intros u [] | intros []].
    eapply hoare_bind; [apply dying_empty | intros e]. intros s [-> Hs]. cbn [when]. revert s Hs.
    eapply hoare_bind; [apply dying_merge | intros []]. eapply hoare_bind; [apply dying_tvlog | intros []].
    eapply hoare_bind; [apply dying_ckptlog | intros []].
    eapply hoare_bind; [apply (dying_log p h OPLOG); intros u []; by destruct u | intros []].
    do 3 (eapply hoare_bind; [apply dying_self; by intros u [] | intros []]).
    intros s (_ & Ep & Et & El & Ez). do 2 eexists. split; [reflexivity |]. cbn. by rewrite Ep, Et, El. }
  destruct (Hrun (mk_st t h)) as ([] & [t' h'] & E & H'); [by split |]. by exists t', h'.
Qed.

(** C34. A thread that finished with versions left in its log is on the list of
    zombies.  When the qp thread has reclaimed and destroyed the logs and only
    then [ts_thread_free] is called, it frees the structure, but nothing takes
    the thread off the list: the next walk of [qp_reap_zombie_threads] reads the
    freed memory. *)
Theorem late_free_dangles h p rest t :
  list_ok ZOMBIE h (p :: rest) -> tl_lock (g_zombie_threads h) = false -> (0 < spin_bound)%nat ->
  threads h !! p = Some t -> self_ptr t = p -> reaped t ->
  exists h', with_thread p ts_thread_free h = Ok (tt, h') /\ threads h' !! p = None /\
    (l_next <$> list_links h' !! tl_head (g_zombie_threads h')) = Some p /\ qp_reap_zombie_threads h' = Fault UB.
Proof.
  intros Hl Hf Hs Et Ep Hr. destruct (free_reaped t h Hr) as (t' & h1 & E & Et1 & El1 & Ez1).
  unfold with_thread at 1. rewrite Et, E. cbn [sh self]. eexists. split; [reflexivity |]. rewrite Ep in *.
  pose proof Hl as [Hnd _]. apply NoDup_cons in Hnd as [Hni _]. set (h2 := upd _ _ h1).
  assert (Ht2 : threads h2 !! p = None).
  { cbn. rewrite Et1. apply lookup_alter_None, lookup_delete_eq. }
  assert (Hhd : (l_next <$> list_links h2 !! tl_head (g_zombie_threads h2)) = Some p).
  { cbn. rewrite El1, Ez1, lookup_delete_ne by (intros ->; apply Hni; by left). apply (dll_first _ _ _ Hl). }
  do 2 (split; [done |]). unfold qp_reap_zombie_threads, list_retry.
  destruct spin_bound as [| n] eqn:En; [lia |]. cbn [loop]. rewrite bind_assoc.
  rewrite (bind_run _ _ _ _ _ (thread_list_lock_free ZOMBIE h2 ltac:(lia) ltac:(cbn; by rewrite Ez1))). msteps.
  unfold thread_list_for_each_safe. msteps.
  set (h3 := tl_mod _ _ h2). rewrite (bind_run _ _ _ _ _ (on_links_next _ _ h3 Hhd)). msteps.
  assert (Ef : on_links (node_next p) h3 = Fault UB).
  { unfold on_links, zoom, node_next. cbn. by rewrite El1, lookup_delete_eq. }
  unfold bind at 1. by rewrite Ef.
Qed.
End LateFree.

Section Runs.
#[local] Existing Instance ex_env.

(** * A thread from its creation to its end *)

(** the machine when [init_qp] has run and no thread exists *)
Definition booted : shared :=
  match init_qp 512 576 0 (ex_shared <| threads := ∅ |> <| list_links := ∅ |>) with
  | Ok (_, h) => h
  | Fault _ => ex_shared
  end.

(** a thread, at 65536, allocates an object and writes it in a transaction *)
Definition start_thread : M shared Z :=
  let* t := ts_thread_alloc in with_thread t ts_thread_init ;;; ret t.
Definition write_once (t : Z) : M shared (option Z * bool) :=
  with_thread t
    (let* o := ts_alloc 8 in
     ts_begin TS_SNAPSHOT ;;; let* r := _ts_try_lock o 8 in ts_set_op 1 ;;; let* ok := ts_end in ret (r, ok)).

(** the qp thread passes grace periods and reaps, [n] times *)
Fixpoint reap (n : nat) : M shared unit :=
  match n with O => ret tt | S n' => qp_detect 0 ;;; qp_reap_zombie_threads ;;; reap n' end.

Definition zombies (h : shared) : option (Z * Z) :=
  (fun n => (l_next n, l_prev n)) <$> list_links h !! tl_head (g_zombie_threads h).

(** the user's store of [bytes] into the copy [o] *)
Definition store_bytes (o : Z) (bytes : list Z) : M st unit :=
  mod_sh (fun h => h <| obj_data ::= (fun d => <[o := bytes]> d) |>).

(** a transaction that writes [bytes] to [o], and commits or aborts *)
Definition update (commit : bool) (o : Z) (bytes : list Z) : M st unit :=
  ts_begin TS_SNAPSHOT ;;;
  let* r := _ts_try_lock o (Z.of_nat (length bytes)) in
  match r with Some c => store_bytes c bytes | None => ret tt end ;;;
  ts_set_op 1 ;;;
  if commit then ts_end ;;; ret tt else ts_abort.

(** the bytes that a transaction reads from [o] *)
Definition read_bytes (o : Z) : M st (option (list Z)) :=
  ts_begin TS_SNAPSHOT ;;;
  let* p := ts_deref o in
  let* b := asks (fun s => obj_data (sh s) !! p) in
  ts_end ;;; ret b.

(** A committed write is what later transactions read, an aborted one
    leaves no trace, and a checkpoint with write-back that empties both logs
    moves the committed bytes to the original object. *)
Theorem committed_write_is_read :
  observe (fun r h => r)
    ((let* t := start_thread in with_thread t
        (let* o := ts_alloc 2 in store_bytes o [1; 1] ;;;
         let* b0 := read_bytes o in
         update true o [7; 8] ;;; let* b1 := read_bytes o in
         update false o [9; 9] ;;; let* b2 := read_bytes o in
         ret (b0, b1, b2))) booted)
  = Some (Some [1; 1], Some [7; 8], Some [7; 8]) /\
  observe (fun o h => (zombies h, obj_data h !! o))
    ((let* t := start_thread in
      let* o := with_thread t (let* o := ts_alloc 2 in store_bytes o [1; 1] ;;; update true o [7; 8] ;;; ret o) in
      with_thread t ts_thread_finish ;;; with_thread t ts_thread_free ;;; reap 7 ;;; ret o) booted)
  = Some (Some (576, 576), Some [7; 8]).
Proof. split; vm_compute; reflexivity. Qed.

(** and finishes while its version log still holds the version *)
Definition finish_early : M shared Z :=
  let* t := start_thread in write_once t ;;; with_thread t ts_thread_finish ;;; ret t.

(** A thread that finishes with a version left in its log and is freed at
    once stays allocated until the qp thread has reclaimed its logs; then it is
    freed, once, and no list holds it. *)
Theorem prompt_free_is_safe :
  observe (fun t h => (live_status <$> threads h !! t, zombies h))
    ((let* t := finish_early in with_thread t ts_thread_free ;;; ret t) booted)
    = Some (Some THREAD_DEAD_ZOMBIE, Some (65536, 65536)) /\
  observe (fun t h => (live_status <$> threads h !! t, zombies h, List.filter (Z.eqb t) (freed h)))
    ((let* t := finish_early in with_thread t ts_thread_free ;;; reap 7 ;;; ret t) booted)
    = Some (None, Some (576, 576), [65536]).
Proof. split; vm_compute; reflexivity. Qed.

(** a run of this: freed only after the qp thread has reclaimed its logs *)
Lemma late_free_run :
  observe (fun t h => (live_status <$> threads h !! t, zombies h))
    ((let* t := finish_early in reap 7 ;;; with_thread t ts_thread_free ;;; ret t) booted)
    = Some (None, Some (65536, 65536)) /\
  (let* t := finish_early in reap 7 ;;; with_thread t ts_thread_free ;;; qp_reap_zombie_threads) booted = Fault UB.
Proof. split; vm_compute; reflexivity. Qed.

(** A thread that finishes with empty logs is counted twice in the global
    statistics: [ts_thread_finish] merges its counters and [ts_thread_free]
    merges them again. *)
Theorem stats_merged_twice :
  observe (fun _ h => g_stat h n_starts)
    ((let* t := start_thread in
      with_thread t (ts_begin TS_SNAPSHOT ;;; ts_end) ;;;
      with_thread t ts_thread_finish ;;; with_thread t ts_thread_free) booted)
  = Some 2.
Proof. vm_compute. reflexivity. Qed.

(** * A reader in the middle of a commit *)

(** the bytes that the running transaction reads from [o] *)
Definition read_in_tx (o : Z) : M st (option (list Z)) :=
  let* p := ts_deref o in asks (fun s => obj_data (sh s) !! p).

(** a transaction that has written 2 to both objects, where there was 1 *)
Definition two_objects : M st (Z * Z) :=
  let* a := ts_alloc 1 in let* b := ts_alloc 1 in store_bytes a [1] ;;; store_bytes b [1] ;;; ret (a, b).
Definition write_two (o : Z) : M st unit :=
  let* r := _ts_try_lock o 1 in
  match r with Some c => store_bytes c [2] | None => ret tt end.
Definition two_writes (a b : Z) : M st unit :=
  ts_begin TS_SNAPSHOT ;;; write_two a ;;; write_two b ;;; ts_set_op 1.

(** the commit of the thread [w], with [at_gap] run where its clock is read but
    not yet stored in the write set; then both objects are read by [r] *)
Definition commit_around {A} (w : Z) (at_gap : M shared A) : M shared A :=
  let* clk := with_thread w (let* t := asks self in commit_clock (local_clk t)) in
  let* x := at_gap in
  with_thread w (let* t := asks self in
                 let* pending := commit_log_at (local_clk t) (op_info t) clk in commit_publish pending) ;;;
  ret x.

(** [r] reads the first object before the commit or in its gap, the second after *)
Definition read_around (gap : bool) : M shared (option (list Z) * option (list Z)) :=
  let* w := start_thread in let* r := start_thread in
  let* ' (a, b) := with_thread w two_objects in
  with_thread w (two_writes a b) ;;;
  let first := with_thread r (ts_begin TS_SNAPSHOT ;;; read_in_tx a) in
  let* x := (if gap then commit_around w first
             else let* x := first in commit_around w (ret tt) ;;; ret x) in
  let* y := with_thread r (read_in_tx b) in
  with_thread r ts_end ;;; ret (x, y).

(** A snapshot can be torn.  The write clock is read before it is stored as
    pending: a transaction that begins in between has a later clock, yet reads
    the old version of an object of the write set, since nothing is pending, and
    after the commit the new version of another.  One that begins before the
    commit reads both old versions. *)
Theorem snapshot_torn_in_gap :
  observe (fun r _ => r) (read_around false booted) = Some (Some [1], Some [1]) /\
  observe (fun r _ => r) (read_around true booted) = Some (Some [1], Some [2]).
Proof. split; vm_compute; reflexivity. Qed.

(** * A checkpoint entry behind a bogus entry *)

(** an empty checkpoint log of 256 bytes with both heads at [cnt]; the object at
    300000 holds zeros and has one version, at 1048704 *)
Definition ckpt_at (cnt : Z) : st := ex_ckpt
  <| sh ::= (fun h => h <| stores := {[ 1024 := ex_store cnt cnt ]} |> <| sh_pm := pmem_with ∅ ∅ |>
       <| heap ::= (fun m => <[300000 := CAct (mk_ahs (mk_act_nvhdr 400 1 0)
                                                 (mk_obj_hdr 8 0 TYPE_ACTUAL STATUS_NONE))]> m) |>
       <| obj_data ::= (fun m => <[300000 := replicate 8 0]> m) |>) |>
  <| self ::= (fun t => t <| ckptlog := ex_nv cnt cnt |>
       <| reclaim := mk_reclaim 0 RECLAIM_CKPTLOG_WRITEBACK_ALL |> <| clks := mk_clks 2000 2000 2000 0 0 |>) |>.

(** checkpoint the version, then one round of reclamation *)
Definition ckpt_and_reclaim : M st Z :=
  let* a := ckptlog_enq 800 900 1048704 in ckptlog_enq_persist ;;; ckptlog_reclaim ;;; ret a.

(** what is left: is the entry still in the log, where is the current master,
    and what does the original object hold *)
Definition ckpt_outcome (a : Z) (s : st) : bool * Z * option (list Z) :=
  (negb (nvlog_used (ckptlog (self s)) =? 0),
   default NULL (np_cur_act <$> vhdrs (sh s) !! 400) - ckpt_ent_obj a, obj_data (sh s) !! 300000).

(** The first round of reclamation writes a checkpointed object back to its
    original and keeps the entry for one more round; but when the entry lies
    behind the bogus entry that the log put at the point where the last round
    stopped, the round drops it without writing it back: the original keeps its
    old bytes and the current master points into reclaimed log space. *)
Theorem ckpt_behind_bogus_lost :
  observe ckpt_outcome (ckpt_and_reclaim (ckpt_at 128))
    = Some (true, 300000 - ckpt_ent_obj 4224, Some [1; 2; 3; 4; 5; 6; 7; 8]) /\
  observe ckpt_outcome (ckpt_and_reclaim (ckpt_at 192))
    = Some (false, 0, Some [0; 0; 0; 0; 0; 0; 0; 0]).
Proof. split; vm_compute; reflexivity. Qed.
End Runs.

(** * A failed lock at the end of the log *)

(** another thread locks the object with header 400 whenever it is free *)
Definition rival : M st unit :=
  let* v := get_vhdr 400 in when (v_lock v =? NULL) (put_vhdr 400 (fun v => v <| v_lock := 777 |>)).

Section Contended.
#[local] Instance rival_env : Env := ex_env_of rival ex_alloc false false.

Definition big_object (vhdr : Z) : cell :=
  CAct (mk_ahs (mk_act_nvhdr vhdr 1 0) (mk_obj_hdr 300 0 TYPE_ACTUAL STATUS_NONE)).
(** two objects of 300 bytes; the thread's version log is empty at count [cnt] *)
Definition log_at (cnt : Z) : st :=
  match nvlog_create 8192 (2 ^ 12) TYPE_OPLOG STATUS_NVLOG_NORMAL ex_shared with
  | Ok ((_, Some n), h) =>
      mk_st ((zero_thread 8192) <| tvlog := mk_tvlog 0 cnt cnt cnt 0 NULL (2 ^ 20) |> <| oplog := n |>)
        (h <| heap := <[300000 := big_object 400]> {[ 310000 := big_object 500 ]} |>
           <| obj_data := <[300000 := replicate 300 1]> {[ 310000 := replicate 300 2 ]} |>
           <| vhdrs := <[400 := mk_act_vhdr NULL NULL 300000 300000 MAX_VERSION]>
                         {[ 500 := mk_act_vhdr NULL NULL 310000 310000 MAX_VERSION ]} |>)
  | _ => ex_st
  end.

(** a transaction fails to lock the first object, locks the second and commits *)
Definition lock_two : M st (option Z * option Z * bool) :=
  ts_begin TS_SNAPSHOT ;;;
  let* a := _ts_try_lock 300000 300 in
  let* b := _ts_try_lock 310000 300 in
  ts_set_op 1 ;;;
  let* ok := ts_end in
  ret (a, b, ok).

(** the outcome: the locks' results, and the second object's newest version and lock *)
Definition second_object (r : option Z * option Z * bool) (s : st) : (option Z * option Z * bool) * option (Z * Z) :=
  (r, (fun v => (v_copy v, v_lock v)) <$> vhdrs (sh s) !! 500).

(** When the copy whose lock fails had wrapped around the end of the version
    log, [tvlog_append_abort] leaves the bogus entry in the log but not in the
    write set's count: the commit then walks one entry too few, so the second
    object's version is never published and the object stays locked for ever,
    although [ts_end] reports success.  Away from the end of the log the same
    transaction commits as it should. *)
Theorem abort_after_bogus_loses_write :
  observe second_object (lock_two (log_at 0)) = Some (None, Some 1048760, true, Some (1048760, NULL)) /\
  observe second_object (lock_two (log_at (2 ^ 20 - 448))) = Some (None, Some 1048632, true, Some (NULL, 1048632)).
Proof. split; vm_compute; reflexivity. Qed.
End Contended.

(** * Example: the thread at 8192 is the only zombie *)

Definition ex_zombie : shared := ex_shared
  <| list_links := <[576 := mk_list 8192 8192]> {[ 8192 := mk_list 576 576 ]} |>.

Lemma late_free_dangles_witness :
  exists h', with_thread 8192 ts_thread_free ex_zombie = Ok (tt, h') /\ threads h' !! 8192 = None /\
    @qp_reap_zombie_threads ex_env h' = Fault UB.
Proof.
  destruct (@late_free_dangles ex_env ex_zombie 8192 [] (zero_thread 8192)) as (h' & E & Ht & _ & Ef).
  - split; [repeat constructor; set_solver |]. repeat constructor; by vm_compute.
  - reflexivity.
  - cbn. lia.
  - reflexivity.
  - reflexivity.
  - by split.
  - exists h'. split; [exact E |]. split; [exact Ht | exact Ef].
Defined.
