(* ===== verification/Cpp.v ===== *)
(** The C++ interface ([include/timestone++.hpp]): persistent and cached
    pointers, and the runner of transactions, which retries what fails. *)
From S2P Require Import GracePeriod Recovery Scenarios.

Section Cpp.
Context `{Env}.

(** * Pointers *)

(** a pointer to the original of an object, and one to the version that a
    transaction has of it *)
Record ts_persistent_ptr := mk_persistent_ptr { act_ptr : Z }.
Record ts_cached_ptr := mk_cached_ptr { copy_ptr : Z }.

(** construction and assignment from a raw pointer, and from a cached one *)
Definition persistent_of_raw (raw_ptr : Z) : M st ts_persistent_ptr :=
  let* p := _ts_assign_pointer raw_ptr in ret (mk_persistent_ptr p).
Definition persistent_of_cached (cch_ptr : ts_cached_ptr) : M st ts_persistent_ptr := persistent_of_raw (copy_ptr cch_ptr).

Definition persistent_deref (ptr : Z) : M st Z := ts_deref ptr.
(** [operator*] and [operator->] *)
Definition persistent_star (p : ts_persistent_ptr) : M st Z := persistent_deref (act_ptr p).

Definition cached_of_raw (raw_ptr : Z) : M st ts_cached_ptr :=
  let* c := persistent_deref raw_ptr in ret (mk_cached_ptr c).
Definition cached_of_persistent (pst_ptr : ts_persistent_ptr) : M st ts_cached_ptr := cached_of_raw (act_ptr pst_ptr).

(** comparisons: cached pointers are compared as persistent ones *)
Definition persistent_eq (lhs rhs : ts_persistent_ptr) : bool := act_ptr lhs =? act_ptr rhs.
Definition persistent_lt (lhs rhs : ts_persistent_ptr) : bool := act_ptr lhs <? act_ptr rhs.
Definition as_persistent (rel : ts_persistent_ptr -> ts_persistent_ptr -> bool) (lhs rhs : ts_cached_ptr) : M st bool :=
  let* lhs := persistent_of_cached lhs in
  let* rhs := persistent_of_cached rhs in
  ret (rel lhs rhs).
Definition cached_eq : ts_cached_ptr -> ts_cached_ptr -> M st bool := as_persistent persistent_eq.
Definition cached_ne (lhs rhs : ts_cached_ptr) : M st bool := let* b := cached_eq lhs rhs in ret (negb b).
Definition cached_lt : ts_cached_ptr -> ts_cached_ptr -> M st bool := as_persistent persistent_lt.
Definition cached_le (lhs rhs : ts_cached_ptr) : M st bool := let* b := cached_lt rhs lhs in ret (negb b).
Definition cached_gt (lhs rhs : ts_cached_ptr) : M st bool := cached_lt rhs lhs.
Definition cached_ge (lhs rhs : ts_cached_ptr) : M st bool := let* b := cached_lt lhs rhs in ret (negb b).

(** * Arrays *)

Definition update_index (p : ts_persistent_ptr) (_index : Z) : M st unit := ts_update_index (act_ptr p) _index.

(** the element [delta] further on, in [unsigned int] and then [int] arithmetic *)
Definition element_at (p : ts_persistent_ptr) (delta : Z) : M st Z :=
  let* curr_index := ts_get_index (act_ptr p) in
  let target_index := u32 (curr_index + delta) in
  ts_get_offset (act_ptr p) (s32 target_index).

(** [operator+=] and [operator-=]: the new value of the pointer *)
Definition persistent_add_assign (p : ts_persistent_ptr) (_index : Z) : M st ts_persistent_ptr :=
  let* raw := element_at p _index in persistent_of_raw raw.
Definition persistent_sub_assign (p : ts_persistent_ptr) (_index : Z) : M st ts_persistent_ptr :=
  let* raw := element_at p (- _index) in persistent_of_raw raw.

(** [operator+], [operator-], [operator++] and [operator--] each have a static
    variable, to which they answer a reference *)
Inductive static_offset := OFFSET_PLUS | OFFSET_MINUS | OFFSET_INCR | OFFSET_DECR.
#[export] Instance static_offset_eq_dec : EqDecision static_offset.
Proof. solve_decision. Defined.

(** the statics of a type and the library's state *)
Record cpp_st := mk_cpp { offsets : static_offset -> ts_persistent_ptr; lib : st }.
Definition in_lib {A} (m : M st A) : M cpp_st A := zoom lib (fun t s => mk_cpp (offsets s) t) m.

Definition set_offset (r : static_offset) (p : ts_persistent_ptr) : M cpp_st unit :=
  modify (fun s => mk_cpp (fun r' => if decide (r' = r) then p else offsets s r') (lib s)).
Definition offset_by (r : static_offset) (p : ts_persistent_ptr) (delta : Z) : M cpp_st static_offset :=
  let* raw := in_lib (element_at p delta) in
  let* p := in_lib (persistent_of_raw raw) in
  set_offset r p ;;;
  ret r.
Definition persistent_plus (p : ts_persistent_ptr) (_index : Z) : M cpp_st static_offset := offset_by OFFSET_PLUS p _index.
Definition persistent_minus (p : ts_persistent_ptr) (_index : Z) : M cpp_st static_offset := offset_by OFFSET_MINUS p (- _index).
Definition persistent_incr (p : ts_persistent_ptr) : M cpp_st static_offset := offset_by OFFSET_INCR p 1.
Definition persistent_decr (p : ts_persistent_ptr) : M cpp_st static_offset := offset_by OFFSET_DECR p (- 1).
Definition read_offset (r : static_offset) : M cpp_st ts_persistent_ptr := asks (fun s => offsets s r).

(** the constructor of [ts_persistent_array]: [n] elements, from the [i]th on *)
Fixpoint persistent_array (sizeof_T : Z) (n : nat) (i : Z) : M st (list ts_persistent_ptr) :=
  match n with
  | O => ret []
  | S n =>
      let* raw := ts_alloc sizeof_T in
      let* p := persistent_of_raw raw in
      update_index p i ;;;
      let* ps := persistent_array sizeof_T n (i + 1) in
      ret (p :: ps)
  end.

(** * Transactions *)

Inductive ts_rw := read_only | read_write.

(** A transaction's function answers [None] when it leaves by [longjmp].  The
    copy that [ts_lock] puts into the pointer is its answer. *)
Definition ts_lock (ptr : ts_cached_ptr) (sizeof_T : Z) : M st (option ts_cached_ptr) :=
  let* raw := _ts_try_lock (copy_ptr ptr) sizeof_T in
  match raw with
  | Some raw => ret (Some (mk_cached_ptr raw))
  | None => ts_abort ;;; ret None
  end.
Definition ts_lock_const (ptr : ts_cached_ptr) (sizeof_T : Z) : M st (option unit) :=
  let* ok := _ts_try_lock_const (copy_ptr ptr) sizeof_T in
  if ok : bool then ret (Some tt) else ts_abort ;;; ret None.

(** what follows runs unless the function has left *)
Definition unless_left {A B} (m : M st (option A)) (k : A -> M st (option B)) : M st (option B) :=
  let* r := m in match r with Some a => k a | None => ret None end.

(** an iteration of the loop of [ts_txn::run]; a [longjmp] of a read-only
    transaction goes to a frame that does not exist *)
Definition txn_round (iso : isolation_level) (rw : ts_rw) (f : M st (option unit)) (_ : unit) : M st (unit + unit) :=
  ts_begin iso ;;;
  let* r := f in
  match r with
  | None => match rw with read_write => ret (inl tt) | read_only => raise UB end
  | Some _ =>
      let* ok := ts_end in
      if ok : bool then ret (inr tt)
      else ts_abort ;;; ret (inl tt)
  end.
Definition ts_txn_run (iso : isolation_level) (rw : ts_rw) (f : M st (option unit)) : M st unit :=
  loop spin_bound (txn_round iso rw f) tt.
Definition run_ro (iso : isolation_level) (f : M st (option unit)) : M st unit := ts_txn_run iso read_only f.
Definition run_rw (iso : isolation_level) (f : M st (option unit)) : M st unit := ts_txn_run iso read_write f.

Definition object_new (size : Z) : M st Z := ts_alloc size.
Definition object_delete (ptr : Z) : M st unit := ts_free ptr.

(** * Threads and the system *)

(** what a [ts_thread] runs: the user's main between the calls of the library *)
Definition thread_wrapper (f : M st unit) : M shared unit :=
  let* self := ts_thread_alloc in
  with_thread self ts_thread_init ;;;
  with_thread self f ;;;
  with_thread self ts_thread_finish ;;;
  with_thread self ts_thread_free.

Definition init_main_thread : M shared Z :=
  let* self := ts_thread_alloc in with_thread self ts_thread_init ;;; ret self.
Definition finish_main_thread (self : Z) : M shared unit :=
  with_thread self ts_thread_finish ;;; with_thread self ts_thread_free.

(** [ts_system::init]: the static flag and the return code of [ts_init], whose
    arguments these are, and the main thread *)
Definition system_init `{Qsort} (init : bool) (loaded : option ts_nvm_root_obj) (is_created nr0 : bool)
    (mapping : Z + Z) (live zombie thread_rc : Z) : M shared (bool * Z * Z) :=
  let* rc := ts_init init loaded is_created nr0 mapping live zombie thread_rc in
  let* self := init_main_thread in
  ret (rc, self).
Definition system_finish (self : Z) : M shared unit := finish_main_thread self ;;; ts_finish.

End Cpp.

(** * Facts: the run counter over the retries *)

Section CppFacts.
Context `{Env} (Hothers : steady interfere).

(** a transaction's function: it leaves the run counter, or leaves by [longjmp]
    after an abort *)
Definition tx_body {A} (f : M st (option A)) : Prop := forall s r s', f s = Ok (r, s') ->
  tx_word s' = match r with Some _ => tx_word s | None => (u32 (run_cnt (self s) + 1), in_recovery_mode (self s)) end.

Lemma tx_body_steady {A} (m : M st A) : steady m -> tx_body (let* a := m in ret (Some a)).
Proof. intros Hm s r s' (a & s1 & E1 & [<- <-]%Ok_inj)%bind_Ok. by apply Hm in E1. Qed.

Lemma tx_body_ret {A} (a : A) : tx_body (ret (Some a)).
Proof. by intros s r s' [<- <-]%Ok_inj. Qed.

Lemma tx_body_unless_left {A B} (m : M st (option A)) (k : A -> M st (option B)) :
  tx_body m -> (forall a, tx_body (k a)) -> tx_body (unless_left m k).
Proof.
  intros Hm Hk s r s' (o & s1 & E1 & E2)%bind_Ok. pose proof (Hm s o s1 E1) as Hw. destruct o as [a |].
  - rewrite (Hk a s1 r s' E2). unfold tx_word, word_of in *. by injection Hw as -> ->.
  - by apply Ok_inj in E2 as [<- <-].
Qed.

Lemma tx_body_lock ptr size : tx_body (ts_lock ptr size).
Proof.
  intros s r s' (o & s1 & E1 & E2)%bind_Ok. apply (steady_ts_try_lock fst Hothers) in E1. destruct o as [raw |].
  - by apply Ok_inj in E2 as [<- <-].
  - apply bind_Ok in E2 as ([] & s2 & E2 & [<- <-]%Ok_inj). rewrite (ts_abort_advances Hothers s1 tt s2 E2). by injection E1 as -> ->.
Qed.

Lemma tx_body_lock_const ptr size : tx_body (ts_lock_const ptr size).
Proof.
  intros s r s' (o & s1 & (o' & s0 & E1 & [<- <-]%Ok_inj)%bind_Ok & E2)%bind_Ok. apply (steady_ts_try_lock fst Hothers) in E1.
  destruct (bool_decide _).
  - by apply Ok_inj in E2 as [<- <-].
  - apply bind_Ok in E2 as ([] & s2 & E2 & [<- <-]%Ok_inj). rewrite (ts_abort_advances Hothers s0 tt s2 E2). by injection E1 as -> ->.
Qed.

(** the runs of [ts_txn::run]: [k] of the attempts fail in [ts_end] *)
Inductive txn_runs (iso : isolation_level) (rw : ts_rw) (f : M st (option unit)) : nat -> st -> st -> Prop :=
| run_commits s s1 s2 s' u :
    ts_begin iso s = Ok (tt, s1) -> f s1 = Ok (Some u, s2) -> ts_end s2 = Ok (true, s') -> txn_runs iso rw f 0 s s'
| run_leaves k s s1 s2 s' :
    ts_begin iso s = Ok (tt, s1) -> f s1 = Ok (None, s2) -> rw = read_write -> txn_runs iso rw f k s2 s' -> txn_runs iso rw f k s s'
| run_fails k s s1 s2 s3 s4 s' u :
    ts_begin iso s = Ok (tt, s1) -> f s1 = Ok (Some u, s2) -> ts_end s2 = Ok (false, s3) -> ts_abort s3 = Ok (tt, s4) ->
    txn_runs iso rw f k s4 s' -> txn_runs iso rw f (S k) s s'.

Lemma ts_txn_run_runs iso rw f s s' : ts_txn_run iso rw f s = Ok (tt, s') -> exists k, txn_runs iso rw f k s s'.
Proof.
  unfold ts_txn_run. generalize spin_bound. intros n. revert s. induction n as [| n IH]; intros s; cbn [loop]; [done |].
  intros (r & s1 & ([] & s2 & Eb & (o & s3 & Ef & Er)%bind_Ok)%bind_Ok & E)%bind_Ok. destruct o as [u |].
  - apply bind_Ok in Er as (ok & s4 & Ee & Er). destruct ok.
    + apply Ok_inj in Er as [<- <-]. apply Ok_inj in E as [_ <-]. exists 0%nat. by eapply run_commits.
    + apply bind_Ok in Er as ([] & s5 & Ea & [<- <-]%Ok_inj). destruct (IH s5 E) as [k Hk]. exists (S k). by eapply run_fails.
  - destruct rw; [done |]. apply Ok_inj in Er as [<- <-]. destruct (IH s3 E) as [k Hk]. exists k. by eapply run_leaves.
Qed.

Lemma odd_u32 c : Z.odd (u32 c) = Z.odd c.
Proof. unfold u32. by rewrite <- !Z.bit0_odd, Z.mod_pow2_bits_low. Qed.

Lemma odd_advanced c : Z.odd (u32 (c + 1)) = negb (Z.odd c).
Proof. by rewrite odd_u32, Z.add_1_r, Z.odd_succ, <- Z.negb_odd. Qed.

Lemma txn_runs_parity iso rw f k s s' : tx_body f -> txn_runs iso rw f k s s' -> in_recovery_mode (self s) = false ->
  Z.odd (run_cnt (self s')) = xorb (Z.odd (run_cnt (self s))) (Nat.odd k).
Proof.
  intros Hf. induction 1 as [s s1 s2 s' u Eb Ef Ee | k s s1 s2 s' Eb Ef _ _ IH | k s s1 s2 s3 s4 s' u Eb Ef Ee Ea _ IH]; intros Hr;
    apply (ts_begin_advances Hothers) in Eb; apply Hf in Ef; unfold tx_word, word_of in *; injection Eb as E1 R1; injection Ef as E2 R2.
  - injection (ts_end_advances Hothers s2 true s' ltac:(congruence) Ee) as E3 _. rewrite E3, odd_advanced, E2, E1, odd_advanced, xorb_false_r.
    apply negb_involutive.
  - rewrite IH by congruence. by rewrite E2, odd_advanced, E1, odd_advanced, negb_involutive.
  - injection (ts_end_advances Hothers s2 false s3 ltac:(congruence) Ee) as E3 R3.
    apply (ts_abort_advances Hothers) in Ea. injection Ea as E4 R4. rewrite IH by congruence.
    rewrite E4, odd_advanced, E3, odd_advanced, negb_involutive, E2, E1, odd_advanced, Nat.odd_succ, <- Nat.negb_odd.
    by destruct (Z.odd (run_cnt (self s))), (Nat.odd k).
Qed.

(** C9. Retrying and the run counter.  [ts_txn::run] returns only after an
    attempt that [ts_end] commits.  The parity of the thread's run counter, by
    which the grace periods tell whether a transaction runs, is then what it
    was before, the thread is quiescent again, if no attempt or an even number of
    attempts failed in [ts_end], whatever number of attempts failed to lock an
    object; but it is the opposite if an odd number of attempts failed in
    [ts_end], which has aborted the transaction when [run] aborts it once more.
    In a build without read sets no attempt does. *)
Theorem ts_txn_run_parity iso rw f s s' :
  tx_body f -> in_recovery_mode (self s) = false -> ts_txn_run iso rw f s = Ok (tt, s') ->
  exists k, txn_runs iso rw f k s s' /\
    Z.odd (run_cnt (self s')) = xorb (Z.odd (run_cnt (self s))) (Nat.odd k) /\
    (TS_ENABLE_SERIALIZABILITY_LINEARIZABILITY = false -> k = 0%nat).
Proof.
  intros Hf Hr E. destruct (ts_txn_run_runs iso rw f s s' E) as [k Hk]. exists k. split; [exact Hk |].
  split; [by apply (txn_runs_parity iso rw f) |]. intros Hser. clear E Hr.
  induction Hk as [| k s s1 s2 s' _ _ _ _ IH | k s s1 s2 s3 s4 s' u _ _ Ee _ _ _]; [done | exact IH |].
  unfold ts_end in Ee. rewrite bind_asks in Ee. destruct (in_recovery_mode (self s2)); [by apply Ok_inj in Ee as [? _] |].
  unfold validate_read_set in Ee. rewrite Hser, bind_ret in Ee. cbn [negb] in Ee. rewrite bind_asks in Ee.
  apply bind_Ok in Ee as ([] & s5 & _ & Ee). repeat (apply bind_Ok in Ee as ([] & ? & _ & Ee)). by apply Ok_inj in Ee as [? _].
Qed.

(** C31. A failed validation turns the grace periods round.  [ts_end] aborts the
    transaction whose validation fails, and [ts_txn::run] aborts it once more:
    after an odd number of such attempts the run counter of the idle thread is
    odd.  From then on a grace period that starts while the thread makes no
    call never ends, however long the qp thread waits and whoever else is on
    the list; and one that starts while the thread is inside its next
    transaction does not wait for it, so that the versions this transaction
    reads may be reclaimed under it. *)
Theorem failed_validation_inverts_periods iso rw f k s s1 :
  tx_body f -> in_recovery_mode (self s) = false -> Z.odd (run_cnt (self s)) = false ->
  txn_runs iso rw f k s s1 -> Nat.odd k = true ->
  (forall h p rest t, live_ok h (p :: rest) -> threads h !! p = Some t -> tx_of t = tx_of (self s1) ->
     gte_clock (local_clk t) (tsc (ticks h)) = false ->
     (forall h h', qp_interfere h = Ok (tt, h') -> list_ok LIVE h (p :: rest) ->
        stays LIVE (p :: rest) h h' /\ forall t, threads h !! p = Some t ->
          exists t', threads h' !! p = Some t' /\ tx_of t' = tx_of t /\ qp_info t' = qp_info t) ->
     forall h', qp_detect 0 h <> Ok (tt, h')) /\
  (forall lv s2 h p t, ts_begin lv s1 = Ok (tt, s2) -> live_ok h [p] -> threads h !! p = Some t -> tx_of t = tx_of (self s2) ->
     (0 < spin_bound)%nat -> requested (q_reclaim (g_qp_thread h)) <> 0 ->
     exists h', qp_detect 0 h = Ok (tt, h') /\ tx_of <$> threads h' !! p = Some (tx_of (self s2)) /\
       q_clks (g_qp_thread h') = advance_qp_clock (q_clks (g_qp_thread h)) (correct_qp_clock (tsc (ticks h)))).
Proof.
  intros Hf Hr He Hk Ho. pose proof (txn_runs_parity iso rw f k s s1 Hf Hk Hr) as Hp. rewrite He, Ho in Hp. cbn in Hp. split.
  - intros h p rest t Hl Et Hw Hc Hidle. injection Hw as Hrun _ Hclk. by apply (qp_detect_odd h p rest t Hidle Hl Et); [rewrite Hrun |].
  - intros lv s2 h p t Eb Hl Et Hw Hs Hreq. apply (ts_begin_advances Hothers) in Eb. injection Eb as Eb _.
    assert (Hev : Z.odd (run_cnt t) = false) by (injection Hw as -> _ _; by rewrite Eb, odd_advanced, Hp).
    destruct (qp_detect_even h [p] Hl Hs Hreq) as (h' & E & Hq & Ht).
    { intros q u ->%list_elem_of_singleton Eu. by assert (u = t) as -> by congruence. }
    exists h'. split; [done |]. split; [| done]. rewrite (Ht p t ltac:(by left) Et). by rewrite Hw.
Qed.

(** * Facts: pointers *)

(** [o] is a version of the object with the volatile header [p], which nobody
    shares with another object *)
Definition version_of (s : st) (o p : Z) : Prop := get_act_vhdr o s = Ok (p, s) /\ p <> NULL /\ is_Some (vhdrs (sh s) !! p).
Definition own_masters (s : st) : Prop := forall p q v w,
  vhdrs (sh s) !! p = Some v -> vhdrs (sh s) !! q = Some w -> np_org_act v = np_org_act w -> p = q.

Lemma persistent_of_cached_run s o p : version_of s o p -> o <> NULL ->
  exists v, vhdrs (sh s) !! p = Some v /\ persistent_of_cached (mk_cached_ptr o) s = Ok (mk_persistent_ptr (np_org_act v), s).
Proof.
  intros (Hv & Hp & [v Hvh]) Ho. exists v. split; [done |]. unfold persistent_of_cached, persistent_of_raw, _ts_assign_pointer. cbn [copy_ptr].
  rewrite (proj2 (Z.eqb_neq _ _) Ho). cbn [negb]. unfold get_org_act_obj. rewrite !bind_assoc. mrun Hv.
  rewrite (proj2 (Z.eqb_neq _ _) Hp). cbn [negb]. rewrite bind_assoc. by mrun (get_vhdr_run s p v Hvh).
Qed.

(** Cached pointers are equal exactly if they point to versions of the same
    object, whichever versions these are, and one of two cached pointers to
    different objects is less than the other. *)
Theorem cached_compare s a b p q :
  own_masters s -> a <> NULL -> b <> NULL -> version_of s a p -> version_of s b q ->
  cached_eq (mk_cached_ptr a) (mk_cached_ptr b) s = Ok (bool_decide (p = q), s) /\
  exists lt gt, cached_lt (mk_cached_ptr a) (mk_cached_ptr b) s = Ok (lt, s) /\
    cached_lt (mk_cached_ptr b) (mk_cached_ptr a) s = Ok (gt, s) /\ lt || gt = negb (bool_decide (p = q)) /\ lt && gt = false.
Proof.
  intros Hm Ha Hb Hp Hq. destruct (persistent_of_cached_run s a p Hp Ha) as (v & Hv & Ea).
  destruct (persistent_of_cached_run s b q Hq Hb) as (w & Hw & Eb). unfold cached_eq, cached_lt, as_persistent. split.
  - mrun Ea. mrun Eb. unfold persistent_eq. cbn [act_ptr]. unfold ret. do 2 f_equal.
    destruct (Z.eqb_spec (np_org_act v) (np_org_act w)) as [E | E]; symmetry.
    + apply bool_decide_true. by apply (Hm p q v w).
    + apply bool_decide_false. intros ->. apply E. congruence.
  - do 2 eexists. split; [by mrun Ea; mrun Eb |]. split; [by mrun Eb; mrun Ea |]. unfold persistent_lt. cbn [act_ptr].
    case_bool_decide as E; cbn [negb].
    + subst q. assert (v = w) as -> by congruence. by rewrite Z.ltb_irrefl.
    + assert (Hne : np_org_act v <> np_org_act w) by (intros E'; by apply E, (Hm p q v w)).
      destruct (Z.ltb_spec (np_org_act v) (np_org_act w)), (Z.ltb_spec (np_org_act w) (np_org_act v)); by (done || lia).
Qed.

(** the elements of an array, which are their own originals *)
Definition array_elements (s : st) (base size n : Z) : Prop :=
  is_array s base size n /\ n < 2 ^ 31 /\
  forall i, 0 <= i < n -> _ts_assign_pointer (base + array_step size * i) s = Ok (base + array_step size * i, s).

Lemma element_at_run s base size n i d : array_elements s base size n -> 0 <= i < n -> 0 <= i + d < n ->
  element_at (mk_persistent_ptr (base + array_step size * i)) d s = Ok (base + array_step size * (i + d), s).
Proof.
  intros (Ha & Hn & _) Hi Hd. unfold element_at, ts_get_index. cbn [act_ptr].
  destruct (arr_elem _ _ _ _ Ha i Hi) as (Hout & a & Hh & Hidx & _). rewrite bind_assoc.
  mrun (get_act_nvhdr_actual s _ Hout). rewrite bind_assoc. mrun (get_ahs_run s _ a Hh). msteps. rewrite Hidx, u32_small, s32_small by lia.
  by apply (ts_array_roundtrip s base size n i Ha Hi).
Qed.

(** Pointer arithmetic in an array: adding leads to the element with the sum of
    the indices, and subtracting leads back. *)
Theorem array_arithmetic_roundtrip s base size n i d :
  array_elements s base size n -> 0 <= i < n -> 0 <= d -> i + d < n ->
  let elem j := mk_persistent_ptr (base + array_step size * j) in
  persistent_add_assign (elem i) d s = Ok (elem (i + d), s) /\ persistent_sub_assign (elem (i + d)) d s = Ok (elem i, s).
Proof.
  intros Ha Hi Hd Hid elem. pose proof Ha as (_ & _ & Has). unfold persistent_add_assign, persistent_sub_assign, persistent_of_raw. split.
  - mrun (element_at_run s base size n i d Ha Hi ltac:(lia)). by mrun (Has (i + d) ltac:(lia)).
  - mrun (element_at_run s base size n (i + d) (- d) Ha ltac:(lia) ltac:(lia)). replace (i + d + - d) with i by lia.
    by mrun (Has i Hi).
Qed.

Lemma offset_by_run s os base size n r i d : array_elements s base size n -> 0 <= i < n -> 0 <= i + d < n ->
  let elem k := mk_persistent_ptr (base + array_step size * k) in
  offset_by r (elem i) d (mk_cpp os s) = Ok (r, mk_cpp (fun r' => if decide (r' = r) then elem (i + d) else os r') s).
Proof.
  intros Ha Hi Hd elem. pose proof (element_at_run s base size n i d Ha Hi Hd) as E. fold (elem i) in E.
  destruct Ha as (_ & _ & Has). pose proof (Has (i + d) Hd) as Ep. unfold offset_by, set_offset.
  assert (E1 : in_lib (element_at (elem i) d) (mk_cpp os s) = Ok (base + array_step size * (i + d), mk_cpp os s))
    by (unfold in_lib, zoom; cbn [lib]; by rewrite E).
  assert (E2 : in_lib (persistent_of_raw (base + array_step size * (i + d))) (mk_cpp os s) = Ok (elem (i + d), mk_cpp os s))
    by (unfold in_lib, zoom, persistent_of_raw; cbn [lib]; by rewrite (bind_run _ _ _ _ _ Ep)).
  mrun E1. by mrun E2.
Qed.

(** The results of two additions are one variable: after the second, the first
    reads as the second, too. *)
Theorem plus_results_alias s os base size n i j d e :
  array_elements s base size n -> 0 <= i < n -> 0 <= j < n -> 0 <= i + d < n -> 0 <= j + e < n ->
  let elem k := mk_persistent_ptr (base + array_step size * k) in
  exists os', (let* x := persistent_plus (elem i) d in let* y := persistent_plus (elem j) e in
    let* x := read_offset x in let* y := read_offset y in ret (x, y)) (mk_cpp os s) = Ok (elem (j + e), elem (j + e), mk_cpp os' s).
Proof.
  intros Ha Hi Hj Hd He elem. eexists. unfold persistent_plus.
  mrun (offset_by_run s os base size n OFFSET_PLUS i d Ha Hi Hd).
  set (os1 := fun r' => if decide (r' = OFFSET_PLUS) then elem (i + d) else os r').
  mrun (offset_by_run s os1 base size n OFFSET_PLUS j e Ha Hj He).
  unfold read_offset. msteps. reflexivity.
Qed.
End CppFacts.

(** * A failed validation, and the grace periods after it *)

Section Retry.
#[local] Instance ser_env : Env := ex_env_of (ret tt) ex_alloc true false.

(** a writer, a reader, and an object *)
Definition two_threads : M shared (Z * Z * Z) :=
  let* w := init_main_thread in
  let* r := init_main_thread in
  let* o := with_thread w (let* o := object_new 1 in store_bytes o [1] ;;; ret o) in
  ret (w, r, o).

Definition read_body (o : Z) : M st (option unit) := let* _ := cached_of_raw o in ret (Some tt).
Definition write_body (o : Z) : M st (option unit) :=
  let* c := cached_of_raw o in
  unless_left (ts_lock c 1) (fun c => store_bytes (copy_ptr c) [2] ;;; ts_set_op 1 ;;; ret (Some tt)).

(** an attempt to read the object, during which the writer commits *)
Definition outrun (w r o : Z) : M shared (unit + unit) :=
  with_thread r (txn_round TS_SERIALIZABILITY read_only
    (let* x := read_body o in on_sh (with_thread w (run_rw TS_SNAPSHOT (write_body o))) ;;; ret x) tt).
Definition commits (w r o : Z) : M shared (unit + unit) :=
  with_thread r (txn_round TS_SERIALIZABILITY read_only (read_body o) tt).

(** the reader is in the middle of a transaction, or runs one, when the qp thread
    waits for a grace period *)
Definition period_in_tx (before : Z -> Z -> Z -> M shared (unit + unit)) : M shared (unit + unit) :=
  let* ' (w, r, o) := two_threads in
  let* b := before w r o in
  with_thread r (ts_begin TS_SERIALIZABILITY ;;; read_body o) ;;;
  qp_detect 0 ;;; ret b.
Definition period_after_tx (before : Z -> Z -> Z -> M shared (unit + unit)) : M shared (unit + unit) :=
  let* ' (w, r, o) := two_threads in
  let* b := before w r o in
  with_thread r (run_ro TS_SERIALIZABILITY (read_body o)) ;;;
  qp_detect 0 ;;; ret b.
Definition outcome_of {S A} (r : res (A * S)) : res A := match r with Ok (a, _) => Ok a | Fault e => Fault e end.

(** the same in runs of the whole library: a period waits for a reader in the
    middle of its transaction and passes when it has ended, but the other way
    round after an attempt that failed its validation *)
Lemma period_runs :
  outcome_of (period_in_tx commits booted) = Fault SPIN /\
  outcome_of (period_after_tx commits booted) = Ok (inr tt) /\
  outcome_of (period_in_tx outrun booted) = Ok (inl tt) /\
  outcome_of (period_after_tx outrun booted) = Fault SPIN.
Proof. split; [| split; [| split]]; vm_compute; reflexivity. Qed.
(** a reader that the writer outruns as long as the object has its first value *)
Definition outrun_body (w o : Z) : M st (option unit) :=
  let* c := cached_of_raw o in
  let* b := asks (fun s => obj_data (sh s) !! copy_ptr c) in
  when (bool_decide (b = Some [1])) (on_sh (with_thread w (run_rw TS_SNAPSHOT (write_body o)))) ;;;
  ret (Some tt).

Lemma idle_steady : steady interfere.
Proof. apply steady_ret. Qed.

Lemma outrun_body_tx w o : tx_body (outrun_body w o).
Proof.
  intros s r s' (c & s1 & E1 & E)%bind_Ok.
  apply bind_Ok in E as (b & s2 & [<- <-]%Ok_inj & E). apply bind_Ok in E as ([] & s3 & E3 & [<- <-]%Ok_inj).
  assert (W1 : tx_word s1 = tx_word s) by (revert E1; apply (steady_bind fst _ _ (steady_ts_deref fst idle_steady o)); intros a; apply steady_ret).
  rewrite <- W1. revert E3. destruct (bool_decide _); [apply (steady_on_sh fst) | apply (steady_ret fst)].
Qed.

(** the state of the reader before its transaction *)
Definition reader_ready : res (Z * Z * st) :=
  match two_threads booted with
  | Ok (w, r, o, h) => match threads h !! r with Some t => Ok (w, o, mk_st t h) | None => Fault UB end
  | Fault e => Fault e
  end.

Lemma ts_txn_run_parity_witness :
  match reader_ready with
  | Ok (w, o, s) =>
      match ts_txn_run TS_SERIALIZABILITY read_only (outrun_body w o) s with
      | Ok (_, s') => Z.odd (run_cnt (self s)) = false /\ Z.odd (run_cnt (self s')) = true /\
          exists k, txn_runs TS_SERIALIZABILITY read_only (outrun_body w o) k s s' /\ Nat.odd k = true
      | Fault _ => False
      end
  | Fault _ => False
  end.
Proof.
  assert (C : match reader_ready with
    | Ok (w, o, s) =>
        match ts_txn_run TS_SERIALIZABILITY read_only (outrun_body w o) s with
        | Ok (_, s') => negb (in_recovery_mode (self s)) && negb (Z.odd (run_cnt (self s))) && Z.odd (run_cnt (self s'))
        | Fault _ => false
        end
    | Fault _ => false
    end = true) by (vm_compute; reflexivity).
  destruct reader_ready as [[[w o] s] |]; [| discriminate].
  destruct (ts_txn_run TS_SERIALIZABILITY read_only (outrun_body w o) s) as [[[] s'] |] eqn:E; [| discriminate].
  apply andb_true_iff in C as [[Hr%negb_true_iff Hs%negb_true_iff]%andb_true_iff Hs'].
  destruct (ts_txn_run_parity idle_steady TS_SERIALIZABILITY read_only _ s s' (outrun_body_tx w o) Hr E) as (k & Hk & Hp & _).
  split; [exact Hs |]. split; [exact Hs' |]. exists k. split; [exact Hk |]. rewrite Hs, Hs' in Hp. by destruct (Nat.odd k).
Defined.

(** the idle reader, whose reading attempt the writer outran once, on the live list *)
Definition idle_reader (s : st) : shared := ex_shared <| threads := {[ 8192 := self s ]} |> <| ticks := 1000%nat |>.

Lemma failed_validation_inverts_periods_witness :
  match reader_ready with
  | Ok (w, o, s) =>
      match ts_txn_run TS_SERIALIZABILITY read_only (outrun_body w o) s with
      | Ok (_, s') => forall h', qp_detect 0 (idle_reader s') <> Ok (tt, h')
      | Fault _ => False
      end
  | Fault _ => False
  end.
Proof.
  assert (C : match reader_ready with
    | Ok (w, o, s) =>
        match ts_txn_run TS_SERIALIZABILITY read_only (outrun_body w o) s with
        | Ok (_, s') => negb (in_recovery_mode (self s)) && negb (Z.odd (run_cnt (self s))) && Z.odd (run_cnt (self s'))
                        && negb (gte_clock (local_clk (self s')) 11000)
        | Fault _ => false
        end
    | Fault _ => false
    end = true) by (vm_compute; reflexivity).
  destruct reader_ready as [[[w o] s] |]; [| discriminate].
  destruct (ts_txn_run TS_SERIALIZABILITY read_only (outrun_body w o) s) as [[[] s'] |] eqn:E; [| discriminate].
  apply andb_true_iff in C as [[[Hr%negb_true_iff Hs%negb_true_iff]%andb_true_iff Hs']%andb_true_iff Hc%negb_true_iff].
  destruct (ts_txn_run_runs TS_SERIALIZABILITY read_only (outrun_body w o) s s' E) as [k Hk].
  pose proof (txn_runs_parity idle_steady _ _ _ k s s' (outrun_body_tx w o) Hk Hr) as Hp. rewrite Hs, Hs' in Hp.
  destruct (failed_validation_inverts_periods idle_steady TS_SERIALIZABILITY read_only _ k s s' (outrun_body_tx w o) Hr Hs Hk)
    as [Hstuck _]; [by destruct (Nat.odd k) |].
  apply (Hstuck (idle_reader s') 8192 [] (self s')); [| reflexivity | reflexivity | exact Hc |].
  - split; [exact ex_list_ok | reflexivity |]. intros p ->%list_elem_of_singleton. eexists. reflexivity.
  - intros h h' [_ <-]%Ok_inj Hl. split; [by split |]. intros t Et. by exists t.
Defined.

(** the library before its initialisation *)
Definition not_booted : shared := ex_shared <| threads := ∅ |> <| list_links := ∅ |>.

(** [ts_system::init] makes the main thread a thread of the library although
    [ts_init] failed: called a second time it answers [EBUSY] with another
    thread registered, and when the tvlog region could not be mapped it has no
    lists of threads to register one in. *)
Theorem system_init_ignores_failure :
  outcome_of (system_init (H0 := insertion_sort) true None true true (inl 1048576) 512 576 0 booted) = Ok (true, -16, 65536) /\
  outcome_of (ts_init (H0 := insertion_sort) false None true false (inr 12) 512 576 0 not_booted) = Ok (true, 12) /\
  outcome_of (system_init (H0 := insertion_sort) false None true false (inr 12) 512 576 0 not_booted) = Fault UB.
Proof. split; [| split]; vm_compute; reflexivity. Qed.
End Retry.
